(* ===== verification/_CoqProject ===== *)
-Q . S2P
Prelude.v
JsString.v
JsValue.v
JsNumber.v
JsSort.v
JsRegex.v
Session.v
Host.v
Fetch.v
Tenant.v
Middleware.v
TenantHeaders.v
Gateway.v
RegexCount.v
Contract.v
Commands.v
Devices.v
Messages.v
Network.v
AuditLog.v
JsMap.v
EsimData.v
Esim.v
Ussd.v
TableQuery.v
Fleet.v
Plmn.v
SmsSafety.v
I18n.v
Pwa.v
Guards.v
Settings.v
Navigation.v
Confirm.v
LoneCr.v
Component.v
Console.v
ConsolePanels.v
ConsoleView.v
EsimLog.v
EsimPanel.v
EsimView.v
EsimControls.v
SendSms.v
CommandPath.v
Inbox.v
Conversation.v
ThreadView.v
SettingsForm.v
ProxyManager.v
ProxyExport.v
CardPolicies.v
Admin.v
JournalPage.v
ListPages.v
DevicePages.v
ProxyPage.v
TableViews.v
ProxyView.v
SettingsPage.v
FormView.v
Palette.v
DesignTokens.v
Shell.v
SidebarView.v
ConnectionStatus.v
Consequences.v
ServiceWorker.v
