(* ===== verification/Prelude.v ===== *)
(** * VoDoge Cloud console: a verification library

    The console (apps/console) is the operator's side of VoDoge Cloud: a
    Next.js application that authenticates nobody itself and stores nothing.
    Every request passes one middleware, which works out the tenant from the
    host and forwards the request with that tenant's headers; every page is
    drawn from JSON the gateway (apps/gateway, Go) answers; every action is a
    command relayed to a device, asked about first.  This library models the
    middleware, the two route handlers, every module of apps/console/lib that
    decides anything, the pages and the components with state, the service
    worker, the tables the stylesheet is written from, the contract between
    edge and cloud (packages/contract), what the gateway makes of a command
    (its catalogue and what of it goes into the audit log), and the
    repository's own guard scripts/check-lone-cr.cjs, function by function,
    and proves what makes them correct.

    ** Conventions

    A function keeps its name.  A [Record] is a source type with a short
    prefix on its fields; an [Inductive] is a union or a string enumeration;
    [null] of a nullable result is [None].  What can throw, or is an awaited
    promise that can reject, returns [res] (Prelude).  A string is a list of
    UTF-16 code units ([jstring]) and [u] writes a literal.  A value that came
    as JSON, or sits in a form, is a [jsval], with [undefined]; a number is
    the exact value of a double as an integer multiple of 2^-1074 ([num],
    [int]), NaN and the infinities included.  Reading a table of an object
    literal with a computed key goes through [table_read], which knows that
    an object inherits members: the source's [TABLE[key] ?? fallback] does
    not fall back on [constructor].  Sorting is a stable sort by a comparator
    (JsSort); a [Map] is an association list in insertion order (JsMap); a
    regular expression is a syntax tree with a relational meaning and an
    executable matcher proved equal to it (JsRegex).

    A component with state is a record of what React keeps, with one function
    per handler and effect, and a step function from an event (a press, a
    character typed, an answer, a redraw, a tick of a timer) to the next state
    and the requests it sends; an event the component does not offer in a
    state has no step.  Requests are answered by later events, in any order,
    so overlapping requests and late answers are runs like any other.
    Component has the runs ([run]), what they send ([effects]) and the
    induction over them.  A page is the function from the gateway's answers to
    what it hands to its components, and a row or a card is the values drawn
    in it with the buttons that stand there.

    ** Files

    The language, with no counterpart under src/:
    - Prelude: [res], lists, options, tactics, the hint databases.
    - JsString: UTF-16 text, [trim], splitting, [encodeURIComponent] and its
      inverse, with the round trip.
    - JsValue: JSON values, truthiness, property access, equality.
    - JsNumber: the quotient and the product of doubles, rounded to the
      nearest with ties to even, [Math.round], and how far the two together
      can be off.
    - JsSort, JsRegex, JsMap: sorting, patterns, maps; JsMap also has the
      loops "keep the winner of every key" and "keep the best", whose
      specifications ([put_all_winner], [keep_best_scan]) carry the
      theorems about the command log.
    - Fetch: requests, answers, header maps, the environment.
    - RegexCount: the counted repetition of the contract's patterns, and what
      a pattern says of the length and the characters of what it matches.
    - Component: events, effects, runs.

    The gate:
    - Session: lib/session.ts.  Cookies, public paths, the sign-in redirect,
      the role.
    - Host: lib/host.ts.  Host classification, the client's address.
    - Tenant: lib/tenant.ts.  Parsing, the cache, the directory; the
      directory again as a step relation in which lookups of concurrent
      requests overlap ([dir_step]), with its invariant.
    - Middleware: middleware.ts, app/api/auth/login/route.ts and
      app/api/auth/logout/route.ts.
    - TenantHeaders: lib/tenant-headers.ts, the reading end of what the
      middleware writes.

    Reading from the gateway, lib/catalog.ts:
    - Gateway: getCatalog, fetchConsoleRole, the field readers.
    - Devices, Messages, Network, AuditLog, Fleet: the row types, parsers and
      fetches of each list.
    - EsimData: the parsers of eSIM command results.
    - Esim: the tables rebuilt from the command log (chip readings, profile
      listings, the merge with the inventory, read failures).
    - Ussd: the exchange, whether its session is open, what is sent.

    A command on its way:
    - Contract: packages/contract, ts/index.ts and the schema.  The generated
      types as a small language of types ([ty]) with the test whether a value
      has one ([inhabits]); the schema of the catalogue's commands; the type a
      schema is generated into ([erase]).
    - Commands: apps/gateway/internal/commands, catalogue.go and redact.go, and
      enqueueCommand of cmd/gateway/main.go: the request decoded, a builder for
      each kind, the payload queued, and its copy for the audit log.
    - CommandPath: the bodies the console posts put through Commands and held
      against Contract, and the console's table of questions beside the
      gateway's catalogue.

    The rest of lib/:
    - TableQuery: table-query.ts.  Plmn: plmn.ts.  I18n: i18n.ts,
      interpolate.ts, locale.ts, request-locale.ts.
    - SmsSafety: sms-safety.ts and card-capability.ts.
    - Pwa: pwa.ts.  The manifest, the middleware's matcher, the install
      decision, and the connection monitor as a state machine ([monitor],
      [mon_step]): requests in flight, probes, polling, listeners.
    - Guards, Settings, Navigation, Confirm, Consequences: the logic of
      tokens.ts.  What stands in front of a command; the settings form; the
      navigation and the tones; what a dialog may say and whether a profile
      switch happened; the dialog of components/ui/confirm-dialog.tsx with the
      list of everything it may have to say.
    - Palette: palette-source.ts.  DesignTokens: the token tables of
      tokens.ts, the theme of tailwind.config.ts, the custom properties of
      app/globals.css.

    The components and pages:
    - Console, ConsolePanels, ConsoleView: components/device-console.tsx.  The
      hook useDeviceCommands as a machine; what every panel of the console
      holds and sends; both panels as drawn.
    - EsimLog, EsimPanel, EsimView, EsimControls: components/esim-panel.tsx.
      What it reads off the command log; the panel as a machine; its cards as
      drawn; its buttons, pickers and forms as drawn.
    - SendSms: components/send-sms.tsx.  Inbox: the two pages of app/inbox.
      Conversation: components/conversation.tsx.  ThreadView: the inbox and a
      conversation as drawn.
    - SettingsForm: components/settings-form.tsx.  SettingsPage:
      app/settings/page.tsx and components/channel-health.tsx.  FormView: the
      boxes of the settings form and the table of card policies as drawn.
    - ProxyManager, ProxyExport, ProxyPage, ProxyView:
      components/proxy-manager.tsx and app/proxy/page.tsx.  The lists and the
      export panel as machines; what the page reads; both as drawn.
    - CardPolicies: components/card-policies.tsx.
    - Admin: device-admin.tsx, enrollment.tsx, support-ledger.tsx,
      login-form.tsx, sign-out.tsx of components.
    - JournalPage: app/journal/page.tsx and components/journal.tsx.
    - ListPages: the landing page and those of sessions, schedules, rules,
      audit and the support ledger.
    - DevicePages: app/devices/page.tsx, app/devices/[deviceId]/page.tsx and
      components/modem-network.tsx.
    - TableViews: the tables of all these pages as drawn, heading by heading
      and cell by cell, with the forms above them (components/ui/table.tsx,
      badge.tsx).
    - Shell: the theme and language switches, live reload, the install offer
      and the registration of the worker (components/pwa.tsx), the sidebar and
      its state, app/layout.tsx.  SidebarView: the rail, the header, the footer
      and the layout as drawn (components/ui/sidebar.tsx, sidebar.tsx,
      shell.tsx).
    - ConnectionStatus: components/connection-status.tsx around the monitor
      of Pwa.
    - ServiceWorker: public/sw.js.

    The repository's guard: LoneCr, scripts/check-lone-cr.cjs.

    A file requires the prelude, the language files it uses and the components
    it calls: Fetch is below Tenant; Session, Host and Tenant below Middleware,
    Middleware below TenantHeaders; Session, Fetch and Tenant below Gateway,
    and Gateway below every list; EsimData below Esim; SmsSafety below Guards,
    Guards below Settings and Confirm; the lists below the pages that read
    them; a component below the page that draws it, and SendSms below Inbox,
    where the two are composed.

    ** What the theorems show

    - The gate admits only requests for a tenant the directory knows, from a
      signed-in visitor or to a public path, and determines the headers they
      carry; every refusal is described; the page reads back the host's
      tenant; a signed-out visitor returns to the page asked for.  Concurrent
      lookups never make one slug name two regions.  The matcher keeps every
      path but build output and single files behind the gate.
    - Signing in sets a cookie only on the gateway's word.  The role is
      [admin] only on the gateway's word.
    - Nothing leaves unasked.  In every run of the device console, the eSIM
      panel, the send form, the conversation, the settings form, the proxy
      lists, the card policies and the device forms, a request that has to be
      asked about leaves only by confirming the dialog that names it, and is
      the request the dialog was opened for; where accounts differ, only for
      one that may write.  From the gateway's answers to each drawing of the
      inbox to the message that leaves, it is the draft last submitted and no
      barred module is used ([inbox_message_allowed]).  And no dialog that has
      to be shown is refused its words ([dialog_never_refused]).  On the
      device page the warning colour says what will be asked about
      ([risk_is_asked]), and what can be pressed is what the relay allows
      ([drawn_as_relayed]).
    - A command arrives as it was meant.  Whatever is posted, what the gateway
      queues has the contract's type for its kind, and misses the schema only
      by the bounds named in [unchecked] ([queued_is_contract_command]); what
      the fixed buttons of the console post is queued and within the schema,
      and what is posted with a text of the operator's in it is so exactly when
      that text is what is asked of it ([buttons_are_commands]); the generated types are the schema without its
      bounds ([generated_types_erase]); what the console asks about and what
      the gateway calls mutating agree but for a named list
      ([guards_follow_catalogue]); no one-time credential reaches the audit log
      ([audit_tells_no_secret]).
    - What is drawn can be done.  On the proxy page, its export panel and its
      dialog, what can be pressed is exactly what gives something, red is
      exactly what asks first or answers, and nothing sends a request while
      one of the lists is on its way ([proxy_drawn_as_stepped]); a red button of the eSIM panel opens its
      dialog and any other acts ([esim_red_asks]); the export panel's screen
      does not depend on a password ([export_screen_hides]); the tables of TableViews
      and of the proxy page have a cell under every heading and nothing to
      press in a column a phone drops ([tables_line_up],
      [proxy_tables_line_up]); every destination is at most
      one press away ([navigation_within_reach]); no drawing of the layout
      throws ([layout_never_throws]).
    - A page ends its waiting: an answer of any kind frees the controls, and
      polling stops when nothing is outstanding.
    - What a page shows is what was read: the device page is handed
      every row of its own device and no other's, a failed read shows nothing and says so, lists
      sort as asked for, the fleet page and the device page agree, shares stay
      within their bounds, and every profile and every failed read of a chip
      is shown once; a row of the inbox says what the page it opens says, and
      a settings form sends what its boxes show.  An account that may only
      read sees all of it and is offered no control.
    - Refusals never look like empty lists; the audit page tells its four
      states apart; rows survive the wire; channel health is a sorted,
      complete list.
    - Each table rebuilt from the command log holds, per key, the newest
      entry, and none is lost; a missing eUICC is reported only on evidence;
      a switch is confirmed only by a later reading.
    - A USSD reply goes only into a session that is open, to its own module.
    - Unknown commands are asked about; AT commands are recognised however
      they are typed; the send form fails closed; the settings form sends
      what its boxes say, and a save of a card policy is the policy with the
      one edit.
    - The connection banner and polling agree with what is known, in every
      reachable state of the monitor, through refreshes of the page; the
      service worker never keeps or answers anything of the gateway.
    - The stylesheet and the tables of tokens are one palette in both themes.
    - The guard script passes a tree exactly when every text file does.

    Some theorems record where the code departs from what it means to do, or
    from what a comment says of it.  In lib: [safeNext_backslash_leaves],
    [classifyHost_two_ports], [borrowed_eid_sorts_last],
    [probe_advances_dataAt], [channel_health_drawn], and the inherited members
    in [deviceCommandGuard_closed] and [ussdStageLabelKey_total].  In the
    components: [first_candidate_stranded], [first_module_not_addressed],
    [accepted_reported_failed], [stale_answer_stops_polling],
    [unregistered_stays_addressed],
    [apn_editor_keeps_module], [rejected_post_freezes], [esim_polling],
    [rename_needs_inventory], [send_rejected_freezes],
    [no_module_still_sends], [device_change_keeps_choice],
    [rejected_delete_silent], [stale_name_saved], [test_never_sent],
    [password_answer], [device_shown_not_sent], [typed_meanwhile_lost],
    [hidden_export_returns], [vanished_policy_rewritten],
    [prompt_dollar_name], [unencodable_row_freezes], [next_row_lost],
    [journal_shows_null], [fetch_grows], [blocked_storage],
    [live_reload_reopens], [sidebar_not_kept], [status_bar_stuck],
    [followed_link_not_lit], [removed_upstream_still_sent].  In the
    pages: [sessions_follow_gateway], [never_seen_sorts_as_zero],
    [uptime_gaps_not_drawn], [device_labels_read], [failed_load_says_none].
    Between the parts: [ussd_cancel_off_contract].  Elsewhere:
    [normalizeCrlf_eats_cr], [error_kept_for_good], [theme_references],
    [scales_not_closed].

    ** Parameters

    What the source calls and does not define is an argument: [fetch] (any
    function from requests to answers, so a theorem holds for every gateway),
    the environment variables, [localeCompare] ([Collation]: a consistent
    comparator, nothing more), [toLowerCase] and [toUpperCase] above U+00FF
    ([CaseMapping], [UpperCase]), [Date.parse] and [JSON.stringify]
    ([Network.Platform]), [String] and [Number] of an arbitrary value
    ([ToString], [ToNumber]), the text of a number ([NumberText],
    [LocaleNumber], [FixedText], [ToFixed]), [new Date] and cookie text
    ([Conversions]), the text and the local time of a moment ([date_text],
    [moment_text], [local_time], [local_text], [clock_text]), that a layout is
    not drawn again when a link is followed ([followed_link_not_lit]), indented JSON ([pretty_json]),
    [new URL] ([UrlParsing], [UrlRecords], and [pathname] and [absolute] in
    the worker), the message catalogues and the text of an
    inherited member ([catalogs], [inherited_text]), what a computed style
    reads ([background]), and the work tree of the guard ([Worktree]).
    Each class states only documented behaviour, and each file that needs one
    has a concrete instance its witnesses run on ([lower_reference],
    [collation_reference] and the [sample_] definitions).

    ** Bounds

    Recursion is structural everywhere except [star_ends] (JsRegex),
    [declarations] and [vars] (the stylesheet) and [hex_digits], whose fuel is
    the length of the remaining input or the number of binary digits: an
    iteration of a star that consumes nothing is dropped, and every round of
    the others shortens its input, so that is enough ([ends_spec] proves the
    matcher complete, [palette_reads] that no declaration is missed).
    A quotient or a product that is rounded again for the screen is rounded as
    a double first (JsNumber; [memory_percent]).  Elsewhere numbers are exact:
    quotients are compared as fractions, the arithmetic of a colour, of the
    uptime share and of a cadence in minutes ([round_ratio]) is in exact
    fractions where the code's is in doubles, and ratios of radii are in
    tenths.  Times are integers.

    ** Not modelled

    The Go gateway but for its command catalogue and the redaction: its
    sessions, its lists, the queue of commands and its lifecycle, the hourly
    limit on messages, ingestion; the list of kinds at the end of the message
    about an unknown one is left out too, and a property of a posted body is
    looked up by its exact name.  The schema of messages other than the
    catalogue's commands, and the generator.  The database and deployment.
    The markup itself: elements, layout and the strings of class names (the
    recipes of tokens.ts, cn.ts, the lists of files migrated to them, and the
    primitives of components/ui other than the sidebar, the table, the badge,
    the dialog and the secret box), which have no state and decide nothing.
    The scripts that take screenshots and that compare the catalogues of
    messages on disk (their comparison is in I18n).  Time-outs of [fetch] are
    one of its possible outcomes, not a clock.

    ** Plan

    What is left of the console decides nothing.  Beyond it, the natural next
    part is the other end of a command: the gateway's queue and the lifecycle
    of a command up to the status its log row shows (internal/commands,
    queue.go and lifecycle.go). *)

From stdpp Require Export prelude gmap strings list sorting.
From Stdlib Require Export ZArith.
From Stdlib Require Import Lia.

#[export] Set Default Goal Selector "!".

(** ** Outcomes of code that can throw *)

(** What a call can throw: the classes of error the console's source raises
    itself or lets through from the language and from [fetch]. *)
Inductive js_error :=
  | TypeError                       (** property of null/undefined, bad callee *)
  | URIError                        (** encodeURIComponent on a lone surrogate *)
  | NetworkError                    (** fetch rejected, or its timeout fired *)
  | SyntaxError                     (** a body that is not JSON *)
  | UnauthorizedError               (** lib/catalog.ts *)
  | GenericError.                   (** any other [new Error(..)] of the source *)

#[export] Instance js_error_eq_dec : EqDecision js_error.
Proof. solve_decision. Defined.

(** A synchronous call, or an awaited promise: it returns or it throws. *)
Inductive res (A : Type) :=
  | Ok (a : A)
  | Throw (e : js_error).
Arguments Ok {A} a.
Arguments Throw {A} e.

#[export] Instance res_ret : MRet res := fun _ a => Ok a.
#[export] Instance res_bind : MBind res :=
  fun _ _ f m => match m with Ok a => f a | Throw e => Throw e end.
#[export] Instance res_fmap : FMap res :=
  fun _ _ f m => match m with Ok a => Ok (f a) | Throw e => Throw e end.

#[export] Instance res_eq_dec `{EqDecision A} : EqDecision (res A).
Proof. solve_decision. Defined.

(** [try { m } catch { k }]. *)
Definition catch {A} (m : res A) (k : js_error -> res A) : res A :=
  match m with Ok a => Ok a | Throw e => k e end.

Definition is_ok {A} (m : res A) : bool :=
  match m with Ok _ => true | Throw _ => false end.

(** [xs.map(f)] for a callback that can throw: the first throw wins. *)
Fixpoint res_map {A B} (f : A -> res B) (l : list A) : res (list B) :=
  match l with
  | [] => Ok []
  | x :: l => y ← f x; ys ← res_map f l; Ok (y :: ys)
  end.

Lemma res_bind_ok {A B} (m : res A) (f : A -> res B) b :
  m ≫= f = Ok b <-> exists a, m = Ok a /\ f a = Ok b.
Proof. destruct m; cbn; naive_solver. Qed.

Lemma res_map_ok {A B} (f : A -> res B) l ys :
  res_map f l = Ok ys <-> Forall2 (fun x y => f x = Ok y) l ys.
Proof.
  revert ys; induction l as [|x l IH]; intros ys; cbn.
  - split; [intros [= <-]; constructor | inversion 1; done].
  - split.
    + destruct (f x) as [y|] eqn:Ey; cbn; [|done].
      destruct (res_map f l) as [zs|]; cbn; [|done].
      intros [= <-]. constructor; [done|]. by apply IH.
    + inversion 1 as [|? y ? zs Hy Hzs]; subst. rewrite Hy; cbn.
      apply IH in Hzs. by rewrite Hzs.
Qed.

Lemma res_map_total {A B} (f : A -> B) l :
  res_map (fun x => Ok (f x)) l = Ok (f <$> l).
Proof. induction l as [|x l IH]; cbn; [done|]. by rewrite IH. Qed.

Lemma res_map_throw {A B} (f : A -> res B) (l : list A) e :
  res_map f l = Throw e -> exists x, x ∈ l /\ f x = Throw e.
Proof.
  induction l as [|x l IH]; cbn; [done|].
  destruct (f x) as [y|e'] eqn:Ey; cbn.
  - destruct (res_map f l) as [zs|e'']; cbn; [done|].
    intros [= ->]. destruct IH as (z & ? & ?); [done|].
    exists z; split; [by right|done].
  - intros [= ->]. exists x; split; [left|done].
Qed.

(** ** Options as TypeScript uses them *)

Definition is_some {A} (o : option A) : bool := match o with Some _ => true | None => false end.

(** [a ?? b]. *)
Definition or_else {A} (a b : option A) : option A :=
  match a with Some _ => a | None => b end.

Definition default_to {A} (d : A) (a : option A) : A :=
  match a with Some x => x | None => d end.

(** ** Lists *)

(** [xs.map(f).filter(x => x !== null)]. *)
Definition filter_map {A B} (f : A -> option B) (l : list A) : list B := omap f l.

Lemma elem_of_filter_map {A B} (f : A -> option B) (l : list A) (y : B) :
  y ∈ filter_map f l <-> exists x, x ∈ l /\ f x = Some y.
Proof. unfold filter_map. rewrite list_elem_of_omap. naive_solver. Qed.

Lemma filter_map_length {A B} (f : A -> option B) (l : list A) :
  length (filter_map f l) <= length l.
Proof.
  unfold filter_map. induction l as [|x l IH]; cbn; [lia|].
  destruct (f x); cbn in *; lia.
Qed.

Lemma existsb_elem {A} (p : A -> bool) (l : list A) :
  existsb p l = true <-> exists x, x ∈ l /\ p x = true.
Proof. rewrite existsb_exists. by setoid_rewrite <-list_elem_of_In. Qed.

Lemma forallb_elem {A} (p : A -> bool) (l : list A) :
  forallb p l = true <-> forall x, x ∈ l -> p x = true.
Proof. rewrite forallb_forall. by setoid_rewrite <-list_elem_of_In. Qed.

Lemma elem_of_concat {A} (ls : list (list A)) (x : A) :
  x ∈ concat ls <-> exists l, x ∈ l /\ l ∈ ls.
Proof.
  rewrite list_elem_of_In, in_concat. setoid_rewrite list_elem_of_In. naive_solver.
Qed.

Lemma elem_of_filter_bool {A} (p : A -> bool) (l : list A) (x : A) :
  x ∈ List.filter p l <-> x ∈ l /\ p x = true.
Proof. rewrite !list_elem_of_In. apply filter_In. Qed.

#[export] Instance filter_bool_perm {A} (p : A -> bool) :
  Proper ((≡ₚ) ==> (≡ₚ)) (List.filter p).
Proof.
  induction 1; cbn; [done| | |by etransitivity].
  - by case_match; [constructor|].
  - repeat case_match; (done || constructor).
Qed.

(** Induction for a loop that may consume one or two elements. *)
Lemma list_ind2 {A} (P : list A -> Prop) :
  P [] -> (forall a, P [a]) -> (forall a b l, P (b :: l) -> P l -> P (a :: b :: l)) ->
  forall l, P l.
Proof.
  intros H0 H1 H2 l. enough (P l /\ forall a, P (a :: l)) as [? _]; [done|].
  induction l as [|b l [IH IHc]]; split; auto.
Qed.

(** [xs.find(p)] meets the first element that satisfies [p]. *)
Lemma find_first {A} (p : A -> bool) (l : list A) x :
  List.find p l = Some x <->
  exists l1 l2, l = l1 ++ x :: l2 /\ p x = true /\ forall y, y ∈ l1 -> p y = false.
Proof.
  induction l as [|a l IH]; cbn.
  - split; [done|]. intros ([|? ?] & ? & ? & _); simplify_eq.
  - destruct (p a) eqn:Ea.
    + split.
      * intros [= ->]. exists [], l. split_and!; [done|done|].
        intros y Hy; inversion Hy.
      * intros ([|b l1] & l2 & Hl & Hx & Hb); simplify_list_eq; [done|].
        specialize (Hb b (list_elem_of_here _ _)). congruence.
    + rewrite IH. split.
      * intros (l1 & l2 & -> & Hx & Hb). exists (a :: l1), l2.
        split_and!; [done|done|]. intros y [->|Hy]%elem_of_cons; auto.
      * intros ([|b l1] & l2 & Hl & Hx & Hb); simplify_list_eq; [congruence|].
        exists l1, l2. split_and!; [done|done|]. intros y Hy. apply Hb. by right.
Qed.

Lemma find_none {A} (p : A -> bool) (l : list A) :
  List.find p l = None <-> forall y, y ∈ l -> p y = false.
Proof.
  induction l as [|a l IH]; cbn.
  - split; [|done]. intros _ y Hy; inversion Hy.
  - destruct (p a) eqn:Ea.
    + split; [done|]. intros H. specialize (H a (list_elem_of_here _ _)). congruence.
    + rewrite IH. split.
      * intros H y [->|Hy]%elem_of_cons; auto.
      * intros H y Hy. apply H. by right.
Qed.

(** ** Automation *)

Create HintDb console.
#[export] Hint Resolve res_map_total : console.
#[export] Hint Rewrite @res_map_total : console.

(** Case analysis on every boolean test and option a goal still branches on. *)
Ltac cases := repeat (case_match || case_decide); simplify_eq/=.

Ltac bool_solve :=
  repeat match goal with
  | H : _ && _ = true |- _ => apply andb_true_iff in H as [? ?]
  | H : negb _ = true |- _ => apply negb_true_iff in H
  | H : negb _ = false |- _ => apply negb_false_iff in H
  | H : bool_decide _ = true |- _ => apply bool_decide_eq_true in H
  | H : bool_decide _ = false |- _ => apply bool_decide_eq_false in H
  end.
