(* ===== verification/JsString.v ===== *)
(** * ECMAScript strings

    A string value is its list of UTF-16 code units.  This file holds the
    parts of [String.prototype] and of the URI functions the console calls:
    [trim], [toLowerCase], [startsWith], [endsWith], [includes], [indexOf],
    [lastIndexOf], [slice], [split] and [encodeURIComponent], with
    [decodeURIComponent] as the inverse the round trips are stated against. *)

From S2P Require Import Prelude.
From Stdlib Require Import Lia.

Abbreviation jstring := (list N).

Definition jeqb (a b : jstring) : bool := bool_decide (a = b).

Lemma jeqb_eq a b : jeqb a b = true <-> a = b.
Proof. unfold jeqb. by rewrite bool_decide_eq_true. Qed.
Lemma jeqb_neq a b : jeqb a b = false <-> a <> b.
Proof. unfold jeqb. by rewrite bool_decide_eq_false. Qed.
Lemma jeqb_refl a : jeqb a a = true.
Proof. by apply jeqb_eq. Qed.

(** ** Literals *)

(** The UTF-16 units of a code point. *)
Definition utf16_of_point (p : N) : list N :=
  if (p <? 0x10000)%N then [p]
  else [0xD800 + (p - 0x10000) / 0x400; 0xDC00 + (p - 0x10000) mod 0x400]%N.

(** Source files are UTF-8: the units of a literal's bytes. *)
Fixpoint utf16_of_utf8 (bs : list N) : list N :=
  match bs with
  | [] => []
  | a :: bs1 =>
      if (a <? 0x80)%N then a :: utf16_of_utf8 bs1 else
      match bs1 with
      | [] => [a]
      | b :: bs2 =>
          if (a <? 0xE0)%N
          then utf16_of_point ((a - 0xC0) * 64 + (b - 0x80))%N ++ utf16_of_utf8 bs2
          else
          match bs2 with
          | [] => [a; b]
          | c :: bs3 =>
              if (a <? 0xF0)%N
              then utf16_of_point ((a - 0xE0) * 4096 + (b - 0x80) * 64 + (c - 0x80))%N
                     ++ utf16_of_utf8 bs3
              else
              match bs3 with
              | [] => [a; b; c]
              | d :: bs4 =>
                  utf16_of_point ((a - 0xF0) * 262144 + (b - 0x80) * 4096
                                  + (c - 0x80) * 64 + (d - 0x80))%N
                    ++ utf16_of_utf8 bs4
              end
          end
      end
  end.

Fixpoint bytes_of (s : string) : list N :=
  match s with
  | EmptyString => []
  | String a s => Ascii.N_of_ascii a :: bytes_of s
  end.

(** [u "text"] is the string value of the literal ["text"]. *)
Definition u (s : string) : jstring := utf16_of_utf8 (bytes_of s).
Arguments u _%_string : simpl never.

Example u_ascii : u "ok" = [111; 107]%N. Proof. reflexivity. Qed.
Example u_bmp : u "中" = [0x4E2D]%N. Proof. reflexivity. Qed.
Example u_astral : u "😀" = [0xD83D; 0xDE00]%N. Proof. reflexivity. Qed.

(** ** Character classes *)

(** WhiteSpace and LineTerminator: what [trim] removes and [\s] matches. *)
Definition is_space (c : N) : bool :=
  ((9 <=? c) && (c <=? 13) || (c =? 32) || (c =? 0xA0) || (c =? 0x1680)
   || (0x2000 <=? c) && (c <=? 0x200A) || (c =? 0x2028) || (c =? 0x2029)
   || (c =? 0x202F) || (c =? 0x205F) || (c =? 0x3000) || (c =? 0xFEFF))%N.

Definition is_digit (c : N) : bool := ((48 <=? c) && (c <=? 57))%N.
Definition is_upper (c : N) : bool := ((65 <=? c) && (c <=? 90))%N.
Definition is_lower (c : N) : bool := ((97 <=? c) && (c <=? 122))%N.
Definition is_alnum (c : N) : bool := is_digit c || is_upper c || is_lower c.
(** [\w]. *)
Definition is_word (c : N) : bool := is_alnum c || (c =? 95)%N.

(** ** Trimming *)

Fixpoint trim_start (s : jstring) : jstring :=
  match s with
  | c :: s' => if is_space c then trim_start s' else s
  | [] => []
  end.
Definition trim_end (s : jstring) : jstring := rev (trim_start (rev s)).
Definition trim (s : jstring) : jstring := trim_end (trim_start s).

Lemma trim_start_split s :
  exists w, s = w ++ trim_start s /\ Forall (fun c => is_space c = true) w.
Proof.
  induction s as [|c s (w & Hw & Hsp)]; cbn.
  - by exists [].
  - destruct (is_space c) eqn:Ec.
    + exists (c :: w). split; [cbn; congruence|by constructor].
    + by exists [].
Qed.

Lemma trim_start_head s c s' : trim_start s = c :: s' -> is_space c = false.
Proof.
  induction s as [|d s IH]; cbn; [done|].
  destruct (is_space d) eqn:Ed; [done|]. by intros [= -> ->].
Qed.

Lemma trim_start_id s : (forall c s', s = c :: s' -> is_space c = false) -> trim_start s = s.
Proof. destruct s as [|c s]; cbn; [done|]. intros H. by rewrite (H c s). Qed.

Lemma trim_start_idem s : trim_start (trim_start s) = trim_start s.
Proof. apply trim_start_id. intros. by eapply trim_start_head. Qed.

Lemma trim_end_start_head s :
  (forall c s', s = c :: s' -> is_space c = false) ->
  forall c s', trim_end s = c :: s' -> is_space c = false.
Proof.
  intros H c s' Hc. unfold trim_end in Hc.
  destruct (trim_start_split (rev s)) as (w & Hw & _).
  assert (Hs : s = rev (trim_start (rev s)) ++ rev w).
  { rewrite <-rev_app_distr, <-Hw. by rewrite rev_involutive. }
  rewrite Hc in Hs. by apply (H c (s' ++ rev w)).
Qed.

Lemma trim_end_idem s : trim_end (trim_end s) = trim_end s.
Proof. unfold trim_end. by rewrite rev_involutive, trim_start_idem. Qed.

Lemma trim_idem s : trim (trim s) = trim s.
Proof.
  unfold trim. rewrite (trim_start_id (trim_end (trim_start s))).
  - apply trim_end_idem.
  - apply trim_end_start_head. intros. by eapply trim_start_head.
Qed.

Lemma trim_split s :
  exists w1 w2, s = w1 ++ trim s ++ w2
    /\ Forall (fun c => is_space c = true) w1 /\ Forall (fun c => is_space c = true) w2.
Proof.
  unfold trim, trim_end.
  destruct (trim_start_split s) as (w1 & H1 & Hw1).
  destruct (trim_start_split (rev (trim_start s))) as (w2 & H2 & Hw2).
  exists w1, (rev w2). split_and!; [|done|by apply Forall_rev].
  rewrite H1 at 1. f_equal.
  rewrite <-rev_app_distr, <-H2. by rewrite rev_involutive.
Qed.

(** [trim] keeps a property every code unit has. *)
Lemma trim_Forall (P : N -> Prop) s : Forall P s -> Forall P (trim s).
Proof.
  destruct (trim_split s) as (w1 & w2 & Hs & _ & _).
  rewrite Hs at 1. rewrite !Forall_app. tauto.
Qed.

Lemma trim_nil_spaces s : trim s = [] <-> Forall (fun c => is_space c = true) s.
Proof.
  split.
  - intros Ht. destruct (trim_split s) as (w1 & w2 & Hs & H1 & H2).
    rewrite Ht in Hs. subst s. by apply Forall_app.
  - intros Hs. unfold trim.
    assert (Hts : trim_start s = []); [|by rewrite Hts].
    induction Hs as [|c s Hc _ IH]; cbn; [done|]. by rewrite Hc.
Qed.

(** ** Case mapping *)

(** [toLowerCase] on the code units below 256, the only ones a header value,
    a URL component or an ASCII key can hold. *)
Definition latin1_lower (c : N) : N :=
  if is_upper c || ((0xC0 <=? c) && (c <=? 0xDE) && negb (c =? 0xD7))%N
  then (c + 32)%N else c.

Definition latin1 (s : jstring) : Prop := Forall (fun c => c < 256)%N s.
#[export] Instance latin1_dec s : Decision (latin1 s).
Proof. unfold latin1. apply _. Defined.

(** Above that range the mapping is the Unicode character database's, which
    is data of the engine: any mapping that agrees below 256 will do. *)
Class CaseMapping := {
  toLowerCase : jstring -> jstring;
  toLowerCase_latin1 s : latin1 s -> toLowerCase s = latin1_lower <$> s;
}.

(** The mapping of an engine without the table, used to evaluate witnesses. *)
Definition lower_reference : CaseMapping :=
  {| toLowerCase s := latin1_lower <$> s; toLowerCase_latin1 s _ := eq_refl |}.

Lemma latin1_lower_idem c : latin1_lower (latin1_lower c) = latin1_lower c.
Proof.
  unfold latin1_lower, is_upper.
  repeat (case_match; bool_solve; try done);
    rewrite ?orb_true_iff, ?orb_false_iff, ?andb_true_iff, ?andb_false_iff,
      ?negb_true_iff, ?negb_false_iff, ?N.leb_le, ?N.leb_gt, ?N.eqb_eq, ?N.eqb_neq in *;
    lia.
Qed.

Lemma latin1_lower_bound c : (c < 256 -> latin1_lower c < 256)%N.
Proof.
  unfold latin1_lower, is_upper. case_match; [|done].
  rewrite ?orb_true_iff, ?andb_true_iff, ?N.leb_le in *. lia.
Qed.

(** ** Searching *)

Fixpoint startsWith (s p : jstring) {struct p} : bool :=
  match p, s with
  | [], _ => true
  | a :: p, b :: s => (a =? b)%N && startsWith s p
  | _ :: _, [] => false
  end.

Definition endsWith (s p : jstring) : bool := startsWith (rev s) (rev p).

Lemma startsWith_spec s p : startsWith s p = true <-> exists t, s = p ++ t.
Proof.
  revert s; induction p as [|a p IH]; intros s; cbn.
  - split; [by exists s|done].
  - destruct s as [|b s].
    + split; [done|]. by intros [t ?].
    + rewrite andb_true_iff, N.eqb_eq, IH. split.
      * intros [-> [t ->]]. by exists t.
      * intros [t Ht]. simplify_eq. split; [done|]. by exists t.
Qed.

Lemma startsWith_app p t : startsWith (p ++ t) p = true.
Proof. apply startsWith_spec. by exists t. Qed.

Lemma endsWith_spec s p : endsWith s p = true <-> exists t, s = t ++ p.
Proof.
  unfold endsWith. rewrite startsWith_spec. split.
  - intros [t Ht]. exists (rev t). by rewrite <-(rev_involutive s), Ht, rev_app_distr, rev_involutive.
  - intros [t ->]. exists (rev t). by rewrite rev_app_distr.
Qed.

(** [s.indexOf(c)] for a one-unit needle; [None] is -1. *)
Fixpoint indexOf (c : N) (s : jstring) : option nat :=
  match s with
  | [] => None
  | d :: s => if (d =? c)%N then Some 0 else S <$> indexOf c s
  end.

(** [s.lastIndexOf(c)]. *)
Fixpoint lastIndexOf (c : N) (s : jstring) : option nat :=
  match s with
  | [] => None
  | d :: s =>
      match lastIndexOf c s with
      | Some i => Some (S i)
      | None => if (d =? c)%N then Some 0 else None
      end
  end.

Definition has_char (c : N) (s : jstring) : bool := existsb (N.eqb c) s.

(** [s.includes(p)]. *)
Fixpoint includes (s p : jstring) : bool :=
  startsWith s p || match s with [] => false | _ :: s' => includes s' p end.

Lemma has_char_spec c s : has_char c s = true <-> c ∈ s.
Proof.
  unfold has_char. rewrite existsb_elem. split.
  - intros (d & Hd & He%N.eqb_eq). by subst.
  - intros Hc. exists c. split; [done|apply N.eqb_refl].
Qed.
Lemma has_char_false c s : has_char c s = false <-> c ∉ s.
Proof. rewrite <-not_true_iff_false. by rewrite has_char_spec. Qed.

Lemma includes_spec s p : includes s p = true <-> exists a b, s = a ++ p ++ b.
Proof.
  induction s as [|c s IH].
  - change (includes [] p) with (startsWith [] p || false).
    rewrite orb_false_r, startsWith_spec. split.
    + intros [t Ht]. by exists [], t.
    + intros (a & b & H). destruct a; [by exists b|done].
  - change (includes (c :: s) p) with (startsWith (c :: s) p || includes s p).
    rewrite orb_true_iff, IH, startsWith_spec. split.
    + intros [[t Ht]|(a & b & ->)]; [by exists [], t|by exists (c :: a), b].
    + intros ([|d a] & b & H); cbn in H; [left; by exists b|].
      right. simplify_eq. by exists a, b.
Qed.

Lemma lastIndexOf_none c s : lastIndexOf c s = None <-> c ∉ s.
Proof.
  induction s as [|d s IH]; cbn.
  - split; [intros _; apply not_elem_of_nil|done].
  - rewrite not_elem_of_cons. destruct (lastIndexOf c s) as [i|].
    + split; [done|]. intros [_ H]. apply IH in H. done.
    + destruct (d =? c)%N eqn:E.
      * apply N.eqb_eq in E. split; [done|]. intros [? _]. congruence.
      * apply N.eqb_neq in E. split; [|done]. intros _. split; [congruence|by apply IH].
Qed.

Lemma lastIndexOf_app c a b : c ∉ b -> lastIndexOf c (a ++ c :: b) = Some (length a).
Proof.
  intros Hb. induction a as [|d a IH]; cbn.
  - apply lastIndexOf_none in Hb. rewrite Hb. by rewrite N.eqb_refl.
  - by rewrite IH.
Qed.

Lemma lastIndexOf_split c s i :
  lastIndexOf c s = Some i -> exists a b, s = a ++ c :: b /\ c ∉ b /\ length a = i.
Proof.
  revert i; induction s as [|d s IH]; intros i; cbn; [done|].
  destruct (lastIndexOf c s) as [j|] eqn:Ej.
  - intros [= <-]. destruct (IH j) as (a & b & -> & Hb & Ha); [done|].
    exists (d :: a), b. cbn. auto.
  - destruct (d =? c)%N eqn:E; [|done]. intros [= <-].
    apply N.eqb_eq in E. subst d. apply lastIndexOf_none in Ej. by exists [], s.
Qed.

(** ** Splitting *)

(** [s.split(c)] for a one-unit separator: never the empty array. *)
Fixpoint split_on (c : N) (s : jstring) : list jstring :=
  match s with
  | [] => [[]]
  | d :: s =>
      if (d =? c)%N then [] :: split_on c s
      else match split_on c s with
           | [] => [[d]]
           | w :: ws => (d :: w) :: ws
           end
  end.

(** [parts.join(c)]. *)
Fixpoint join_on (c : jstring) (ws : list jstring) : jstring :=
  match ws with
  | [] => []
  | [w] => w
  | w :: ws => w ++ c ++ join_on c ws
  end.

Lemma split_on_cons c s : exists w ws, split_on c s = w :: ws.
Proof.
  destruct s as [|d s]; cbn; [eauto|]. case_match; [eauto|]. case_match; eauto.
Qed.

Lemma split_on_nosep c s : c ∉ s -> split_on c s = [s].
Proof.
  induction s as [|d s IH]; cbn; [done|]. rewrite not_elem_of_cons. intros [Hd Hs].
  destruct (d =? c)%N eqn:E; [apply N.eqb_eq in E; congruence|]. by rewrite IH.
Qed.

Lemma split_on_app c a b : c ∉ a -> split_on c (a ++ c :: b) = a :: split_on c b.
Proof.
  induction a as [|d a IH]; cbn; [by rewrite N.eqb_refl|].
  rewrite not_elem_of_cons. intros [Hd Ha].
  destruct (d =? c)%N eqn:E; [apply N.eqb_eq in E; congruence|]. by rewrite IH.
Qed.

Lemma join_split c s : join_on [c] (split_on c s) = s.
Proof.
  induction s as [|d s IH]; [done|]. cbn [split_on].
  destruct (split_on_cons c s) as (w & ws & Hs).
  destruct (d =? c)%N eqn:E.
  - apply N.eqb_eq in E; subst d. rewrite Hs in *. cbn. cbn in IH. by rewrite IH.
  - rewrite Hs in *. destruct ws; cbn in *; congruence.
Qed.

Lemma split_on_pieces c s : Forall (fun w => c ∉ w) (split_on c s).
Proof.
  induction s as [|d s IH]; cbn.
  - constructor; [apply not_elem_of_nil|constructor].
  - destruct (d =? c)%N eqn:E.
    + constructor; [apply not_elem_of_nil|done].
    + apply N.eqb_neq in E. destruct (split_on c s) as [|w ws].
      * constructor; [|constructor]. rewrite not_elem_of_cons.
        split; [congruence|apply not_elem_of_nil].
      * inversion IH; subst. constructor; [|done]. rewrite not_elem_of_cons. auto.
Qed.

(** ** [encodeURIComponent] *)

(** The unreserved characters: letters, digits and [-_.!~*'()]. *)
Definition unreserved (c : N) : bool :=
  is_word c
  || existsb (N.eqb c) [45; 46; 33; 126; 42; 39; 40; 41]%N.

Definition hex_digit (d : N) : N := if (d <? 10)%N then (48 + d)%N else (55 + d)%N.
Definition hex_value (c : N) : option N :=
  if is_digit c then Some (c - 48)%N
  else if ((65 <=? c) && (c <=? 70))%N then Some (c - 55)%N
  else if ((97 <=? c) && (c <=? 102))%N then Some (c - 87)%N
  else None.

(** One byte as [%XX]. *)
Definition pct (b : N) : jstring := [37; hex_digit (b / 16); hex_digit (b mod 16)]%N.

Definition utf8_of_point (p : N) : list N :=
  if (p <? 0x80)%N then [p]
  else if (p <? 0x800)%N then [0xC0 + p / 64; 0x80 + p mod 64]%N
  else if (p <? 0x10000)%N
  then [0xE0 + p / 4096; 0x80 + (p / 64) mod 64; 0x80 + p mod 64]%N
  else [0xF0 + p / 262144; 0x80 + (p / 4096) mod 64; 0x80 + (p / 64) mod 64;
        0x80 + p mod 64]%N.

Definition high_surrogate (c : N) : bool := ((0xD800 <=? c) && (c <? 0xDC00))%N.
Definition low_surrogate (c : N) : bool := ((0xDC00 <=? c) && (c <? 0xE000))%N.

(** The code points of a string; a surrogate without its partner is an error. *)
Fixpoint code_points (s : jstring) : option (list N) :=
  match s with
  | [] => Some []
  | c :: s1 =>
      if high_surrogate c then
        match s1 with
        | d :: s2 =>
            if low_surrogate d
            then cons (0x10000 + (c - 0xD800) * 0x400 + (d - 0xDC00))%N <$> code_points s2
            else None
        | [] => None
        end
      else if low_surrogate c then None
      else cons c <$> code_points s1
  end.

Definition encode_point (p : N) : jstring :=
  if unreserved p then [p] else concat (pct <$> utf8_of_point p).

Definition encodeURIComponent (s : jstring) : res jstring :=
  match code_points s with
  | Some ps => Ok (concat (encode_point <$> ps))
  | None => Throw URIError
  end.

Example encode_path : encodeURIComponent (u "/devices/a b?x=1") = Ok (u "%2Fdevices%2Fa%20b%3Fx%3D1").
Proof. reflexivity. Qed.
Example encode_cjk : encodeURIComponent (u "中") = Ok (u "%E4%B8%AD").
Proof. reflexivity. Qed.
Example encode_lone : encodeURIComponent [0xD800]%N = Throw URIError.
Proof. reflexivity. Qed.

(** [decodeURIComponent], in two passes: percent escapes to bytes, then UTF-8
    to code units.  Raw characters pass through. *)
Inductive uri_item := Raw (c : N) | Byte (b : N).

Fixpoint uri_items (s : jstring) : option (list uri_item) :=
  match s with
  | [] => Some []
  | c :: s1 =>
      if (c =? 37)%N then
        match s1 with
        | h :: l :: s2 =>
            match hex_value h, hex_value l with
            | Some a, Some b => cons (Byte (a * 16 + b)%N) <$> uri_items s2
            | _, _ => None
            end
        | _ => None
        end
      else cons (Raw c) <$> uri_items s1
  end.

Definition continuation (b : N) : bool := ((0x80 <=? b) && (b <? 0xC0))%N.

Fixpoint decode_items (l : list uri_item) : option jstring :=
  match l with
  | [] => Some []
  | Raw c :: l => cons c <$> decode_items l
  | Byte a :: l1 =>
      if (a <? 0x80)%N then cons a <$> decode_items l1 else
      match l1 with
      | Byte b :: l2 =>
          if negb (continuation b) then None
          else if (a <? 0xC2)%N then None
          else if (a <? 0xE0)%N
          then app (utf16_of_point ((a - 0xC0) * 64 + (b - 0x80))%N) <$> decode_items l2
          else
          match l2 with
          | Byte c :: l3 =>
              if negb (continuation c) then None
              else if (a <? 0xF0)%N then
                let p := ((a - 0xE0) * 4096 + (b - 0x80) * 64 + (c - 0x80))%N in
                if (p <? 0x800)%N || high_surrogate p || low_surrogate p then None
                else app (utf16_of_point p) <$> decode_items l3
              else
              match l3 with
              | Byte d :: l4 =>
                  if negb (continuation d) then None else
                  let p := ((a - 0xF0) * 262144 + (b - 0x80) * 4096
                            + (c - 0x80) * 64 + (d - 0x80))%N in
                  if (p <? 0x10000)%N || (0x10FFFF <? p)%N then None
                  else app (utf16_of_point p) <$> decode_items l4
              | _ => None
              end
          | _ => None
          end
      | _ => None
      end
  end.

Definition decodeURIComponent (s : jstring) : res jstring :=
  match uri_items s ≫= decode_items with
  | Some t => Ok t
  | None => Throw URIError
  end.

(** A string value: every unit is a 16-bit number. *)
Definition units16 (s : jstring) : Prop := Forall (fun c => c < 0x10000)%N s.

(** *** The round trip *)

#[local] Ltac Zify.zify_post_hook ::= Z.to_euclidean_division_equations.

(** Decide the comparisons of the encoders from arithmetic on the code point. *)
Ltac n_test :=
  match goal with
  | |- context [(?a <? ?b)%N] => destruct (N.ltb_spec a b); try (exfalso; lia)
  | |- context [(?a <=? ?b)%N] => destruct (N.leb_spec a b); try (exfalso; lia)
  | |- context [(?a =? ?b)%N] => destruct (N.eqb_spec a b); try (exfalso; lia)
  end.

Definition scalar (p : N) : Prop := (p <= 0x10FFFF)%N /\ (p < 0xD800 \/ 0xE000 <= p)%N.

Lemma hex_value_digit d : (d < 16)%N -> hex_value (hex_digit d) = Some d.
Proof.
  intros Hd. unfold hex_value, hex_digit, is_digit.
  repeat n_test; cbn; try (exfalso; lia); f_equal; lia.
Qed.

Lemma uri_items_pct b t : (b < 256)%N -> uri_items (pct b ++ t) = cons (Byte b) <$> uri_items t.
Proof.
  intros Hb. cbn. rewrite !hex_value_digit by lia.
  do 2 f_equal. f_equal. lia.
Qed.

Lemma unreserved_not_pct c : unreserved c = true -> c <> 37%N.
Proof. by intros H ->. Qed.

Lemma uri_items_raw c t : unreserved c = true -> uri_items (c :: t) = cons (Raw c) <$> uri_items t.
Proof.
  intros H%unreserved_not_pct. cbn. by destruct (N.eqb_spec c 37).
Qed.

Lemma utf8_of_point_bytes p : (p <= 0x10FFFF)%N -> Forall (fun b => b < 256)%N (utf8_of_point p).
Proof.
  intros Hp. unfold utf8_of_point. repeat n_test; repeat constructor; lia.
Qed.

Definition items_of_point (p : N) : list uri_item :=
  if unreserved p then [Raw p] else Byte <$> utf8_of_point p.

Lemma uri_items_point p t :
  (p <= 0x10FFFF)%N ->
  uri_items (encode_point p ++ t) = app (items_of_point p) <$> uri_items t.
Proof.
  intros Hp. unfold encode_point, items_of_point.
  destruct (unreserved p) eqn:Eu; [by apply uri_items_raw|].
  pose proof (utf8_of_point_bytes p Hp) as Hb.
  induction Hb as [|b bs Hb _ IH]; cbn [fmap list_fmap concat app].
  - by destruct (uri_items t).
  - rewrite <-app_assoc, uri_items_pct, IH by done. by destruct (uri_items t).
Qed.

Lemma unreserved_small p : unreserved p = true -> (p < 0x80)%N.
Proof.
  unfold unreserved, is_word, is_alnum, is_digit, is_upper, is_lower. cbn.
  rewrite ?orb_true_iff, ?andb_true_iff, ?N.leb_le, ?N.eqb_eq. lia.
Qed.

Lemma decode_items_point p l :
  scalar p -> decode_items (items_of_point p ++ l) = app (utf16_of_point p) <$> decode_items l.
Proof.
  intros [Hmax Hsur]. unfold items_of_point. destruct (unreserved p) eqn:Eu.
  - apply unreserved_small in Eu. unfold utf16_of_point. cbn. repeat n_test.
    by destruct (decode_items l).
  - unfold utf8_of_point, utf16_of_point.
    repeat n_test; cbn; unfold continuation, high_surrogate, low_surrogate;
      repeat (n_test; cbn); destruct (decode_items l); cbn; try done;
      unfold utf16_of_point; repeat n_test; cbn; repeat f_equal; lia.
Qed.

Lemma code_points_spec s ps :
  units16 s -> code_points s = Some ps ->
  Forall scalar ps /\ concat (utf16_of_point <$> ps) = s.
Proof.
  intros Hu. revert ps.
  assert (Hn : forall n s, length s <= n -> units16 s -> forall ps, code_points s = Some ps ->
    Forall scalar ps /\ concat (utf16_of_point <$> ps) = s); [|eauto].
  clear s Hu. intros n; induction n as [|n IH]; intros [|c s] Hlen Hu ps Hps; cbn in *; try lia;
    try (simplify_eq; split; [constructor|done]).
  inversion Hu as [|? ? Hc Hs]; subst.
  destruct (high_surrogate c) eqn:Eh.
  - destruct s as [|d s]; [done|]. destruct (low_surrogate d) eqn:El; [|done].
    inversion Hs as [|? ? Hd Hs']; subst.
    apply fmap_Some in Hps as (qs & Hqs & ->).
    destruct (IH s) with qs as [Hsc Heq]; [cbn in *; lia|done|done|].
    unfold high_surrogate, low_surrogate in *. bool_solve.
    rewrite ?N.leb_le, ?N.ltb_lt in *.
    split; [constructor; [split; lia|done]|].
    cbn. rewrite Heq. unfold utf16_of_point. repeat n_test. cbn.
    do 2 f_equal; [lia|]. f_equal; lia.
  - destruct (low_surrogate c) eqn:El; [done|].
    apply fmap_Some in Hps as (qs & Hqs & ->).
    destruct (IH s) with qs as [Hsc Heq]; [lia|done|done|].
    unfold high_surrogate, low_surrogate in *.
    rewrite ?andb_false_iff, ?N.leb_gt, ?N.ltb_ge in *.
    split; [constructor; [split; lia|done]|].
    cbn. rewrite Heq. unfold utf16_of_point. by repeat n_test.
Qed.

Lemma decode_encode s e : units16 s -> encodeURIComponent s = Ok e -> decodeURIComponent e = Ok s.
Proof.
  intros Hu. unfold encodeURIComponent, decodeURIComponent.
  destruct (code_points s) as [ps|] eqn:Hps; [|done]. intros [= <-].
  destruct (code_points_spec s ps) as [Hsc Hs]; [done..|]. subst s. clear Hps Hu.
  enough (H : uri_items (concat (encode_point <$> ps)) ≫= decode_items
              = Some (concat (utf16_of_point <$> ps))); [by rewrite H|].
  assert (Hi : uri_items (concat (encode_point <$> ps)) = Some (concat (items_of_point <$> ps))).
  { induction Hsc as [|p ps [Hp _] _ IH]; cbn; [done|]. by rewrite uri_items_point, IH by done. }
  rewrite Hi. cbn. clear Hi. induction Hsc as [|p ps Hp _ IH]; cbn; [done|].
  by rewrite decode_items_point, IH by done.
Qed.

(** What the encoder emits: unreserved characters and percent escapes, so
    never a separator of the URL grammar. *)
Lemma hex_digit_unreserved d : (d < 16)%N -> unreserved (hex_digit d) = true.
Proof.
  intros Hd. unfold unreserved, is_word, is_alnum, is_digit, is_upper, is_lower, hex_digit.
  n_test; rewrite ?orb_true_iff, ?andb_true_iff, ?N.leb_le; lia.
Qed.

Lemma encode_chars s e :
  units16 s -> encodeURIComponent s = Ok e ->
  Forall (fun c => unreserved c = true \/ c = 37%N) e.
Proof.
  intros Hu. unfold encodeURIComponent.
  destruct (code_points s) as [ps|] eqn:Hps; [|done]. intros [= <-].
  destruct (code_points_spec s ps Hu Hps) as [Hsc _]. clear Hps Hu.
  induction Hsc as [|p ps [Hp _] _ IH]; cbn; [constructor|]. apply Forall_app; split; [|done].
  unfold encode_point. destruct (unreserved p) eqn:Eu; [constructor; [by left|constructor]|].
  pose proof (utf8_of_point_bytes p Hp) as Hb.
  induction Hb as [|b bs Hb _ IHb]; cbn; [constructor|].
  constructor; [by right|].
  do 2 (constructor; [left; apply hex_digit_unreserved; lia|]). done.
Qed.

Lemma encode_no_char s e c :
  units16 s -> encodeURIComponent s = Ok e -> unreserved c = false -> c <> 37%N -> c ∉ e.
Proof.
  intros Hu He Hc Hp Hin. pose proof (encode_chars s e Hu He) as H.
  rewrite Forall_forall in H. destruct (H c Hin); congruence.
Qed.

Lemma encode_inj s t e :
  units16 s -> units16 t -> encodeURIComponent s = Ok e -> encodeURIComponent t = Ok e -> s = t.
Proof.
  intros Hs Ht He He'. pose proof (decode_encode s e Hs He). pose proof (decode_encode t e Ht He').
  congruence.
Qed.

(** A string with no surrogates encodes. *)
Lemma encode_total s :
  Forall (fun c => c < 0xD800)%N s -> exists e, encodeURIComponent s = Ok e.
Proof.
  intros Hs. assert (exists ps, code_points s = Some ps) as [ps Hps].
  { induction Hs as [|c s Hc _ [ps IH]]; [by exists []|]. exists (c :: ps). cbn.
    unfold high_surrogate, low_surrogate. repeat n_test. cbn. by rewrite IH. }
  unfold encodeURIComponent. rewrite Hps. eauto.
Qed.

Lemma latin1_units16 s : latin1 s -> units16 s.
Proof. intros H. eapply Forall_impl; [exact H|]. cbn. lia. Qed.
Lemma latin1_encodes s : latin1 s -> exists e, encodeURIComponent s = Ok e.
Proof. intros H. apply encode_total. eapply Forall_impl; [exact H|]. cbn. lia. Qed.

#[export] Hint Resolve latin1_units16 latin1_encodes : console.

Arguments trim : simpl never.
Arguments trim_end : simpl never.
Arguments jeqb : simpl never.
Arguments endsWith : simpl never.
