(* ===== verification/JsValue.v ===== *)
(** * ECMAScript values as the console reads them

    What [await response.json()] yields and what a form holds: one datatype
    with [undefined], the readers of lib/catalog.ts over it, and the
    operations of the language they use ([typeof], truthiness, property
    access, [===], [Object.entries]). *)

From S2P Require Import Prelude JsString.
From Stdlib Require Import Lia Wf_nat.
From stdpp Require Import pretty.

(** ** Numbers

    Every finite IEEE-754 double is an integer multiple of 2^-1074.  A finite
    number is represented by that integer, so [+], [-], [<] and [===] are the
    operations on exact values; the rounding of a sum or a difference is not
    modelled (it cannot change the sign of a difference, and is the identity
    on integers below 2^53).  -0 and 0 are one value. *)
Inductive num :=
  | Fin (m : Z)
  | Inf (negative : bool)
  | NaN.

#[export] Instance num_eq_dec : EqDecision num.
Proof. solve_decision. Defined.

(** The representation of the integer [z]. *)
Definition scale : Z := 2 ^ 1074.
Definition int (z : Z) : Z := z * scale.

Lemma scale_pos : (0 < scale)%Z.
Proof. unfold scale. apply Z.pow_pos_nonneg; lia. Qed.

Lemma int_inj a b : int a = int b -> a = b.
Proof. unfold int. pose proof scale_pos. intros E. apply (Z.mul_reg_r _ _ scale); lia. Qed.
Lemma int_le a b : (int a <= int b <-> a <= b)%Z.
Proof. unfold int. pose proof scale_pos. nia. Qed.
Lemma int_lt a b : (int a < int b <-> a < b)%Z.
Proof. unfold int. pose proof scale_pos. nia. Qed.

#[global] Opaque scale.
Arguments int : simpl never.

(** ** Values *)

Inductive jsval :=
  | VUndef
  | VNull
  | VBool (b : bool)
  | VNum (n : num)
  | VStr (s : jstring)
  | VArr (l : list jsval)
  | VObj (fields : list (jstring * jsval)).  (** own properties, in order *)

Fixpoint jsval_eqb (a b : jsval) : bool :=
  let fix list_eqb l m :=
    match l, m with
    | [], [] => true
    | x :: l, y :: m => jsval_eqb x y && list_eqb l m
    | _, _ => false
    end in
  let fix fields_eqb l m :=
    match l, m with
    | [], [] => true
    | (k, x) :: l, (k', y) :: m => jeqb k k' && jsval_eqb x y && fields_eqb l m
    | _, _ => false
    end in
  match a, b with
  | VUndef, VUndef => true
  | VNull, VNull => true
  | VBool x, VBool y => bool_decide (x = y)
  | VNum x, VNum y => bool_decide (x = y)
  | VStr x, VStr y => jeqb x y
  | VArr l, VArr m => list_eqb l m
  | VObj l, VObj m => fields_eqb l m
  | _, _ => false
  end.

Fixpoint jsval_size (v : jsval) : nat :=
  match v with
  | VArr l => S (foldr (fun x n => jsval_size x + n) 0 l)
  | VObj fs => S (foldr (fun p n => jsval_size p.2 + n) 0 fs)
  | _ => 1
  end.

Lemma jsval_eqb_eq a b : jsval_eqb a b = true <-> a = b.
Proof.
  revert b. induction a as [a IH] using (induction_ltof1 _ jsval_size). intros b.
  destruct a as [| |x|x|x|l|fs], b as [| |y|y|y|m|gs]; cbn; try (split; congruence);
    rewrite ?bool_decide_eq_true, ?jeqb_eq; try (split; congruence).
  - assert (H : forall a, a ∈ l -> forall b, jsval_eqb a b = true <-> a = b).
    { intros a Ha. apply IH. unfold ltof. cbn. clear IH.
      induction l as [|x l IHl]; [by apply not_elem_of_nil in Ha|].
      apply elem_of_cons in Ha as [->|Ha]; cbn; [lia|]. specialize (IHl Ha). cbn in IHl. lia. }
    clear IH. revert m. induction l as [|x l IHl]; intros [|y m]; cbn; try (split; congruence).
    rewrite andb_true_iff, H by left.
    transitivity (x = y /\ VArr l = VArr m); [|split; [intros [? [=]]; congruence|intros [=]; by subst]].
    apply and_iff_compat_l. apply IHl. intros. apply H. by right.
  - assert (H : forall k a, (k, a) ∈ fs -> forall b, jsval_eqb a b = true <-> a = b).
    { intros k a Ha. apply IH. unfold ltof. cbn. clear IH.
      induction fs as [|x l IHl]; [by apply not_elem_of_nil in Ha|].
      apply elem_of_cons in Ha as [<-|Ha]; cbn; [lia|]. specialize (IHl Ha). cbn in IHl. lia. }
    clear IH. revert gs.
    induction fs as [|[k x] l IHl]; intros [|[k' y] m]; cbn; try (split; congruence).
    rewrite !andb_true_iff, jeqb_eq, (H k) by left.
    transitivity ((k = k' /\ x = y) /\ VObj l = VObj m);
      [|split; [intros [[??] [=]]; congruence|intros [=]; by subst]].
    apply and_iff_compat_l. apply IHl. intros. apply (H k0). by right.
Qed.

#[export] Instance jsval_eq_dec : EqDecision jsval.
Proof.
  intros a b. destruct (jsval_eqb a b) eqn:E.
  - left. by apply jsval_eqb_eq.
  - right. intros ->. rewrite (proj2 (jsval_eqb_eq b b)) in E; done.
Defined.

(** ** Language operations *)

(** [!!v]. *)
Definition truthy (v : jsval) : bool :=
  match v with
  | VUndef | VNull => false
  | VBool b => b
  | VNum (Fin m) => negb (m =? 0)%Z
  | VNum NaN => false
  | VNum (Inf _) => true
  | VStr s => negb (jeqb s [])
  | VArr _ | VObj _ => true
  end.

(** [typeof v === "object"]. *)
Definition typeof_object (v : jsval) : bool :=
  match v with VNull | VArr _ | VObj _ => true | _ => false end.

(** [!value || typeof value !== "object"], the test every parser opens with. *)
Definition not_object (v : jsval) : bool := negb (truthy v) || negb (typeof_object v).

(** First own property of that name.  [JSON.parse] and object literals keep
    names distinct, so there is one at most. *)
Fixpoint field {A} (k : jstring) (l : list (jstring * A)) : option A :=
  match l with
  | [] => None
  | (k', x) :: l => if jeqb k k' then Some x else field k l
  end.

(** [v[k]] for a name no built-in prototype defines as data.  The members an
    array, a string or a plain object inherits are functions, which none of
    the readers below accepts, so they are read as [undefined] too; reading
    from [null] or [undefined] throws. *)
Definition get (v : jsval) (k : jstring) : res jsval :=
  match v with
  | VUndef | VNull => Throw TypeError
  | VObj fs => Ok (default VUndef (field k fs))
  | _ => Ok VUndef
  end.

(** The same read on a receiver known not to be null. *)
Definition prop (v : jsval) (k : jstring) : jsval :=
  match v with VObj fs => default VUndef (field k fs) | _ => VUndef end.

Lemma get_prop v k : v <> VUndef -> v <> VNull -> get v k = Ok (prop v k).
Proof. destruct v; done. Qed.

(** [v ?? w]. *)
Definition nullish (v w : jsval) : jsval :=
  match v with VUndef | VNull => w | _ => v end.

(** [Object.entries(v)] of an object; an array lists its elements. *)
Definition index_name (i : nat) : jstring := u (pretty i).
Definition entries (v : jsval) : list (jstring * jsval) :=
  match v with
  | VObj fs => fs
  | VArr l => zip (index_name <$> seq 0 (length l)) l
  | _ => []
  end.

(** [TABLE[key]] on an object literal with a computed key: what the literal
    lists, or else what every object inherits. *)
Inductive looked_up (A : Type) :=
  | Own (a : A)
  | Inherited
  | Absent.
Arguments Own {A} a.
Arguments Inherited {A}.
Arguments Absent {A}.

Definition object_prototype : list jstring :=
  [ u "constructor"; u "__defineGetter__"; u "__defineSetter__"; u "hasOwnProperty";
    u "__lookupGetter__"; u "__lookupSetter__"; u "isPrototypeOf"; u "propertyIsEnumerable";
    u "toString"; u "valueOf"; u "__proto__"; u "toLocaleString" ].

Definition table_read {A} (t : list (jstring * A)) (k : jstring) : looked_up A :=
  match field k t with
  | Some a => Own a
  | None => if existsb (jeqb k) object_prototype then Inherited else Absent
  end.

(** Decide the comparisons between literal names in the goal. *)
Ltac js_names :=
  repeat match goal with
  | |- context [jeqb (u ?a) (u ?b)] =>
      let r := eval vm_compute in (jeqb (u a) (u b)) in
      change (jeqb (u a) (u b)) with r
  end.
Ltac js_names_in H :=
  repeat match type of H with
  | context [jeqb (u ?a) (u ?b)] =>
      let r := eval vm_compute in (jeqb (u a) (u b)) in
      change (jeqb (u a) (u b)) with r in H
  end.
Ltac js_simpl := js_names; cbn -[jeqb u].
