(* ===== verification/JsNumber.v ===== *)
(** * Arithmetic that rounds

    The quotient and the product of two doubles, and [Math.round].  A double is
    the integer JsValue represents it by, a multiple of 2^-1074; the exact
    quotient or product is a ratio of integers in that unit, and the result is
    the double nearest to it, a tie going to the even one, as IEEE 754 has it. *)

From Stdlib Require Import Lia.
From S2P Require Import Prelude JsString JsValue.

#[local] Open Scope Z_scope.

(** The integer nearest to [n / d]. *)
Definition nearest_even (n d : Z) : Z :=
  let q := n / d in
  match 2 * (n mod d) ?= d with
  | Lt => q
  | Gt => q + 1
  | Eq => if Z.even q then q else q + 1
  end.

(** How far apart the doubles around [n / d] lie: 2 to this power. *)
Definition spacing (n d : Z) : Z := Z.max 0 (Z.log2 (Z.abs n / d) - 52).

Definition to_double (n d : Z) : num :=
  let gap := 2 ^ spacing n d in
  let m := nearest_even n (d * gap) * gap in
  if Z.abs m <? 2 ^ 1024 * scale then Fin m else Inf (n <? 0).

(** [a / b], [b] not zero, and [a * b]. *)
Definition divide (a b : Z) : num := to_double (Z.sgn b * a * scale) (Z.abs b).
Definition multiply (a b : Z) : num := to_double (a * b) scale.
(** [x * b], [b] above zero. *)
Definition times (x : num) (b : Z) : num := match x with Fin a => multiply a b | _ => x end.

(** [Math.round]: a half goes up. *)
Definition Math_round (x : num) : num :=
  match x with Fin m => Fin (int ((2 * m + scale) / (2 * scale))) | _ => x end.

(** ** Bounds *)

Lemma nearest_even_near n d : 0 < d -> - d <= 2 * (n - d * nearest_even n d) <= d.
Proof.
  intros Hd. unfold nearest_even. pose proof (Z.div_mod n d). pose proof (Z.mod_pos_bound n d Hd).
  destruct (Z.compare_spec (2 * (n mod d)) d); [destruct (Z.even _)|..]; nia.
Qed.
Lemma nearest_even_ge n d k : 0 < d -> d * k <= n -> k <= nearest_even n d.
Proof.
  intros Hd Hn. assert (k <= n / d) by (apply Z.div_le_lower_bound; lia).
  unfold nearest_even. destruct (_ ?= _); [destruct (Z.even _)|..]; lia.
Qed.
Lemma nearest_even_le n d k : 0 < d -> n <= d * k -> nearest_even n d <= k.
Proof.
  intros Hd Hn. pose proof (Z.div_mod n d). pose proof (Z.mod_pos_bound n d Hd).
  unfold nearest_even. destruct (Z.compare_spec (2 * (n mod d)) d); [destruct (Z.even _)|..]; nia.
Qed.

Lemma spacing_below n d k : 0 < d -> 0 <= n <= d * 2 ^ (k + 52) -> 0 <= k -> 0 <= spacing n d <= k.
Proof.
  intros Hd Hn Hk. unfold spacing. rewrite Z.abs_eq by lia.
  assert (Hq : n / d <= 2 ^ (k + 52)).
  { apply Z.div_le_upper_bound; lia. }
  apply Z.log2_le_mono in Hq. rewrite Z.log2_pow2 in Hq by lia. lia.
Qed.

(** A ratio between nought and a bound that is itself a double: the double
    nearest to it is within the bound, and within half a gap of it. *)
Lemma to_double_between n d k c :
  0 < d -> 0 <= k -> 0 <= c <= 2 ^ 52 -> 2 ^ k * c < 2 ^ 1024 * scale -> 0 <= n <= d * (2 ^ k * c) ->
  exists m, to_double n d = Fin m /\ 0 <= m <= 2 ^ k * c /\ - (d * 2 ^ k) <= 2 * (n - d * m) <= d * 2 ^ k.
Proof.
  intros Hd Hk Hc Hmax Hn.
  assert (Hs : 0 <= spacing n d <= k).
  { apply spacing_below; [done| |done]. split; [lia|]. rewrite Z.pow_add_r by lia. pose proof (Z.pow_nonneg 2 k). nia. }
  assert (Hg : 0 < 2 ^ spacing n d) by (apply Z.pow_pos_nonneg; lia).
  assert (Hk' : 2 ^ k = 2 ^ spacing n d * 2 ^ (k - spacing n d)).
  { rewrite <-Z.pow_add_r by lia. f_equal. lia. }
  unfold to_double. set (gap := 2 ^ spacing n d) in *. set (rest := 2 ^ (k - spacing n d)) in *.
  assert (Hr : 0 < rest) by (apply Z.pow_pos_nonneg; lia).
  set (r := nearest_even n (d * gap)).
  assert (Hlo : 0 <= r) by (apply nearest_even_ge; nia).
  assert (Hhi : r <= rest * c) by (apply nearest_even_le; [nia|]; rewrite Hk' in Hn; nia).
  pose proof (nearest_even_near n (d * gap) ltac:(nia)) as Hnear. fold r in Hnear.
  exists (r * gap). split; [|rewrite Hk'; nia].
  assert (Hb : Z.abs (r * gap) < 2 ^ 1024 * scale) by (rewrite Z.abs_eq by nia; rewrite Hk' in Hmax; nia).
  by apply Z.ltb_lt in Hb as ->.
Qed.

Lemma Math_round_near m : exists p, Math_round (Fin m) = Fin (int p) /\ - scale <= 2 * (m - int p) < scale.
Proof.
  eexists. split; [reflexivity|]. unfold int. pose proof scale_pos.
  pose proof (Z.div_mod (2 * m + scale) (2 * scale)). pose proof (Z.mod_pos_bound (2 * m + scale) (2 * scale)). nia.
Qed.

#[local] Transparent scale.
Lemma scale_pow k : 0 <= k <= 1074 -> scale = 2 ^ k * 2 ^ (1074 - k).
Proof. intros Hk. rewrite <-Z.pow_add_r by lia. unfold scale. f_equal. lia. Qed.
#[global] Opaque scale.

(** A share of a whole, as a percentage.  It lies between 0 and 100, and is
    off by half a percent and the last bits of two roundings at most. *)
Lemma percent_near used total :
  0 <= used <= total -> 0 < total ->
  exists p, Math_round (times (divide used total) (int 100)) = Fin (int p)
    /\ 0 <= p <= 100 /\ 2 ^ 45 * Z.abs (100 * used - p * total) <= (2 ^ 44 + 1) * total.
Proof.
  intros Hu Ht. pose proof scale_pos as Hs. pose proof (scale_pow 1022 ltac:(lia)) as Hsp.
  change (1074 - 1022) with 52 in Hsp. pose (gap := 2 ^ 1022). fold gap in Hsp.
  assert (Hgap : 0 < gap) by (apply Z.pow_pos_nonneg; lia).
  unfold divide. rewrite Z.sgn_pos, Z.mul_1_l, Z.abs_eq by lia.
  destruct (to_double_between (used * scale) total 1022 (2 ^ 52)) as (m & -> & Hm & He1);
    [lia..| |fold gap; nia|]; [fold gap; rewrite <-Hsp; assert (1 < 2 ^ 1024) by lia; nia|].
  fold gap in Hm, He1. rewrite <-Hsp in Hm. cbn [times]. unfold multiply.
  assert (H1029 : 2 ^ 1029 = 128 * gap) by (unfold gap; change 128 with (2 ^ 7); rewrite <-Z.pow_add_r; [done|lia..]).
  assert (Hc : 2 ^ 1029 * (100 * 2 ^ 45) = 100 * scale) by (rewrite H1029, Hsp; change (2 ^ 52) with (128 * 2 ^ 45); ring).
  destruct (to_double_between (m * int 100) scale 1029 (100 * 2 ^ 45)) as (m2 & -> & Hm2 & He2);
    [lia..|rewrite Hc; assert (100 < 2 ^ 1024) by lia; nia|rewrite Hc; unfold int; nia|].
  rewrite Hc in Hm2. rewrite H1029 in He2. unfold int in He2.
  assert (He2' : - (128 * gap) <= 2 * (100 * m - m2) <= 128 * gap) by nia.
  destruct (Math_round_near m2) as (p & -> & Hr). exists p. unfold int in Hr. split; [done|]. split; [nia|].
  assert (Hb : - (total * (scale + 228 * gap)) <= 2 * scale * (100 * used - p * total) <= total * (scale + 228 * gap)).
  { replace (2 * scale * (100 * used - p * total))
      with (100 * (2 * (used * scale - total * m)) + total * (2 * (100 * m - m2)) + total * (2 * (m2 - p * scale))) by ring.
    nia. }
  rewrite Hsp in Hb. change (2 ^ 52) with (256 * 2 ^ 44) in Hb. change (2 ^ 45) with (2 * 2 ^ 44).
  assert (- (total * (256 * 2 ^ 44 + 228)) <= 2 * (256 * 2 ^ 44) * (100 * used - p * total) <= total * (256 * 2 ^ 44 + 228)) by nia.
  nia.
Qed.
