(* ===== verification/JsSort.v ===== *)
(** * [Array.prototype.sort] and comparators

    A comparator is a function to Z whose sign is the sign of the number the
    source returns.  The language promises a stable sort for a consistent
    comparator; [sort] is that sort, with the three facts clients use:
    it permutes, it orders, it keeps equal elements in their order. *)

From S2P Require Import Prelude JsString.
From Stdlib Require Import Lia.

Definition comparator (A : Type) := A -> A -> Z.

(** What ECMA-262 calls a consistent comparator: a total preorder. *)
Class Consistent {A} (cmp : comparator A) : Prop := {
  cmp_refl a : cmp a a = 0%Z;
  cmp_antisym a b : Z.sgn (cmp a b) = (- Z.sgn (cmp b a))%Z;
  cmp_trans a b c : (cmp a b <= 0 -> cmp b c <= 0 -> cmp a c <= 0)%Z;
}.

Definition cmp_le {A} (cmp : comparator A) (a b : A) : Prop := (cmp a b <= 0)%Z.

Section Sort.
Context {A : Type} (cmp : comparator A).

Fixpoint insert_sorted (x : A) (l : list A) : list A :=
  match l with
  | [] => [x]
  | y :: l => if (cmp x y <=? 0)%Z then x :: y :: l else y :: insert_sorted x l
  end.

Definition sort (l : list A) : list A := foldr insert_sorted [] l.

Lemma insert_sorted_perm x l : insert_sorted x l ≡ₚ x :: l.
Proof.
  induction l as [|y l IH]; cbn; [done|]. case_match; [done|]. rewrite IH. constructor.
Qed.

Lemma sort_perm l : sort l ≡ₚ l.
Proof. induction l as [|x l IH]; cbn; [done|]. by rewrite insert_sorted_perm, IH. Qed.

Lemma elem_of_sort x l : x ∈ sort l <-> x ∈ l.
Proof. by rewrite sort_perm. Qed.

Lemma sort_length l : length (sort l) = length l.
Proof. by rewrite sort_perm. Qed.

Lemma sort_nil l : sort l = [] <-> l = [].
Proof.
  split; [|by intros ->]. intros H. apply Permutation_nil_r. by rewrite <-H, sort_perm.
Qed.

Context `{!Consistent cmp}.

#[export] Instance cmp_le_trans : Transitive (cmp_le cmp).
Proof. intros a b c. apply cmp_trans. Qed.

Lemma cmp_gt_le a b : (0 < cmp a b -> cmp b a <= 0)%Z.
Proof. pose proof (cmp_antisym (cmp:=cmp) a b). lia. Qed.

Lemma cmp_eq_sym a b : cmp a b = 0%Z -> cmp b a = 0%Z.
Proof. pose proof (cmp_antisym (cmp:=cmp) a b). lia. Qed.

Lemma insert_sorted_sorted x l :
  StronglySorted (cmp_le cmp) l -> StronglySorted (cmp_le cmp) (insert_sorted x l).
Proof.
  induction 1 as [|y l Hl IH Hy]; cbn; [repeat constructor|].
  destruct (Z.leb_spec (cmp x y) 0) as [Hle|Hgt].
  - constructor; [by constructor|]. constructor; [done|].
    eapply Forall_impl; [exact Hy|]. intros z Hz. by eapply cmp_trans.
  - constructor; [done|]. apply Forall_forall. intros z.
    rewrite insert_sorted_perm. rewrite elem_of_cons. intros [->|Hz].
    + by apply cmp_gt_le.
    + rewrite Forall_forall in Hy. auto.
Qed.

Lemma sort_sorted l : StronglySorted (cmp_le cmp) (sort l).
Proof. induction l; cbn; [constructor|]. by apply insert_sorted_sorted. Qed.

(** Stability: the elements equal to [e] keep their order. *)
Definition same (e x : A) : bool := (cmp e x =? 0)%Z.

Lemma insert_sorted_stable e x l :
  StronglySorted (cmp_le cmp) l ->
  List.filter (same e) (insert_sorted x l) = List.filter (same e) (x :: l).
Proof.
  induction 1 as [|y l Hl IH Hy]; [done|]. cbn [insert_sorted].
  destruct (Z.leb_spec (cmp x y) 0) as [Hle|Hgt]; [done|].
  cbn in IH |- *. rewrite IH.
  unfold same. destruct (Z.eqb_spec (cmp e y) 0) as [Hey|]; [|done].
  destruct (Z.eqb_spec (cmp e x) 0) as [Hex|]; [|done]. exfalso.
  apply cmp_eq_sym in Hex. pose proof (cmp_trans (cmp:=cmp) x e y). lia.
Qed.

Lemma sort_stable e l : List.filter (same e) (sort l) = List.filter (same e) l.
Proof.
  induction l as [|x l IH]; [done|]. change (sort (x :: l)) with (insert_sorted x (sort l)).
  rewrite insert_sorted_stable by apply sort_sorted. cbn. by rewrite IH.
Qed.

(** A sorted list is its own sort. *)
Lemma sort_id l : StronglySorted (cmp_le cmp) l -> sort l = l.
Proof.
  induction 1 as [|x l Hl IH Hx]; [done|].
  change (sort (x :: l)) with (insert_sorted x (sort l)). rewrite IH.
  destruct l as [|y l]; [done|]. cbn. inversion Hx as [|? ? Hxy]; subst.
  unfold cmp_le in Hxy. by destruct (Z.leb_spec (cmp x y) 0); [|lia].
Qed.
End Sort.

(** Leaving rows out before or after a stable sort is the same. *)
Lemma filter_insert_sorted {A} (cmp : comparator A) `{!Consistent cmp} (p : A -> bool) x l :
  StronglySorted (cmp_le cmp) l ->
  List.filter p (insert_sorted cmp x l)
  = if p x then insert_sorted cmp x (List.filter p l) else List.filter p l.
Proof.
  induction 1 as [|y l Hl IH Hy]; cbn [insert_sorted List.filter]; [by destruct (p x)|].
  destruct (Z.leb_spec (cmp x y) 0) as [Hle|Hgt]; cbn [List.filter].
  - destruct (p x); [|done]. destruct (p y); cbn [insert_sorted].
    + by destruct (Z.leb_spec (cmp x y) 0); [|lia].
    + assert (Hall : Forall (fun z => cmp x z <= 0)%Z (List.filter p l)).
      { apply Forall_forall. intros z [Hz _]%elem_of_filter_bool. rewrite Forall_forall in Hy.
        eapply cmp_trans; [exact Hle|by apply Hy]. }
      destruct Hall as [|z l' Hz _]; [done|]. cbn [insert_sorted].
      by destruct (Z.leb_spec (cmp x z) 0); [|lia].
  - rewrite IH. destruct (p y), (p x); cbn [insert_sorted]; try done.
    by destruct (Z.leb_spec (cmp x y) 0); [lia|].
Qed.

Lemma filter_sort {A} (cmp : comparator A) `{!Consistent cmp} (p : A -> bool) l :
  List.filter p (sort cmp l) = sort cmp (List.filter p l).
Proof.
  induction l as [|x l IH]; [done|]. change (sort cmp (x :: l)) with (insert_sorted cmp x (sort cmp l)).
  rewrite (filter_insert_sorted cmp p x (sort cmp l) (sort_sorted cmp l)). cbn. rewrite IH. by destruct (p x).
Qed.

(** Only the signs a comparator gives to the elements themselves matter. *)
Lemma insert_sorted_ext {A} (f g : comparator A) x l :
  (forall y, y ∈ l -> Z.sgn (f x y) = Z.sgn (g x y)) -> insert_sorted f x l = insert_sorted g x l.
Proof.
  induction l as [|y l IH]; intros H; cbn; [done|].
  assert (Hy : Z.sgn (f x y) = Z.sgn (g x y)) by (apply H; left).
  replace (g x y <=? 0)%Z with (f x y <=? 0)%Z by (destruct (Z.leb_spec (f x y) 0), (Z.leb_spec (g x y) 0); lia).
  rewrite IH; [done|]. intros z Hz. apply H. by right.
Qed.

Lemma sort_ext {A} (f g : comparator A) l :
  (forall x y, x ∈ l -> y ∈ l -> Z.sgn (f x y) = Z.sgn (g x y)) -> sort f l = sort g l.
Proof.
  induction l as [|x l IH]; intros H; [done|].
  change (insert_sorted f x (sort f l) = insert_sorted g x (sort g l)).
  rewrite IH by (intros ????; apply H; by right). apply insert_sorted_ext.
  intros y ?%elem_of_sort. apply H; [left|by right].
Qed.

(** Two arrivals of the same rows sort alike when the comparator tells the
    rows apart. *)
Lemma sort_arrival {A} (cmp : comparator A) `{!Consistent cmp} l l' :
  l ≡ₚ l' -> (forall x y, x ∈ l -> y ∈ l -> cmp x y = 0%Z -> x = y) -> sort cmp l = sort cmp l'.
Proof.
  intros Hp Hsep. apply (StronglySorted_unique_strong (cmp_le cmp)).
  - intros x y Hx%elem_of_sort Hy%elem_of_sort Hxy Hyx. rewrite <-Hp in Hy. apply Hsep; [done..|].
    unfold cmp_le in *. pose proof (cmp_antisym (cmp := cmp) x y). lia.
  - apply sort_sorted, _.
  - apply sort_sorted, _.
  - by rewrite !sort_perm.
Qed.

Lemma sorted_weaken {A} (R R' : A -> A -> Prop) l :
  (forall a b, R a b -> R' a b) -> StronglySorted R l -> StronglySorted R' l.
Proof.
  intros HR. induction 1 as [|x l Hl IH Hx]; constructor; [done|]. eapply Forall_impl; eauto.
Qed.

Lemma sorted_lookup {A} (R : A -> A -> Prop) l i j a b :
  StronglySorted R l -> l !! i = Some a -> l !! j = Some b -> i < j -> R a b.
Proof.
  intros Hs. revert i j. induction Hs as [|x l Hl IH Hx]; intros [|i] [|j] Hi Hj Hij; try done; try lia.
  - injection Hi as <-. rewrite Forall_forall in Hx. apply Hx. by eapply list_elem_of_lookup_2.
  - apply (IH i j); [done..|lia].
Qed.

(** ** Building comparators *)

(** [f(a) || g(a)] over two comparisons. *)
Definition cmp_then {A} (f g : comparator A) : comparator A :=
  fun a b => if (f a b =? 0)%Z then g a b else f a b.

Definition cmp_on {A B} (h : A -> B) (f : comparator B) : comparator A :=
  fun a b => f (h a) (h b).

#[export] Instance cmp_then_consistent {A} (f g : comparator A) :
  Consistent f -> Consistent g -> Consistent (cmp_then f g).
Proof.
  intros Hf Hg. split; unfold cmp_then.
  - intros a. rewrite cmp_refl. cbn. apply cmp_refl.
  - intros a b. pose proof (cmp_antisym (cmp:=f) a b).
    destruct (Z.eqb_spec (f a b) 0), (Z.eqb_spec (f b a) 0); try lia. apply cmp_antisym.
  - intros a b c Hab Hbc.
    pose proof (cmp_trans (cmp:=f) a b c). pose proof (cmp_trans (cmp:=g) a b c).
    pose proof (cmp_trans (cmp:=f) b c a). pose proof (cmp_trans (cmp:=f) c a b).
    pose proof (cmp_antisym (cmp:=f) a b). pose proof (cmp_antisym (cmp:=f) b c).
    pose proof (cmp_antisym (cmp:=f) a c).
    destruct (Z.eqb_spec (f a b) 0), (Z.eqb_spec (f b c) 0), (Z.eqb_spec (f a c) 0); lia.
Qed.

#[export] Instance cmp_on_consistent {A B} (h : A -> B) (f : comparator B) :
  Consistent f -> Consistent (cmp_on h f).
Proof.
  intros Hf. split; unfold cmp_on; intros; [apply cmp_refl|apply cmp_antisym|by eapply cmp_trans].
Qed.

(** [b - a] and [a - b] on exact numbers. *)
Definition cmp_asc : comparator Z := fun a b => (a - b)%Z.
Definition cmp_desc : comparator Z := fun a b => (b - a)%Z.

#[export] Instance cmp_asc_consistent : Consistent cmp_asc.
Proof. split; unfold cmp_asc; lia. Qed.
#[export] Instance cmp_desc_consistent : Consistent cmp_desc.
Proof. split; unfold cmp_desc; lia. Qed.

(** ** [String.prototype.localeCompare]

    The collation is the engine's (ECMA-402 leaves it to the implementation
    and its locale data); ECMA-262 requires it to be a consistent comparator,
    and nothing else is used. *)
Class Collation := {
  localeCompare : comparator jstring;
  localeCompare_consistent :: Consistent localeCompare;
}.

(** Code-unit order, a collation the specification permits. *)
Fixpoint unit_compare (a b : jstring) : Z :=
  match a, b with
  | [], [] => 0
  | [], _ => -1
  | _, [] => 1
  | x :: a, y :: b =>
      if (x =? y)%N then unit_compare a b else if (x <? y)%N then -1 else 1
  end%Z.

#[export] Instance unit_compare_consistent : Consistent unit_compare.
Proof.
  split.
  - intros a; induction a as [|x a IH]; cbn; [done|]. by rewrite N.eqb_refl.
  - intros a; induction a as [|x a IH]; intros [|y b]; cbn; try done.
    rewrite (N.eqb_sym y x). destruct (N.eqb_spec x y); [apply IH|].
    destruct (N.ltb_spec x y), (N.ltb_spec y x); lia.
  - intros a; induction a as [|x a IH]; intros [|y b] [|z c]; cbn; try lia.
    destruct (N.eqb_spec x y), (N.eqb_spec y z), (N.eqb_spec x z); subst; try lia;
      try (apply IH); try (by repeat case_match);
      repeat (match goal with |- context [(?a <? ?b)%N] => destruct (N.ltb_spec a b) end); try lia.
Qed.

Definition collation_reference : Collation :=
  {| localeCompare := unit_compare; localeCompare_consistent := _ |}.
