(* ===== verification/JsRegex.v ===== *)
(** * Regular expressions of the console

    The fragment of ECMAScript patterns the source tests strings against:
    character classes, sequence, alternation, [*], [^], [$], [\b] and negative
    lookahead.  [RegExp.prototype.test] only asks whether some match exists,
    so the meaning of a pattern is a relation between positions ([rmatch]);
    [ends] enumerates it and [test] runs it. *)

From S2P Require Import Prelude JsString.
From Stdlib Require Import Lia.

(** A position in the input: the units before it, nearest first, and after. *)
Abbreviation position := (jstring * jstring)%type.

Inductive regex :=
  | REmpty
  | RClass (p : N -> bool)
  | RSeq (r1 r2 : regex)
  | RAlt (r1 r2 : regex)
  | RStar (r : regex)
  | RStart                      (** [^] *)
  | REnd                        (** [$] *)
  | RBoundary                   (** [\b] *)
  | RNot (r : regex).           (** [(?!r)] *)

Definition at_boundary (x : position) : bool :=
  let before := match x.1 with c :: _ => is_word c | [] => false end in
  let after := match x.2 with c :: _ => is_word c | [] => false end in
  xorb before after.

(** ** Meaning *)

Fixpoint rmatch (r : regex) (x y : position) : Prop :=
  match r with
  | REmpty => x = y
  | RClass p => exists c a, x.2 = c :: a /\ p c = true /\ y = (c :: x.1, a)
  | RSeq r1 r2 => exists z, rmatch r1 x z /\ rmatch r2 z y
  | RAlt r1 r2 => rmatch r1 x y \/ rmatch r2 x y
  | RStar r => rtc (rmatch r) x y
  | RStart => x.1 = [] /\ x = y
  | REnd => x.2 = [] /\ x = y
  | RBoundary => at_boundary x = true /\ x = y
  | RNot r => (~ exists z, rmatch r x z) /\ x = y
  end.

(** Some match starts at some position of [s]. *)
Definition matches_in (r : regex) (s : jstring) : Prop :=
  exists a b y, s = a ++ b /\ rmatch r (rev a, b) y.

(** ** Execution *)

(** An iteration of [*] that consumes nothing is dropped, so the number of
    units left bounds the iterations. *)
Fixpoint star_ends (step : position -> list position) (fuel : nat) (x : position)
    : list position :=
  match fuel with
  | 0 => [x]
  | S fuel =>
      x :: concat (star_ends step fuel
                     <$> List.filter (fun y => length y.2 <? length x.2)%nat (step x))
  end.

Fixpoint ends (r : regex) (x : position) : list position :=
  match r with
  | REmpty => [x]
  | RClass p =>
      match x.2 with
      | c :: a => if p c then [(c :: x.1, a)] else []
      | [] => []
      end
  | RSeq r1 r2 => concat (ends r2 <$> ends r1 x)
  | RAlt r1 r2 => ends r1 x ++ ends r2 x
  | RStar r => star_ends (ends r) (length x.2) x
  | RStart => match x.1 with [] => [x] | _ => [] end
  | REnd => match x.2 with [] => [x] | _ => [] end
  | RBoundary => if at_boundary x then [x] else []
  | RNot r => match ends r x with [] => [x] | _ => [] end
  end.

Definition matches_at (r : regex) (x : position) : bool :=
  match ends r x with [] => false | _ => true end.

Fixpoint test_from (r : regex) (before after : jstring) : bool :=
  matches_at r (before, after)
  || match after with [] => false | c :: after => test_from r (c :: before) after end.

(** [r.test(s)]. *)
Definition test (r : regex) (s : jstring) : bool := test_from r [] s.

(** ** The executable matcher is the relation *)

Lemma rmatch_advances r x y :
  rmatch r x y -> exists w, x.2 = w ++ y.2 /\ y.1 = rev w ++ x.1.
Proof.
  assert (Hid : forall x : position, exists w, x.2 = w ++ x.2 /\ x.1 = rev w ++ x.1)
    by (intros z; by exists []).
  assert (Htr : forall x y z : position,
    (exists w, x.2 = w ++ y.2 /\ y.1 = rev w ++ x.1) ->
    (exists w, y.2 = w ++ z.2 /\ z.1 = rev w ++ y.1) ->
    exists w, x.2 = w ++ z.2 /\ z.1 = rev w ++ x.1).
  { intros ? ? ? (w1 & H1 & H2) (w2 & H3 & H4). exists (w1 ++ w2).
    rewrite H1, H3, H4, H2, rev_app_distr. by rewrite <-!app_assoc. }
  revert x y; induction r; cbn; intros x y.
  - intros ->. apply Hid.
  - intros (c & a & Hx & _ & ->). by exists [c].
  - intros (z & ? & ?). eauto.
  - intros [?|?]; eauto.
  - induction 1; eauto.
  - intros [_ ->]. apply Hid.
  - intros [_ ->]. apply Hid.
  - intros [_ ->]. apply Hid.
  - intros [_ ->]. apply Hid.
Qed.

Lemma rmatch_length r x y : rmatch r x y -> length y.2 <= length x.2.
Proof. intros (w & -> & _)%rmatch_advances. rewrite length_app. lia. Qed.

Lemma rmatch_stuck r x y : rmatch r x y -> length y.2 = length x.2 -> x = y.
Proof.
  intros (w & H2 & H1)%rmatch_advances Hl. rewrite H2, length_app in Hl.
  destruct w; cbn in *; [|lia]. destruct x, y; cbn in *; congruence.
Qed.

Lemma elem_of_filter_lt (x y : position) l :
  y ∈ List.filter (fun y => length y.2 <? length x.2)%nat l <-> y ∈ l /\ length y.2 < length x.2.
Proof. by rewrite list_elem_of_In, filter_In, <-list_elem_of_In, Nat.ltb_lt. Qed.

Lemma star_ends_spec r n x y :
  (forall x y, y ∈ ends r x <-> rmatch r x y) -> length x.2 <= n ->
  y ∈ star_ends (ends r) n x <-> rtc (rmatch r) x y.
Proof.
  intros Hr. revert x; induction n as [|n IH]; intros x Hx; cbn.
  - rewrite list_elem_of_singleton. split; [intros ->; constructor|].
    induction 1 as [|x z y Hxz _ IHz]; [done|].
    pose proof (rmatch_length _ _ _ Hxz). rewrite IHz by lia.
    symmetry. apply (rmatch_stuck r); [done|lia].
  - rewrite elem_of_cons, elem_of_concat. split.
    + intros [->|(l & Hl & (z & -> & [Hz Hlt]%elem_of_filter_lt)%list_elem_of_fmap)];
        [constructor|].
      apply IH in Hl; [|lia]. econstructor; [by apply Hr|done].
    + induction 1 as [|x z y Hxz Hzy IHz]; [by left|].
      pose proof (rmatch_length _ _ _ Hxz).
      destruct (decide (length z.2 = length x.2)) as [E|E].
      * apply (rmatch_stuck r) in Hxz as <-; auto.
      * right. exists (star_ends (ends r) n z). split; [apply IH; [lia|done]|].
        apply list_elem_of_fmap. exists z. split; [done|].
        apply elem_of_filter_lt. split; [by apply Hr|lia].
Qed.

(** Soundness and completeness of the matcher. *)
Lemma ends_spec r x y : y ∈ ends r x <-> rmatch r x y.
Proof.
  revert x y; induction r as [|p|r1 IH1 r2 IH2|r1 IH1 r2 IH2|r IH| | | |r IH]; cbn; intros x y.
  - rewrite list_elem_of_singleton. naive_solver.
  - destruct x as [b [|c a]]; cbn.
    + rewrite elem_of_nil. split; [done|]. by intros (? & ? & ? & _).
    + destruct (p c) eqn:E; [rewrite list_elem_of_singleton|rewrite elem_of_nil]; split.
      * intros ->. by exists c, a.
      * by intros (? & ? & [= <- <-] & _ & ->).
      * done.
      * intros (? & ? & [= <- <-] & ? & _). congruence.
  - rewrite elem_of_concat. setoid_rewrite list_elem_of_fmap. naive_solver.
  - rewrite elem_of_app. naive_solver.
  - by apply star_ends_spec.
  - destruct x as [[|c b] a]; cbn; rewrite ?list_elem_of_singleton, ?elem_of_nil; naive_solver.
  - destruct x as [b [|c a]]; cbn; rewrite ?list_elem_of_singleton, ?elem_of_nil; naive_solver.
  - destruct (at_boundary x); rewrite ?list_elem_of_singleton, ?elem_of_nil; naive_solver.
  - destruct (ends r x) as [|z l] eqn:E.
    + rewrite list_elem_of_singleton. split; [|naive_solver].
      intros ->. split; [|done]. intros [z Hz%IH]. rewrite E in Hz. by apply elem_of_nil in Hz.
    + rewrite elem_of_nil. split; [done|]. intros [H _]. apply H. exists z.
      apply IH. rewrite E. left.
Qed.

Lemma matches_at_spec r x : matches_at r x = true <-> exists y, rmatch r x y.
Proof.
  unfold matches_at. setoid_rewrite <-ends_spec. destruct (ends r x) as [|z l].
  - split; [done|]. intros [y Hy]. by apply elem_of_nil in Hy.
  - split; [|done]. intros _. exists z. left.
Qed.

Lemma test_from_spec r before after :
  test_from r before after = true <->
  exists a b y, after = a ++ b /\ rmatch r (rev a ++ before, b) y.
Proof.
  revert before; induction after as [|c after IH]; intros before.
  - change (test_from r before []) with (matches_at r (before, []) || false).
    rewrite orb_false_r, matches_at_spec. split.
    + intros [y Hy]. by exists [], [], y.
    + intros (a & b & y & [-> ->]%eq_sym%app_nil & Hy). by exists y.
  - change (test_from r before (c :: after))
      with (matches_at r (before, c :: after) || test_from r (c :: before) after).
    rewrite orb_true_iff, matches_at_spec, IH. split.
    + intros [[y Hy]|(a & b & y & -> & Hy)].
      * by exists [], (c :: after), y.
      * exists (c :: a), b, y. split; [done|]. cbn. by rewrite <-app_assoc.
    + intros ([|d a] & b & y & Heq & Hy); cbn in *.
      * left. subst. by exists y.
      * right. simplify_eq. exists a, b, y. by rewrite <-app_assoc in Hy.
Qed.

Lemma test_spec r s : test r s = true <-> matches_in r s.
Proof.
  unfold test, matches_in. rewrite test_from_spec. by setoid_rewrite app_nil_r.
Qed.

(** ** Patterns *)

Definition rchar (c : N) : regex := RClass (N.eqb c).
Definition ascii_upper (c : N) : N := if is_lower c then (c - 32)%N else c.
(** An ASCII pattern character under the [i] flag: without the [u] flag no
    unit above 127 folds onto it. *)
Definition rchar_i (c : N) : regex := RClass (fun d => ascii_upper d =? ascii_upper c)%N.

Definition rlit (s : jstring) : regex := foldr (fun c r => RSeq (rchar c) r) REmpty s.
Definition rlit_i (s : jstring) : regex := foldr (fun c r => RSeq (rchar_i c) r) REmpty s.
Definition rseq (rs : list regex) : regex := foldr RSeq REmpty rs.
Definition ralt (rs : list regex) : regex :=
  match rs with [] => RClass (fun _ => false) | r :: rs => foldl RAlt r rs end.
Definition rplus (r : regex) : regex := RSeq r (RStar r).
Definition ropt (r : regex) : regex := RAlt r REmpty.
Definition rspaces : regex := RStar (RClass is_space).        (** [\s*] *)
Definition rdigits : regex := rplus (RClass is_digit).        (** [\d+] *)

(** A literal matches exactly its own text. *)
Lemma rlit_match s x y : rmatch (rlit s) x y <-> x.2 = s ++ y.2 /\ y.1 = rev s ++ x.1.
Proof.
  revert x y; induction s as [|c s IH]; intros x y; cbn.
  - destruct x, y; cbn. naive_solver.
  - setoid_rewrite IH. split.
    + intros (z & (d & a & Hx & <-%N.eqb_eq & ->) & Ha & Hb); cbn in *.
      rewrite Hx, Ha, Hb. split; [done|]. by rewrite <-app_assoc.
    + intros [Hx Hy]. exists (c :: x.1, s ++ y.2); cbn.
      split; [exists c, (s ++ y.2); rewrite N.eqb_refl; auto|].
      split; [done|]. by rewrite Hy, <-app_assoc.
Qed.

(** A pattern anchored by [^] can only match at the start. *)
Lemma test_anchored r s : test (RSeq RStart r) s = matches_at r ([], s).
Proof.
  apply Bool.eq_iff_eq_true. rewrite test_spec, matches_at_spec. split.
  - intros (a & b & y & -> & z & [Ha <-] & Hy); cbn in *.
    destruct a as [|c a]; [by exists y|]. cbn in Ha. by destruct (rev a).
  - intros [y Hy]. exists [], s, y. split; [done|]. exists ([], s). done.
Qed.

#[export] Hint Rewrite test_anchored : console.
