(* ===== verification/Session.v ===== *)
(** * The console session (lib/session.ts)

    The cookie that carries the token, which paths need it, where the token
    is attached, and the two redirects around signing in. *)

From S2P Require Import Prelude JsString JsValue.
From Stdlib Require Import Lia.

Definition SESSION_COOKIE : jstring := u "vodoge_session".
Definition SESSION_ENDPOINT : jstring := u "/v1/auth/session".
Definition GATEWAY_PREFIX : jstring := u "/v1".

Definition PUBLIC_PATHS : list jstring :=
  [ u "/login"; u "/api/auth/login"; u "/api/auth/logout";
    u "/unknown-tenant"; u "/not-a-tenant" ].

(** [httpOnly: true], [sameSite: "lax"] and [path: "/"] are literal types in
    the source; a date is its time value. *)
Record CookieAttributes := {
  ck_name : jstring;
  ck_value : jstring;
  ck_httpOnly : bool;
  ck_sameSite : jstring;
  ck_secure : bool;
  ck_path : jstring;
  ck_maxAge : option Z;
  ck_expires : option num;
}.

Definition isPublicPath (pathname : jstring) : bool :=
  existsb (fun allowed => jeqb pathname allowed || startsWith pathname (allowed ++ u "/"))
    PUBLIC_PATHS.

Definition sessionCookie (token : jstring) (expiresAt : num) (secure : bool)
    : CookieAttributes := {|
  ck_name := SESSION_COOKIE;
  ck_value := token;
  ck_httpOnly := true;
  ck_sameSite := u "lax";
  ck_secure := secure;
  ck_path := u "/";
  ck_maxAge := None;
  ck_expires := Some expiresAt;
|}.

Definition clearedSessionCookie (secure : bool) : CookieAttributes := {|
  ck_name := SESSION_COOKIE;
  ck_value := [];
  ck_httpOnly := true;
  ck_sameSite := u "lax";
  ck_secure := secure;
  ck_path := u "/";
  ck_maxAge := Some 0%Z;
  ck_expires := None;
|}.

(** A header object literal: names with their values. *)
Abbreviation header_fields := (list (jstring * jstring)).

Definition bearerHeader (token : option jstring) : header_fields :=
  match trim <$> token with
  | Some trimmed =>
      if jeqb trimmed [] then [] else [(u "authorization", u "Bearer " ++ trimmed)]
  | None => []
  end.

Definition gatewayAuthHeader (pathname : jstring) (token : option jstring) : header_fields :=
  if negb (startsWith pathname (GATEWAY_PREFIX ++ u "/")) then [] else bearerHeader token.

(** [p.startsWith("/") && !p.startsWith("//")]. *)
Definition local_path (p : jstring) : bool :=
  startsWith p (u "/") && negb (startsWith p (u "//")).

Definition loginRedirect (pathname : jstring) : res jstring :=
  let safe := if local_path pathname then pathname else u "/" in
  if jeqb safe (u "/") || isPublicPath safe then Ok (u "/login")
  else e ← encodeURIComponent safe; Ok (u "/login?next=" ++ e).

Definition safeNext (next : option jstring) : jstring :=
  match next with
  | None => u "/"
  | Some n =>
      if jeqb n [] || negb (startsWith n (u "/")) || startsWith n (u "//") then u "/" else n
  end.

Inductive ConsoleRole := admin | readonly.
#[export] Instance ConsoleRole_eq_dec : EqDecision ConsoleRole.
Proof. solve_decision. Defined.

Definition mayWrite (role : ConsoleRole) : bool := bool_decide (role = admin).

Definition roleFromSessionBody (body : jsval) : ConsoleRole :=
  if not_object body then readonly
  else if bool_decide (prop body (u "role") = VStr (u "admin")) then admin else readonly.

(** ** Public paths *)

Lemma isPublicPath_spec p :
  isPublicPath p = true <->
  exists a, a ∈ PUBLIC_PATHS /\ (p = a \/ exists t, p = a ++ u "/" ++ t).
Proof.
  unfold isPublicPath. rewrite existsb_elem.
  setoid_rewrite orb_true_iff. setoid_rewrite jeqb_eq. setoid_rewrite startsWith_spec.
  by setoid_rewrite <-app_assoc.
Qed.

(** ** The token header *)

Lemma bearerHeader_cases token :
  bearerHeader token = [] \/
  exists t, t <> [] /\ bearerHeader token = [(u "authorization", u "Bearer " ++ t)].
Proof.
  unfold bearerHeader. destruct token as [t|]; cbn; [|by left].
  destruct (jeqb (trim t) []) eqn:E; [by left|]. right. apply jeqb_neq in E. eauto.
Qed.

Lemma gatewayAuthHeader_only_gateway p token :
  gatewayAuthHeader p token <> [] -> exists t, p = u "/v1/" ++ t.
Proof.
  unfold gatewayAuthHeader. destruct (startsWith p _) eqn:E; [|done]. intros _.
  by apply startsWith_spec in E.
Qed.

(** ** Redirects *)

Lemma local_path_spec p :
  local_path p = true <-> exists t, p = u "/" ++ t /\ forall t', t <> u "/" ++ t'.
Proof.
  unfold local_path. rewrite andb_true_iff, negb_true_iff, startsWith_spec,
    <-not_true_iff_false, startsWith_spec. split.
  - intros [[t ->] H]. exists t. split; [done|]. intros t' ->. apply H. by exists t'.
  - intros (t & -> & H). split; [by exists t|]. intros [t' [= Ht]]. by apply (H t').
Qed.

Lemma safeNext_local n : local_path (safeNext n) = true.
Proof.
  destruct n as [n|]; [|done]. unfold safeNext.
  destruct (jeqb n [] || negb (startsWith n (u "/")) || startsWith n (u "//")) eqn:E; [done|].
  apply orb_false_iff in E as [[_ E1%negb_false_iff]%orb_false_iff E2].
  unfold local_path. by rewrite E1, E2.
Qed.

Lemma safeNext_id n : local_path n = true -> safeNext (Some n) = n.
Proof.
  unfold local_path, safeNext. rewrite andb_true_iff, negb_true_iff. intros [E1 E2].
  rewrite E1, E2. destruct (jeqb n []) eqn:E; [|done].
  apply jeqb_eq in E. subst. done.
Qed.

(** How a browser reads a relative reference against an http(s) page (the
    WHATWG URL parser): tabs and newlines are dropped, leading controls and
    spaces are skipped, and a backslash counts as a slash; two slashes then
    start a host. *)
Definition url_strip (s : jstring) : jstring :=
  List.filter (fun c => negb ((c =? 9) || (c =? 10) || (c =? 13))%N) s.
Definition url_slash (c : N) : bool := ((c =? 47) || (c =? 92))%N.
Fixpoint skip_controls (s : jstring) : jstring :=
  match s with
  | c :: s' => if (c <=? 32)%N then skip_controls s' else s
  | [] => []
  end.
Definition network_path (s : jstring) : bool :=
  match url_strip (skip_controls s) with
  | c :: d :: _ => url_slash c && url_slash d
  | _ => false
  end.

(** Characters the browser rewrites before it looks for a host. *)
Definition url_plain (s : jstring) : bool :=
  forallb (fun c => negb ((c =? 9) || (c =? 10) || (c =? 13) || (c =? 92))%N) s.

Lemma url_strip_plain s : url_plain s = true -> url_strip s = s.
Proof.
  induction s as [|c s IH]; cbn; [done|]. intros [Hc Hs]%andb_true_iff.
  rewrite negb_true_iff, !orb_false_iff in Hc. destruct Hc as [[[-> ->] ->] _]. cbn.
  f_equal. by apply IH.
Qed.

Lemma local_path_same_site p :
  local_path p = true -> url_plain p = true -> network_path p = false.
Proof.
  intros (t & -> & Ht)%local_path_spec Hp. unfold network_path.
  change (skip_controls (u "/" ++ t)) with (u "/" ++ t).
  rewrite url_strip_plain by done. change (u "/" ++ t) with (47%N :: t) in *.
  destruct t as [|c t]; [done|].
  change (url_slash c = false). unfold url_slash.
  destruct (N.eqb_spec c 47) as [->|]; [by destruct (Ht t)|].
  change (negb ((c =? 9) || (c =? 10) || (c =? 13) || (c =? 92))%N && url_plain t = true) in Hp.
  rewrite andb_true_iff, negb_true_iff, !orb_false_iff in Hp.
  by destruct Hp as [[_ ->] _].
Qed.

(** ** Properties *)

(** C33. A visitor sent to sign in comes back: for every path of this site
    that needs a session, the redirect is [/login?next=] followed by text
    free of [&], [#], [?] and [+], whose decoding is the path itself, and
    [safeNext] accepts that path unchanged. *)
Theorem loginRedirect_roundtrip p :
  latin1 p -> local_path p = true -> p <> u "/" -> isPublicPath p = false ->
  exists e, loginRedirect p = Ok (u "/login?next=" ++ e)
    /\ (38 ∉ e /\ 35 ∉ e /\ 63 ∉ e /\ 43 ∉ e)%N
    /\ decodeURIComponent e = Ok p
    /\ safeNext (Some p) = p.
Proof.
  intros Hl Hp Hroot Hpub. destruct (latin1_encodes p Hl) as [e He]. exists e.
  unfold loginRedirect. rewrite Hp, Hpub, (proj2 (jeqb_neq p (u "/")) Hroot). cbn. rewrite He. cbn.
  pose proof (latin1_units16 p Hl) as Hu.
  split_and!; eauto using encode_no_char, decode_encode, safeNext_id.
Qed.

Lemma loginRedirect_roundtrip_witness :
  let p := u "/devices/a b" in
  exists e, loginRedirect p = Ok (u "/login?next=" ++ e)
    /\ (38 ∉ e /\ 35 ∉ e /\ 63 ∉ e /\ 43 ∉ e)%N
    /\ decodeURIComponent e = Ok p
    /\ safeNext (Some p) = p.
Proof.
  intros p. apply (loginRedirect_roundtrip p).
  - by apply (bool_decide_unpack (latin1 p)).
  - reflexivity.
  - discriminate.
  - reflexivity.
Defined.

(** The destination after signing in is always a path of this site as
    far as its own text says: it starts with one slash and not two, whatever
    was asked for, and a browser reads it as this site's as long as it holds
    no backslash, tab or newline. *)
Theorem safeNext_stays_here next :
  local_path (safeNext next) = true
  /\ (url_plain (safeNext next) = true -> network_path (safeNext next) = false).
Proof.
  split; [apply safeNext_local|]. intros. apply local_path_same_site; [apply safeNext_local|done].
Qed.

(** That proviso is needed: [safeNext] returns [/\evil.example]
    unchanged, and a browser resolves it to another host. *)
Theorem safeNext_backslash_leaves :
  exists next, safeNext (Some next) = next /\ network_path (safeNext (Some next)) = true.
Proof. by exists (u "/\evil.example"). Qed.
