(* ===== verification/Host.v ===== *)
(** * Which tenant a request is for (lib/host.ts)

    The host a request names, the tenant label in it, and the address of the
    caller as the reverse proxies report it.  Header readers are functions
    from a lower-case name; the capitalised spelling the source tries second
    is the same header. *)

From S2P Require Import Prelude JsString JsRegex.
From Stdlib Require Import Lia.

Definition DEFAULT_BASE_DOMAIN : jstring := u "vodoge.com".
Definition OPERATOR_SLUG : jstring := u "a".
Definition OPERATOR_TENANT_ID : jstring := u "a0000000-0000-4000-8000-00000000000a".
Definition CLIENT_ADDRESS_HEADER : jstring := u "x-vodoge-client-address".

Inductive HostClassification :=
  | CApex (host : jstring)
  | CTenant (host slug : jstring)
  | CUnknown (host : jstring).

Inductive TenantRouteDecision := RouteApex | RouteNotFound | RouteTenant.

#[export] Instance HostClassification_eq_dec : EqDecision HostClassification.
Proof. solve_decision. Defined.
#[export] Instance TenantRouteDecision_eq_dec : EqDecision TenantRouteDecision.
Proof. solve_decision. Defined.

Definition HeaderReader := jstring -> option jstring.

(** [/^\d+$/]. *)
Definition all_digits : regex := rseq [RStart; rdigits; REnd].

Definition stripPort (host : jstring) : jstring :=
  let trimmed := trim host in
  let rest :=
    match lastIndexOf 58 trimmed with
    | Some colon =>
        if (0 <? colon)%nat && test all_digits (drop (colon + 1) trimmed)
        then take colon trimmed else trimmed
    | None => trimmed
    end in
  if startsWith trimmed (u "[") then
    match indexOf 93 trimmed with
    | Some e => take (e - 1) (drop 1 trimmed)
    | None => rest
    end
  else rest.

Definition trustsForwardedHost (value : option jstring) : bool :=
  jeqb (trim (default [] value)) (u "1").

Definition requestHost (headers : HeaderReader) (trustForwarded : bool) : jstring :=
  let direct := trim (default [] (headers (u "host"))) in
  if trustForwarded then
    match headers (u "x-forwarded-host") with
    | Some forwarded =>
        if jeqb forwarded [] then direct
        else match split_on 44 forwarded with
             | w :: _ => trim w
             | [] => []
             end
    | None => direct
    end
  else direct.

Definition normaliseAddress (value : option jstring) : option jstring :=
  let trimmed := trim (default [] value) in
  if jeqb trimmed [] then None
  else let stripped := stripPort trimmed in
       if jeqb stripped [] then None else Some stripped.

Definition forwardedClientAddress (headers : HeaderReader) : option jstring :=
  match normaliseAddress (headers (u "cf-connecting-ip")) with
  | Some direct => Some direct
  | None =>
      match headers (u "x-forwarded-for") with
      | None => None
      | Some chain => if jeqb chain [] then None else normaliseAddress (last (split_on 44 chain))
      end
  end.

Section Slug.
Context `{CaseMapping}.

Definition normalizeBaseDomain (baseDomain : option jstring) : jstring :=
  let base := toLowerCase (trim (default [] baseDomain)) in
  if jeqb base [] then DEFAULT_BASE_DOMAIN else base.

(** The slug, or [None] for [{ slug: "", ok: false }]. *)
Definition slugFromHost (host baseDomain : jstring) : option jstring :=
  let normalized := toLowerCase (stripPort host) in
  if jeqb normalized [] then None else
  let base := normalizeBaseDomain (Some baseDomain) in
  if jeqb normalized base || jeqb normalized (u "www." ++ base) then None else
  let suffix := u "." ++ base in
  if negb (endsWith normalized suffix) then None else
  let slug := take (length normalized - length suffix) normalized in
  if jeqb slug [] || has_char 46 slug then None else Some slug.

Definition classifyHost (host baseDomain : jstring) : HostClassification :=
  let normalized := toLowerCase (stripPort host) in
  let base := normalizeBaseDomain (Some baseDomain) in
  if jeqb normalized [] then CUnknown normalized
  else if jeqb normalized base || jeqb normalized (u "www." ++ base) then CApex normalized
  else match slugFromHost normalized base with
       | None => CUnknown normalized
       | Some slug => CTenant normalized slug
       end.
End Slug.

Definition decideTenantRoute (classification : HostClassification) (tenant_slug : option jstring)
    : TenantRouteDecision :=
  match classification with
  | CApex _ => RouteApex
  | CUnknown _ => RouteNotFound
  | CTenant _ slug =>
      match tenant_slug with
      | Some s => if jeqb s slug then RouteTenant else RouteNotFound
      | None => RouteNotFound
      end
  end.

Example strip_v4 : stripPort (u " a.vodoge.com:8443 ") = u "a.vodoge.com". Proof. reflexivity. Qed.
Example strip_v6 : stripPort (u "[2001:db8::1]:443") = u "2001:db8::1". Proof. reflexivity. Qed.
Example strip_name : stripPort (u "a.vodoge.com:x") = u "a.vodoge.com:x". Proof. reflexivity. Qed.

(** ** Lemmas *)

Lemma stripPort_Forall (P : N -> Prop) h : Forall P h -> Forall P (stripPort h).
Proof.
  intros Hh%trim_Forall. unfold stripPort.
  assert (Hr : Forall P (match lastIndexOf 58 (trim h) with
    | Some colon => if (0 <? colon)%nat && test all_digits (drop (colon + 1) (trim h))
                    then take colon (trim h) else trim h
    | None => trim h end)).
  { destruct (lastIndexOf 58 (trim h)); [|done]. case_match; [by apply Forall_take|done]. }
  destruct (startsWith (trim h) (u "[")); [|exact Hr].
  destruct (indexOf 93 (trim h)); [|exact Hr].
  by apply Forall_take, Forall_drop.
Qed.

Lemma latin1_lower_space c : is_space (latin1_lower c) = is_space c.
Proof.
  unfold latin1_lower, is_upper.
  destruct ((_ && _) || _) eqn:E; [|done].
  assert (H : (65 <= c <= 90 \/ 0xC0 <= c <= 0xDE)%N).
  { rewrite ?orb_true_iff, ?andb_true_iff, ?N.leb_le in E. lia. }
  assert (Hc : forall d, (d <=? 0xDE + 32)%N && (65 <=? d)%N = true -> (d < 0xA0 \/ 0xC0 <= d)%N ->
    is_space d = false).
  { intros d Hd Hg. rewrite andb_true_iff, !N.leb_le in Hd. unfold is_space.
    rewrite !orb_false_iff, !andb_false_iff, ?N.leb_gt, ?N.eqb_neq. lia. }
  rewrite !Hc; [done|..]; rewrite ?andb_true_iff, ?N.leb_le; lia.
Qed.

Lemma trim_start_fmap_lower (s : jstring) : trim_start (latin1_lower <$> s) = latin1_lower <$> trim_start s.
Proof.
  induction s as [|c s IH]; [done|]. cbn. rewrite latin1_lower_space.
  by destruct (is_space c).
Qed.

Lemma trim_fmap_lower (s : jstring) : trim (latin1_lower <$> s) = latin1_lower <$> trim s.
Proof.
  unfold trim, trim_end. rewrite trim_start_fmap_lower.
  replace (rev (latin1_lower <$> trim_start s)) with (latin1_lower <$> rev (trim_start s))
    by apply map_rev.
  rewrite trim_start_fmap_lower. symmetry. apply map_rev.
Qed.

Lemma fmap_lower_idem (s : jstring) : latin1_lower <$> (latin1_lower <$> s) = latin1_lower <$> s.
Proof.
  rewrite <-list_fmap_compose. apply list_fmap_ext. intros ? ? _. apply latin1_lower_idem.
Qed.

Section SlugLemmas.
Context `{CaseMapping}.

Lemma lower_latin1 s : latin1 s -> latin1 (toLowerCase s).
Proof.
  intros Hs. rewrite toLowerCase_latin1 by done. apply Forall_fmap.
  eapply Forall_impl; [exact Hs|]. intros c. apply latin1_lower_bound.
Qed.

Lemma lower_idem s : latin1 s -> toLowerCase (toLowerCase s) = toLowerCase s.
Proof.
  intros Hs. rewrite (toLowerCase_latin1 (toLowerCase s)) by (by apply lower_latin1).
  rewrite toLowerCase_latin1 by done. apply fmap_lower_idem.
Qed.

Lemma normalizeBaseDomain_idem b :
  latin1 b -> normalizeBaseDomain (Some (normalizeBaseDomain (Some b)))
              = normalizeBaseDomain (Some b).
Proof.
  intros Hb. unfold normalizeBaseDomain. cbn.
  assert (Ht : latin1 (trim b)) by (by apply trim_Forall).
  destruct (jeqb (toLowerCase (trim b)) []) eqn:E.
  - change (trim DEFAULT_BASE_DOMAIN) with DEFAULT_BASE_DOMAIN. rewrite toLowerCase_latin1; [reflexivity|].
    by apply (bool_decide_unpack (latin1 _)).
  - assert (Hi : toLowerCase (trim (toLowerCase (trim b))) = toLowerCase (trim b)).
    { rewrite (toLowerCase_latin1 (trim b)), trim_fmap_lower, trim_idem by done.
      rewrite <-(toLowerCase_latin1 (trim b)) by done. by apply lower_idem. }
    by rewrite Hi, E.
Qed.

(** The host grammar: one label in front of the base domain. *)
Lemma slug_cut n base s :
  endsWith n (u "." ++ base) = true ->
  take (length n - length (u "." ++ base)) n = s <-> n = s ++ u "." ++ base.
Proof.
  intros [t ->]%endsWith_spec. rewrite length_app, Nat.add_sub, take_app_length.
  split; [congruence|]. by intros ?%app_inv_tail.
Qed.

Lemma slugFromHost_iff host b s :
  slugFromHost host b = Some s <->
  toLowerCase (stripPort host) = s ++ u "." ++ normalizeBaseDomain (Some b)
  /\ s <> [] /\ (46 ∉ s)%N /\ s <> u "www".
Proof.
  unfold slugFromHost. set (n := toLowerCase (stripPort host)).
  set (base := normalizeBaseDomain (Some b)). split.
  - destruct (jeqb n []); [done|].
    destruct (jeqb n base || jeqb n (u "www." ++ base)) eqn:Ew; [done|].
    apply orb_false_iff in Ew as [_ Ew%jeqb_neq].
    destruct (endsWith n (u "." ++ base)) eqn:Ee; [|done]. cbn [negb].
    destruct (jeqb _ [] || has_char 46 _) eqn:Es; [done|].
    apply orb_false_iff in Es as [Es1%jeqb_neq Es2%has_char_false].
    intros Hs%(inj Some). rewrite Hs in Es1, Es2. apply slug_cut in Hs; [|done].
    split_and!; [done..|]. intros ->. by rewrite Hs in Ew.
  - intros (Hn & Hs & Hd & Hw).
    assert (Hne : jeqb n [] = false).
    { apply jeqb_neq. rewrite Hn. by destruct s. }
    assert (Hnb : jeqb n base = false).
    { apply jeqb_neq. rewrite Hn. intros Hl%(f_equal length).
      rewrite !length_app in Hl. change (length (u ".")) with 1 in Hl. lia. }
    assert (Hnw : jeqb n (u "www." ++ base) = false).
    { apply jeqb_neq. rewrite Hn. intros Hl.
      change (u "www." ++ base) with (u "www" ++ u "." ++ base) in Hl.
      by apply app_inv_tail in Hl. }
    assert (He : endsWith n (u "." ++ base) = true) by (apply endsWith_spec; by exists s).
    rewrite Hne, Hnb, Hnw, He. cbn [negb orb].
    rewrite (proj2 (slug_cut n base s He) Hn).
    by rewrite (proj2 (jeqb_neq s []) Hs), (proj2 (has_char_false 46 s) Hd).
Qed.

Lemma classifyHost_tenant h b n s :
  latin1 b ->
  classifyHost h b = CTenant n s <->
  n = toLowerCase (stripPort h) /\ n <> normalizeBaseDomain (Some b)
  /\ n <> u "www." ++ normalizeBaseDomain (Some b) /\ slugFromHost n b = Some s.
Proof.
  intros Hb. unfold classifyHost. set (m := toLowerCase (stripPort h)).
  set (base := normalizeBaseDomain (Some b)).
  assert (Hsl : slugFromHost m base = slugFromHost m b).
  { unfold slugFromHost. subst base. by rewrite normalizeBaseDomain_idem. }
  rewrite Hsl. destruct (jeqb m []) eqn:E0.
  { split; [done|]. intros (-> & _ & _ & Hs). apply jeqb_eq in E0. rewrite E0 in Hs.
    unfold slugFromHost in Hs. change (stripPort []) with (@nil N) in Hs.
    rewrite toLowerCase_latin1 in Hs by constructor. done. }
  destruct (jeqb m base) eqn:E1; [apply jeqb_eq in E1|apply jeqb_neq in E1].
  { split; [done|]. by intros (-> & ? & _). }
  destruct (jeqb m (u "www." ++ base)) eqn:E2; [apply jeqb_eq in E2|apply jeqb_neq in E2];
    cbn [orb].
  { split; [done|]. by intros (-> & _ & ? & _). }
  destruct (slugFromHost m b) as [s'|] eqn:Es; split; try done.
  - by intros [= <- <-].
  - intros (-> & _ & _ & [= ->]%(eq_trans (eq_sym Es))). done.
  - intros (-> & _ & _ & Hs). congruence.
Qed.
End SlugLemmas.

Lemma decideTenantRoute_tenant c t :
  decideTenantRoute c t = RouteTenant <-> exists h s, c = CTenant h s /\ t = Some s.
Proof.
  destruct c as [h|h s|h]; cbn; try naive_solver.
  destruct t as [t|]; [|naive_solver]. destruct (jeqb t s) eqn:E.
  - apply jeqb_eq in E. naive_solver.
  - apply jeqb_neq in E. naive_solver.
Qed.

Lemma normaliseAddress_some v a :
  normaliseAddress v = Some a -> a <> [] /\ exists w, v = Some w /\ a = stripPort (trim w).
Proof.
  unfold normaliseAddress. destruct v as [w|]; cbn; [|done].
  destruct (jeqb (trim w) []); [done|]. destruct (jeqb (stripPort (trim w)) []) eqn:E; [done|].
  intros [= <-]. apply jeqb_neq in E. eauto.
Qed.

(** The last piece of a split is what follows the last separator. *)
Lemma last_split_on c s :
  exists p w, last (split_on c s) = Some w /\ s = p ++ w /\ c ∉ w
    /\ (p = [] \/ exists p', p = p' ++ [c]).
Proof.
  induction s as [|d s (p & w & Hl & -> & Hw & Hp)].
  - exists [], []. split_and!; [done|done|apply not_elem_of_nil|by left].
  - cbn. destruct (N.eqb_spec d c) as [->|Hd].
    + exists (c :: p), w. destruct (split_on_cons c (p ++ w)) as (x & xs & Hx).
      rewrite Hx in *. split_and!; [done..|].
      right. destruct Hp as [->|[p' ->]]; [by exists []|by exists (c :: p')].
    + destruct Hp as [->|[p' ->]]; cbn.
      * rewrite split_on_nosep in * by done. cbn in *. simplify_eq.
        exists [], (d :: w). split_and!; [done|done| |by left].
        rewrite not_elem_of_cons. auto.
      * exists ((d :: p') ++ [c]), w. rewrite <-(app_assoc p') in *. cbn in *.
        destruct (split_on c (p' ++ c :: w)) as [|x [|y l]] eqn:E; cbn in *; try done.
        -- simplify_eq. pose proof (join_split c (p' ++ c :: w)) as Hj.
           rewrite E in Hj. cbn in Hj. exfalso. apply (f_equal length) in Hj.
           rewrite length_app in Hj. cbn in Hj. lia.
        -- split_and!; [done|by rewrite <-app_assoc|done|right; by exists (d :: p')].
Qed.

(** ** Properties *)

Section Properties.
Context `{CaseMapping}.

(** C34. For a host and a base domain in Latin-1, of which the host has no
    second port (see [classifyHost_two_ports] for one that has), a request is
    for tenant [s] exactly when its host, without port and folded to lower
    case, is one label [s] in front of the base domain: not empty, no dot in
    it, and not [www].  Everything else, the bare domain and deeper subdomains
    included, is no tenant. *)
Theorem classifyHost_grammar h b n s :
  latin1 h -> latin1 b ->
  stripPort (toLowerCase (stripPort h)) = toLowerCase (stripPort h) ->
  classifyHost h b = CTenant n s <->
  n = toLowerCase (stripPort h) /\ n = s ++ u "." ++ normalizeBaseDomain (Some b)
  /\ s <> [] /\ (46 ∉ s)%N /\ s <> u "www".
Proof.
  intros Hh Hb Hp. rewrite classifyHost_tenant by done.
  setoid_rewrite slugFromHost_iff. set (base := normalizeBaseDomain (Some b)).
  assert (Hs : latin1 (stripPort h)) by (by apply stripPort_Forall).
  split.
  - intros (-> & _ & _ & Hn & ?). rewrite Hp, lower_idem in Hn by done. auto.
  - intros (-> & Hn & Hs0 & Hd & Hw). rewrite Hp, lower_idem by done.
    split_and!; try done; rewrite Hn.
    + intros Hl%(f_equal length). rewrite !length_app in Hl.
      change (length (u ".")) with 1 in Hl. lia.
    + change (u "www." ++ base) with (u "www" ++ u "." ++ base). by intros ?%app_inv_tail.
Qed.
End Properties.

Lemma classifyHost_grammar_witness :
  let h := u "Ops.VoDoge.com:8443" in
  let b := u "vodoge.com" in
  @classifyHost lower_reference h b = CTenant (u "ops.vodoge.com") (u "ops").
Proof.
  intros h b. apply (@classifyHost_grammar lower_reference h b).
  - by apply (bool_decide_unpack (latin1 h)).
  - by apply (bool_decide_unpack (latin1 b)).
  - vm_compute. reflexivity.
  - split_and!.
    + vm_compute. reflexivity.
    + vm_compute. reflexivity.
    + discriminate.
    + apply (bool_decide_unpack (46 ∉ u "ops")%N). vm_compute. done.
    + discriminate.
Defined.

(** The proviso on the port is needed: with two ports [classifyHost]
    strips both, one per call of [stripPort], and names a tenant, while
    [slugFromHost] on the same host strips one and names none. *)
Theorem classifyHost_two_ports :
  let h := u "a.vodoge.com:1:2" in
  @classifyHost lower_reference h DEFAULT_BASE_DOMAIN = CTenant (u "a.vodoge.com:1") (u "a")
  /\ @slugFromHost lower_reference h DEFAULT_BASE_DOMAIN = None.
Proof. split; vm_compute; reflexivity. Qed.

(** The address passed on for rate limiting is never made up and never
    the caller's to choose past the last hop: when there is one it is not
    empty, and it is the [cf-connecting-ip] header or, failing that, what
    follows the last comma of [x-forwarded-for], trimmed and without its
    port. *)
Theorem forwardedClientAddress_derived (headers : HeaderReader) a :
  forwardedClientAddress headers = Some a ->
  a <> [] /\ exists w, a = stripPort (trim w) /\
    (headers (u "cf-connecting-ip") = Some w \/
     normaliseAddress (headers (u "cf-connecting-ip")) = None /\
     exists p, headers (u "x-forwarded-for") = Some (p ++ w) /\ (44 ∉ w)%N
       /\ (p = [] \/ exists p', p = p' ++ u ",")).
Proof.
  unfold forwardedClientAddress.
  destruct (normaliseAddress (headers (u "cf-connecting-ip"))) as [d|] eqn:Ed.
  - intros [= ->]. apply normaliseAddress_some in Ed as (? & w & ? & ?). eauto 6.
  - destruct (headers (u "x-forwarded-for")) as [chain|] eqn:Ec; [|done].
    destruct (jeqb chain []); [done|]. intros (Ha & w & Hw & ->)%normaliseAddress_some.
    split; [done|]. exists w. split; [done|]. right. split; [done|].
    destruct (last_split_on 44 chain) as (p & w' & Hl & -> & Hc & Hp).
    assert (w' = w) as -> by congruence. exists p. done.
Qed.

Lemma forwardedClientAddress_derived_witness :
  let headers : HeaderReader := fun k =>
    if jeqb k (u "x-forwarded-for") then Some (u "6.6.6.6, 203.0.113.9:51234") else None in
  forwardedClientAddress headers = Some (u "203.0.113.9") /\ u "203.0.113.9" <> [].
Proof.
  intros headers. assert (Hf : forwardedClientAddress headers = Some (u "203.0.113.9"))
    by (vm_compute; reflexivity).
  split; [exact Hf|]. exact (proj1 (forwardedClientAddress_derived headers _ Hf)).
Defined.
