(* ===== verification/Fetch.v ===== *)
(** * [fetch], [Headers] and the environment

    The platform around the console's own code: what a request carries, what
    [fetch] can answer, the [Headers] map, and [process.env].  [fetch] itself
    is a parameter of every definition that calls it, as it is in the
    source. *)

From S2P Require Import Prelude JsString JsValue.
From Stdlib Require Import Lia.

Record request := {
  rq_url : jstring;
  rq_method : jstring;
  rq_headers : list (jstring * jstring);
  rq_body : option jsval;             (** the value given to JSON.stringify *)
  rq_timeout : Z;                     (** AbortSignal.timeout, milliseconds *)
}.

(** A rejected call (network error, timeout), or a response whose body is
    JSON or is not. *)
Inductive fetch_result :=
  | Rejected
  | Response (status : Z) (json : option jsval).

Definition fetch_fn := request -> fetch_result.

(** [response.ok]. *)
Definition status_ok (status : Z) : bool := ((200 <=? status) && (status <=? 299))%Z.

(** [await response.json()]. *)
Definition body_json (json : option jsval) : res jsval :=
  match json with Some v => Ok v | None => Throw SyntaxError end.

(** [process.env]. *)
Definition environment := jstring -> option jstring.

(** [process.env.X?.trim() || d]. *)
Definition env_or (env : environment) (name d : jstring) : jstring :=
  match trim <$> env name with
  | Some v => if jeqb v [] then d else v
  | None => d
  end.

(** ** Headers

    A map from lower-case names.  [set] strips HTTP white space at both ends
    and refuses what a ByteString or a field value cannot hold. *)
Abbreviation Headers := (gmap jstring jstring).

Definition http_space (c : N) : bool := ((c =? 9) || (c =? 10) || (c =? 13) || (c =? 32))%N.
Fixpoint http_strip_start (s : jstring) : jstring :=
  match s with
  | c :: s' => if http_space c then http_strip_start s' else s
  | [] => []
  end.
Definition http_strip (s : jstring) : jstring :=
  rev (http_strip_start (rev (http_strip_start s))).
Definition field_value (s : jstring) : bool :=
  forallb (fun c => (c <? 256) && negb ((c =? 0) || (c =? 10) || (c =? 13)))%N s.

Definition headers_set (name value : jstring) (h : Headers) : res Headers :=
  let v := http_strip value in
  if field_value v then Ok (<[name := v]> h) else Throw TypeError.

Fixpoint headers_set_all (fields : list (jstring * jstring)) (h : Headers) : res Headers :=
  match fields with
  | [] => Ok h
  | (name, value) :: fields => h' ← headers_set name value h; headers_set_all fields h'
  end.

Lemma headers_set_ok name value h h' :
  headers_set name value h = Ok h' <->
  field_value (http_strip value) = true /\ h' = <[name := http_strip value]> h.
Proof. unfold headers_set. destruct (field_value _); naive_solver. Qed.

Lemma headers_set_all_other fields h h' name :
  headers_set_all fields h = Ok h' -> name ∉ fields.*1 -> h' !! name = h !! name.
Proof.
  revert h; induction fields as [|[n v] fields IH]; intros h; cbn.
  - by intros [= ->].
  - intros (h1 & [_ ->]%headers_set_ok & H)%res_bind_ok. rewrite not_elem_of_cons.
    intros [Hn Hf]. rewrite (IH _ H Hf). by apply lookup_insert_ne.
Qed.
