(* ===== verification/Tenant.v ===== *)
(** * Tenants and the tenant directory (lib/tenant.ts)

    The slug cache in front of the gateway's tenant lookup.  [resolve] awaits
    the lookup in the middle, so it is two synchronous halves; [dir_step] lets
    the halves of many requests interleave in any order. *)

From S2P Require Import Prelude JsString JsValue Fetch.
From Stdlib Require Import Lia.

Inductive TenantRegion := cn | intl.
#[export] Instance TenantRegion_eq_dec : EqDecision TenantRegion.
Proof. solve_decision. Defined.

Record Tenant := {
  tenant_id : jstring;
  slug : jstring;
  region : TenantRegion;
  status : jstring;
}.
#[export] Instance Tenant_eq_dec : EqDecision Tenant.
Proof. solve_decision. Defined.

(** The names of [TENANT_HEADER]. *)
Definition TENANT_HEADER_id : jstring := u "x-vodoge-tenant-id".
Definition TENANT_HEADER_slug : jstring := u "x-vodoge-slug".
Definition TENANT_HEADER_region : jstring := u "x-vodoge-region".
Definition TENANT_HEADER_status : jstring := u "x-vodoge-status".
Definition TENANT_HEADER_pathname : jstring := u "x-vodoge-pathname".

Definition DEFAULT_GATEWAY_URL : jstring := u "http://127.0.0.1:18080".

(** [isTenantRegion], with the region it narrows to. *)
Definition isTenantRegion (value : jstring) : option TenantRegion :=
  if jeqb value (u "cn") then Some cn
  else if jeqb value (u "intl") then Some intl else None.

Definition region_name (r : TenantRegion) : jstring :=
  match r with cn => u "cn" | intl => u "intl" end.

Definition gatewayBaseUrl (env : environment) : jstring :=
  env_or env (u "VODOGE_GATEWAY_URL") DEFAULT_GATEWAY_URL.

(** A string that is not empty. *)
Definition nonempty_string (v : jsval) : option jstring :=
  match v with VStr s => if jeqb s [] then None else Some s | _ => None end.

Section Tenants.
Context `{CaseMapping}.

Definition parseTenant (body : jsval) : option Tenant :=
  if not_object body then None else
  tid ← nonempty_string (prop body (u "tenant_id"));
  sl ← nonempty_string (prop body (u "slug"));
  rg ← (match prop body (u "region") with VStr r => isTenantRegion r | _ => None end);
  st ← nonempty_string (prop body (u "status"));
  Some {| tenant_id := tid; slug := toLowerCase sl; region := rg; status := st |}.

(** ** TenantCache *)

Abbreviation TenantCache := (gmap jstring Tenant).

Definition cache_lookup (c : TenantCache) (sl : jstring) : option Tenant := c !! sl.

(** [store]: the cache afterwards and the boolean it returns. *)
Definition cache_store (c : TenantCache) (t : Tenant) : TenantCache * bool :=
  match c !! slug t with
  | Some existing =>
      if bool_decide (region existing <> region t) then (c, false)
      else (<[slug t := t]> c, true)
  | None => (<[slug t := t]> c, true)
  end.

(** ** TenantDirectory.resolve *)

(** Up to the [await]: an answer, or the key to look up. *)
Definition resolve_begin (c : TenantCache) (sl : jstring) : option Tenant + jstring :=
  let key := toLowerCase (trim sl) in
  if jeqb key [] then inl None
  else match cache_lookup c key with
       | Some cached => inl (Some cached)
       | None => inr key
       end.

(** After the [await], with what the lookup settled to. *)
Definition resolve_end (c : TenantCache) (key : jstring) (looked_up : res (option Tenant))
    : TenantCache * res (option Tenant) :=
  match looked_up with
  | Throw e => (c, Throw e)
  | Ok None => (c, Ok None)
  | Ok (Some t) =>
      if negb (jeqb (slug t) key) then (c, Ok None)
      else let c' := (cache_store c t).1 in
           (c', Ok (Some (default t (cache_lookup c' key))))
  end.

(** One call with nothing in between. *)
Definition resolve (ask : jstring -> res (option Tenant)) (c : TenantCache) (sl : jstring)
    : TenantCache * res (option Tenant) :=
  match resolve_begin c sl with
  | inl answer => (c, Ok answer)
  | inr key => resolve_end c key (ask key)
  end.

(** ** createGatewayLookup *)

(** [baseUrl.replace(/\/+$/, "")]. *)
Fixpoint drop_slashes (s : jstring) : jstring :=
  match s with
  | c :: s' => if (c =? 47)%N then drop_slashes s' else s
  | [] => []
  end.
Definition strip_trailing_slashes (s : jstring) : jstring := rev (drop_slashes (rev s)).

Definition createGatewayLookup (baseUrl : jstring) (fetchImpl : fetch_fn) (sl : jstring)
    : res (option Tenant) :=
  let base := strip_trailing_slashes baseUrl in
  e ← encodeURIComponent sl;
  match fetchImpl {| rq_url := base ++ u "/v1/tenants/" ++ e; rq_method := u "GET";
                     rq_headers := [(u "accept", u "application/json")];
                     rq_body := None; rq_timeout := 2500 |} with
  | Rejected => Throw NetworkError
  | Response st json =>
      if (st =? 404)%Z then Ok None
      else if negb (status_ok st) then Throw GenericError
      else body ← body_json json;
           match parseTenant body with
           | Some t => Ok (Some t)
           | None => Throw GenericError
           end
  end.

(** ** Interleaved requests *)

(** Requests waiting for their lookup, and the answers already returned,
    each under the request's number; [asked] is the key it resolved. *)
Record dir_state := {
  cache : TenantCache;
  waiting : gmap nat jstring;
  answers : list (nat * jstring * res (option Tenant));
}.

Inductive dir_step : dir_state -> dir_state -> Prop :=
  | step_answer s n sl a :
      waiting s !! n = None ->
      resolve_begin (cache s) sl = inl a ->
      dir_step s {| cache := cache s; waiting := waiting s;
                    answers := (n, toLowerCase (trim sl), Ok a) :: answers s |}
  | step_wait s n sl key :
      waiting s !! n = None ->
      resolve_begin (cache s) sl = inr key ->
      dir_step s {| cache := cache s; waiting := <[n := key]> (waiting s);
                    answers := answers s |}
  | step_settle s n key r c a :
      waiting s !! n = Some key ->
      resolve_end (cache s) key r = (c, a) ->
      dir_step s {| cache := c; waiting := delete n (waiting s);
                    answers := (n, key, a) :: answers s |}.

Definition dir_init : dir_state := {| cache := ∅; waiting := ∅; answers := [] |}.
Definition dir_reachable (s : dir_state) : Prop := rtc dir_step dir_init s.
End Tenants.

Abbreviation TenantCache := (gmap jstring Tenant).

(** ** The cache keeps what it promised *)

(** Every entry of [c] is still there in [c'], in the same region. *)
Definition regions_kept (c c' : TenantCache) : Prop :=
  forall k t, c !! k = Some t -> exists t', c' !! k = Some t' /\ region t' = region t.

#[export] Instance regions_kept_preorder : PreOrder regions_kept.
Proof.
  split.
  - intros c k t Hk. eauto.
  - intros c1 c2 c3 H12 H23 k t Hk. apply H12 in Hk as (t2 & Hk & <-). by apply H23.
Qed.

Definition keyed (c : TenantCache) : Prop := forall k t, c !! k = Some t -> slug t = k.

Lemma cache_store_keyed c t : keyed c -> keyed (cache_store c t).1.
Proof.
  intros Hc k t'. unfold cache_store.
  destruct (c !! slug t) as [ex|]; [case_bool_decide|]; cbn; auto;
    (destruct (decide (k = slug t)) as [->|];
     [rewrite lookup_insert_eq; naive_solver|rewrite lookup_insert_ne by done; auto]).
Qed.

Lemma cache_store_kept c t : regions_kept c (cache_store c t).1.
Proof.
  intros k t' Hk. unfold cache_store.
  destruct (c !! slug t) as [ex|] eqn:Ex; [case_bool_decide as Hr|]; cbn; [by eauto| |];
    (destruct (decide (k = slug t)) as [->|];
     [rewrite lookup_insert_eq|rewrite lookup_insert_ne by done; by eauto]).
  - assert (ex = t') as -> by congruence. exists t. split; [done|].
    destruct (decide (region t' = region t)); [done|]. by destruct Hr.
  - congruence.
Qed.

(** After a store the slug is there, in the region it had if it had one. *)
Lemma cache_store_present c t :
  exists t', cache_lookup (cache_store c t).1 (slug t) = Some t'.
Proof.
  unfold cache_store, cache_lookup.
  destruct (c !! slug t) as [ex|] eqn:Ex; [case_bool_decide|]; cbn;
    rewrite ?lookup_insert_eq; eauto.
Qed.

Lemma resolve_end_answer c key r c' a :
  keyed c -> resolve_end c key r = (c', a) ->
  keyed c' /\ regions_kept c c' /\
  forall t, a = Ok (Some t) -> slug t = key /\ c' !! key = Some t.
Proof.
  intros Hc. unfold resolve_end. destruct r as [[t|]|e].
  - destruct (jeqb (slug t) key) eqn:E; cbn [negb].
    + apply jeqb_eq in E as <-. intros [= <- <-].
      pose proof (cache_store_keyed c t Hc) as Hk.
      split_and!; [done|apply cache_store_kept|].
      destruct (cache_store_present c t) as [t' Ht']. rewrite Ht'.
      intros t'' [= <-]. split; [by apply Hk|done].
    + by intros [= <- <-].
  - by intros [= <- <-].
  - by intros [= <- <-].
Qed.

Section Directory.
Context `{CaseMapping}.

Record dir_inv (s : dir_state) : Prop := {
  inv_keyed : keyed (cache s);
  inv_answers n key t : (n, key, Ok (Some t)) ∈ answers s ->
    slug t = key /\ exists c, cache s !! key = Some c /\ region c = region t;
}.

Lemma dir_inv_init : dir_inv dir_init.
Proof.
  split; cbn.
  - intros k t. by rewrite lookup_empty.
  - intros n key t Hin. by apply elem_of_nil in Hin.
Qed.

Lemma dir_inv_step s s' : dir_step s s' -> dir_inv s -> dir_inv s'.
Proof.
  intros Hs [Hk Ha]. destruct Hs as [s n sl a _ Hb|s n sl key _ Hb|s n key r c a _ He];
    cbn in *; split; cbn; try done.
  - intros m key t [[= -> -> <-]|Hin]%elem_of_cons; [|eauto].
    unfold resolve_begin in Hb. destruct (jeqb _ []); [done|].
    destruct (cache_lookup (cache s) (toLowerCase (trim sl))) as [c|] eqn:Ec; [|done].
    simplify_eq. split; [by apply Hk|]. eauto.
  - apply resolve_end_answer in He as (? & _); done.
  - apply resolve_end_answer in He as (_ & Hkept & Hans); [|done].
    intros m key' t [[= -> -> <-]|Hin]%elem_of_cons.
    + destruct (Hans t) as [? ?]; [done|]. eauto.
    + destruct (Ha m key' t Hin) as (? & c0 & Hc0 & <-). split; [done|].
      apply Hkept in Hc0 as (c1 & ? & ?). eauto.
Qed.

Lemma dir_inv_reachable s : dir_reachable s -> dir_inv s.
Proof.
  intros Hr. assert (Hg : forall x y, rtc dir_step x y -> dir_inv x -> dir_inv y).
  { intros x y Hxy. induction Hxy; eauto using dir_inv_step. }
  eapply Hg; [exact Hr|apply dir_inv_init].
Qed.

(** ** Properties *)

(** C5. However the lookups of concurrent requests interleave and whatever
    the gateway answers, every tenant handed out for a slug has that slug,
    and all of them name one region: the first region stored for a slug is
    the only one this process ever reports. *)
Theorem directory_region_fixed s key n m t t' :
  dir_reachable s ->
  (n, key, Ok (Some t)) ∈ answers s -> (m, key, Ok (Some t')) ∈ answers s ->
  slug t = key /\ slug t' = key /\ region t = region t'.
Proof.
  intros [_ Hi]%dir_inv_reachable Hn Hm.
  destruct (Hi n key t Hn) as (? & c & Hc & <-).
  destruct (Hi m key t' Hm) as (? & c' & Hc' & <-). split_and!; congruence.
Qed.

(** One resolution: an empty slug and a cached one never reach the
    gateway; a lookup that fails, finds nothing or answers for another slug
    leaves the cache as it was and yields that failure or nothing; any
    other answer is stored and returned when the slug was not cached. *)
Theorem resolve_spec (ask : jstring -> res (option Tenant)) (c : TenantCache) sl :
  let key := toLowerCase (trim sl) in
  resolve ask c sl =
    if jeqb key [] then (c, Ok None)
    else match c !! key with
         | Some t => (c, Ok (Some t))
         | None =>
             match ask key with
             | Throw e => (c, Throw e)
             | Ok None => (c, Ok None)
             | Ok (Some t) =>
                 if jeqb (slug t) key then (<[key := t]> c, Ok (Some t)) else (c, Ok None)
             end
         end.
Proof.
  intros key. unfold resolve, resolve_begin, cache_lookup. subst key.
  destruct (jeqb _ []); [done|]. destruct (c !! _) eqn:Ec; [done|].
  unfold resolve_end. destruct (ask _) as [[t|]|e]; try done.
  destruct (jeqb (slug t) _) eqn:E; cbn [negb]; [|done]. apply jeqb_eq in E.
  unfold cache_store, cache_lookup. rewrite E, Ec. cbn. by rewrite lookup_insert_eq.
Qed.

(** A tenant written as the gateway's JSON is read back as itself. *)
Theorem parseTenant_roundtrip t :
  tenant_id t <> [] -> slug t <> [] -> toLowerCase (slug t) = slug t -> status t <> [] ->
  parseTenant (VObj [(u "tenant_id", VStr (tenant_id t)); (u "slug", VStr (slug t));
                     (u "region", VStr (region_name (region t)));
                     (u "status", VStr (status t))]) = Some t.
Proof.
  destruct t as [i sl rg st]. cbn [tenant_id slug region status].
  intros Hi%jeqb_neq Hs%jeqb_neq Hl Hst%jeqb_neq. unfold parseTenant, prop.
  change (not_object _) with false. cbn -[jeqb u].
  unfold nonempty_string. js_simpl. rewrite Hi, Hs. destruct rg; js_simpl; rewrite Hst; cbn;
    by rewrite Hl.
Qed.
End Directory.

Lemma directory_region_fixed_witness :
  let t := {| tenant_id := u "t1"; slug := u "ops"; region := cn; status := u "active" |} in
  exists s, @dir_reachable lower_reference s /\ (0, u "ops", Ok (Some t)) ∈ answers s
    /\ slug t = u "ops" /\ region t = region t.
Proof.
  intros t.
  assert (Hr : exists s, @dir_reachable lower_reference s /\ (0, u "ops", Ok (Some t)) ∈ answers s).
  { eexists. split.
    - eapply rtc_l.
      { eapply (@step_wait lower_reference _ 0 (u " OPS ")); vm_compute; reflexivity. }
      eapply rtc_l; [|apply rtc_refl].
      eapply (@step_settle lower_reference _ 0 (u "ops") (Ok (Some t)));
        vm_compute; reflexivity.
    - cbn. left. }
  destruct Hr as (s & Hs & Ha). exists s. split; [exact Hs|]. split; [exact Ha|].
  destruct (@directory_region_fixed lower_reference s (u "ops") 0 0 t t Hs Ha Ha) as (? & ? & ?).
  split; assumption.
Defined.

Lemma parseTenant_roundtrip_witness :
  let t := {| tenant_id := u "t1"; slug := u "ops"; region := intl; status := u "active" |} in
  @parseTenant lower_reference
    (VObj [(u "tenant_id", VStr (tenant_id t)); (u "slug", VStr (slug t));
           (u "region", VStr (region_name (region t))); (u "status", VStr (status t))]) = Some t.
Proof.
  intros t. apply (@parseTenant_roundtrip lower_reference t); try discriminate. reflexivity.
Defined.
