(* ===== verification/Middleware.v ===== *)
(** * The request gate (middleware.ts) and the sign-in routes (app/api/auth)

    What happens to a request before a page or the gateway sees it: which
    tenant it is for, whether it needs a session, and which headers it
    carries on. *)

From S2P Require Import Prelude JsString JsValue Session Host Fetch Tenant.
From Stdlib Require Import Lia.

(** The parts of NextRequest the middleware reads; [nr_cookie] is
    [request.cookies.get(SESSION_COOKIE)?.value]. *)
Record NextRequest := {
  nr_headers : Headers;
  nr_pathname : jstring;
  nr_search : jstring;
  nr_https : bool;                    (** nextUrl.protocol === "https:" *)
  nr_cookie : option jstring;
}.

Inductive NextResponse :=
  | Rewrite (pathname search : jstring)
  | Redirect (pathname search : jstring)
  | LookupFailed                      (** 502, "tenant lookup failed" *)
  | Next (headers : Headers).

Definition reader (h : Headers) : HeaderReader := fun name => h !! name.

Section Middleware.
Context `{CaseMapping}.

Definition rewriteUnknown (req : NextRequest) : NextResponse :=
  Rewrite (u "/unknown-tenant") (nr_search req).

(** [const [path, query] = target.split("?")] and the two assignments. *)
Definition redirect_to (target : jstring) : NextResponse :=
  match split_on 63 target with
  | path :: query :: _ => Redirect path (if jeqb query [] then [] else u "?" ++ query)
  | [path] => Redirect path []
  | [] => Redirect (u "/login") []
  end.

Definition forward_headers (req : NextRequest) (tenant : Tenant) : res Headers :=
  let headers := delete CLIENT_ADDRESS_HEADER (nr_headers req) in
  headers ← (match forwardedClientAddress (reader (nr_headers req)) with
             | Some client => headers_set CLIENT_ADDRESS_HEADER client headers
             | None => Ok headers
             end);
  headers ← headers_set_all (gatewayAuthHeader (nr_pathname req) (nr_cookie req)) headers;
  headers_set_all
    [ (TENANT_HEADER_id, tenant_id tenant);
      (TENANT_HEADER_slug, slug tenant);
      (TENANT_HEADER_region, region_name (region tenant));
      (TENANT_HEADER_status, status tenant);
      (TENANT_HEADER_pathname, nr_pathname req) ] headers.

Definition middleware (env : environment) (fetchImpl : fetch_fn) (c : TenantCache)
    (req : NextRequest) : TenantCache * res NextResponse :=
  let host := requestHost (reader (nr_headers req))
                (trustsForwardedHost (env (u "VODOGE_TRUST_FORWARDED_HOST"))) in
  let baseDomain := env_or env (u "VODOGE_BASE_DOMAIN") DEFAULT_BASE_DOMAIN in
  let classification := classifyHost host baseDomain in
  match classification with
  | CApex _ => (c, Ok (Rewrite (u "/not-a-tenant") (nr_search req)))
  | CUnknown _ => (c, Ok (rewriteUnknown req))
  | CTenant _ sl =>
      let '(c, looked_up) := resolve (createGatewayLookup (gatewayBaseUrl env) fetchImpl) c sl in
      match looked_up with
      | Throw _ => (c, Ok LookupFailed)
      | Ok tenant =>
          (c,
           match decideTenantRoute classification (slug <$> tenant), tenant with
           | RouteTenant, Some t =>
               if negb (isPublicPath (nr_pathname req))
                  && match nr_cookie req with Some v => jeqb v [] | None => true end
               then target ← loginRedirect (nr_pathname req); Ok (redirect_to target)
               else h ← forward_headers req t; Ok (Next h)
           | _, _ => Ok (rewriteUnknown req)
           end)
      end
  end.
End Middleware.

(** ** The sign-in and sign-out routes *)

(** Two conversions of the language: [new Date(v).getTime()], and the text a
    value has where a cookie is written. *)
Class Conversions := {
  date_value : jsval -> num;
  to_text : jsval -> res jstring;
  to_text_string s : to_text (VStr s) = Ok s;
}.

(** [NextResponse.json(..)] with the cookie it sets. *)
Record RouteResponse := {
  rr_status : Z;
  rr_error : option jstring;            (** [error] of the body, or [{ ok: true }] *)
  rr_cookie : option CookieAttributes;
}.

Definition route_error (status : Z) (message : jstring) : res RouteResponse :=
  Ok {| rr_status := status; rr_error := Some message; rr_cookie := None |}.
Definition route_ok (cookie : CookieAttributes) : res RouteResponse :=
  Ok {| rr_status := 200; rr_error := None; rr_cookie := Some cookie |}.

Definition clientAddressHeader (req : NextRequest) : list (jstring * jstring) :=
  match forwardedClientAddress (reader (nr_headers req)) with
  | Some client => [(CLIENT_ADDRESS_HEADER, client)]
  | None => []
  end.

(** The request to the gateway: reading a field of a payload that is null
    throws inside the source's [try]. *)
Definition login_request (env : environment) (req : NextRequest) (payload : jsval) : res request :=
  let host := default [] (nr_headers req !! u "host") in
  email ← get payload (u "email");
  password ← get payload (u "password");
  Ok {| rq_url := gatewayBaseUrl env ++ u "/v1/auth/login";
        rq_method := u "POST";
        rq_headers := [(u "content-type", u "application/json"); (u "x-forwarded-host", host)]
                        ++ clientAddressHeader req;
        rq_body := Some (VObj [(u "email", nullish email (VStr []));
                               (u "password", nullish password (VStr []))]);
        rq_timeout := 10000 |}.

(** [!body.token || !body.expires_at]; the cookie takes the token as text. *)
Definition login_answer `{Conversions} (req : NextRequest) (body : jsval) : res RouteResponse :=
  token ← get body (u "token");
  expires ← get body (u "expires_at");
  if negb (truthy token) || negb (truthy expires)
  then route_error 502 (u "sign-in is unavailable")
  else t ← to_text token; route_ok (sessionCookie t (date_value expires) (nr_https req)).

Definition login_POST `{Conversions} (env : environment) (fetchImpl : fetch_fn)
    (req : NextRequest) (json : res jsval) : res RouteResponse :=
  match json with
  | Throw _ => route_error 400 (u "invalid request")
  | Ok payload =>
      match login_request env req payload with
      | Throw _ => route_error 502 (u "sign-in is unavailable")
      | Ok rq =>
          match fetchImpl rq with
          | Rejected => route_error 502 (u "sign-in is unavailable")
          | Response st upstream =>
              if negb (status_ok st)
              then route_error (if (st =? 401)%Z then 401 else 502)
                     (u "email or password is incorrect")
              else body ← body_json upstream; login_answer req body
          end
      end
  end.

(** The gateway call sign-out makes, when there is a token, and the answer;
    a failed call is swallowed. *)
Definition logout_request (env : environment) (req : NextRequest) : option request :=
  match nr_cookie req with
  | Some token =>
      if jeqb token [] then None else
      Some {| rq_url := gatewayBaseUrl env ++ u "/v1/auth/logout";
              rq_method := u "POST";
              rq_headers := (u "x-forwarded-host", default [] (nr_headers req !! u "host"))
                              :: bearerHeader (Some token);
              rq_body := None;
              rq_timeout := 5000 |}
  | None => None
  end.

Definition logout_POST (env : environment) (fetchImpl : fetch_fn) (req : NextRequest)
    : option fetch_result * res RouteResponse :=
  (fetchImpl <$> logout_request env req, route_ok (clearedSessionCookie (nr_https req))).

(** ** Headers that reach the page *)

Lemma headers_set_all_get fields h h' name value :
  headers_set_all fields h = Ok h' -> NoDup fields.*1 -> (name, value) ∈ fields ->
  h' !! name = Some (http_strip value).
Proof.
  revert h; induction fields as [|[n v] fields IH]; intros h; cbn; [by intros _ _ ?%not_elem_of_nil|].
  intros (h1 & [_ ->]%headers_set_ok & H)%res_bind_ok [Hn Hd]%NoDup_cons
    [[= -> ->]|Hin]%elem_of_cons; [|by eapply IH].
  rewrite (headers_set_all_other _ _ _ _ H Hn). apply lookup_insert_eq.
Qed.

(** The names [forward_headers] may write. *)
Definition TENANT_HEADER_names : list jstring :=
  [TENANT_HEADER_id; TENANT_HEADER_slug; TENANT_HEADER_region; TENANT_HEADER_status;
   TENANT_HEADER_pathname].

Lemma TENANT_HEADER_distinct :
  NoDup (CLIENT_ADDRESS_HEADER :: u "authorization" :: TENANT_HEADER_names).
Proof. apply (bool_decide_unpack _). vm_compute. done. Qed.

Lemma gatewayAuthHeader_names p token name :
  name ∈ (gatewayAuthHeader p token).*1 -> name = u "authorization".
Proof.
  unfold gatewayAuthHeader. destruct (negb _); [by intros ?%not_elem_of_nil|].
  destruct (bearerHeader_cases token) as [->|(t & _ & ->)]; [by intros ?%not_elem_of_nil|].
  by intros ?%list_elem_of_singleton.
Qed.

Record headers_forwarded (req : NextRequest) (t : Tenant) (h : Headers) : Prop := {
  hf_client : h !! CLIENT_ADDRESS_HEADER
              = http_strip <$> forwardedClientAddress (reader (nr_headers req));
  hf_id : h !! TENANT_HEADER_id = Some (http_strip (tenant_id t));
  hf_slug : h !! TENANT_HEADER_slug = Some (http_strip (slug t));
  hf_region : h !! TENANT_HEADER_region = Some (region_name (region t));
  hf_status : h !! TENANT_HEADER_status = Some (http_strip (status t));
  hf_pathname : h !! TENANT_HEADER_pathname = Some (http_strip (nr_pathname req));
  hf_bearer rest token :
    nr_pathname req = u "/v1/" ++ rest -> nr_cookie req = Some token -> trim token <> [] ->
    h !! u "authorization" = Some (http_strip (u "Bearer " ++ trim token));
  hf_kept :
    (forall rest, nr_pathname req <> u "/v1/" ++ rest)
    \/ nr_cookie req = None \/ (exists token, nr_cookie req = Some token /\ trim token = []) ->
    h !! u "authorization" = nr_headers req !! u "authorization";
  hf_other name : name ∉ CLIENT_ADDRESS_HEADER :: u "authorization" :: TENANT_HEADER_names ->
                  h !! name = nr_headers req !! name;
}.

Lemma forward_headers_spec req t h :
  forward_headers req t = Ok h -> headers_forwarded req t h.
Proof.
  unfold forward_headers. intros (h1 & H1 & (h2 & H2 & H3)%res_bind_ok)%res_bind_ok.
  pose proof TENANT_HEADER_distinct as Hd.
  apply NoDup_cons in Hd as [Hc Hd]. rewrite not_elem_of_cons in Hc. destruct Hc as [Hca Hct].
  apply NoDup_cons in Hd as [Hat Hd].
  assert (Hset : forall name v, (name, v) ∈ _ -> h !! name = Some (http_strip v))
    by (intros name v; exact (headers_set_all_get _ _ _ name v H3 Hd)).
  assert (H12 : forall name, name <> u "authorization" -> h2 !! name = h1 !! name).
  { intros name Hn. apply (headers_set_all_other _ _ _ _ H2). by intros ?%gatewayAuthHeader_names. }
  assert (H01 : forall name, name <> CLIENT_ADDRESS_HEADER -> h1 !! name = nr_headers req !! name).
  { intros name Hn. destruct (forwardedClientAddress _).
    - apply headers_set_ok in H1 as [_ ->]. by rewrite lookup_insert_ne, lookup_delete_ne.
    - injection H1 as <-. by rewrite lookup_delete_ne. }
  split.
  - rewrite (headers_set_all_other _ _ _ _ H3 Hct), H12 by done.
    destruct (forwardedClientAddress _).
    + apply headers_set_ok in H1 as [_ ->]. apply lookup_insert_eq.
    + injection H1 as <-. apply lookup_delete_eq.
  - apply Hset. left.
  - apply Hset. do 1 right. left.
  - rewrite (Hset TENANT_HEADER_region (region_name (region t))); [by destruct (region t)|].
    do 2 right. left.
  - apply Hset. do 3 right. left.
  - apply Hset. do 4 right. left.
  - intros rest token Hp Hk Ht. rewrite (headers_set_all_other _ _ _ _ H3 Hat).
    assert (Hg : gatewayAuthHeader (nr_pathname req) (nr_cookie req) = [(u "authorization", u "Bearer " ++ trim token)]).
    { unfold gatewayAuthHeader, bearerHeader. rewrite Hk, (proj2 (startsWith_spec _ _)) by (by exists rest).
      cbn. by rewrite (proj2 (jeqb_neq _ _) Ht). }
    rewrite Hg in H2. apply (headers_set_all_get _ _ _ _ _ H2); [apply NoDup_singleton|left].
  - intros Hno. rewrite (headers_set_all_other _ _ _ _ H3 Hat).
    assert (Hg : gatewayAuthHeader (nr_pathname req) (nr_cookie req) = []).
    { unfold gatewayAuthHeader, bearerHeader. destruct Hno as [Hp|[->|(token & -> & Ht)]].
      - destruct (startsWith _ _) eqn:E; [|done]. apply startsWith_spec in E as [rest E]. by destruct (Hp rest).
      - by destruct (negb _).
      - cbn. rewrite Ht. by destruct (negb _). }
    rewrite Hg in H2. injection H2 as <-. by rewrite H01.
  - intros name. rewrite !not_elem_of_cons. intros (Hn1 & Hn2 & Hn3).
    by rewrite (headers_set_all_other _ _ _ _ H3) by done; rewrite H12, H01.
Qed.

(** The route a request takes, as the middleware computes it from its parts. *)
Section Gate.
Context `{CaseMapping}.

Definition request_classification (env : environment) (req : NextRequest) : HostClassification :=
  classifyHost (requestHost (reader (nr_headers req))
                  (trustsForwardedHost (env (u "VODOGE_TRUST_FORWARDED_HOST"))))
               (env_or env (u "VODOGE_BASE_DOMAIN") DEFAULT_BASE_DOMAIN).

Definition signed_in (req : NextRequest) : Prop :=
  exists v, nr_cookie req = Some v /\ v <> [].

(** The two ends of a request for a tenant that exists. *)
Lemma middleware_tenant env fetchImpl c req n s c' t :
  request_classification env req = CTenant n s ->
  resolve (createGatewayLookup (gatewayBaseUrl env) fetchImpl) c s = (c', Ok (Some t)) ->
  slug t = s ->
  middleware env fetchImpl c req =
    (c', if negb (isPublicPath (nr_pathname req))
            && match nr_cookie req with Some v => jeqb v [] | None => true end
         then target ← loginRedirect (nr_pathname req); Ok (redirect_to target)
         else h ← forward_headers req t; Ok (Next h)).
Proof.
  unfold request_classification, middleware. intros -> -> <-. cbn [fmap option_fmap option_map].
  by rewrite (proj2 (decideTenantRoute_tenant _ _)) by eauto.
Qed.

Lemma middleware_next_inv env fetchImpl c req c' h :
  middleware env fetchImpl c req = (c', Ok (Next h)) ->
  exists n s t,
    request_classification env req = CTenant n s /\
    resolve (createGatewayLookup (gatewayBaseUrl env) fetchImpl) c s = (c', Ok (Some t)) /\
    slug t = s /\ (isPublicPath (nr_pathname req) = true \/ signed_in req) /\
    forward_headers req t = Ok h.
Proof.
  unfold middleware. fold (request_classification env req).
  destruct (request_classification env req) as [n|n s|n] eqn:Ec; [done| |done].
  destruct (resolve _ c s) as [c1 [[t|]|e]] eqn:Er; try done.
  destruct (decideTenantRoute _ _) eqn:Ed; try done.
  apply decideTenantRoute_tenant in Ed as (n' & s' & [= <- <-] & Hs). apply (inj Some) in Hs.
  destruct (negb _ && _) eqn:Eg; [by destruct (loginRedirect _) as [x|e]; cbn; [unfold redirect_to; repeat case_match|]|].
  destruct (forward_headers req t) as [h'|] eqn:Ef; cbn; [|done]. intros [= -> ->].
  exists n, s, t. split_and!; try done.
  apply andb_false_iff in Eg as [E%negb_false_iff|E]; [by left|right].
  destruct (nr_cookie req) as [v|] eqn:Ev; [|done]. apply jeqb_neq in E. by exists v.
Qed.
End Gate.

(** ** Properties *)

Section Properties.
Context `{CaseMapping}.

(** C1. A request is let through only when its host names a tenant the
    directory knows under exactly that slug, and the path is public or the
    session cookie is there and not empty.  The headers it then carries are
    determined: the client address the proxy reported or none at all,
    whatever the caller sent; the tenant of the host; on a /v1/ path the
    cookie's token as a bearer token, when it is not blank, and on any other
    path, or without one, the authorization header that came; every other
    header unchanged. *)
Theorem middleware_admits env fetchImpl c req c' h :
  middleware env fetchImpl c req = (c', Ok (Next h)) ->
  exists n s t,
    request_classification env req = CTenant n s /\
    resolve (createGatewayLookup (gatewayBaseUrl env) fetchImpl) c s = (c', Ok (Some t)) /\
    slug t = s /\
    (isPublicPath (nr_pathname req) = true \/ signed_in req) /\
    headers_forwarded req t h.
Proof.
  intros (n & s & t & ? & ? & ? & ? & Hf)%middleware_next_inv.
  apply forward_headers_spec in Hf. by exists n, s, t.
Qed.

(** Every other outcome: a host that names no tenant, and a slug the
    directory does not know, are answered by a rewrite, a failed lookup by
    the 502, and none of these reads the session; a host that names no
    tenant is answered without asking the gateway. *)
Theorem middleware_refuses env fetchImpl c req :
  match request_classification env req with
  | CApex _ =>
      middleware env fetchImpl c req = (c, Ok (Rewrite (u "/not-a-tenant") (nr_search req)))
  | CUnknown _ =>
      middleware env fetchImpl c req = (c, Ok (Rewrite (u "/unknown-tenant") (nr_search req)))
  | CTenant _ s =>
      let '(c', looked_up) := resolve (createGatewayLookup (gatewayBaseUrl env) fetchImpl) c s in
      match looked_up with
      | Throw _ => middleware env fetchImpl c req = (c', Ok LookupFailed)
      | Ok (Some t) =>
          slug t <> s -> middleware env fetchImpl c req
                         = (c', Ok (Rewrite (u "/unknown-tenant") (nr_search req)))
      | Ok None => middleware env fetchImpl c req
                   = (c', Ok (Rewrite (u "/unknown-tenant") (nr_search req)))
      end
  end.
Proof.
  unfold middleware. fold (request_classification env req).
  destruct (request_classification env req) as [n|n s|n] eqn:Ec; [done| |done].
  destruct (resolve _ c s) as [c' [[t|]|e]]; [|done|done]. intros Hs.
  destruct (decideTenantRoute _ _) eqn:Ed; [done..|].
  apply decideTenantRoute_tenant in Ed as (? & ? & [= <- <-] & Ht). by apply (inj Some) in Ht.
Qed.

(** A signed-out visitor of a private path of a tenant is sent to the
    sign-in page with the path they asked for as [next], and the page sends
    them back exactly there when it is a path of this site. *)
Theorem middleware_signed_out env fetchImpl c req n s c' t :
  request_classification env req = CTenant n s ->
  resolve (createGatewayLookup (gatewayBaseUrl env) fetchImpl) c s = (c', Ok (Some t)) ->
  slug t = s -> isPublicPath (nr_pathname req) = false -> ~ signed_in req ->
  latin1 (nr_pathname req) ->
  exists search,
    middleware env fetchImpl c req = (c', Ok (Redirect (u "/login") search)) /\
    (search = [] /\ (local_path (nr_pathname req) = false \/ nr_pathname req = u "/") \/
     exists e, search = u "?next=" ++ e /\
               decodeURIComponent e = Ok (nr_pathname req) /\
               safeNext (Some (nr_pathname req)) = nr_pathname req).
Proof.
  intros Hc Hr Hs Hp Hn Hl. rewrite (middleware_tenant _ _ _ _ _ _ _ _ Hc Hr Hs).
  rewrite Hp. cbn [negb andb].
  assert (Hck : match nr_cookie req with Some v => jeqb v [] | None => true end = true).
  { destruct (nr_cookie req) as [v|] eqn:Ev; [|done]. apply jeqb_eq.
    destruct (decide (v = [])); [done|]. destruct Hn. by exists v. }
  rewrite Hck. unfold loginRedirect.
  destruct (local_path (nr_pathname req)) eqn:El.
  - destruct (jeqb (nr_pathname req) (u "/")) eqn:Er; [apply jeqb_eq in Er|rewrite Hp].
    { exists []. split; [done|]. left. by auto. }
    destruct (latin1_encodes _ Hl) as [e He]. rewrite He. cbn [orb].
    exists (u "?next=" ++ e). split.
    + cbn [mbind res_bind]. f_equal. f_equal. unfold redirect_to.
      change (u "/login?next=" ++ e) with (u "/login" ++ 63%N :: (u "next=" ++ e)).
      rewrite split_on_app by (by apply (bool_decide_unpack (63%N ∉ u "/login"))).
      rewrite split_on_nosep; [done|]. rewrite not_elem_of_app. split.
      * by apply (bool_decide_unpack (63%N ∉ u "next=")).
      * by apply (encode_no_char _ _ 63 (latin1_units16 _ Hl) He).
    + right. exists e. split_and!; [done| |by apply safeNext_id].
      by apply decode_encode; [apply latin1_units16|].
  - exists []. split; [done|]. left. by auto.
Qed.
End Properties.

(** Signing in: a cookie is set only on a 2xx answer of the gateway to
    the credential just posted, and it carries that answer's token; every
    other answer is 400, 401 or 502 without a cookie, and 401 exactly when
    the gateway said 401.  The gateway call names the caller's address as the
    proxy derived it, and carries no address when there is none. *)
Theorem login_POST_outcome `{Conversions} env fetchImpl req payload r :
  login_POST env fetchImpl req payload = Ok r ->
  match rr_cookie r with
  | Some ck =>
      rr_status r = 200 /\ rr_error r = None /\
      exists p rq st body token expires t,
        payload = Ok p /\ login_request env req p = Ok rq /\
        fetchImpl rq = Response st (Some body) /\ status_ok st = true /\
        get body (u "token") = Ok token /\ truthy token = true /\ to_text token = Ok t /\
        get body (u "expires_at") = Ok expires /\ truthy expires = true /\
        ck = sessionCookie t (date_value expires) (nr_https req) /\
        ck_httpOnly ck = true /\
        forall a, (CLIENT_ADDRESS_HEADER, a) ∈ rq_headers rq <->
                  forwardedClientAddress (reader (nr_headers req)) = Some a
  | None =>
      rr_error r <> None /\
      (rr_status r = 400 /\ (exists e, payload = Throw e) \/
       rr_status r = 502 \/
       rr_status r = 401 /\ exists p rq json,
         payload = Ok p /\ login_request env req p = Ok rq /\ fetchImpl rq = Response 401 json)
  end%Z.
Proof.
  unfold login_POST. destruct payload as [p|e]; [|intros [= <-]; cbn; eauto 6].
  destruct (login_request env req p) as [rq|e] eqn:Erq; [|intros [= <-]; cbn; eauto].
  destruct (fetchImpl rq) as [|st json] eqn:Ef; [intros [= <-]; cbn; eauto|].
  destruct (status_ok st) eqn:Est; cbn [negb].
  - destruct json as [body|]; cbn; [|done]. unfold login_answer.
    destruct (get body (u "token")) as [token|] eqn:Et; cbn; [|done].
    destruct (get body (u "expires_at")) as [expires|] eqn:Ee; cbn; [|done].
    destruct (truthy token) eqn:Et'; cbn; [|intros [= <-]; cbn; eauto].
    destruct (truthy expires) eqn:Ee'; cbn; [|intros [= <-]; cbn; eauto].
    destruct (to_text token) as [t|] eqn:Etx; cbn; [|done]. intros [= <-]. cbn.
    split_and!; [done..|]. exists p, rq, st, body, token, expires, t. split_and!; try done.
    intros a. unfold login_request in Erq.
    apply res_bind_ok in Erq as (em & _ & (pw & _ & [= <-])%res_bind_ok). cbn.
    rewrite !elem_of_cons. unfold clientAddressHeader.
    assert (Hc1 : CLIENT_ADDRESS_HEADER <> u "content-type") by (by apply jeqb_neq).
    assert (Hc2 : CLIENT_ADDRESS_HEADER <> u "x-forwarded-host") by (by apply jeqb_neq).
    destruct (forwardedClientAddress _).
    + rewrite list_elem_of_singleton. clear -Hc1 Hc2. split.
      * intros [Hx|[Hx|Hx]]; congruence.
      * intros Hx. right. right. congruence.
    + split; [|done]. intros [Hx|[Hx|Hx%not_elem_of_nil]]; [..|done]; congruence.
  - intros [= <-]. cbn. destruct (Z.eqb_spec st 401) as [->|]; cbn; [|eauto].
    split; [done|]. right. right. split; [done|]. by exists p, rq, json.
Qed.

(** Signing out always clears the cookie, whatever the gateway answers
    and also when it cannot be reached; the gateway is told, with the token
    of the cookie as bearer, exactly when there is one. *)
Theorem logout_POST_clears env fetchImpl req :
  snd (logout_POST env fetchImpl req)
    = Ok {| rr_status := 200; rr_error := None;
            rr_cookie := Some (clearedSessionCookie (nr_https req)) |} /\
  (signed_in req <-> exists rq, fst (logout_POST env fetchImpl req) = Some (fetchImpl rq) /\
     exists token, nr_cookie req = Some token /\
       forall v, (u "authorization", v) ∈ rq_headers rq <->
                 trim token <> [] /\ v = u "Bearer " ++ trim token).
Proof.
  split; [done|]. unfold signed_in, logout_POST, logout_request.
  destruct (nr_cookie req) as [token|]; cbn; [|naive_solver].
  destruct (jeqb token []) eqn:E; [apply jeqb_eq in E|apply jeqb_neq in E]; cbn.
  { split; [intros (v & Hv & Hn); congruence|]. by intros (rq & ? & _). }
  split; [intros _|by eauto]. eexists. split; [done|]. exists token. split; [done|]. intros v. cbn.
  rewrite elem_of_cons. assert (Hx : u "authorization" <> u "x-forwarded-host") by (by apply jeqb_neq).
  unfold bearerHeader. cbn. destruct (jeqb (trim token) []) eqn:Et;
    [apply jeqb_eq in Et|apply jeqb_neq in Et]; rewrite ?list_elem_of_singleton.
  - split; [|naive_solver]. intros [?|?%not_elem_of_nil]; [congruence|done].
  - split; [intros [?|[= ->]]; [congruence|done]|intros [_ ->]; by right].
Qed.

(** ** Concrete requests *)

Definition sample_conversions : Conversions :=
  {| date_value _ := NaN;
     to_text v := match v with VStr s => Ok s | _ => Throw TypeError end;
     to_text_string _ := eq_refl |}.

Definition sample_env : environment := fun _ => None.
Definition sample_tenant : Tenant :=
  {| tenant_id := u "t-1"; slug := u "ops"; region := cn; status := u "active" |}.

(** A gateway that knows one tenant and one credential. *)
Definition sample_gateway : fetch_fn := fun rq =>
  if jeqb (rq_url rq) (DEFAULT_GATEWAY_URL ++ u "/v1/tenants/ops")
  then Response 200 (Some (VObj [(u "tenant_id", VStr (u "t-1")); (u "slug", VStr (u "ops"));
                                 (u "region", VStr (u "cn")); (u "status", VStr (u "active"))]))
  else if jeqb (rq_url rq) (DEFAULT_GATEWAY_URL ++ u "/v1/auth/login")
  then Response 200 (Some (VObj [(u "token", VStr (u "tok")); (u "expires_at", VStr (u "soon"))]))
  else Response 404 None.

Definition sample_request (path : jstring) (cookie : option jstring) : NextRequest :=
  {| nr_headers := list_to_map [(u "host", u "ops.vodoge.com"); (CLIENT_ADDRESS_HEADER, u "spoofed")];
     nr_pathname := path; nr_search := []; nr_https := true; nr_cookie := cookie |}.

Definition is_next (r : res NextResponse) : bool :=
  match r with Ok (Next _) => true | _ => false end.

Lemma middleware_admits_witness :
  exists c h,
    @middleware lower_reference sample_env sample_gateway ∅
      (sample_request (u "/v1/devices") (Some (u "tok"))) = (c, Ok (Next h)) /\
    h !! CLIENT_ADDRESS_HEADER = None /\
    h !! TENANT_HEADER_slug = Some (u "ops").
Proof.
  destruct (@middleware lower_reference sample_env sample_gateway ∅
      (sample_request (u "/v1/devices") (Some (u "tok")))) as [c [[]|]] eqn:E;
    try (exfalso; apply (f_equal (fun p => is_next p.2)) in E; by vm_compute in E).
  destruct (@middleware_admits lower_reference _ _ _ _ _ _ E) as (n & s & t & Hc & _ & <- & _ & Hf).
  exists c, headers. split_and!; [done|by rewrite (hf_client _ _ _ Hf)|].
  rewrite (hf_slug _ _ _ Hf). revert Hc. vm_compute. by intros [= _ <-].
Defined.

Lemma middleware_signed_out_witness :
  exists search,
    (@middleware lower_reference sample_env sample_gateway ∅
      (sample_request (u "/devices/7") None)).2 = Ok (Redirect (u "/login") search).
Proof.
  destruct (@middleware_signed_out lower_reference sample_env sample_gateway ∅
    (sample_request (u "/devices/7") None) (u "ops.vodoge.com") (u "ops")
    (<[u "ops" := sample_tenant]> ∅) sample_tenant) as (search & -> & _).
  - by vm_compute.
  - by vm_compute.
  - done.
  - by vm_compute.
  - by intros (v & ? & _).
  - by apply (bool_decide_unpack (latin1 (u "/devices/7"))).
  - by exists search.
Defined.

Lemma login_POST_outcome_witness :
  let req := sample_request (u "/api/auth/login") None in
  exists r ck,
    @login_POST sample_conversions sample_env sample_gateway req (Ok (VObj [])) = Ok r /\
    rr_cookie r = Some ck /\ ck_httpOnly ck = true.
Proof.
  intros req.
  destruct (@login_POST sample_conversions sample_env sample_gateway req (Ok (VObj []))) as [r|] eqn:E;
    [|exfalso; apply (f_equal is_ok) in E; by vm_compute in E].
  pose proof (@login_POST_outcome sample_conversions _ _ _ _ _ E) as Hx.
  destruct (rr_cookie r) as [ck|] eqn:Ec.
  - destruct Hx as (_ & _ & ? & ? & ? & ? & ? & ? & ? & Hx). exists r, ck.
    split_and!; [done|done|]. apply Hx.
  - exfalso. apply (f_equal (fun m => match m with Ok r => rr_cookie r | _ => None end)) in E.
    cbn beta iota in E. rewrite Ec in E. by vm_compute in E.
Defined.
