(* ===== verification/TenantHeaders.v ===== *)
(** * What a page learns from the middleware (lib/tenant-headers.ts)

    A server component does not classify the host again: it reads the tenant
    back out of the headers middleware.ts put on the request. *)

From S2P Require Import Prelude JsString JsValue Fetch Session Host Tenant Middleware.

(** [a || b] of a header that may be missing. *)
Definition or_text (a : option jstring) (b : jstring) : jstring :=
  match a with Some s => if jeqb s [] then b else s | None => b end.

Definition getTenantFromHeaders (requestHeaders : HeaderReader) : option Tenant :=
  match requestHeaders TENANT_HEADER_id, requestHeaders TENANT_HEADER_slug,
        requestHeaders TENANT_HEADER_region with
  | Some id, Some sl, Some rg =>
      if jeqb id [] || jeqb sl [] || jeqb rg [] then None else
      region ← isTenantRegion rg;
      Some {| tenant_id := id; slug := sl; region := region;
              status := or_text (requestHeaders TENANT_HEADER_status) (u "unknown") |}
  | _, _, _ => None
  end.

(** [requestHost()] of the request in scope. *)
Definition pageRequestHost (env : environment) (requestHeaders : HeaderReader) : jstring :=
  requestHost requestHeaders (trustsForwardedHost (env (u "VODOGE_TRUST_FORWARDED_HOST"))).

Definition sessionToken (req : NextRequest) : option jstring := nr_cookie req.

(** ** Properties *)

(** The tenant as a header carries it: a field loses the white space around
    it, and an empty status reads as unknown. *)
Definition header_tenant (t : Tenant) : option Tenant :=
  if jeqb (http_strip (tenant_id t)) [] || jeqb (http_strip (slug t)) [] then None
  else Some {| tenant_id := http_strip (tenant_id t); slug := http_strip (slug t);
               region := region t;
               status := or_text (Some (http_strip (status t))) (u "unknown") |}.

Lemma header_tenant_id t :
  Forall (fun f => http_strip f = f /\ f <> []) [tenant_id t; slug t; status t] ->
  header_tenant t = Some t.
Proof.
  rewrite !Forall_cons. intros ([Hi Hi0] & [Hs Hs0] & [Ht Ht0] & _).
  apply jeqb_neq in Hi0, Hs0, Ht0. unfold header_tenant, or_text.
  rewrite Hi, Hs, Ht, Hi0, Hs0, Ht0. by destruct t.
Qed.

Lemma getTenantFromHeaders_forwarded req t h :
  headers_forwarded req t h -> getTenantFromHeaders (reader h) = header_tenant t.
Proof.
  intros Hf. unfold getTenantFromHeaders, reader.
  rewrite (hf_id _ _ _ Hf), (hf_slug _ _ _ Hf), (hf_region _ _ _ Hf), (hf_status _ _ _ Hf).
  unfold header_tenant.
  destruct (jeqb (http_strip (tenant_id t)) []), (jeqb (http_strip (slug t)) []),
    (region t); done.
Qed.

Section Pages.
Context `{CaseMapping}.

(** C39. Whatever tenant headers the caller sent, the tenant a page reads is
    the one the directory holds for the host the request came in on: that
    tenant itself when no field of it is empty or has white space around
    it, and otherwise the tenant as a header carries it. *)
Theorem page_reads_host_tenant env fetchImpl c req c' h :
  middleware env fetchImpl c req = (c', Ok (Next h)) ->
  exists n s t,
    request_classification env req = CTenant n s /\
    resolve (createGatewayLookup (gatewayBaseUrl env) fetchImpl) c s = (c', Ok (Some t)) /\
    slug t = s /\
    getTenantFromHeaders (reader h) = header_tenant t /\
    (Forall (fun f => http_strip f = f /\ f <> []) [tenant_id t; slug t; status t] ->
     getTenantFromHeaders (reader h) = Some t).
Proof.
  intros (n & s & t & ? & ? & ? & _ & Hf)%middleware_next_inv.
  apply forward_headers_spec, getTenantFromHeaders_forwarded in Hf.
  exists n, s, t. split_and!; [done..|]. intros Ht. by rewrite Hf, header_tenant_id.
Qed.
End Pages.

Lemma page_reads_host_tenant_witness :
  exists c h t,
    @middleware lower_reference sample_env sample_gateway ∅
      (sample_request (u "/devices") (Some (u "tok"))) = (c, Ok (Next h)) /\
    getTenantFromHeaders (reader h) = header_tenant t /\ slug t = u "ops".
Proof.
  destruct (@middleware lower_reference sample_env sample_gateway ∅
      (sample_request (u "/devices") (Some (u "tok")))) as [c [[]|]] eqn:E;
    try (exfalso; apply (f_equal (fun p => is_next p.2)) in E; by vm_compute in E).
  destruct (@page_reads_host_tenant lower_reference _ _ _ _ _ _ E) as (n & s & t & Hc & _ & Hs & Hg & _).
  assert (Hops : s = u "ops") by (revert Hc; vm_compute; by intros [= _ <-]).
  exists c, headers, t. split; [exact eq_refl|]. split; [exact Hg|]. rewrite Hs. exact Hops.
Defined.
