(* ===== verification/Gateway.v ===== *)
(** * Reading from the gateway (lib/catalog.ts: getCatalog and the readers)

    One authenticated GET, how its status becomes an error or a document, and
    the typed readers every parser of lib/catalog.ts is written with. *)

From S2P Require Import Prelude JsString JsValue Session Fetch Tenant.
From Stdlib Require Import Lia.

(** ** Readers of one value *)

Definition arrayOf (value : jsval) : list jsval :=
  match value with VArr l => l | _ => [] end.

Definition asString (value : jsval) : option jstring :=
  match value with
  | VStr s => if (0 <? length s)%nat then Some s else None
  | _ => None
  end.

Definition asBoolean (value : jsval) : option bool :=
  match value with VBool b => Some b | _ => None end.

(** A finite number, in the units of [num]. *)
Definition asNumber (value : jsval) : option Z :=
  match value with VNum (Fin m) => Some m | _ => None end.

Definition asTriState (value : jsval) : option bool :=
  match value with VBool b => Some b | _ => None end.

(** [value === true]. *)
Definition isTrue (value : jsval) : bool := bool_decide (value = VBool true).

(** ** Readers of one field of a row *)

Definition str (row : jsval) (k : string) : option jstring := asString (prop row (u k)).
Definition str_or (row : jsval) (k d : string) : jstring := default_to (u d) (str row k).
Definition nbr (row : jsval) (k : string) : option Z := asNumber (prop row (u k)).
Definition nbr_or0 (row : jsval) (k : string) : Z := default_to 0%Z (nbr row k).
Definition flag (row : jsval) (k : string) : bool := isTrue (prop row (u k)).

(** [typeof row.k === "string" ? row.k : null], empty strings included. *)
Definition text (row : jsval) (k : string) : option jstring :=
  match prop row (u k) with VStr s => Some s | _ => None end.

(** A row whose fields are read with no test first: null and undefined throw
    at the first property. *)
Definition as_row (value : jsval) : res jsval :=
  match value with VUndef | VNull => Throw TypeError | _ => Ok value end.

Lemma asString_some v s : asString v = Some s <-> v = VStr s /\ s <> [].
Proof.
  unfold asString. destruct v as [| | | |t| |]; try (split; naive_solver).
  destruct t as [|c t]; cbn; split; naive_solver.
Qed.

Lemma asString_nonempty s : s <> [] -> asString (VStr s) = Some s.
Proof. intros. by apply asString_some. Qed.

Lemma asNumber_some v m : asNumber v = Some m <-> v = VNum (Fin m).
Proof. destruct v as [| | |[]| | |]; cbn; naive_solver. Qed.

Lemma str_nonempty row k s : str row k = Some s -> s <> [].
Proof. by intros [_ ?]%asString_some. Qed.

Lemma isTrue_bool b : isTrue (VBool b) = b.
Proof. unfold isTrue. case_bool_decide; destruct b; congruence. Qed.

Lemma not_object_obj fs : not_object (VObj fs) = false.
Proof. done. Qed.

Lemma not_object_cases v :
  not_object v = true \/ (exists l, v = VArr l) \/ exists fs, v = VObj fs.
Proof. destruct v; cbn; eauto; left; unfold not_object; cbn; by rewrite orb_true_r. Qed.

#[export] Hint Rewrite isTrue_bool : console.

(** A list of rows read with no test first is returned complete, one row per
    element, or not at all because an element is null. *)
Definition nullish_value (v : jsval) : bool :=
  match v with VUndef | VNull => true | _ => false end.

Lemma res_map_rows {A} (f : jsval -> res A) (g : jsval -> A) l :
  (forall v, f v = row ← as_row v; Ok (g row)) ->
  res_map f l = if existsb nullish_value l then Throw TypeError else Ok (g <$> l).
Proof.
  intros Hf. induction l as [|v l IH]; [done|]. cbn. rewrite Hf, IH.
  by destruct v; cbn; destruct (existsb nullish_value l).
Qed.

Lemma res_map_rows_length {A} (f : jsval -> res A) (g : jsval -> A) l rows :
  (forall v, f v = row ← as_row v; Ok (g row)) ->
  res_map f l = Ok rows -> length rows = length l /\ existsb nullish_value l = false.
Proof.
  intros Hf. rewrite (res_map_rows _ _ _ Hf). destruct (existsb _ _); [done|].
  intros [= <-]. by rewrite length_fmap.
Qed.

(** ** Encodings of optional fields, the inverses of the readers *)

Definition of_str (o : option jstring) : jsval := from_option VStr VNull o.
Definition of_nbr (o : option Z) : jsval := from_option (fun m => VNum (Fin m)) VNull o.
Definition of_bool (o : option bool) : jsval := from_option VBool VNull o.

Definition filled (o : option jstring) : Prop := o <> Some [].
#[export] Instance filled_dec o : Decision (filled o).
Proof. unfold filled. apply _. Defined.

Lemma asString_of o : filled o -> asString (of_str o) = o.
Proof. destruct o as [s|]; cbn; [|done]. intros Hs. apply asString_nonempty. by intros ->. Qed.
Lemma asNumber_of o : asNumber (of_nbr o) = o.
Proof. by destruct o. Qed.
Lemma asBoolean_of o : asBoolean (of_bool o) = o.
Proof. by destruct o. Qed.
#[export] Hint Rewrite asNumber_of asBoolean_of : console.

(** A mandatory string: empty and absent are the same reading. *)
Lemma default_asString s d : (s = [] -> d = []) -> default_to d (asString (VStr s)) = s.
Proof. destruct s as [|c s]; cbn; [|done]. intros Hd. by apply Hd. Qed.

Lemma str_filled row k : filled (str row k).
Proof. intros E. by apply str_nonempty in E. Qed.
#[export] Hint Resolve str_filled : console.

Lemma str_or_nonempty row k d : u d <> [] -> str_or row k d <> [].
Proof.
  unfold str_or. destruct (str row k) eqn:E; cbn; [|done]. by apply str_nonempty in E.
Qed.

(** Turn a hypothesis [Forall P [x1; ..; xn]] into its conjuncts. *)
Ltac split_Forall H := repeat (apply Forall_cons in H as [? H]).

(** A round trip: look every name up, then undo every reader. *)
Ltac read_back :=
  lazy -[of_nbr of_str of_bool asString asNumber asBoolean isTrue default_to];
  rewrite ?asNumber_of, ?asBoolean_of, ?isTrue_bool, ?asString_of, ?asString_nonempty,
    ?default_asString by done; cbn [default_to].

(** ** getCatalog *)

Section Catalog.
Variable env : environment.
Variable fetchImpl : fetch_fn.

Definition catalog_request (host path : jstring) (token : option jstring) : request :=
  {| rq_url := gatewayBaseUrl env ++ path;
     rq_method := u "GET";
     rq_headers := [(u "accept", u "application/json"); (u "x-forwarded-host", host)]
                     ++ bearerHeader token;
     rq_body := None;
     rq_timeout := 2500 |}.

Definition getCatalog (host path : jstring) (token : option jstring) : res jsval :=
  match fetchImpl (catalog_request host path token) with
  | Rejected => Throw NetworkError
  | Response st json =>
      if (st =? 404)%Z then Throw UnauthorizedError
      else if (st =? 401)%Z || (st =? 403)%Z then Throw UnauthorizedError
      else if negb (status_ok st) then Throw GenericError
      else body ← body_json json;
           if not_object body then Ok (VObj []) else Ok body
  end.

Definition fetchConsoleRole (host : jstring) (token : option jstring) : ConsoleRole :=
  match
    (match fetchImpl (catalog_request host SESSION_ENDPOINT token) with
     | Rejected => Throw NetworkError
     | Response st json =>
         if negb (status_ok st) then Ok readonly
         else body ← body_json json; Ok (roleFromSessionBody body)
     end : res ConsoleRole)
  with
  | Ok role => role
  | Throw _ => readonly
  end.
End Catalog.

(** What [getCatalog] returns is always something a field can be read from. *)
Lemma getCatalog_object env f host path token body :
  getCatalog env f host path token = Ok body -> not_object body = false.
Proof.
  unfold getCatalog. destruct (f _) as [|st json]; [done|].
  repeat case_match; try done. destruct json as [v|]; cbn; [|done].
  destruct (not_object v) eqn:E; by intros [= <-].
Qed.

Definition refusal (st : Z) : option js_error :=
  if bool_decide (st = 404 \/ st = 401 \/ st = 403)%Z then Some UnauthorizedError
  else if status_ok st then None else Some GenericError.

Lemma getCatalog_refusal env f host path token :
  getCatalog env f host path token =
  match f (catalog_request env host path token) with
  | Rejected => Throw NetworkError
  | Response st json =>
      match refusal st, json with
      | Some e, _ => Throw e
      | None, None => Throw SyntaxError
      | None, Some body => Ok (if not_object body then VObj [] else body)
      end
  end.
Proof.
  unfold getCatalog, refusal. destruct (f _) as [|st json]; [done|].
  destruct (Z.eqb_spec st 404) as [->|H4]; [done|].
  destruct (Z.eqb_spec st 401) as [->|H1]; [done|].
  destruct (Z.eqb_spec st 403) as [->|H3]; [done|].
  rewrite bool_decide_eq_false_2 by lia. cbn [orb].
  destruct (status_ok st); cbn; [|done]. destruct json as [body|]; cbn; [|done].
  by destruct (not_object body).
Qed.

(** The role a page draws itself for is [admin] only when the gateway
    answered 2xx to this session and its body says so; an unreachable
    gateway, a refusal and any other body are all [readonly]. *)
Theorem fetchConsoleRole_closed env f host token :
  fetchConsoleRole env f host token = admin <->
  exists st fs,
    f (catalog_request env host SESSION_ENDPOINT token) = Response st (Some (VObj fs)) /\
    status_ok st = true /\ field (u "role") fs = Some (VStr (u "admin")).
Proof.
  unfold fetchConsoleRole. destruct (f _) as [|st json]; [by split; [|intros (?&?&?&?)]|].
  destruct (status_ok st) eqn:Es; cbn [negb];
    [|by split; [|intros (?&?&Hr&?&?); simplify_eq; congruence]].
  destruct json as [body|]; cbn; [|by split; [|intros (?&?&?&?)]].
  unfold roleFromSessionBody. destruct (not_object_cases body) as [E|[[l ->]|[fs ->]]].
  - rewrite E. split; [done|]. intros (? & fs & Hr & _ & _). by simplify_eq.
  - cbn. split; [done|]. intros (? & fs & Hr & _ & _). simplify_eq.
  - rewrite not_object_obj. cbn. case_bool_decide as Hr.
    + split; [|done]. intros _. exists st, fs. split_and!; [done..|].
      destruct (field (u "role") fs); cbn in Hr; congruence.
    + split; [done|]. intros (? & ? & Hx & _ & Hf). simplify_eq. by rewrite Hf in Hr.
Qed.
