(* ===== verification/RegexCount.v ===== *)
(** * Counted repetition

    The quantifiers with bounds of the contract's patterns, what a pattern made
    of them matches, and the lengths of what any pattern matches. *)

From Stdlib Require Import Lia.
From S2P Require Import Prelude JsString JsRegex.

(** [r{0,n}]. *)
Fixpoint rupto (n : nat) (r : regex) : regex :=
  match n with O => REmpty | S n => ropt (RSeq r (rupto n r)) end.
(** [^p{lo,hi}$]. *)
Definition rbetween (p : N -> bool) (lo hi : nat) : regex :=
  rseq ([RStart] ++ repeat (RClass p) lo ++ [rupto (hi - lo) (RClass p); REnd]).

(** ** What is matched *)

(** [p{n}]. *)
Lemma exactly_match p n r b s y :
  rmatch (rseq (repeat (RClass p) n ++ r)) (b, s) y <->
  exists a s', s = a ++ s' /\ length a = n /\ forallb p a = true /\ rmatch (rseq r) (rev a ++ b, s') y.
Proof.
  revert b s. induction n as [|n IH]; intros b s; cbn.
  - split; [intros H; by exists [], s|]. by intros ([|? ?] & s' & -> & Hl & _ & Hr).
  - split.
    + intros (z & (c & rest & Hs & Hp & ->) & Hr). cbn in Hs, Hr. apply IH in Hr as (a & s' & -> & Hl & Ha & Hr).
      exists (c :: a), s'. cbn. rewrite Hp, Ha, Hl, <-app_assoc. by subst.
    + intros ([|c a] & s' & -> & Hl & Ha & Hr); [done|]. cbn in Hl, Ha. apply andb_true_iff in Ha as [Hp Ha].
      exists (c :: b, a ++ s'). split; [by exists c, (a ++ s')|]. apply IH. exists a, s'.
      cbn in Hr. rewrite <-app_assoc in Hr. by split_and!; [|lia| |].
Qed.

Lemma upto_match p n b s y :
  rmatch (rupto n (RClass p)) (b, s) y <->
  exists a s', s = a ++ s' /\ length a <= n /\ forallb p a = true /\ y = (rev a ++ b, s').
Proof.
  revert b s. induction n as [|n IH]; intros b s; cbn.
  - split; [intros <-; exists [], s; by split_and!|]. intros ([|? ?] & s' & -> & Hl & _ & ->); [done|cbn in Hl; lia].
  - split.
    + intros [(z & (c & rest & Hs & Hp & ->) & Hr)|<-].
      * cbn in Hs, Hr. apply IH in Hr as (a & s' & -> & Hl & Ha & ->). exists (c :: a), s'. cbn.
        rewrite Hp, Ha, <-app_assoc. subst s. by split_and!; [|lia| |].
      * exists [], s. split_and!; [done|cbn; lia|done|done].
    + intros ([|c a] & s' & -> & Hl & Ha & ->); [by right|]. left. cbn in Hl, Ha.
      apply andb_true_iff in Ha as [Hp Ha]. exists (c :: b, a ++ s'). split; [by exists c, (a ++ s')|].
      apply IH. exists a, s'. cbn. rewrite <-app_assoc. by split_and!; [|lia| |].
Qed.

(** Between [lo] and [hi] characters of the class, and nothing else. *)
Lemma test_between p lo hi s :
  lo <= hi ->
  test (rbetween p lo hi) s = ((lo <=? length s) && (length s <=? hi) && forallb p s)%nat.
Proof.
  intros Hle. apply Bool.eq_iff_eq_true.
  change (rbetween p lo hi) with (RSeq RStart (rseq (repeat (RClass p) lo ++ [rupto (hi - lo) (RClass p); REnd]))).
  rewrite test_anchored, matches_at_spec, !andb_true_iff, !Nat.leb_le. setoid_rewrite exactly_match. split.
  - intros (y & a & s' & -> & Hl & Ha & z & Hz & z' & [Hend <-] & _).
    apply upto_match in Hz as (a' & s'' & -> & Hl' & Ha' & ->). cbn in Hend. subst s''.
    rewrite app_nil_r, length_app, forallb_app, Ha, Ha'. split; [lia|done].
  - intros [[H1 H2] Hp]. exists (rev s, []). exists (take lo s), (drop lo s).
    rewrite take_drop, length_take_le by lia.
    rewrite <-(take_drop lo s), forallb_app in Hp. apply andb_true_iff in Hp as [Ht Hd]. split_and!; [done..|].
    exists (rev s, []). split.
    + apply upto_match. exists (drop lo s), []. rewrite app_nil_r, length_drop.
      split_and!; [done|lia|done|]. f_equal. rewrite app_nil_r, <-rev_app_distr. by rewrite take_drop.
    + exists (rev s, []). done.
Qed.

(** ** The lengths of a match *)

Fixpoint rmin (r : regex) : Z :=
  match r with
  | RClass _ => 1
  | RSeq r1 r2 => rmin r1 + rmin r2
  | RAlt r1 r2 => Z.min (rmin r1) (rmin r2)
  | _ => 0
  end%Z.
Fixpoint rmax (r : regex) : option Z :=
  match r with
  | RClass _ => Some 1%Z
  | RSeq r1 r2 => match rmax r1, rmax r2 with Some a, Some b => Some (a + b)%Z | _, _ => None end
  | RAlt r1 r2 => match rmax r1, rmax r2 with Some a, Some b => Some (Z.max a b) | _, _ => None end
  | RStar _ => None
  | _ => Some 0%Z
  end.

Lemma rmatch_bounds r x y :
  rmatch r x y ->
  let n := (Z.of_nat (length x.2) - Z.of_nat (length y.2))%Z in
  (rmin r <= n)%Z /\ forall m, rmax r = Some m -> (n <= m)%Z.
Proof.
  revert x y. induction r as [|p|r1 IH1 r2 IH2|r1 IH1 r2 IH2|r IH| | | |r IH]; intros x y Hm; cbn in *.
  - subst. split; [lia|]. intros m [= <-]. lia.
  - destruct Hm as (c & a & Hx & _ & ->). rewrite Hx. cbn [snd length]. split; [lia|]. intros m [= <-]. lia.
  - destruct Hm as (z & H1 & H2). apply IH1 in H1 as [H1 H1']. apply IH2 in H2 as [H2 H2']. cbn in *.
    split; [lia|]. intros m Hm. destruct (rmax r1) as [m1|]; [|done]. destruct (rmax r2) as [m2|]; [|done].
    specialize (H1' _ eq_refl). specialize (H2' _ eq_refl). injection Hm as <-. lia.
  - destruct Hm as [Hm|Hm]; [apply IH1 in Hm as [H1 H2]|apply IH2 in Hm as [H1 H2]]; cbn in *;
      (split; [lia|]; intros m Hm; destruct (rmax r1) as [m1|]; [|done]; destruct (rmax r2) as [m2|]; [|done];
       specialize (H2 _ eq_refl); injection Hm as <-; lia).
  - split; [|done]. assert (length y.2 <= length x.2); [|lia].
    induction Hm as [x|x z y Hs _ IHs]; [done|]. apply rmatch_length in Hs. lia.
  - destruct Hm as [_ ->]. split; [lia|]. intros m [= <-]. lia.
  - destruct Hm as [_ ->]. split; [lia|]. intros m [= <-]. lia.
  - destruct Hm as [_ ->]. split; [lia|]. intros m [= <-]. lia.
  - destruct Hm as [_ ->]. split; [lia|]. intros m [= <-]. lia.
Qed.

Lemma rseq_end rs x y : rmatch (rseq (rs ++ [REnd])) x y -> y.2 = [].
Proof.
  revert x. induction rs as [|r rs IH]; intros x; cbn; [by intros (z & [He ->] & <-)|].
  intros (z & _ & Hz). by eapply IH.
Qed.

(** One part of a sequence for one that matches as much. *)
Lemma rseq_change rs r1 r2 t x y :
  (forall x y, rmatch r1 x y -> rmatch r2 x y) -> rmatch (rseq (rs ++ r1 :: t)) x y -> rmatch (rseq (rs ++ r2 :: t)) x y.
Proof.
  intros Hr. revert x. induction rs as [|r rs IH]; intros x.
  - cbn. intros (z & Hz & Ht). exists z. by split; [apply Hr|].
  - cbn. intros (z & Hz & Ht). exists z. by split; [|apply IH].
Qed.

(** A pattern anchored at both ends bounds the length of the text. *)
Lemma test_length rs s :
  test (rseq (RStart :: rs ++ [REnd])) s = true ->
  (rmin (rseq (rs ++ [REnd])) <= Z.of_nat (length s))%Z
  /\ forall m, rmax (rseq (rs ++ [REnd])) = Some m -> (Z.of_nat (length s) <= m)%Z.
Proof.
  change (rseq (RStart :: rs ++ [REnd])) with (RSeq RStart (rseq (rs ++ [REnd]))).
  rewrite test_anchored, matches_at_spec. intros [y Hy]. pose proof (rseq_end _ _ _ Hy) as He.
  apply rmatch_bounds in Hy. cbn [snd] in Hy. rewrite He in Hy. cbn [length] in Hy.
  replace (Z.of_nat (length s) - Z.of_nat 0)%Z with (Z.of_nat (length s)) in Hy by lia. exact Hy.
Qed.

(** ** The characters of a match *)

Fixpoint rover (p : N -> bool) (r : regex) : Prop :=
  match r with
  | RClass q => forall c, q c = true -> p c = true
  | RSeq r1 r2 | RAlt r1 r2 => rover p r1 /\ rover p r2
  | RStar r => rover p r
  | _ => True
  end.

Lemma rmatch_over p r x y : rmatch r x y -> rover p r -> exists a, x.2 = a ++ y.2 /\ forallb p a = true.
Proof.
  revert x y. induction r as [|q|r1 IH1 r2 IH2|r1 IH1 r2 IH2|r IH| | | |r IH]; intros x y Hm Ho; cbn in *.
  - subst. by exists [].
  - destruct Hm as (c & a & Hx & Hq & ->). exists [c]. cbn. by rewrite Hx, (Ho c Hq).
  - destruct Hm as (z & (a & Ha & Hp)%IH1 & (b & Hb & Hq)%IH2); [|by destruct Ho..].
    exists (a ++ b). by rewrite Ha, Hb, <-app_assoc, forallb_app, Hp, Hq.
  - destruct Ho, Hm as [Hm|Hm]; [by apply IH1|by apply IH2].
  - induction Hm as [x|x z y Hs _ (b & Hb & Hq)]; [by exists []|].
    destruct (IH _ _ Hs Ho) as (a & Ha & Hp). exists (a ++ b). by rewrite Ha, Hb, <-app_assoc, forallb_app, Hp, Hq.
  - destruct Hm as [_ ->]. by exists [].
  - destruct Hm as [_ ->]. by exists [].
  - destruct Hm as [_ ->]. by exists [].
  - destruct Hm as [_ ->]. by exists [].
Qed.

(** What a pattern anchored at both ends matches is of its classes. *)
Lemma test_over p rs s :
  rover p (rseq (rs ++ [REnd])) -> test (rseq (RStart :: rs ++ [REnd])) s = true -> forallb p s = true.
Proof.
  intros Ho. change (rseq (RStart :: rs ++ [REnd])) with (RSeq RStart (rseq (rs ++ [REnd]))).
  rewrite test_anchored, matches_at_spec. intros [y Hy]. pose proof (rseq_end _ _ _ Hy) as He.
  destruct (rmatch_over p _ _ _ Hy Ho) as (a & Ha & Hp). cbn in Ha. by rewrite Ha, He, app_nil_r.
Qed.
