(* ===== verification/Contract.v ===== *)
(** * The contract between edge and cloud (packages/contract: ts/index.ts and
      schema/edge-cloud.v1.schema.json)

    The generated types, as a small language of types with a test whether a
    value has one, and the part of the schema they are generated from that the
    commands of the console go by.  The protocol is closed (README: "unknown
    fields and kinds are rejected"), so an object has no property its type does
    not name. *)

From Stdlib Require Import Lia.
From S2P Require Import Prelude JsString JsValue JsRegex RegexCount.

#[local] Open Scope string_scope.
#[local] Open Scope Z_scope.

Definition PROTOCOL_VERSION : Z := 1.
Definition SCHEMA_ID : string := "https://schemas.vodoge.cloud/edge-cloud/v1/edge-cloud.schema.json".
Definition WS_SUBPROTOCOL : string := "vodoge.edge.v1".

(** ** Types *)

(** The code points of a text; half of a surrogate pair counts as one. *)
Fixpoint runes (s : jstring) : list N :=
  match s with
  | [] => []
  | c :: s1 =>
      if high_surrogate c then
        match s1 with
        | d :: s2 =>
            if low_surrogate d
            then (0x10000 + (c - 0xD800) * 0x400 + (d - 0xDC00))%N :: runes s2
            else 0xFFFD%N :: runes s1
        | [] => [0xFFFD%N]
        end
      else if low_surrogate c then 0xFFFD%N :: runes s1
      else c :: runes s1
  end.

Inductive ty :=
  | TUnknown
  | TContext                            (** [ContextValue]: a JSON value *)
  | TNull
  | TBool
  | TNumber
  | TNumeral (n : Z)                    (** the type of one number *)
  | TText
  | TOne (literals : list string)       (** a union of string literals *)
  | TArray (t : ty)
  | TOr (t1 t2 : ty)
  | TObject (fields : list (string * bool * ty))
  (** What the schema has beyond the types. *)
  | TString (minLength : Z) (maxLength : option Z) (pattern : option regex)
  | TInt (minimum : Z) (maximum : option Z)
  | TAnyOf (names : list string) (t : ty)
  | TWhen (name value required : string) (t : ty).

Definition req (name : string) (t : ty) : string * bool * ty := (name, true, t).
Definition opt (name : string) (t : ty) : string * bool * ty := (name, false, t).

(** A value without [undefined] anywhere. *)
Fixpoint context_value (v : jsval) : bool :=
  match v with
  | VUndef => false
  | VArr l => forallb context_value l
  | VObj fields => forallb (fun kv => context_value kv.2) fields
  | _ => true
  end.

Definition has (v : jsval) (name : string) : bool :=
  match v with VObj own => is_some (field (u name) own) | _ => false end.
Definition within (lo : Z) (hi : option Z) (n : Z) : bool :=
  (lo <=? n) && match hi with Some hi => n <=? hi | None => true end.

Definition string_ok (lo : Z) (hi : option Z) (pattern : option regex) (s : jstring) : bool :=
  within lo hi (Z.of_nat (length (runes s)))
  && match pattern with Some r => test r (runes s) | None => true end.
Definition int_ok (lo : Z) (hi : option Z) (m : Z) : bool := (m mod scale =? 0) && within lo hi (m / scale).

Fixpoint inhabits (t : ty) (v : jsval) : bool :=
  match t with
  | TUnknown => true
  | TContext => context_value v
  | TNull => match v with VNull => true | _ => false end
  | TBool => match v with VBool _ => true | _ => false end
  | TNumber => match v with VNum _ => true | _ => false end
  | TNumeral n => match v with VNum (Fin m) => m =? int n | _ => false end
  | TText => match v with VStr _ => true | _ => false end
  | TOne literals => match v with VStr s => existsb (fun l => jeqb s (u l)) literals | _ => false end
  | TArray t => match v with VArr l => forallb (inhabits t) l | _ => false end
  | TOr t1 t2 => inhabits t1 v || inhabits t2 v
  | TObject fields =>
      match v with
      | VObj own =>
          forallb (fun f => match field (u f.1.1) own with
                            | Some w => inhabits f.2 w
                            | None => negb f.1.2
                            end) fields
          && forallb (fun kv => existsb (fun f => jeqb kv.1 (u f.1.1)) fields) own
      | _ => false
      end
  | TString lo hi pattern =>
      match v with
      | VStr s => string_ok lo hi pattern s
      | _ => false
      end
  | TInt lo hi =>
      match v with
      | VNum (Fin m) => int_ok lo hi m
      | _ => false
      end
  | TAnyOf names t => existsb (has v) names && inhabits t v
  | TWhen name value required t =>
      (negb (bool_decide (prop v (u name) = VStr (u value))) || has v required) && inhabits t v
  end.

(** ** Patterns *)

(** [^[0-9]{lo,hi}$]. *)
Definition rdigits_between (lo hi : nat) : regex := rbetween is_digit lo hi.
(** [^[0-9]{3}-[0-9]{2,3}$]. *)
Definition plmn_shape : regex :=
  rseq ([RStart] ++ repeat (RClass is_digit) 3 ++ [rchar 45] ++ repeat (RClass is_digit) 2
        ++ [rupto 1 (RClass is_digit); REnd]).
(** [^\+?[0-9]{1,15}$]. *)
Definition phone_number : regex :=
  rseq [RStart; ropt (rchar 43); RClass is_digit; rupto 14 (RClass is_digit); REnd].
Definition host_char (c : N) : bool := is_alnum c || (c =? 45)%N.
Definition host_label : regex :=
  RSeq (RClass is_alnum) (ropt (RSeq (RStar (RClass host_char)) (RClass is_alnum))).
Definition host_name : regex := rseq [RStart; host_label; rplus (RSeq (rchar 46) host_label); REnd].
Definition hex_digits (n : nat) : regex :=
  rbetween (fun c => is_digit c || ((97 <=? c) && (c <=? 102))%N) n n.
Definition https_prefix : regex := RSeq RStart (rlit (u "https://")).

(** ** The scalars *)

(** Aliases of string and of number; the patterns and the ranges the schema
    has for them are not in the generated types. *)
Definition EpochMillis : ty := TNumber.
Definition SequenceNumber : ty := TText.
Definition SequenceCursor : ty := TText.
Definition Uuid : ty := TText.
Definition Iccid : ty := TText.
Definition Imsi : ty := TText.
Definition Plmn : ty := TText.
Definition Imei : ty := TText.
Definition ActivationCode : ty := TText.
Definition ConfirmationCode : ty := TText.
Definition SmdpAddress : ty := TText.
Definition Sha256 : ty := TText.
Definition HttpsUrl : ty := TText.

(** ** The kinds *)

Definition MessageKinds : list string :=
  [ "Resume"; "ResumeAck"; "UplinkAck"; "UplinkGap"; "UplinkGapAck"; "Ping"; "Pong"; "CommandDeliver";
    "CommandReceipt"; "SmsReceived"; "SmsStatusReport"; "DeviceState"; "CommandResult"; "EsimInventory";
    "Alert"; "ProxyTraffic"; "ProtocolError" ].
Definition MessageKind : ty := TOne MessageKinds.

Definition SEQUENCED_KINDS : list string :=
  [ "SmsReceived"; "SmsStatusReport"; "DeviceState"; "CommandResult"; "EsimInventory"; "Alert";
    "ProxyTraffic" ].

(** ** The commands *)

Definition SendSmsCommand : ty := TObject
  [ req "kind" (TOne ["SendSms"]); req "to" TText; req "body" TText; opt "modem_imei" Imei; opt "iccid"
    Iccid ].

Definition RestartModemCommand : ty := TObject
  [ req "kind" (TOne ["RestartModem"]); req "modem_imei" Imei ].

Definition SwitchEsimProfileCommand : ty := TObject
  [ req "kind" (TOne ["SwitchEsimProfile"]); req "modem_imei" Imei; req "target_iccid" Iccid ].

Definition ListEsimProfilesCommand : ty := TObject
  [ req "kind" (TOne ["ListEsimProfiles"]); req "modem_imei" Imei ].

Definition ReadEsimInfoCommand : ty := TObject
  [ req "kind" (TOne ["ReadEsimInfo"]); req "modem_imei" Imei ].

Definition RetrieveEsimNotificationCommand : ty := TObject
  [ req "kind" (TOne ["RetrieveEsimNotification"]); req "modem_imei" Imei; req "sequence_number" TNumber ].

Definition InitiateEsimAuthenticationCommand : ty := TObject
  [ req "kind" (TOne ["InitiateEsimAuthentication"]); req "modem_imei" Imei; opt "smdp_address" SmdpAddress ].

Definition DownloadEsimProfileCommand : ty := TObject
  [ req "kind" (TOne ["DownloadEsimProfile"]); req "modem_imei" Imei; req "activation_code" ActivationCode;
    opt "confirmation_code" ConfirmationCode ].

Definition RunAtCommandCommand : ty := TObject
  [ req "kind" (TOne ["RunAtCommand"]); req "modem_imei" Imei; req "command" TText; opt "timeout_ms"
    TNumber; opt "force" TBool ].

Definition SendUssdCommand : ty := TObject
  [ req "kind" (TOne ["SendUssd"]); req "modem_imei" Imei; req "code" TText; opt "stage" (TOne ["start";
    "continue"; "cancel"]) ].

Definition SetRadioCommand : ty := TObject
  [ req "kind" (TOne ["SetRadio"]); req "modem_imei" Imei; req "enabled" TBool ].

Definition ScanOperatorsCommand : ty := TObject
  [ req "kind" (TOne ["ScanOperators"]); req "modem_imei" Imei ].

Definition SelectOperatorCommand : ty := TObject
  [ req "kind" (TOne ["SelectOperator"]); req "modem_imei" Imei; req "mode" (TOne ["automatic"; "manual"]);
    opt "plmn" Plmn ].

Definition ModemReportCommand : ty := TObject
  [ req "kind" (TOne ["ModemReport"]); req "modem_imei" Imei ].

Definition ResetModemUsbCommand : ty := TObject
  [ req "kind" (TOne ["ResetModemUsb"]); req "modem_imei" Imei ].

Definition SetDataNetworkCommand : ty := TObject
  [ req "kind" (TOne ["SetDataNetwork"]); req "modem_imei" Imei; req "enabled" TBool ].

Definition ConfigureApnCommand : ty := TObject
  [ req "kind" (TOne ["ConfigureApn"]); req "modem_imei" Imei; req "cid" TNumber; opt "pdp_type" (TOne
    ["IP"; "IPV6"; "IPV4V6"]); req "apn" TText; opt "username" TText; opt "password" TText; opt "auth" (TOne
    ["none"; "pap"; "chap"; "pap_or_chap"]) ].

Definition SetUsbnetModeCommand : ty := TObject
  [ req "kind" (TOne ["SetUsbnetMode"]); req "modem_imei" Imei; req "mode" (TOne ["rmnet"; "ecm"; "mbim";
    "rndis"]) ].

Definition ReregisterNetworkCommand : ty := TObject
  [ req "kind" (TOne ["ReregisterNetwork"]); req "modem_imei" Imei ].

Definition RefreshModemsCommand : ty := TObject
  [ req "kind" (TOne ["RefreshModems"]) ].

Definition ReadLogsCommand : ty := TObject
  [ req "kind" (TOne ["ReadLogs"]); opt "after" TNumber; opt "limit" TNumber; opt "contains" TText ].

Definition ClaimModemCandidateCommand : ty := TObject
  [ req "kind" (TOne ["ClaimModemCandidate"]); req "candidate_key" TText ].

Definition RevokeModemCandidateCommand : ty := TObject
  [ req "kind" (TOne ["RevokeModemCandidate"]); req "candidate_key" TText ].

Definition RegisterModemCommand : ty := TObject
  [ req "kind" (TOne ["RegisterModem"]); req "modem_imei" Imei; opt "note" TText ].

Definition CreateModemCommand : ty := TObject
  [ req "kind" (TOne ["CreateModem"]); req "modem_imei" Imei; req "family" TText; opt "note" (TOr TText
    TNull) ].

Definition UnregisterModemCommand : ty := TObject
  [ req "kind" (TOne ["UnregisterModem"]); req "modem_imei" Imei ].

Definition ReconfirmModemCommand : ty := TObject
  [ req "kind" (TOne ["ReconfirmModem"]); req "modem_imei" Imei ].

Definition UpdateModemCommand : ty := TObject
  [ req "kind" (TOne ["UpdateModem"]); req "modem_imei" Imei; opt "note" (TOr TText TNull) ].

Definition RenameEsimProfileCommand : ty := TObject
  [ req "kind" (TOne ["RenameEsimProfile"]); req "modem_imei" Imei; req "iccid" Iccid; opt "nickname" TText ].

Definition DisableEsimProfileCommand : ty := TObject
  [ req "kind" (TOne ["DisableEsimProfile"]); req "modem_imei" Imei; req "iccid" Iccid ].

Definition DeleteEsimProfileCommand : ty := TObject
  [ req "kind" (TOne ["DeleteEsimProfile"]); req "modem_imei" Imei; req "iccid" Iccid ].

Definition ProxyInstanceSpec : ty := TObject
  [ req "id" Uuid; opt "name" TText; req "modem_imei" Imei; req "protocol" (TOne ["socks5"; "http"]); req
    "listen_addr" TText; req "listen_port" TNumber; opt "auth_enabled" TBool; opt "username" TText; opt
    "password" TText; opt "upstream_id" TText; req "enabled" TBool ].

Definition ProxyUpstreamSpec : ty := TObject
  [ req "id" Uuid; opt "name" TText; req "address" TText; req "protocol" (TOne ["socks5"; "http"]); opt
    "username" TText; opt "password" TText; opt "enabled" TBool ].

Definition ConfigureProxyCommand : ty := TObject
  [ req "kind" (TOne ["ConfigureProxy"]); req "instances" (TArray ProxyInstanceSpec); req "upstreams"
    (TArray ProxyUpstreamSpec) ].

Definition ProxyLifecycleCommand : ty := TObject
  [ req "kind" (TOne ["ProxyLifecycle"]); req "instance_id" Uuid; req "action" (TOne ["start"; "stop";
    "restart"]) ].

Definition ProbeUpstreamProxyCommand : ty := TObject
  [ req "kind" (TOne ["ProbeUpstreamProxy"]); req "upstream_id" Uuid ].

Definition RotateIpCommand : ty := TObject
  [ req "kind" (TOne ["RotateIp"]); req "modem_imei" Imei ].

Definition SubscriptionCapability : ty := TObject
  [ opt "sms_send" TUnknown; opt "sms_receive" TUnknown; opt "data" TUnknown; opt "voice" TUnknown ].

Definition CardPolicy : ty := TObject
  [ req "iccid" Iccid; req "cellular_enabled" TBool; req "vertical" (TOne ["cn"; "intl"]); opt "apn" (TOr
    TText TNull); opt "capability" SubscriptionCapability ].

Definition UpdateCardPolicyCommand : ty := TObject
  [ req "kind" (TOne ["UpdateCardPolicy"]); req "policy_version" TText; req "policies" (TArray CardPolicy) ].

Definition UpdateCapabilityMatrixCommand : ty := TObject
  [ req "kind" (TOne ["UpdateCapabilityMatrix"]); req "matrix_version" TText; req "matrix_sha256" Sha256;
    req "matrix" TContext ].

Definition SelfUpdateCommand : ty := TObject
  [ req "kind" (TOne ["SelfUpdate"]); req "version" TText; req "url" HttpsUrl; req "sha256" Sha256; req
    "signature" TText ].

(** The members of the union, under the kind each is told by. *)
Definition Commands : list (string * ty) :=
  [ ("SendSms", SendSmsCommand); ("RestartModem", RestartModemCommand);
    ("SwitchEsimProfile", SwitchEsimProfileCommand); ("ListEsimProfiles", ListEsimProfilesCommand);
    ("ReadEsimInfo", ReadEsimInfoCommand); ("RetrieveEsimNotification", RetrieveEsimNotificationCommand);
    ("InitiateEsimAuthentication", InitiateEsimAuthenticationCommand);
    ("DownloadEsimProfile", DownloadEsimProfileCommand); ("RunAtCommand", RunAtCommandCommand);
    ("SendUssd", SendUssdCommand); ("SetRadio", SetRadioCommand); ("ScanOperators", ScanOperatorsCommand);
    ("SelectOperator", SelectOperatorCommand); ("ModemReport", ModemReportCommand);
    ("ResetModemUsb", ResetModemUsbCommand); ("SetDataNetwork", SetDataNetworkCommand);
    ("ConfigureApn", ConfigureApnCommand); ("SetUsbnetMode", SetUsbnetModeCommand);
    ("ReregisterNetwork", ReregisterNetworkCommand); ("RefreshModems", RefreshModemsCommand);
    ("ReadLogs", ReadLogsCommand); ("ClaimModemCandidate", ClaimModemCandidateCommand);
    ("RevokeModemCandidate", RevokeModemCandidateCommand); ("RegisterModem", RegisterModemCommand);
    ("CreateModem", CreateModemCommand); ("UnregisterModem", UnregisterModemCommand);
    ("ReconfirmModem", ReconfirmModemCommand); ("UpdateModem", UpdateModemCommand);
    ("RenameEsimProfile", RenameEsimProfileCommand); ("DisableEsimProfile", DisableEsimProfileCommand);
    ("DeleteEsimProfile", DeleteEsimProfileCommand); ("ConfigureProxy", ConfigureProxyCommand);
    ("ProxyLifecycle", ProxyLifecycleCommand); ("ProbeUpstreamProxy", ProbeUpstreamProxyCommand);
    ("RotateIp", RotateIpCommand); ("UpdateCardPolicy", UpdateCardPolicyCommand);
    ("UpdateCapabilityMatrix", UpdateCapabilityMatrixCommand); ("SelfUpdate", SelfUpdateCommand) ].
Definition Command : ty := foldr TOr (TOne []) Commands.*2.

(** ** The payloads of the other messages *)

Definition SequenceRange : ty := TObject
  [ req "from" TText; req "through" TText ].

Definition ResumePayload : ty := TObject
  [ req "connection_id" Uuid; req "last_assigned_seq" TText; req "lowest_retained_seq" (TOr TText TNull);
    req "last_acked_seq" TText; req "pending_gap_ids" (TArray Uuid); req "capability_matrix_version" TText;
    opt "card_policy_version" TText; opt "edge_version" TText; opt "queue_records" TNumber; opt
    "queue_bytes" TNumber ].

Definition ResumeAckPayload : ty := TObject
  [ req "connection_id" Uuid; req "committed_through" TText; req "missing_ranges" (TArray SequenceRange);
    req "more_missing" TBool; req "max_in_flight" TNumber; req "server_time" TNumber ].

Definition UplinkAckPayload : ty := TObject
  [ req "connection_id" Uuid; req "committed_through" TText; req "missing_ranges" (TArray SequenceRange);
    req "more_missing" TBool; req "max_in_flight" TNumber ].

Definition UplinkGapPayload : ty := TObject
  [ req "gap_id" Uuid; req "ranges" (TArray SequenceRange); req "reason" (TOne ["queue_capacity";
    "storage_corruption"; "operator_purge"]); req "dropped_records" TNumber; req "occurred_at" TNumber; req
    "drop_policy" (TOne ["oldest_non_verification_only"]); opt "detail" (TOr TText TNull) ].

Definition UplinkGapAckPayload : ty := TObject
  [ req "gap_id" Uuid; req "accepted" TBool; req "committed_through" TText; opt "reason_code" (TOr TText
    TNull) ].

Definition PingPayload : ty := TObject
  [ req "connection_id" Uuid; req "sent_at" TNumber ].

Definition PongPayload : ty := TObject
  [ req "connection_id" Uuid; req "ping_id" Uuid; req "server_time" TNumber ].

Definition CommandDeliverPayload : ty := TObject
  [ req "cmd_id" Uuid; req "issued_at" TNumber; req "expires_at" TNumber; opt "attempt" TNumber; req
    "command" Command ].

Definition CommandReceiptPayload : ty := TObject
  [ req "cmd_id" Uuid; req "delivery_id" Uuid; req "status" (TOne ["accepted"; "duplicate"; "retry_later"]);
    req "received_at" TNumber; opt "retry_after_ms" TNumber; opt "reason_code" (TOr TText TNull) ].

Definition SmsReceivedPayload : ty := TObject
  [ req "modem_imei" Imei; req "peer" TText; req "body" TText; req "received_at" TNumber; req "iccid" (TOr
    Iccid TNull); req "bearer" (TOne ["cs"; "ims"; "nas"; "unknown"]); req "encoding" (TOne ["gsm7"; "ucs2";
    "8bit"; "unknown"]); opt "modem_storage_index" TNumber ].

Definition SmsStatusReportPayload : ty := TObject
  [ req "modem_imei" Imei; req "peer" TText; req "reference" TNumber; req "status" (TOne ["delivered";
    "pending"; "failed"; "unknown"]); opt "status_code" TNumber; req "reported_at" TNumber; opt
    "submitted_at" TNumber; opt "delivered_at" TNumber ].

Definition ProxyTrafficEntry : ty := TObject
  [ req "instance_id" Uuid; req "bytes_up" TNumber; req "bytes_down" TNumber; req "connections" TNumber; opt
    "errors" TNumber ].

Definition ProxyTrafficPayload : ty := TObject
  [ req "reported_at" TNumber; req "instances" (TArray ProxyTrafficEntry) ].

Definition Adoption : ty := TObject
  [ req "modem_imei" Imei; req "adopted_at" TNumber; req "adopted_by" TText; opt "family" (TOr TText TNull);
    opt "adoption_note" (TOr TText TNull); opt "usb_device" (TOr TText TNull) ].

Definition DiscoveryCandidate : ty := TObject
  [ req "candidate_key" TText; opt "usb_device" (TOr TText TNull); req "transport" (TOne ["qmi"; "at";
    "serial"]); req "control_port" TText; opt "vendor_id" (TOr TText TNull); opt "product_id" (TOr TText
    TNull); req "state" (TOne ["manageable"; "probe_failed"; "at_only"; "found"; "claimed"]); opt "imei"
    (TOr TText TNull); opt "detail" TText; opt "last_seen" TNumber ].

Definition HostState : ty := TObject
  [ opt "public_ip" (TOr TText TNull); opt "cpu_percent" (TOr TNumber TNull); opt "memory_used_bytes" (TOr
    TNumber TNull); opt "memory_total_bytes" (TOr TNumber TNull); opt "disk_used_bytes" (TOr TNumber TNull);
    opt "disk_total_bytes" (TOr TNumber TNull); opt "net_rx_bytes_per_sec" (TOr TNumber TNull); opt
    "net_tx_bytes_per_sec" (TOr TNumber TNull); opt "cpu_model" (TOr TText TNull); opt "kernel" (TOr TText
    TNull); opt "hostname" (TOr TText TNull) ].

Definition ApnContext : ty := TObject
  [ req "cid" TNumber; opt "pdp_type" TText; opt "apn" TText; opt "username" TText; opt "auth" (TOne
    ["none"; "pap"; "chap"; "pap_or_chap"]); opt "has_password" TBool; opt "source" (TOne ["configured"]) ].

Definition CapabilitySummary : ty := TObject
  [ req "sms_mo" (TOne ["supported"; "degraded"; "unsupported"; "unknown"]); req "sms_mt" (TOne
    ["supported"; "degraded"; "unsupported"; "unknown"]); req "matrix_version" TText; opt "carrier_profile"
    TText; opt "origin" (TOne ["rule"; "fallback"]); opt "reason" (TOr TText TNull) ].

Definition ModemState : ty := TObject
  [ req "modem_imei" Imei; req "state" (TOne ["online"; "offline"; "recovering"; "unknown"]); req
    "registration" (TOne ["registered"; "searching"; "denied"; "unregistered"; "unknown"]); opt "iccid" (TOr
    Iccid TNull); opt "signal_dbm" (TOr TNumber TNull); opt "rsrp" (TOr TNumber TNull); opt "rsrq" (TOr
    TNumber TNull); opt "sinr" (TOr TNumber TNull); opt "discovery" (TOne ["qmi"; "at"]); opt "manageable"
    TBool; opt "family" (TOr TText TNull); opt "imsi" (TOr Imsi TNull); opt "home_plmn" (TOr Plmn TNull);
    opt "serving_plmn" (TOr Plmn TNull); opt "firmware" (TOr TText TNull); opt "msisdn" (TOr TText TNull);
    opt "msisdn_iccid" (TOr Iccid TNull); opt "control_port" (TOr TText TNull); opt "usb_device" (TOr TText
    TNull); opt "apn_contexts" (TOr (TArray ApnContext) TNull); opt "adoption_note" (TOr TText TNull); opt
    "adopted_at" TUnknown; opt "adopted_by" (TOr TText TNull); req "capability" CapabilitySummary ].

Definition DeviceStatePayload : ty := TObject
  [ req "observed_at" TNumber; req "modems" (TArray ModemState); opt "host" (TOr HostState TNull); opt
    "managed_imeis" (TArray Imei); opt "adoptions" (TArray Adoption); opt "discoveries" (TArray
    DiscoveryCandidate) ].

Definition CommandResultPayload : ty := TObject
  [ req "cmd_id" Uuid; req "status" (TOne ["succeeded"; "failed"; "unknown"; "expired"; "cancelled"]); req
    "completed_at" TNumber; req "attempts" TNumber; opt "reason_code" (TOr TText TNull); opt "reason" (TOr
    TText TNull); opt "details" (TOr TContext TNull) ].

Definition EsimProfile : ty := TObject
  [ req "iccid" Iccid; req "state" (TOne ["enabled"; "disabled"; "deleted"; "unknown"]); opt "nickname" (TOr
    TText TNull) ].

Definition EsimInventoryPayload : ty := TObject
  [ req "modem_imei" Imei; req "eid" TText; req "collected_at" TNumber; req "profiles" (TArray EsimProfile) ].

Definition AlertPayload : ty := TObject
  [ req "level" (TOne ["info"; "warning"; "error"; "critical"]); req "code" TText; req "message" TText; req
    "occurred_at" TNumber; req "context" TContext ].

Definition ProtocolErrorPayload : ty := TObject
  [ req "code" (TOne ["invalid_envelope"; "frame_too_large"; "unsupported_version"; "wrong_direction";
    "device_id_mismatch"; "sequence_conflict"; "sequence_state_invalid"; "connection_superseded";
    "rate_limited"]); req "message" TText; req "related_message_id" (TOr Uuid TNull); req "retryable" TBool;
    opt "retry_after_ms" TNumber ].

Definition Envelope : ty := TObject
  [ req "v" (TNumeral 1); req "kind" MessageKind; req "id" Uuid; req "ts" EpochMillis; req "device_id" Uuid;
    opt "seq" SequenceNumber; opt "trace_id" Uuid; req "payload" TUnknown ].
(** ** The schema the types are generated from *)

(** The scalars a command names. *)
Definition Imei_schema : ty := TString 0 None (Some (rdigits_between 14 16)).
Definition Iccid_schema : ty := TString 0 None (Some (rdigits_between 19 20)).
Definition Plmn_schema : ty := TString 0 None (Some plmn_shape).
Definition ActivationCode_schema : ty := TString 8 (Some 1024) None.
Definition ConfirmationCode_schema : ty := TString 1 (Some 128) None.
Definition SmdpAddress_schema : ty := TString 4 (Some 253) (Some host_name).
Definition Sha256_schema : ty := TString 0 None (Some (hex_digits 64)).
Definition HttpsUrl_schema : ty := TString 0 (Some 2048) (Some https_prefix).

Definition SendSms_schema : ty := TAnyOf ["modem_imei"; "iccid"] (TObject
  [ req "kind" (TOne ["SendSms"]); req "to" (TString 0 None (Some phone_number));
    req "body" (TString 1 (Some 16384) None); opt "modem_imei" Imei_schema; opt "iccid" Iccid_schema ]).

Definition RestartModem_schema : ty := TObject
  [ req "kind" (TOne ["RestartModem"]); req "modem_imei" Imei_schema ].

Definition SwitchEsimProfile_schema : ty := TObject
  [ req "kind" (TOne ["SwitchEsimProfile"]); req "modem_imei" Imei_schema; req "target_iccid" Iccid_schema ].

Definition ListEsimProfiles_schema : ty := TObject
  [ req "kind" (TOne ["ListEsimProfiles"]); req "modem_imei" Imei_schema ].

Definition ReadEsimInfo_schema : ty := TObject
  [ req "kind" (TOne ["ReadEsimInfo"]); req "modem_imei" Imei_schema ].

Definition RetrieveEsimNotification_schema : ty := TObject
  [ req "kind" (TOne ["RetrieveEsimNotification"]); req "modem_imei" Imei_schema;
    req "sequence_number" (TInt 0 (Some 2147483647)) ].

Definition InitiateEsimAuthentication_schema : ty := TObject
  [ req "kind" (TOne ["InitiateEsimAuthentication"]); req "modem_imei" Imei_schema;
    opt "smdp_address" SmdpAddress_schema ].

Definition DownloadEsimProfile_schema : ty := TObject
  [ req "kind" (TOne ["DownloadEsimProfile"]); req "modem_imei" Imei_schema;
    req "activation_code" ActivationCode_schema; opt "confirmation_code" ConfirmationCode_schema ].

Definition RunAtCommand_schema : ty := TObject
  [ req "kind" (TOne ["RunAtCommand"]); req "modem_imei" Imei_schema;
    req "command" (TString 2 (Some 1024) None); opt "timeout_ms" (TInt 100 (Some 300000));
    opt "force" TBool ].

Definition SendUssd_schema : ty := TObject
  [ req "kind" (TOne ["SendUssd"]); req "modem_imei" Imei_schema; req "code" (TString 1 (Some 182) None);
    opt "stage" (TOne ["start"; "continue"; "cancel"]) ].

Definition SetRadio_schema : ty := TObject
  [ req "kind" (TOne ["SetRadio"]); req "modem_imei" Imei_schema; req "enabled" TBool ].

Definition ScanOperators_schema : ty := TObject
  [ req "kind" (TOne ["ScanOperators"]); req "modem_imei" Imei_schema ].

Definition SelectOperator_schema : ty := TWhen "mode" "manual" "plmn" (TObject
  [ req "kind" (TOne ["SelectOperator"]); req "modem_imei" Imei_schema;
    req "mode" (TOne ["automatic"; "manual"]); opt "plmn" Plmn_schema ]).

Definition ModemReport_schema : ty := TObject
  [ req "kind" (TOne ["ModemReport"]); req "modem_imei" Imei_schema ].

Definition ResetModemUsb_schema : ty := TObject
  [ req "kind" (TOne ["ResetModemUsb"]); req "modem_imei" Imei_schema ].

Definition SetDataNetwork_schema : ty := TObject
  [ req "kind" (TOne ["SetDataNetwork"]); req "modem_imei" Imei_schema; req "enabled" TBool ].

Definition ConfigureApn_schema : ty := TObject
  [ req "kind" (TOne ["ConfigureApn"]); req "modem_imei" Imei_schema; req "cid" (TInt 1 (Some 15));
    opt "pdp_type" (TOne ["IP"; "IPV6"; "IPV4V6"]); req "apn" (TString 0 (Some 128) None);
    opt "username" (TString 0 (Some 64) None); opt "password" (TString 0 (Some 64) None);
    opt "auth" (TOne ["none"; "pap"; "chap"; "pap_or_chap"]) ].

Definition SetUsbnetMode_schema : ty := TObject
  [ req "kind" (TOne ["SetUsbnetMode"]); req "modem_imei" Imei_schema;
    req "mode" (TOne ["rmnet"; "ecm"; "mbim"; "rndis"]) ].

Definition ReregisterNetwork_schema : ty := TObject
  [ req "kind" (TOne ["ReregisterNetwork"]); req "modem_imei" Imei_schema ].

Definition RefreshModems_schema : ty := TObject
  [ req "kind" (TOne ["RefreshModems"]) ].

Definition ReadLogs_schema : ty := TObject
  [ req "kind" (TOne ["ReadLogs"]); opt "after" (TInt 0 None); opt "limit" (TInt 1 (Some 500));
    opt "contains" (TString 0 (Some 64) None) ].

Definition ClaimModemCandidate_schema : ty := TObject
  [ req "kind" (TOne ["ClaimModemCandidate"]); req "candidate_key" (TString 0 (Some 128) None) ].

Definition RevokeModemCandidate_schema : ty := TObject
  [ req "kind" (TOne ["RevokeModemCandidate"]); req "candidate_key" (TString 0 (Some 128) None) ].

Definition RegisterModem_schema : ty := TObject
  [ req "kind" (TOne ["RegisterModem"]); req "modem_imei" Imei_schema;
    opt "note" (TString 0 (Some 256) None) ].

Definition CreateModem_schema : ty := TObject
  [ req "kind" (TOne ["CreateModem"]); req "modem_imei" Imei_schema; req "family" (TString 0 (Some 64) None);
    opt "note" (TOr (TString 0 (Some 256) None) TNull) ].

Definition UnregisterModem_schema : ty := TObject
  [ req "kind" (TOne ["UnregisterModem"]); req "modem_imei" Imei_schema ].

Definition ReconfirmModem_schema : ty := TObject
  [ req "kind" (TOne ["ReconfirmModem"]); req "modem_imei" Imei_schema ].

Definition UpdateModem_schema : ty := TObject
  [ req "kind" (TOne ["UpdateModem"]); req "modem_imei" Imei_schema;
    opt "note" (TOr (TString 0 (Some 256) None) TNull) ].

Definition RenameEsimProfile_schema : ty := TObject
  [ req "kind" (TOne ["RenameEsimProfile"]); req "modem_imei" Imei_schema; req "iccid" Iccid_schema;
    opt "nickname" (TString 0 (Some 64) None) ].

Definition DisableEsimProfile_schema : ty := TObject
  [ req "kind" (TOne ["DisableEsimProfile"]); req "modem_imei" Imei_schema; req "iccid" Iccid_schema ].

Definition DeleteEsimProfile_schema : ty := TObject
  [ req "kind" (TOne ["DeleteEsimProfile"]); req "modem_imei" Imei_schema; req "iccid" Iccid_schema ].

Definition RotateIp_schema : ty := TObject
  [ req "kind" (TOne ["RotateIp"]); req "modem_imei" Imei_schema ].

Definition SelfUpdate_schema : ty := TObject
  [ req "kind" (TOne ["SelfUpdate"]); req "version" (TString 1 (Some 128) None); req "url" HttpsUrl_schema;
    req "sha256" Sha256_schema; req "signature" (TString 16 (Some 1024) None) ].

Definition Schemas : list (string * ty) :=
  [ ("SendSms", SendSms_schema); ("RestartModem", RestartModem_schema);
    ("SwitchEsimProfile", SwitchEsimProfile_schema); ("ListEsimProfiles", ListEsimProfiles_schema);
    ("ReadEsimInfo", ReadEsimInfo_schema); ("RetrieveEsimNotification", RetrieveEsimNotification_schema);
    ("InitiateEsimAuthentication", InitiateEsimAuthentication_schema);
    ("DownloadEsimProfile", DownloadEsimProfile_schema); ("RunAtCommand", RunAtCommand_schema);
    ("SendUssd", SendUssd_schema); ("SetRadio", SetRadio_schema); ("ScanOperators", ScanOperators_schema);
    ("SelectOperator", SelectOperator_schema); ("ModemReport", ModemReport_schema);
    ("ResetModemUsb", ResetModemUsb_schema); ("SetDataNetwork", SetDataNetwork_schema);
    ("ConfigureApn", ConfigureApn_schema); ("SetUsbnetMode", SetUsbnetMode_schema);
    ("ReregisterNetwork", ReregisterNetwork_schema); ("RefreshModems", RefreshModems_schema);
    ("ReadLogs", ReadLogs_schema); ("ClaimModemCandidate", ClaimModemCandidate_schema);
    ("RevokeModemCandidate", RevokeModemCandidate_schema); ("RegisterModem", RegisterModem_schema);
    ("CreateModem", CreateModem_schema); ("UnregisterModem", UnregisterModem_schema);
    ("ReconfirmModem", ReconfirmModem_schema); ("UpdateModem", UpdateModem_schema);
    ("RenameEsimProfile", RenameEsimProfile_schema); ("DisableEsimProfile", DisableEsimProfile_schema);
    ("DeleteEsimProfile", DeleteEsimProfile_schema); ("RotateIp", RotateIp_schema);
    ("SelfUpdate", SelfUpdate_schema) ].

(** ** The generated types are the schema without its bounds *)

Fixpoint erase (t : ty) : ty :=
  match t with
  | TArray t => TArray (erase t)
  | TOr t1 t2 => TOr (erase t1) (erase t2)
  | TObject fields => TObject ((fun f => (f.1, erase f.2)) <$> fields)
  | TString _ _ _ => TText
  | TInt _ _ => TNumber
  | TAnyOf _ t | TWhen _ _ _ t => erase t
  | t => t
  end.

Section Induction.
Variable P : ty -> Prop.
Hypothesis leaf : forall t, (forall t', t <> TArray t') -> (forall a b, t <> TOr a b) -> (forall fs, t <> TObject fs) ->
  (forall ns t', t <> TAnyOf ns t') -> (forall a b c t', t <> TWhen a b c t') -> P t.
Hypothesis array : forall t, P t -> P (TArray t).
Hypothesis either : forall a b, P a -> P b -> P (TOr a b).
Hypothesis object : forall fs, Forall (fun f => P f.2) fs -> P (TObject fs).
Hypothesis any_of : forall ns t, P t -> P (TAnyOf ns t).
Hypothesis when : forall a b c t, P t -> P (TWhen a b c t).

Fixpoint ty_nested (t : ty) : P t.
Proof.
  destruct t; try (by apply leaf).
  - by apply array.
  - by apply either.
  - apply object. induction fields as [|f fs IH]; constructor; [apply ty_nested|exact IH].
  - by apply any_of.
  - by apply when.
Defined.
End Induction.

(** A value of a type with bounds has the type without them. *)
Lemma inhabits_erase t v : inhabits t v = true -> inhabits (erase t) v = true.
Proof.
  revert v. induction t as [t Ha Ho Hf Hn Hw|t IH|a b IHa IHb|fs IH|ns t IH|x y z t IH] using ty_nested; intros v Hv.
  - destruct t; first [by edestruct Ha|by edestruct Ho|by edestruct Hf|by edestruct Hn|by edestruct Hw|by destruct v].
  - destruct v as [| | | | |l|]; try done. cbn in *. induction l as [|w l IHl]; [done|]. cbn in *.
    apply andb_true_iff in Hv as [Hw Hl]. apply andb_true_iff. split; [by apply IH|by apply IHl].
  - cbn in *. apply orb_true_iff in Hv as [Hv|Hv]; apply orb_true_iff; [left; by apply IHa|right; by apply IHb].
  - destruct v as [| | | | | |own]; try done. cbn in *. apply andb_true_iff in Hv as [Hfs Hown].
    apply andb_true_iff. split.
    + clear Hown. induction IH as [|f fs Hf _ IHfs]; [done|]. cbn in *. apply andb_true_iff in Hfs as [H1 H2].
      apply andb_true_iff. split; [|by apply IHfs]. destruct (field (u f.1.1) own); [by apply Hf|done].
    + clear Hfs. rewrite forallb_forall in Hown. apply forallb_forall. intros kv Hkv.
      specialize (Hown kv Hkv). apply existsb_exists in Hown as (f & Hin & Hf). apply existsb_exists.
      exists (f.1, erase f.2). split; [|done]. apply list_elem_of_In, list_elem_of_fmap. exists f.
      split; [done|by apply list_elem_of_In].
  - cbn in *. apply andb_true_iff in Hv as [_ Hv]. by apply IH.
  - cbn in *. apply andb_true_iff in Hv as [_ Hv]. by apply IH.
Qed.

(** A type of the contract by the name it is told by. *)
Fixpoint named (kind : jstring) (l : list (string * ty)) : option ty :=
  match l with
  | [] => None
  | (name, t) :: l => if jeqb kind (u name) then Some t else named kind l
  end.

Lemma named_in kind l t : named kind l = Some t -> exists name, kind = u name /\ In (name, t) l.
Proof.
  induction l as [|[name t'] l IH]; [done|]. cbn. destruct (jeqb kind (u name)) eqn:E.
  - intros [= <-]. exists name. split; [by apply jeqb_eq|by left].
  - intros H. destruct (IH H) as (n & -> & Hin). exists n. split; [done|by right].
Qed.

(** A member of the union is told by its kind, which comes first. *)
Definition told_by (name : string) (t : ty) : bool :=
  match t with
  | TObject (("kind", true, TOne [kind]) :: _) => String.eqb kind name
  | _ => false
  end.

Lemma told_kind name t v : told_by name t = true -> inhabits t v = true -> prop v (u "kind") = VStr (u name).
Proof.
  destruct t as [| | | | | | | | | |fs| | | |]; try done. unfold told_by. intros Ht Hv.
  repeat (case_match; try done); subst. apply String.eqb_eq in Ht as ->.
  destruct v as [| | | | | |own]; try done. cbn [inhabits forallb fst snd] in Hv.
  apply andb_true_iff in Hv as [Hv _]. apply andb_true_iff in Hv as [Hv _]. unfold prop.
  destruct (field (u "kind") own) as [w|]; [|done]. cbn in Hv. destruct w as [| | | |k| |]; try done.
  rewrite orb_false_r in Hv. by apply jeqb_eq in Hv as ->.
Qed.

Lemma commands_told : forallb (fun c => told_by c.1 c.2) Commands = true.
Proof. by vm_compute. Qed.

Lemma union_member (l : list ty) t v : In t l -> inhabits t v = true -> inhabits (foldr TOr (TOne []) l) v = true.
Proof.
  induction l as [|t' l IH]; [done|]. cbn. intros [->|Hin] Hv; apply orb_true_iff; [by left|right; by apply IH].
Qed.

(** A value of a command's type is a command, and told by its kind. *)
Lemma named_command kind t v :
  named kind Commands = Some t -> inhabits t v = true -> inhabits Command v = true /\ prop v (u "kind") = VStr kind.
Proof.
  intros Hc Hv. apply named_in in Hc as (name & -> & Hin). split.
  - apply (union_member _ t); [|done]. apply (List.in_map snd) in Hin. exact Hin.
  - apply (told_kind _ t); [|done]. pose proof commands_told as Ht. rewrite forallb_forall in Ht. exact (Ht _ Hin).
Qed.

Lemma schemas_erase : Forall (fun s => named (u s.1) Commands = Some (erase s.2)) Schemas.
Proof. repeat (constructor; [reflexivity|]). constructor. Qed.

(** C16. The generated types say what the schema says, and no less: for every
    command of the console the type in ts/index.ts is the schema's definition
    with the bounds taken out, property for property, so whatever the schema
    lets through has the type and is told by its kind; and no two commands of
    the union have one kind. *)
Theorem generated_types_erase kind schema :
  named kind Schemas = Some schema ->
  named kind Commands = Some (erase schema)
  /\ (forall v, inhabits schema v = true ->
        inhabits (erase schema) v = true /\ inhabits Command v = true /\ prop v (u "kind") = VStr kind)
  /\ NoDup Commands.*1.
Proof.
  intros Hs. apply named_in in Hs as (name & -> & Hin%list_elem_of_In).
  pose proof (proj1 (Forall_forall _ _) schemas_erase _ Hin) as Hc. cbn [fst snd] in Hc.
  split; [exact Hc|]. split.
  - intros v Hv%inhabits_erase. split; [done|]. by apply (named_command _ (erase schema)).
  - by apply (bool_decide_unpack _); vm_compute.
Qed.

Lemma generated_types_erase_witness :
  let v := VObj [(u "kind", VStr (u "SetRadio")); (u "modem_imei", VStr (u "860000000000001"));
                 (u "enabled", VBool false)] in
  inhabits SetRadio_schema v = true /\ inhabits Command v = true /\ prop v (u "kind") = VStr (u "SetRadio").
Proof.
  intros v. assert (Hv : inhabits SetRadio_schema v = true) by (by vm_compute).
  split; [exact Hv|].
  exact (proj2 (proj1 (proj2 (generated_types_erase (u "SetRadio") SetRadio_schema eq_refl)) v Hv)).
Defined.
