(* ===== verification/Commands.v ===== *)
(** * The gateway's command catalogue (apps/gateway/internal/commands:
      catalogue.go, redact.go; cmd/gateway/main.go: enqueueCommand)

    What the gateway makes of a command the console posts: the request it
    decodes, the catalogue with a builder for each kind, the payload queued for
    the edge, and the copy of it that goes into the audit log.  A Go string is
    kept as the text it decodes from, halves of surrogate pairs replaced, so
    that [len] counts the bytes of its UTF-8; a property of the body is looked
    up by its exact name. *)

From Stdlib Require Import Lia.
From S2P Require Import Prelude JsString JsValue JsRegex RegexCount Contract.

#[local] Open Scope string_scope.
#[local] Open Scope list_scope.
#[local] Open Scope Z_scope.

(** ** Go's strings *)

(** [encoding/json] puts U+FFFD for half of a surrogate pair. *)
Fixpoint well_formed (s : jstring) : jstring :=
  match s with
  | [] => []
  | c :: s1 =>
      if high_surrogate c then
        match s1 with
        | d :: s2 => if low_surrogate d then c :: d :: well_formed s2 else 0xFFFD%N :: well_formed s1
        | [] => [0xFFFD%N]
        end
      else if low_surrogate c then 0xFFFD%N :: well_formed s1
      else c :: well_formed s1
  end.

(** [len]: the bytes of the UTF-8. *)
Definition len (s : jstring) : Z := Z.of_nat (length (concat (utf8_of_point <$> runes s))).

(** [unicode.IsSpace], and [strings.TrimSpace]. *)
Definition go_space (c : N) : bool :=
  ((9 <=? c) && (c <=? 13) || (c =? 32) || (c =? 0x85) || (c =? 0xA0) || (c =? 0x1680)
   || ((0x2000 <=? c) && (c <=? 0x200A)) || (c =? 0x2028) || (c =? 0x2029) || (c =? 0x202F)
   || (c =? 0x205F) || (c =? 0x3000))%N.
Fixpoint trim_left (s : jstring) : jstring :=
  match s with
  | c :: s' => if go_space c then trim_left s' else s
  | [] => []
  end.
Definition TrimSpace (s : jstring) : jstring := rev (trim_left (rev (trim_left s))).

(** [regexp.MatchString]: over the code points. *)
Definition matches (r : regex) (s : jstring) : bool := test r (runes s).

(** ** The request *)

Record Request := {
  DeviceID : jstring; Kind : jstring; ModemIMEI : jstring;
  To : jstring; Body : jstring;
  CommandText : jstring; TimeoutMs : Z; Force : bool;
  Code : jstring; Stage : jstring;
  Enabled : option bool;
  Mode : jstring; PLMN : jstring;
  ProfileICCID : jstring; Nickname : option jstring;
  CandidateKey : jstring;
  Note : jstring; Family : jstring;
  LogAfter : option Z; LogLimit : option Z; LogContains : jstring;
  CID : option Z; PDPType : jstring; APN : jstring;
  Username : option jstring; Password : option jstring; Auth : jstring;
  UsbnetMode : jstring;
  TargetICCID : jstring;
  SequenceNumber : option Z;
  SmdpAddress : jstring;
  ActivationCode : jstring; ConfirmationCode : jstring;
  Version : jstring; URL : jstring; SHA256 : jstring; Signature : jstring;
}.

(** The names in the tags, and the tags [sensitive:"true"]. *)
Definition request_tags : list (string * bool) :=
  [ ("device_id", false); ("kind", false); ("modem_imei", false); ("to", false); ("body", false);
    ("command", false); ("timeout_ms", false); ("force", false); ("code", false); ("stage", false);
    ("enabled", false); ("mode", false); ("plmn", false); ("iccid", false); ("nickname", false);
    ("candidate_key", false); ("note", false); ("family", false); ("log_after", false);
    ("log_limit", false); ("log_contains", false); ("cid", false); ("pdp_type", false); ("apn", false);
    ("username", false); ("password", true); ("auth", false); ("usbnet_mode", false);
    ("target_iccid", false); ("sequence_number", false); ("smdp_address", false);
    ("activation_code", true); ("confirmation_code", true); ("version", false); ("url", false);
    ("sha256", false); ("signature", false) ].

(** [json.Unmarshal] into one field: absent and null leave the zero value,
    a value of another type is an error. *)
Definition int64 (n : Z) : bool := (- 2 ^ 63 <=? n) && (n <? 2 ^ 63).
Definition uint64 (n : Z) : bool := (0 <=? n) && (n <? 2 ^ 64).

Section Decode.
Variable body : jsval.
Definition decode_string (name : string) : option (option jstring) :=
  match prop body (u name) with
  | VUndef | VNull => Some None
  | VStr s => Some (Some (well_formed s))
  | _ => None
  end.
Definition decode_bool (name : string) : option (option bool) :=
  match prop body (u name) with
  | VUndef | VNull => Some None
  | VBool b => Some (Some b)
  | _ => None
  end.
Definition decode_int (fits : Z -> bool) (name : string) : option (option Z) :=
  match prop body (u name) with
  | VUndef | VNull => Some None
  | VNum (Fin m) => if (m mod scale =? 0) && fits (m / scale) then Some (Some (m / scale)) else None
  | _ => None
  end.
Definition text (name : string) : option jstring := default [] <$> decode_string name.

Definition DecodeRequest : option Request :=
  match body with
  | VObj _ | VNull =>
      device_id ← text "device_id"; kind ← text "kind"; imei ← text "modem_imei";
      to ← text "to"; message ← text "body"; command ← text "command";
      timeout ← decode_int int64 "timeout_ms"; force ← decode_bool "force";
      code ← text "code"; stage ← text "stage"; enabled ← decode_bool "enabled";
      mode ← text "mode"; plmn ← text "plmn"; iccid ← text "iccid"; nickname ← decode_string "nickname";
      key ← text "candidate_key"; note ← text "note"; family ← text "family";
      after ← decode_int uint64 "log_after"; limit ← decode_int int64 "log_limit";
      contains ← text "log_contains"; cid ← decode_int int64 "cid"; pdp ← text "pdp_type";
      apn ← text "apn"; username ← decode_string "username"; password ← decode_string "password";
      auth ← text "auth"; usbnet ← text "usbnet_mode"; target ← text "target_iccid";
      sequence ← decode_int int64 "sequence_number"; smdp ← text "smdp_address";
      activation ← text "activation_code"; confirmation ← text "confirmation_code";
      version ← text "version"; url ← text "url"; sha ← text "sha256"; signature ← text "signature";
      Some {| DeviceID := device_id; Kind := kind; ModemIMEI := imei; To := to; Body := message;
              CommandText := command; TimeoutMs := default 0 timeout; Force := default false force;
              Code := code; Stage := stage; Enabled := enabled; Mode := mode; PLMN := plmn;
              ProfileICCID := iccid; Nickname := nickname; CandidateKey := key; Note := note;
              Family := family; LogAfter := after; LogLimit := limit; LogContains := contains;
              CID := cid; PDPType := pdp; APN := apn; Username := username; Password := password;
              Auth := auth; UsbnetMode := usbnet; TargetICCID := target; SequenceNumber := sequence;
              SmdpAddress := smdp; ActivationCode := activation; ConfirmationCode := confirmation;
              Version := version; URL := url; SHA256 := sha; Signature := signature |}
  | _ => None
  end.
End Decode.

(** ** The catalogue *)

Inductive built := Payload (fields : list (jstring * jsval)) | Invalid (reason : jstring).

Record Spec := {
  sp_Kind : string;
  sp_ContractKind : string;
  sp_NeedsModem : bool;
  sp_Build : Request -> built;
  sp_Mutating : bool;
}.

Definition imeiPattern : regex := rdigits_between 15 15.
Definition iccidPattern : regex := rdigits_between 19 20.
Definition phonePattern : regex := phone_number.
Definition plmnPattern : regex := plmn_shape.
Definition sha256Pattern : regex := hex_digits 64.
Definition smdpAddressPattern : regex := host_name.
(** [[^$\s]], and [^(?:LPA:)?1\$..{4,253}\$..{1,128}(?:\$..{0,255})?(?:\$1)?$]. *)
Definition code_char (c : N) : bool :=
  negb ((c =? 36) || (c =? 9) || (c =? 10) || (c =? 12) || (c =? 13) || (c =? 32))%N.
Definition activation_parts : list regex :=
  [ropt (rlit (u "LPA:")); rchar 49; rchar 36]
  ++ repeat (RClass code_char) 4
  ++ [ rupto 249 (RClass code_char); rchar 36; RClass code_char; rupto 127 (RClass code_char);
       ropt (RSeq (rchar 36) (rupto 255 (RClass code_char))); ropt (RSeq (rchar 36) (rchar 49)) ].
Definition activationCodePattern : regex := rseq (RStart :: activation_parts ++ [REnd]).

Definition usbnetModes : list jstring := [u "rmnet"; u "ecm"; u "mbim"; u "rndis"].

Definition str (name : string) (s : jstring) : jstring * jsval := (u name, VStr s).
Definition int_of (name : string) (n : Z) : jstring * jsval := (u name, VNum (Fin (int n))).
Definition one_of (s : jstring) (l : list string) : bool := existsb (fun x => jeqb s (u x)) l.
Definition refuse (reason : string) : built := Invalid (u reason).

(** [map[string]any{"kind": .., "modem_imei": request.ModemIMEI}]. *)
Definition plain (kind : string) (r : Request) : list (jstring * jsval) :=
  [str "kind" (u kind); str "modem_imei" (ModemIMEI r)].

Definition send_sms (r : Request) : built :=
  if negb (matches phonePattern (To r)) then refuse "to must be a phone number, optionally with a leading +"
  else if jeqb (Body r) [] then refuse "body must not be empty"
  else Payload [str "kind" (u "SendSms"); str "to" (To r); str "body" (Body r); str "modem_imei" (ModemIMEI r)].

(** [strings.HasPrefix(strings.ToUpper(command), "AT")]. *)
Definition starts_with_at (command : jstring) : bool :=
  match command with
  | a :: t :: _ => (ascii_upper a =? 65)%N && (ascii_upper t =? 84)%N
  | _ => false
  end.
Definition run_at_command (r : Request) : built :=
  let command := TrimSpace (CommandText r) in
  if (len command <? 2) || negb (starts_with_at command) then refuse "command must start with AT"
  else
    let payload := plain "RunAtCommand" r ++ [str "command" command]
                   ++ if Force r then [(u "force", VBool true)] else [] in
    if TimeoutMs r =? 0 then Payload payload
    else if (TimeoutMs r <? 100) || (300000 <? TimeoutMs r)
    then refuse "timeout_ms must be between 100 and 300000"
    else Payload (payload ++ [int_of "timeout_ms" (TimeoutMs r)]).

Definition ussd_stage (r : Request) : jstring := if jeqb (Stage r) [] then u "start" else Stage r.
Definition send_ussd (r : Request) : built :=
  let stage := ussd_stage r in
  if negb (one_of stage ["start"; "continue"; "cancel"]) then refuse "stage must be start, continue or cancel"
  else if negb (jeqb stage (u "cancel")) && jeqb (TrimSpace (Code r)) []
  then refuse "code is required unless stage is cancel"
  else Payload (plain "SendUssd" r ++ [str "code" (Code r); str "stage" stage]).

Definition set_enabled (kind : string) (r : Request) : built :=
  match Enabled r with
  | None => refuse "enabled must be given explicitly"
  | Some b => Payload (plain kind r ++ [(u "enabled", VBool b)])
  end.

Definition configure_apn (r : Request) : built :=
  match CID r with
  | None => refuse "cid is required"
  | Some cid =>
      if (cid <? 1) || (15 <? cid) then refuse "cid must be between 1 and 15"
      else if negb (jeqb (PDPType r) [] || one_of (PDPType r) ["IP"; "IPV6"; "IPV4V6"])
      then refuse "pdp_type must be IP, IPV6 or IPV4V6"
      else if negb (jeqb (Auth r) [] || one_of (Auth r) ["none"; "pap"; "chap"; "pap_or_chap"])
      then refuse "auth must be none, pap, chap or pap_or_chap"
      else Payload
        (plain "ConfigureApn" r ++ [int_of "cid" cid; str "apn" (APN r)]
         ++ (if jeqb (PDPType r) [] then [] else [str "pdp_type" (PDPType r)])
         ++ (if jeqb (Auth r) [] then [] else [str "auth" (Auth r)])
         ++ from_option (fun s => [str "username" s]) [] (Username r)
         ++ from_option (fun s => [str "password" s]) [] (Password r))
  end.

Definition operator_mode (r : Request) : jstring := if jeqb (Mode r) [] then u "automatic" else Mode r.
Definition select_operator (r : Request) : built :=
  let mode := operator_mode r in
  if negb (one_of mode ["automatic"; "manual"]) then refuse "mode must be automatic or manual"
  else if jeqb mode (u "manual") then
    if negb (matches plmnPattern (PLMN r)) then refuse "manual selection needs a plmn like 460-01"
    else Payload (plain "SelectOperator" r ++ [str "mode" mode; str "plmn" (PLMN r)])
  else Payload (plain "SelectOperator" r ++ [str "mode" mode]).

Definition set_usbnet_mode (r : Request) : built :=
  if negb (existsb (jeqb (UsbnetMode r)) usbnetModes)
  then refuse "usbnet_mode must be one of rmnet, ecm, mbim, rndis"
  else Payload (plain "SetUsbnetMode" r ++ [str "mode" (UsbnetMode r)]).

Definition rename_esim_profile (r : Request) : built :=
  if negb (matches iccidPattern (ProfileICCID r)) then refuse "iccid must be 19 or 20 digits"
  else match Nickname r with
       | None => refuse "nickname is required; send an empty string to clear it"
       | Some nickname =>
           if 64 <? len nickname then refuse "nickname must be 64 bytes or fewer"
           else Payload (plain "RenameEsimProfile" r ++ [str "iccid" (ProfileICCID r); str "nickname" nickname])
       end.
Definition on_profile (kind : string) (r : Request) : built :=
  if negb (matches iccidPattern (ProfileICCID r)) then refuse "iccid must be 19 or 20 digits"
  else Payload (plain kind r ++ [str "iccid" (ProfileICCID r)]).

Definition on_candidate (kind : string) (r : Request) : built :=
  let key := TrimSpace (CandidateKey r) in
  if jeqb key [] then refuse "candidate_key is required"
  else if 128 <? len key then refuse "candidate_key must be 128 characters or fewer"
  else Payload [str "kind" (u kind); str "candidate_key" key].

(** [if note := strings.TrimSpace(request.Note); note != "" { .. }]. *)
Definition with_note (r : Request) (payload : list (jstring * jsval)) : built :=
  let note := TrimSpace (Note r) in
  if jeqb note [] then Payload payload
  else if 256 <? len note then refuse "note must be 256 characters or fewer"
  else Payload (payload ++ [str "note" note]).
Definition register_modem (r : Request) : built := with_note r (plain "RegisterModem" r).
(** The length is looked at first here; an empty note has none. *)
Definition update_modem (r : Request) : built := with_note r (plain "UpdateModem" r).

Definition create_modem (r : Request) : built :=
  let imei := TrimSpace (ModemIMEI r) in
  let family := TrimSpace (Family r) in
  if negb (matches imeiPattern imei) then refuse "modem_imei must be 15 digits"
  else if jeqb family [] then
    refuse "family is required: the gates look up rules by (family, carrier) and nothing can infer it for a module nobody has observed"
  else if 64 <? len family then refuse "family must be 64 characters or fewer"
  else with_note r [str "kind" (u "CreateModem"); str "modem_imei" imei; str "family" family].

Definition read_logs (r : Request) : built :=
  let after := from_option (fun n => [int_of "after" n]) [] (LogAfter r) in
  let limit := from_option (fun n => [int_of "limit" n]) [] (LogLimit r) in
  if from_option (fun n => (n <? 1) || (500 <? n)) false (LogLimit r)
  then refuse "log_limit must be between 1 and 500"
  else if jeqb (LogContains r) [] then Payload ([str "kind" (u "ReadLogs")] ++ after ++ limit)
  else if 64 <? len (LogContains r) then refuse "log_contains must be 64 characters or fewer"
  else Payload ([str "kind" (u "ReadLogs")] ++ after ++ limit ++ [str "contains" (LogContains r)]).

Definition retrieve_esim_notification (r : Request) : built :=
  match SequenceNumber r with
  | None => refuse "sequence_number is required"
  | Some n =>
      if (n <? 0) || (2147483647 <? n) then refuse "sequence_number must be between 0 and 2147483647"
      else Payload (plain "RetrieveEsimNotification" r ++ [int_of "sequence_number" n])
  end.

Definition initiate_esim_authentication (r : Request) : built :=
  let address := TrimSpace (SmdpAddress r) in
  if jeqb address [] then Payload (plain "InitiateEsimAuthentication" r)
  else if negb (matches smdpAddressPattern address) then refuse "smdp_address must be a host name"
  else Payload (plain "InitiateEsimAuthentication" r ++ [str "smdp_address" address]).

Definition download_esim_profile (r : Request) : built :=
  let code := TrimSpace (ActivationCode r) in
  let confirmation := TrimSpace (ConfirmationCode r) in
  if jeqb code [] then refuse "activation_code is required"
  else if negb (matches activationCodePattern code)
  then refuse "activation_code must look like 1$<SM-DP+ address>$<matching id>"
  else if jeqb confirmation [] then Payload (plain "DownloadEsimProfile" r ++ [str "activation_code" code])
  else if 128 <? len confirmation then refuse "confirmation_code is too long"
  else Payload (plain "DownloadEsimProfile" r ++ [str "activation_code" code; str "confirmation_code" confirmation]).

Definition self_update (r : Request) : built :=
  if jeqb (TrimSpace (Version r)) [] then refuse "version is required"
  else if negb (startsWith (URL r) (u "https://")) then refuse "url must be https"
  else if negb (matches sha256Pattern (SHA256 r)) then refuse "sha256 must be 64 hex characters"
  else if len (Signature r) <? 16 then refuse "signature is required"
  else Payload [str "kind" (u "SelfUpdate"); str "version" (Version r); str "url" (URL r);
                str "sha256" (SHA256 r); str "signature" (Signature r)].

Definition switch_esim_profile (r : Request) : built :=
  if negb (matches iccidPattern (TargetICCID r)) then refuse "target_iccid must be 19 or 20 digits"
  else Payload (plain "SwitchEsimProfile" r ++ [str "target_iccid" (TargetICCID r)]).

Definition spec (kind contractKind : string) (needsModem mutating : bool) (build : Request -> built) : Spec :=
  {| sp_Kind := kind; sp_ContractKind := contractKind; sp_NeedsModem := needsModem; sp_Build := build;
     sp_Mutating := mutating |}.
(** An entry whose payload is the kind and the module. *)
Definition bare (kind contractKind : string) (mutating : bool) : Spec :=
  spec kind contractKind true mutating (fun r => Payload (plain contractKind r)).

Definition catalogue : list Spec :=
  [ spec "send_sms" "SendSms" true true send_sms;
    bare "restart_modem" "RestartModem" true;
    spec "run_at_command" "RunAtCommand" true true run_at_command;
    spec "send_ussd" "SendUssd" true true send_ussd;
    spec "set_radio" "SetRadio" true true (set_enabled "SetRadio");
    spec "configure_apn" "ConfigureApn" true true configure_apn;
    bare "scan_operators" "ScanOperators" true;
    spec "select_operator" "SelectOperator" true true select_operator;
    bare "modem_report" "ModemReport" false;
    bare "reset_modem_usb" "ResetModemUsb" true;
    spec "set_data_network" "SetDataNetwork" true true (set_enabled "SetDataNetwork");
    spec "set_usbnet_mode" "SetUsbnetMode" true true set_usbnet_mode;
    bare "reregister_network" "ReregisterNetwork" true;
    spec "refresh_modems" "RefreshModems" false false (fun _ => Payload [str "kind" (u "RefreshModems")]);
    spec "rename_esim_profile" "RenameEsimProfile" true true rename_esim_profile;
    spec "disable_esim_profile" "DisableEsimProfile" true true (on_profile "DisableEsimProfile");
    spec "delete_esim_profile" "DeleteEsimProfile" true true (on_profile "DeleteEsimProfile");
    spec "claim_modem_candidate" "ClaimModemCandidate" false true (on_candidate "ClaimModemCandidate");
    spec "revoke_modem_candidate" "RevokeModemCandidate" false true (on_candidate "RevokeModemCandidate");
    spec "register_modem" "RegisterModem" true true register_modem;
    bare "unregister_modem" "UnregisterModem" true;
    spec "create_modem" "CreateModem" false true create_modem;
    spec "update_modem" "UpdateModem" true true update_modem;
    bare "reconfirm_modem" "ReconfirmModem" true;
    spec "read_logs" "ReadLogs" false false read_logs;
    bare "list_esim_profiles" "ListEsimProfiles" false;
    bare "read_esim_info" "ReadEsimInfo" false;
    spec "retrieve_esim_notification" "RetrieveEsimNotification" true false retrieve_esim_notification;
    spec "initiate_esim_authentication" "InitiateEsimAuthentication" true false initiate_esim_authentication;
    spec "download_esim_profile" "DownloadEsimProfile" true true download_esim_profile;
    spec "self_update" "SelfUpdate" false true self_update;
    bare "rotate_ip" "RotateIp" true;
    spec "switch_esim_profile" "SwitchEsimProfile" true true switch_esim_profile ].

Definition Lookup (kind : jstring) : option Spec :=
  List.find (fun s => jeqb kind (u (sp_Kind s))) catalogue.

(** [BuildPayload]; on the left the reason, the list of the kinds after an
    unknown one left out. *)
Definition BuildPayload (r : Request) : jstring + (Spec * list (jstring * jsval)) :=
  let kind := if jeqb (Kind r) [] then u "send_sms" else Kind r in
  match Lookup kind with
  | None => inl (u "unsupported command kind ")
  | Some s =>
      if jeqb (DeviceID r) [] then inl (u "device_id is required")
      else if sp_NeedsModem s && negb (matches imeiPattern (ModemIMEI r)) then inl (u "modem_imei must be 15 digits")
      else match sp_Build s r with
           | Payload payload => inr (s, payload)
           | Invalid reason => inl reason
           end
  end.

(** [enqueueCommand] as far as the queue: the body refused as it stands, with
    a reason, or the payload to queue. *)
Inductive command_answer :=
  | BadRequest (reason : jstring)
  | Queued (s : Spec) (payload : list (jstring * jsval)).
Definition enqueueCommand (body : jsval) : command_answer :=
  match DecodeRequest body with
  | None => BadRequest (u "invalid command")
  | Some r => match BuildPayload r with
              | inl reason => BadRequest reason
              | inr (s, payload) => Queued s payload
              end
  end.

(** ** Facts *)

Lemma runes_nil s : runes s = [] -> s = [].
Proof. destruct s as [|c [|d s]]; [done| |]; cbn; repeat case_match; done. Qed.

Lemma runes_plain c s : high_surrogate c = false -> low_surrogate c = false -> runes (c :: s) = c :: runes s.
Proof. cbn. by intros -> ->. Qed.

(** A prefix of plain characters is read as it stands. *)
Lemma runes_app a s :
  forallb (fun c => negb (high_surrogate c) && negb (low_surrogate c)) a = true -> runes (a ++ s) = a ++ runes s.
Proof.
  induction a as [|c a IH]; [done|]. cbn [forallb]. intros [Hc Ha]%andb_true_iff.
  apply andb_true_iff in Hc as [Hh%negb_true_iff Hl%negb_true_iff].
  rewrite <-!app_comm_cons, runes_plain by done. by rewrite IH.
Qed.

Lemma runes_le_len s : Z.of_nat (length (runes s)) <= len s.
Proof.
  unfold len. apply inj_le. induction (runes s) as [|p l IH]; [done|]. cbn. rewrite length_app.
  assert (1 <= length (utf8_of_point p))%nat; [|lia]. unfold utf8_of_point. repeat case_match; cbn; lia.
Qed.

Lemma TrimSpace_nil : TrimSpace [] = [].
Proof. done. Qed.

(** A cursor of the log is not negative. *)
Lemma decoded_after body r : DecodeRequest body = Some r -> from_option (Z.leb 0) true (LogAfter r) = true.
Proof.
  unfold DecodeRequest. intros H.
  assert (Hr : exists after, decode_int body uint64 "log_after" = Some after /\ LogAfter r = after).
  { destruct body; try done; repeat (apply bind_Some in H as (? & ? & H)); injection H as <-; eexists; (split; [|reflexivity]); assumption. }
  destruct Hr as (after & Ha & ->). unfold decode_int in Ha.
  destruct (prop body (u "log_after")) as [| | |[m| |]| | |]; simplify_eq; try done.
  destruct ((_ =? _) && _) eqn:E in Ha; [|done]. injection Ha as <-. apply andb_true_iff in E as [_ E].
  unfold uint64 in E. by apply andb_true_iff in E as [E _].
Qed.

(** What was found in the catalogue. *)
Lemma BuildPayload_spec r s payload :
  BuildPayload r = inr (s, payload) ->
  In s catalogue /\ DeviceID r <> [] /\ sp_Build s r = Payload payload
  /\ (sp_NeedsModem s = true -> matches imeiPattern (ModemIMEI r) = true)
  /\ (if jeqb (Kind r) [] then u "send_sms" else Kind r) = u (sp_Kind s).
Proof.
  unfold BuildPayload, Lookup. destruct (List.find _ catalogue) as [s'|] eqn:Ef; [|done].
  apply List.find_some in Ef as [Hin Hk%jeqb_eq].
  destruct (jeqb (DeviceID r) []) eqn:Ed; [done|]. apply jeqb_neq in Ed.
  destruct (sp_NeedsModem s' && _) eqn:Em; [done|]. destruct (sp_Build s' r) eqn:Eb; [|done].
  intros [= <- <-]. split_and!; try done. intros Hn. rewrite Hn in Em. by apply negb_false_iff in Em.
Qed.

(** ** Payloads have the type of the contract *)

Definition typed (s : Spec) : Prop :=
  forall r payload, sp_Build s r = Payload payload ->
  exists t, named (u (sp_ContractKind s)) Commands = Some t /\ inhabits t (VObj payload) = true.

Lemma one_of_in s l : one_of s l = true -> exists x, In x l /\ s = u x.
Proof. unfold one_of. intros (x & Hin & ->%jeqb_eq)%existsb_exists. by exists x. Qed.

(** An alternative of literals, by cases. *)
Ltac by_literal H :=
  apply one_of_in in H as (?literal & Hin & H); repeat (destruct Hin as [<-|Hin]; [rewrite H in *|]); [..|destruct Hin].

Ltac build H :=
  cbv beta delta [spec bare sp_Build] in H; cbv iota in H;
  unfold send_sms, run_at_command, send_ussd, set_enabled, configure_apn, select_operator, set_usbnet_mode,
    rename_esim_profile, on_profile, on_candidate, register_modem, update_modem, create_modem, with_note,
    read_logs, retrieve_esim_notification, initiate_esim_authentication, download_esim_profile, self_update,
    switch_esim_profile, refuse in H; cbv zeta in H;
  repeat match type of H with
  | (if ?b then _ else _) = Payload _ => let E := fresh "E" in destruct b eqn:E
  | Invalid _ = Payload _ => discriminate H
  | match ?o with Some _ => _ | None => _ end = Payload _ => let E := fresh "E" in destruct o eqn:E
  end; try (injection H as <-).

(** A choice left to the request: one of a few literals, or nothing. *)
Lemma chosen s l : negb (one_of s l) = false -> exists x, In x l /\ s = u x.
Proof. intros (x & Hin & ->%jeqb_eq)%negb_false_iff%existsb_exists. by exists x. Qed.
Lemma chosen_if s l : negb (jeqb s [] || one_of s l) = false -> s = [] \/ exists x, In x l /\ s = u x.
Proof. intros [->%jeqb_eq|H]%negb_false_iff%orb_true_iff; [by left|right]. by apply chosen, negb_false_iff. Qed.
Ltac literals H := repeat (destruct H as [<-|H]); [..|destruct H].

Lemma catalogue_typed : Forall typed catalogue.
Proof.
  repeat (apply Forall_cons; split); [..|by apply Forall_nil];
    intros r payload Hb; build Hb; (eexists; split; [reflexivity|]).
  all: try reflexivity.
  1,2: destruct (Force r); reflexivity.
  - destruct (chosen _ _ E) as (x & Hin & ->). literals Hin; reflexivity.
  - destruct (chosen_if _ _ E1) as [->|(x & Hx & ->)]; [|literals Hx];
      (destruct (chosen_if _ _ E2) as [->|(y & Hy & ->)]; [|literals Hy]);
      destruct (Username r), (Password r); reflexivity.
  - destruct (chosen _ _ E) as (x & Hin & ->). literals Hin; reflexivity.
  - destruct (chosen _ _ E) as (x & Hin & ->). literals Hin; reflexivity.
  - apply negb_false_iff, existsb_exists in E as (x & Hin & ->%jeqb_eq). literals Hin; reflexivity.
  - destruct (LogAfter r), (LogLimit r); reflexivity.
  - destruct (LogAfter r), (LogLimit r); reflexivity.
Qed.

(** ** Payloads and the bounds of the schema *)

Definition fits (lo hi : Z) (s : jstring) : bool := within lo (Some hi) (Z.of_nat (length (runes s))).

Definition blank (s : jstring) : bool := jeqb s [].

(** What the schema bounds and the gateway does not look at. *)
Definition unchecked (contractKind : string) (r : Request) : bool :=
  let about kind := String.eqb contractKind kind in
  if about "SendSms" then fits 0 16384 (Body r)
  else if about "RunAtCommand" then fits 0 1024 (TrimSpace (CommandText r))
  else if about "SendUssd" then fits 1 182 (Code r)
  else if about "ConfigureApn" then
    fits 0 128 (APN r) && from_option (fits 0 64) true (Username r) && from_option (fits 0 64) true (Password r)
  else if about "InitiateEsimAuthentication" then
    blank (TrimSpace (SmdpAddress r)) || fits 4 253 (TrimSpace (SmdpAddress r))
  else if about "SelfUpdate" then fits 1 128 (Version r) && fits 0 2048 (URL r) && fits 16 1024 (Signature r)
  else true.

Lemma string_ok_pattern p s : string_ok 0 None (Some p) s = matches p s.
Proof. unfold string_ok, within. by rewrite (proj2 (Z.leb_le _ _)) by lia. Qed.
Lemma string_ok_fits lo hi s : string_ok lo (Some hi) None s = fits lo hi s.
Proof. unfold string_ok, fits. by rewrite andb_true_r. Qed.
Lemma int_ok_int lo hi n : int_ok lo hi (int n) = within lo hi n.
Proof.
  unfold int_ok, int. pose proof scale_pos. rewrite Z_mod_mult, Z.div_mul by lia. done.
Qed.

Lemma imei_ok s : matches imeiPattern s = true -> string_ok 0 None (Some (rdigits_between 14 16)) s = true.
Proof.
  rewrite string_ok_pattern. unfold matches, imeiPattern, rdigits_between. rewrite !test_between by lia.
  intros [[H1 H2]%andb_true_iff H3]%andb_true_iff. rewrite H3, andb_true_r.
  apply Nat.leb_le in H1, H2. apply andb_true_iff. split; apply Nat.leb_le; lia.
Qed.

(** Text of at most so many bytes has at most so many characters. *)
Lemma short_fits s n : (n <? len s) = false -> fits 0 n s = true.
Proof.
  intros H%Z.ltb_ge. unfold fits, within. pose proof (runes_le_len s).
  apply andb_true_iff. split; apply Z.leb_le; lia.
Qed.
Lemma given_fits lo hi s : s <> [] -> lo <= 1 -> fits lo hi s = fits 0 hi s.
Proof.
  intros Hs Hlo. unfold fits, within. destruct (runes s) eqn:E; [by apply runes_nil in E|]. cbn [length].
  rewrite !(proj2 (Z.leb_le _ _)) by lia. done.
Qed.

Lemma activation_ok s : matches activationCodePattern s = true -> fits 8 1024 s = true.
Proof.
  intros [Hmin Hmax]%test_length. unfold fits, within. apply andb_true_iff. split; apply Z.leb_le.
  - revert Hmin. apply Z.le_trans. by vm_compute.
  - specialize (Hmax 646 ltac:(by vm_compute)). lia.
Qed.

Definition metered (s : Spec) : Prop :=
  forall r payload, sp_Build s r = Payload payload ->
  (sp_NeedsModem s = true -> matches imeiPattern (ModemIMEI r) = true) ->
  from_option (Z.leb 0) true (LogAfter r) = true ->
  exists schema, named (u (sp_ContractKind s)) Schemas = Some schema
    /\ inhabits schema (VObj payload) = unchecked (sp_ContractKind s) r.

Ltac meter :=
  cbv -[string_ok int_ok int fits within matches TrimSpace len runes rdigits_between plmn_shape host_name
        hex_digits https_prefix phone_number blank
        ModemIMEI To Body CommandText TimeoutMs Code Stage Mode PLMN ProfileICCID CandidateKey Note Family
        LogContains PDPType APN Auth UsbnetMode TargetICCID SmdpAddress ActivationCode ConfirmationCode
        Version URL SHA256 Signature Username Password].

Lemma within_of lo hi n : (n <? lo) || (hi <? n) = false -> within lo (Some hi) n = true.
Proof.
  intros [H1%Z.ltb_ge H2%Z.ltb_ge]%orb_false_iff. unfold within. apply andb_true_iff. split; by apply Z.leb_le.
Qed.
Lemma from_zero n : (0 <=? n) = true -> within 0 None n = true.
Proof. unfold within. by intros ->. Qed.
Lemma at_fits hi s : starts_with_at s = true -> fits 2 hi s = fits 0 hi s.
Proof.
  destruct s as [|a [|t s]]; [done..|]. cbn [starts_with_at]. intros [Ha%N.eqb_eq Ht%N.eqb_eq]%andb_true_iff.
  assert (Hplain : forall c, (ascii_upper c < 0x80)%N -> high_surrogate c = false /\ low_surrogate c = false).
  { intros c. unfold ascii_upper, is_lower, high_surrogate, low_surrogate. intros Hc.
    assert (c < 0x100)%N by (destruct (_ && _) eqn:E in Hc; [apply andb_true_iff in E as [_ ?%N.leb_le]; lia|lia]).
    split; apply andb_false_iff; left; apply N.leb_gt; lia. }
  unfold fits, within. rewrite !runes_plain by (apply Hplain; lia). cbn [length].
  rewrite !(proj2 (Z.leb_le _ _)) by lia. done.
Qed.
Lemma one_fits hi s : jeqb s [] = false -> fits 1 hi s = fits 0 hi s.
Proof. intros H%jeqb_neq. by apply given_fits. Qed.

(** The schema of one entry, met as far as the builder went. *)
Ltac settle Himei :=
  meter;
  repeat match goal with H : negb _ = false |- _ => apply negb_false_iff in H end;
  unfold phonePattern, iccidPattern, plmnPattern, sha256Pattern, smdpAddressPattern in *;
  try rewrite (imei_ok _ (Himei eq_refl));
  try match goal with H : matches imeiPattern ?s = true |- _ => rewrite (imei_ok s H) end;
  rewrite ?string_ok_pattern, ?string_ok_fits, ?int_ok_int;
  repeat match goal with
  | H : matches ?p ?s = true |- context [matches ?p ?s] => rewrite H
  | H : jeqb ?s [] = false |- context [fits 1 ?n ?s] => rewrite (one_fits n s H)
  | H : starts_with_at ?s = true |- context [fits 2 ?n ?s] => rewrite (at_fits n s H)
  | H : matches activationCodePattern ?s = true |- context [fits 8 1024 ?s] => rewrite (activation_ok s H)
  | H : (?n <? len ?s) = false |- context [fits 0 ?n ?s] => rewrite (short_fits s n H)
  | H : (?n <? ?lo) || (?hi <? ?n) = false |- context [within ?lo (Some ?hi) ?n] => rewrite (within_of _ _ _ H)
  | H : (0 <=? ?n) = true |- context [within 0 None ?n] => rewrite (from_zero n H)
  end.
Ltac decided := repeat match goal with |- context [fits ?a ?b ?c] => destruct (fits a b c) end; reflexivity.

Lemma url_ok s : startsWith s (u "https://") = true -> matches https_prefix s = true.
Proof.
  intros [rest ->]%startsWith_spec. unfold matches, https_prefix. rewrite runes_app by (by vm_compute).
  rewrite test_anchored, matches_at_spec. exists (rev (u "https://") ++ [], runes rest). by apply rlit_match.
Qed.
Lemma string_ok_both lo hi p s : matches p s = true -> string_ok lo (Some hi) (Some p) s = fits lo hi s.
Proof. unfold string_ok, fits, matches. intros ->. apply andb_true_r. Qed.

Lemma catalogue_metered : Forall metered catalogue.
Proof.
  repeat (apply Forall_cons; split); [..|by apply Forall_nil];
    intros r payload Hb Himei Hafter; build Hb; (eexists; split; [reflexivity|]).
  all: try (settle Himei; decided).
  1,2: apply orb_false_iff in E as [_ E]; destruct (Force r); settle Himei; decided.
  - destruct (chosen _ _ E) as (x & Hin & Hx). rewrite Hx. literals Hin; settle Himei; decided.
  - destruct (chosen_if _ _ E1) as [Hx|(x & Hin & Hx)]; rewrite Hx; [|literals Hin];
      (destruct (chosen_if _ _ E2) as [Hy|(y & Hin' & Hy)]; rewrite Hy; [|literals Hin']);
      destruct (Username r) eqn:Eu, (Password r) eqn:Ep; settle Himei; rewrite ?Eu, ?Ep; decided.
  - destruct (chosen _ _ E) as (x & Hin & Hx). rewrite Hx. literals Hin; settle Himei; decided.
  - destruct (chosen _ _ E) as (x & Hin & Hx). rewrite Hx in *. literals Hin; [settle Himei; decided|done].
  - apply negb_false_iff, existsb_exists in E as (x & Hin & Hx%jeqb_eq). rewrite Hx.
    literals Hin; settle Himei; decided.
  - destruct (LogAfter r), (LogLimit r); cbn [from_option] in E, Hafter; settle Himei; decided.
  - destruct (LogAfter r), (LogLimit r); cbn [from_option] in E, Hafter; settle Himei; decided.
  - settle Himei. unfold blank. by rewrite E.
  - apply negb_false_iff in E0. meter.
    rewrite (imei_ok _ (Himei eq_refl)), (string_ok_both _ _ host_name) by done.
    unfold blank. rewrite E. by destruct (fits _ _ _).
  - settle Himei. rewrite (string_ok_both _ _ _ _ (url_ok _ E0)). decided.
Qed.

(** What was queued was built by an entry of the catalogue, and meets its
    schema as far as the bounds left unchecked hold. *)
Lemma queued_facts body s payload :
  enqueueCommand body = Queued s payload ->
  exists r schema, DecodeRequest body = Some r /\ In s catalogue /\ sp_Build s r = Payload payload
    /\ named (u (sp_ContractKind s)) Schemas = Some schema
    /\ inhabits schema (VObj payload) = unchecked (sp_ContractKind s) r.
Proof.
  unfold enqueueCommand. destruct (DecodeRequest body) as [r|] eqn:Ed; [|done].
  destruct (BuildPayload r) as [|[s' payload']] eqn:Eb; [done|]. intros [= -> ->].
  apply BuildPayload_spec in Eb as (Hin & _ & Hb & Himei & _). exists r.
  pose proof (proj1 (Forall_forall _ _) catalogue_metered s (proj2 (list_elem_of_In _ _) Hin) r payload Hb Himei
    (decoded_after _ _ Ed)) as (schema & Hs & Hm). by exists schema.
Qed.

(** C6. What the gateway queues for the edge is a command of the contract,
    whatever was posted: it has the generated type of its kind and so of the
    union, is told by that kind, and names the module it was checked for; and
    it meets the schema too exactly when the few bounds hold that the gateway
    does not look at. *)
Theorem queued_is_contract_command body s payload :
  enqueueCommand body = Queued s payload ->
  exists r t schema,
    DecodeRequest body = Some r /\ In s catalogue
    /\ named (u (sp_ContractKind s)) Commands = Some t /\ inhabits t (VObj payload) = true
    /\ inhabits Command (VObj payload) = true
    /\ prop (VObj payload) (u "kind") = VStr (u (sp_ContractKind s))
    /\ named (u (sp_ContractKind s)) Schemas = Some schema
    /\ inhabits schema (VObj payload) = unchecked (sp_ContractKind s) r.
Proof.
  intros (r & schema & Hd & Hin & Hb & Hs & Hm)%queued_facts. exists r.
  pose proof (proj1 (Forall_forall _ _) catalogue_typed s (proj2 (list_elem_of_In _ _) Hin) r payload Hb) as (t & Ht & Hv).
  exists t, schema. destruct (named_command _ _ _ Ht Hv) as [Hu Hk]. done.
Qed.

(** A request of the console's, with a password in it. *)
Definition sample_apn_request : jsval :=
  VObj [ (u "device_id", VStr (u "dev-1")); (u "kind", VStr (u "configure_apn"));
         (u "modem_imei", VStr (u "861234567890123")); (u "cid", VNum (Fin (int 1)));
         (u "apn", VStr (u "ims")); (u "password", VStr (u "hunter2")) ].
Lemma queued_is_contract_command_witness :
  exists payload r t schema,
    enqueueCommand sample_apn_request = Queued (spec "configure_apn" "ConfigureApn" true true configure_apn) payload
    /\ DecodeRequest sample_apn_request = Some r
    /\ named (u "ConfigureApn") Commands = Some t /\ inhabits t (VObj payload) = true
    /\ named (u "ConfigureApn") Schemas = Some schema /\ inhabits schema (VObj payload) = true.
Proof.
  assert (Hq : exists payload, enqueueCommand sample_apn_request
    = Queued (spec "configure_apn" "ConfigureApn" true true configure_apn) payload) by (eexists; vm_compute; reflexivity).
  destruct Hq as [payload Hq].
  destruct (queued_is_contract_command _ _ _ Hq) as (r & t & schema & Hd & _ & Ht & Hv & _ & _ & Hs & Hm).
  exists payload, r, t, schema. rewrite Hm. split_and!; [exact Hq|exact Hd|exact Ht|exact Hv|exact Hs|].
  vm_compute in Hd. injection Hd as <-. vm_compute. reflexivity.
Defined.

(** ** redact.go *)

Definition Redacted : jstring := u "••••••••".
(** [secretKeys]: reflected from the tags of the request. *)
Definition secretKeys : list jstring :=
  (fun tag => u tag.1) <$> List.filter (fun tag : string * bool => tag.2) request_tags.
Definition is_secret (key : jstring) : bool := existsb (jeqb key) secretKeys.

(** [Redact] and [redactValue]. *)
Fixpoint redactValue (v : jsval) : jsval :=
  match v with
  | VObj fields =>
      VObj ((fun kv => (kv.1, if is_secret kv.1
                              then match kv.2 with VStr [] => kv.2 | _ => VStr Redacted end
                              else redactValue kv.2)) <$> fields)
  | VArr items => VArr (redactValue <$> items)
  | _ => v
  end.
Definition Redact (payload : list (jstring * jsval)) : list (jstring * jsval) :=
  match redactValue (VObj payload) with VObj fields => fields | _ => [] end.

(** [RedactJSON], of what the bytes decode to. *)
Definition RedactJSON (payload : jsval) : jsval :=
  match payload with
  | VObj fields => VObj (Redact fields)
  | VNull => VNull
  | _ => VObj [(u "redaction_failed", VStr (u "payload is not a json object"))]
  end.

(** The detail of the row [enqueueCommand] appends to the audit log. *)
Definition audit_detail (payload : list (jstring * jsval)) : jsval := RedactJSON (VObj payload).

Section RedactInd.
Variable P : jsval -> Prop.
Hypothesis leaf : forall v, (forall l, v <> VArr l) -> (forall fs, v <> VObj fs) -> P v.
Hypothesis arr : forall l, Forall P l -> P (VArr l).
Hypothesis obj : forall fs, Forall (fun kv => P kv.2) fs -> P (VObj fs).
Fixpoint jsval_nested (v : jsval) : P v.
Proof.
  destruct v; try (by apply leaf).
  - apply arr. induction l as [|x l IH]; constructor; [apply jsval_nested|exact IH].
  - apply obj. induction fields as [|x l IH]; constructor; [apply jsval_nested|exact IH].
Defined.
End RedactInd.

(** The same value but for credentials: under the key of one, two values that
    were both filled in. *)
Inductive same_but_secrets : jsval -> jsval -> Prop :=
  | same_leaf v : same_but_secrets v v
  | same_items l m : Forall2 same_but_secrets l m -> same_but_secrets (VArr l) (VArr m)
  | same_fields fs gs :
      Forall2 (fun a b => a.1 = b.1 /\ (is_secret a.1 = true /\ a.2 <> VStr [] /\ b.2 <> VStr []
                                        \/ same_but_secrets a.2 b.2)) fs gs ->
      same_but_secrets (VObj fs) (VObj gs).

Lemma redact_same v : forall w, same_but_secrets v w -> redactValue v = redactValue w.
Proof.
  induction v as [v Ha Ho|l IH|fs IH] using jsval_nested; intros w Hw.
  - inversion Hw; subst; [done|by edestruct Ha|by edestruct Ho].
  - inversion Hw as [|? m Hm|]; subst; [done|]. cbn. f_equal. clear Hw.
    induction Hm as [|x y l m Hxy _ IHm]; [done|]. inversion IH; subst. cbn. f_equal; eauto.
  - inversion Hw as [| |? gs Hg]; subst; [done|]. cbn -[is_secret]. f_equal. clear Hw.
    induction Hg as [|[k x] [k' y] fs gs [Hk Hxy] _ IHg]; [done|]. inversion IH; subst. cbn -[is_secret] in *. subst k'.
    f_equal; [|by eauto]. apply (f_equal (pair k)). destruct Hxy as [(Hs & Hx & Hy)|Hxy].
    + rewrite Hs. destruct x as [| | | |[]| |], y as [| | | |[]| |]; done.
    + destruct (is_secret k); [|by eauto]. by inversion Hxy; subst.
Qed.

Lemma Redact_fields payload : VObj (Redact payload) = redactValue (VObj payload).
Proof. done. Qed.

(** Nothing but the placeholder, or nothing, under the key of a credential. *)
Fixpoint hidden (v : jsval) : bool :=
  match v with
  | VObj fields =>
      forallb (fun kv => if is_secret kv.1
                         then match kv.2 with VStr s => jeqb s [] || jeqb s Redacted | _ => false end
                         else hidden kv.2) fields
  | VArr items => forallb hidden items
  | _ => true
  end.

Lemma redact_hides v : hidden (redactValue v) = true.
Proof.
  induction v as [v Ha Ho|l IH|fs IH] using jsval_nested.
  - destruct v; try done; [by edestruct Ha|by edestruct Ho].
  - cbn. induction IH as [|x l Hx _ IH]; [done|]. cbn. by rewrite Hx.
  - cbn -[is_secret]. induction IH as [|[k x] l Hx _ IH]; [done|]. cbn -[is_secret] in *. rewrite IH, andb_true_r.
    destruct (is_secret k); [|done]. destruct x as [| | | |[]| |]; by rewrite ?jeqb_refl, ?orb_true_r.
Qed.

(** C7. A one-time credential does not reach the audit log.  Under the key of
    one the log has nothing or the placeholder, however deep; two commands
    that differ only in what the credentials were leave the same row, so
    nothing of them can be read back from it; the keys stay, so a row still
    tells that a credential was there; and the payload that is queued for the
    device keeps it. *)
Theorem audit_tells_no_secret payload :
  hidden (audit_detail payload) = true
  /\ (forall payload', same_but_secrets (VObj payload) (VObj payload') -> audit_detail payload' = audit_detail payload)
  /\ (Redact payload).*1 = payload.*1
  /\ (forall key v, field key (Redact payload) = Some v -> is_secret key = false ->
        exists w, field key payload = Some w /\ v = redactValue w)
  /\ (forall key, is_secret key = true <-> key ∈ [u "password"; u "activation_code"; u "confirmation_code"]).
Proof.
  unfold audit_detail, RedactJSON. rewrite !Redact_fields. split_and!.
  - apply redact_hides.
  - intros p Hs. rewrite Redact_fields. symmetry. by apply redact_same.
  - unfold Redact. cbn. by rewrite <-list_fmap_compose.
  - intros key v. unfold Redact. cbn -[is_secret]. induction payload as [|[k x] payload IH]; [done|]. cbn -[is_secret].
    destruct (jeqb key k) eqn:E; [|apply IH]. intros [= <-] Hn. apply jeqb_eq in E as ->. rewrite Hn. by exists x.
  - intros key. unfold is_secret. rewrite existsb_exists. change secretKeys with [u "password"; u "activation_code"; u "confirmation_code"].
    setoid_rewrite <-list_elem_of_In. split; [by intros (x & Hx & ->%jeqb_eq)|]. intros Hk. exists key. by rewrite jeqb_refl.
Qed.
