(* ===== verification/Devices.v ===== *)
(** * Devices, modems, certificates and the support ledger (lib/catalog.ts)

    The rows of the device pages: what each parser keeps of a gateway object,
    which objects it drops, and the fetch that wraps it. *)

From S2P Require Import Prelude JsString JsValue Fetch Gateway.
From Stdlib Require Import Lia.

(** ** Devices *)

Record DeviceRow := {
  dv_id : jstring;
  dv_name : jstring;
  dv_state : jstring;
  dv_lastSeen : option Z;
  dv_edgeVersion : option jstring;
  dv_matrixVersion : option jstring;
  dv_queueRecords : option Z;
  dv_queueBytes : option Z;
  dv_resumedAt : option Z;
  dv_publicIp : option jstring;
  dv_cpuPercent : option Z;
  dv_memoryUsedBytes : option Z;
  dv_memoryTotalBytes : option Z;
  dv_diskUsedBytes : option Z;
  dv_diskTotalBytes : option Z;
  dv_netRxBytesPerSec : option Z;
  dv_netTxBytesPerSec : option Z;
  dv_cpuModel : option jstring;
  dv_kernel : option jstring;
  dv_hostname : option jstring;
  dv_hostReportedAt : option Z;
}.

Definition parseDevice (value : jsval) : option DeviceRow :=
  if not_object value then None else
  let state := str_or value "state" "unknown" in
  match str value "id", str value "name" with
  | Some id, Some name =>
      Some {| dv_id := id;
              dv_name := name;
              dv_state := state;
              dv_lastSeen := nbr value "last_seen";
              dv_edgeVersion := str value "edge_version";
              dv_matrixVersion := str value "matrix_version";
              dv_queueRecords := nbr value "queue_records";
              dv_queueBytes := nbr value "queue_bytes";
              dv_resumedAt := nbr value "resumed_at";
              dv_publicIp := str value "public_ip";
              dv_cpuPercent := nbr value "cpu_percent";
              dv_memoryUsedBytes := nbr value "memory_used_bytes";
              dv_memoryTotalBytes := nbr value "memory_total_bytes";
              dv_diskUsedBytes := nbr value "disk_used_bytes";
              dv_diskTotalBytes := nbr value "disk_total_bytes";
              dv_netRxBytesPerSec := nbr value "net_rx_bytes_per_sec";
              dv_netTxBytesPerSec := nbr value "net_tx_bytes_per_sec";
              dv_cpuModel := str value "cpu_model";
              dv_kernel := str value "kernel";
              dv_hostname := str value "hostname";
              dv_hostReportedAt := nbr value "host_reported_at" |}
  | _, _ => None
  end.

(** ** Modems *)

Record ApnContextRow := {
  ap_cid : Z;
  ap_pdpType : jstring;
  ap_apn : jstring;
  ap_username : jstring;
  ap_auth : option jstring;
  ap_hasPassword : bool;
  ap_source : option jstring;
}.

Definition apnContext (entry : jsval) : option ApnContextRow :=
  if not_object entry then None else
  match nbr entry "cid" with
  | None => None
  | Some cid =>
      Some {| ap_cid := cid;
              ap_pdpType := str_or entry "pdp_type" "";
              ap_apn := str_or entry "apn" "";
              ap_username := str_or entry "username" "";
              ap_auth := str entry "auth";
              ap_hasPassword := flag entry "has_password";
              ap_source := str entry "source" |}
  end.

Definition asApnContexts (value : jsval) : option (list ApnContextRow) :=
  match value with
  | VArr entries => Some (filter_map apnContext entries)
  | _ => None
  end.

Record ModemRow := {
  md_id : jstring;
  md_imei : jstring;
  md_deviceId : jstring;
  md_family : jstring;
  md_iccid : option jstring;
  md_state : option jstring;
  md_registration : option jstring;
  md_signalDbm : option Z;
  md_rsrp : option Z;
  md_rsrq : option Z;
  md_sinr : option Z;
  md_discovery : option jstring;
  md_manageable : option bool;
  md_homePlmn : option jstring;
  md_servingPlmn : option jstring;
  md_smsMo : option jstring;
  md_smsMt : option jstring;
  md_carrierProfile : option jstring;
  md_capabilityOrigin : option jstring;
  md_lastSeen : option Z;
  md_firmware : option jstring;
  md_msisdn : option jstring;
  md_msisdnPending : bool;
  md_controlPort : option jstring;
  md_usbDevice : option jstring;
  md_apnContexts : option (list ApnContextRow);
  md_adoptionNote : option jstring;
  md_adoptedAt : option jstring;
  md_adoptedBy : option jstring;
  md_observed : bool;
}.

Definition parseModem (value : jsval) : option ModemRow :=
  if not_object value then None else
  match str value "id", str value "imei" with
  | Some id, Some imei =>
      Some {| md_id := id;
              md_imei := imei;
              md_deviceId := str_or value "device_id" "";
              md_family := str_or value "family" "";
              md_iccid := str value "iccid";
              md_state := str value "state";
              md_registration := str value "registration";
              md_signalDbm := nbr value "signal_dbm";
              md_rsrp := nbr value "rsrp";
              md_rsrq := nbr value "rsrq";
              md_sinr := nbr value "sinr";
              md_discovery := str value "discovery";
              md_manageable := asBoolean (prop value (u "manageable"));
              md_homePlmn := str value "home_plmn";
              md_servingPlmn := str value "serving_plmn";
              md_smsMo := str value "sms_mo";
              md_smsMt := str value "sms_mt";
              md_carrierProfile := str value "carrier_profile";
              md_capabilityOrigin := str value "capability_origin";
              md_lastSeen := nbr value "last_seen";
              md_firmware := str value "firmware";
              md_msisdn := str value "msisdn";
              md_msisdnPending :=
                bool_decide (asBoolean (prop value (u "msisdn_pending")) = Some true);
              md_controlPort := str value "control_port";
              md_usbDevice := str value "usb_device";
              md_apnContexts := asApnContexts (prop value (u "apn_contexts"));
              md_adoptionNote := str value "adoption_note";
              md_adoptedAt := str value "adopted_at";
              md_adoptedBy := str value "adopted_by";
              md_observed := negb (bool_decide (prop value (u "observed") = VBool false)) |}
  | _, _ => None
  end.

(** ** Certificates and enrolment codes *)

Record CertificateRow := {
  ce_id : jstring;
  ce_deviceId : jstring;
  ce_serial : jstring;
  ce_fingerprint : jstring;
  ce_notBefore : Z;
  ce_notAfter : Z;
  ce_revokedAt : option Z;
}.

Definition parseCertificate (value : jsval) : option CertificateRow :=
  if not_object value then None else
  match str value "id", str value "fingerprint" with
  | Some id, Some fingerprint =>
      Some {| ce_id := id;
              ce_deviceId := str_or value "device_id" "";
              ce_serial := str_or value "serial" "";
              ce_fingerprint := fingerprint;
              ce_notBefore := nbr_or0 value "not_before";
              ce_notAfter := nbr_or0 value "not_after";
              ce_revokedAt := nbr value "revoked_at" |}
  | _, _ => None
  end.

Record EnrollmentCodeRow := {
  ec_id : jstring;
  ec_expiresAt : Z;
  ec_usedAt : option Z;
  ec_deviceId : option jstring;
}.

Definition parseEnrollmentCode (value : jsval) : option EnrollmentCodeRow :=
  if not_object value then None else
  match str value "id", nbr value "expires_at" with
  | Some id, Some expiresAt =>
      Some {| ec_id := id;
              ec_expiresAt := expiresAt;
              ec_usedAt := nbr value "used_at";
              ec_deviceId := str value "device_id" |}
  | _, _ => None
  end.

(** ** The support ledger *)

Record LedgerRow := {
  lg_modemFamily : jstring;
  lg_carrier : jstring;
  lg_smsMo : option jstring;
  lg_smsMt : option jstring;
  lg_data : option jstring;
  lg_voice : option jstring;
  lg_bearer : jstring;
  lg_reason : option jstring;
  lg_note : jstring;
  lg_testedAt : Z;
  lg_testedBy : jstring;
}.

Definition ledgerRow (value : jsval) : res LedgerRow :=
  row ← as_row value;
  Ok {| lg_modemFamily := str_or row "modem_family" "";
        lg_carrier := str_or row "carrier" "";
        lg_smsMo := str row "sms_mo";
        lg_smsMt := str row "sms_mt";
        lg_data := str row "data";
        lg_voice := str row "voice";
        lg_bearer := str_or row "bearer" "cellular";
        lg_reason := str row "reason";
        lg_note := str_or row "note" "";
        lg_testedAt := nbr_or0 row "tested_at";
        lg_testedBy := str_or row "tested_by" "" |}.

(** ** Their fetches *)

Section Fetches.
Variable env : environment.
Variable fetchImpl : fetch_fn.
Variables (host : jstring) (token : option jstring).

Definition fetchDevices : res (list DeviceRow) :=
  body ← getCatalog env fetchImpl host (u "/v1/devices") token;
  Ok (filter_map parseDevice (arrayOf (prop body (u "devices")))).

Definition fetchModems : res (list ModemRow) :=
  body ← getCatalog env fetchImpl host (u "/v1/modems") token;
  Ok (filter_map parseModem (arrayOf (prop body (u "modems")))).

Definition fetchCertificates : res (list CertificateRow) :=
  body ← getCatalog env fetchImpl host (u "/v1/device-certificates") token;
  Ok (filter_map parseCertificate (arrayOf (prop body (u "certificates")))).

Definition fetchEnrollmentCodes : res (list EnrollmentCodeRow) :=
  body ← getCatalog env fetchImpl host (u "/v1/enrollment-codes") token;
  Ok (filter_map parseEnrollmentCode (arrayOf (prop body (u "codes")))).

Definition fetchLedger : res (list LedgerRow) :=
  body ← getCatalog env fetchImpl host (u "/v1/support-ledger") token;
  res_map ledgerRow (arrayOf (prop body (u "entries"))).
End Fetches.

(** ** The wire form of a row

    The gateway's spelling of each row, used to state that a parser reads
    every field from the name it is sent under. *)

Definition encodeDevice (d : DeviceRow) : jsval := VObj
  [ (u "id", VStr (dv_id d)); (u "name", VStr (dv_name d)); (u "state", VStr (dv_state d));
    (u "last_seen", of_nbr (dv_lastSeen d));
    (u "edge_version", of_str (dv_edgeVersion d));
    (u "matrix_version", of_str (dv_matrixVersion d));
    (u "queue_records", of_nbr (dv_queueRecords d));
    (u "queue_bytes", of_nbr (dv_queueBytes d));
    (u "resumed_at", of_nbr (dv_resumedAt d));
    (u "public_ip", of_str (dv_publicIp d));
    (u "cpu_percent", of_nbr (dv_cpuPercent d));
    (u "memory_used_bytes", of_nbr (dv_memoryUsedBytes d));
    (u "memory_total_bytes", of_nbr (dv_memoryTotalBytes d));
    (u "disk_used_bytes", of_nbr (dv_diskUsedBytes d));
    (u "disk_total_bytes", of_nbr (dv_diskTotalBytes d));
    (u "net_rx_bytes_per_sec", of_nbr (dv_netRxBytesPerSec d));
    (u "net_tx_bytes_per_sec", of_nbr (dv_netTxBytesPerSec d));
    (u "cpu_model", of_str (dv_cpuModel d));
    (u "kernel", of_str (dv_kernel d));
    (u "hostname", of_str (dv_hostname d));
    (u "host_reported_at", of_nbr (dv_hostReportedAt d)) ].

Record device_wf (d : DeviceRow) : Prop := {
  dw_id : dv_id d <> [];
  dw_name : dv_name d <> [];
  dw_state : dv_state d <> [];
  dw_optional : Forall filled
    [dv_edgeVersion d; dv_matrixVersion d; dv_publicIp d; dv_cpuModel d; dv_kernel d; dv_hostname d];
}.

Lemma parseDevice_wf v d : parseDevice v = Some d -> device_wf d.
Proof.
  unfold parseDevice. destruct (not_object v); [done|].
  destruct (str v "id") eqn:Ei; [|done]. destruct (str v "name") eqn:En; [|done].
  intros [= <-]. apply str_nonempty in Ei, En. split; cbn; [done|done| |].
  - by apply str_or_nonempty.
  - repeat constructor; apply str_filled.
Qed.

Lemma parseDevice_encode d : device_wf d -> parseDevice (encodeDevice d) = Some d.
Proof.
  intros [Hi Hn Hs Ho]. split_Forall Ho.
  unfold parseDevice, encodeDevice. rewrite not_object_obj. unfold str_or, str, nbr.
  read_back. by destruct d.
Qed.

Definition encodeApn (c : ApnContextRow) : jsval := VObj
  [ (u "cid", VNum (Fin (ap_cid c))); (u "pdp_type", VStr (ap_pdpType c));
    (u "apn", VStr (ap_apn c)); (u "username", VStr (ap_username c));
    (u "auth", of_str (ap_auth c)); (u "has_password", VBool (ap_hasPassword c));
    (u "source", of_str (ap_source c)) ].

Definition apn_wf (c : ApnContextRow) : Prop := Forall filled [ap_auth c; ap_source c].

Definition encodeModem (m : ModemRow) : jsval := VObj
  [ (u "id", VStr (md_id m)); (u "imei", VStr (md_imei m));
    (u "device_id", VStr (md_deviceId m)); (u "family", VStr (md_family m));
    (u "iccid", of_str (md_iccid m)); (u "state", of_str (md_state m));
    (u "registration", of_str (md_registration m)); (u "signal_dbm", of_nbr (md_signalDbm m));
    (u "rsrp", of_nbr (md_rsrp m)); (u "rsrq", of_nbr (md_rsrq m)); (u "sinr", of_nbr (md_sinr m));
    (u "discovery", of_str (md_discovery m)); (u "manageable", of_bool (md_manageable m));
    (u "home_plmn", of_str (md_homePlmn m)); (u "serving_plmn", of_str (md_servingPlmn m));
    (u "sms_mo", of_str (md_smsMo m)); (u "sms_mt", of_str (md_smsMt m));
    (u "carrier_profile", of_str (md_carrierProfile m));
    (u "capability_origin", of_str (md_capabilityOrigin m));
    (u "last_seen", of_nbr (md_lastSeen m)); (u "firmware", of_str (md_firmware m));
    (u "msisdn", of_str (md_msisdn m)); (u "msisdn_pending", VBool (md_msisdnPending m));
    (u "control_port", of_str (md_controlPort m)); (u "usb_device", of_str (md_usbDevice m));
    (u "apn_contexts", from_option (fun l => VArr (encodeApn <$> l)) VNull (md_apnContexts m));
    (u "adoption_note", of_str (md_adoptionNote m)); (u "adopted_at", of_str (md_adoptedAt m));
    (u "adopted_by", of_str (md_adoptedBy m)); (u "observed", VBool (md_observed m)) ].

Record modem_wf (m : ModemRow) : Prop := {
  mw_id : md_id m <> [];
  mw_imei : md_imei m <> [];
  mw_optional : Forall filled
    [md_iccid m; md_state m; md_registration m; md_discovery m; md_homePlmn m; md_servingPlmn m;
     md_smsMo m; md_smsMt m; md_carrierProfile m; md_capabilityOrigin m; md_firmware m;
     md_msisdn m; md_controlPort m; md_usbDevice m; md_adoptionNote m; md_adoptedAt m;
     md_adoptedBy m];
  mw_apn l : md_apnContexts m = Some l -> Forall apn_wf l;
}.

Lemma apnContext_encode c : apn_wf c -> apnContext (encodeApn c) = Some c.
Proof.
  intros Ho. unfold apn_wf in Ho. split_Forall Ho. unfold apnContext, encodeApn.
  rewrite not_object_obj. unfold str_or, str, nbr, flag. read_back. by destruct c.
Qed.

Lemma asApnContexts_encode o :
  (forall l, o = Some l -> Forall apn_wf l) ->
  asApnContexts (from_option (fun l => VArr (encodeApn <$> l)) VNull o) = o.
Proof.
  destruct o as [l|]; [|done]. intros H. specialize (H l eq_refl). cbn -[encodeApn apnContext].
  f_equal. induction H as [|c l Hc _ IH]; [done|].
  cbn -[encodeApn apnContext]. rewrite apnContext_encode by done. unfold filter_map in IH. by rewrite IH.
Qed.

Lemma asApnContexts_wf v l : asApnContexts v = Some l -> Forall apn_wf l.
Proof.
  destruct v as [| | | | |es|]; try done. intros [= <-]. apply Forall_forall.
  intros c (e & _ & Hc)%elem_of_filter_map. unfold apnContext in Hc.
  destruct (not_object e); [done|]. destruct (nbr e "cid"); [|done].
  injection Hc as <-. repeat constructor; apply str_filled.
Qed.

Lemma parseModem_wf v m : parseModem v = Some m -> modem_wf m.
Proof.
  unfold parseModem. destruct (not_object v); [done|].
  destruct (str v "id") eqn:Ei; [|done]. destruct (str v "imei") eqn:En; [|done].
  intros [= <-]. apply str_nonempty in Ei, En. split; cbn -[asApnContexts]; [done|done| |].
  - repeat constructor; apply str_filled.
  - intros cs. apply asApnContexts_wf.
Qed.

#[local] Opaque asApnContexts.
Lemma parseModem_encode m : modem_wf m -> parseModem (encodeModem m) = Some m.
Proof.
  intros [Hi Hn Ho Ha]. split_Forall Ho. apply asApnContexts_encode in Ha. revert Ha.
  unfold parseModem, encodeModem. rewrite not_object_obj. unfold str_or, str, nbr.
  generalize (from_option (fun l => VArr (encodeApn <$> l)) VNull (md_apnContexts m)).
  intros w Hw. read_back. rewrite Hw. destruct m; cbn. destruct md_msisdnPending0, md_observed0; done.
Qed.

(** ** Properties *)

(** A device row survives the wire: every field is read back from the
    name the gateway sends it under.  That holds for exactly the rows the
    parser can produce: id, name and state not empty, no optional text that
    is present and empty. *)
Theorem parseDevice_roundtrip d :
  (parseDevice (encodeDevice d) = Some d <-> device_wf d) /\
  (device_wf d <-> exists v, parseDevice v = Some d).
Proof.
  split; (split; [|try apply parseDevice_encode]); intros Hd; eauto using parseDevice_wf, parseDevice_encode.
  destruct Hd as [v Hv]. eauto using parseDevice_wf.
Qed.

(** C36. A modem row survives the wire, its packet data profiles included:
    a table that was not read (null) stays apart from one that is empty. *)
Theorem parseModem_roundtrip m :
  (parseModem (encodeModem m) = Some m <-> modem_wf m) /\
  (modem_wf m <-> exists v, parseModem v = Some m).
Proof.
  split; (split; [|try apply parseModem_encode]); intros Hm; eauto using parseModem_wf, parseModem_encode.
  destruct Hm as [v Hv]. eauto using parseModem_wf.
Qed.
