(* ===== verification/Messages.v ===== *)
(** * Messages, threads, contacts, cards and the journal (lib/catalog.ts)

    The rows of the inbox, conversation, card policy and journal pages.  Two
    kinds of reader: the parsers drop a value they cannot use, the mappers
    read every element and throw on one that is null. *)

From Stdlib Require Import Lia.
From stdpp Require Import pretty.
From S2P Require Import Prelude JsString JsValue Fetch Gateway.

(** ** Messages and sessions *)

Record MessageRow := {
  ms_id : jstring;
  ms_deviceId : jstring;
  ms_direction : jstring;
  ms_peer : jstring;
  ms_body : jstring;
  ms_bearer : jstring;
  ms_receivedAt : Z;
  ms_seq : Z;
}.

Definition parseMessage (value : jsval) : option MessageRow :=
  if not_object value then None else
  id ← str value "id";
  deviceId ← str value "device_id";
  direction ← str value "direction";
  peer ← str value "peer";
  body ← text value "body";
  bearer ← str value "bearer";
  receivedAt ← nbr value "received_at";
  seq ← nbr value "seq";
  Some {| ms_id := id; ms_deviceId := deviceId; ms_direction := direction; ms_peer := peer;
          ms_body := body; ms_bearer := bearer; ms_receivedAt := receivedAt; ms_seq := seq |}.

Record SessionRow := {
  ss_peer : jstring;
  ss_count : Z;
  ss_lastBody : jstring;
  ss_lastReceivedAt : Z;
  ss_deviceId : jstring;
}.

Definition parseSession (value : jsval) : option SessionRow :=
  if not_object value then None else
  peer ← str value "peer";
  lastBody ← text value "last_body";
  deviceId ← str value "device_id";
  count ← nbr value "count";
  lastReceivedAt ← nbr value "last_received_at";
  Some {| ss_peer := peer; ss_count := count; ss_lastBody := lastBody;
          ss_lastReceivedAt := lastReceivedAt; ss_deviceId := deviceId |}.

(** ** Threads *)

Record ThreadRow := {
  th_peer : jstring;
  th_name : jstring;
  th_deviceId : jstring;
  th_messages : Z;
  th_unsent : Z;
  th_unread : Z;
  th_lastBody : jstring;
  th_lastAt : Z;
  th_lastInbound : bool;
}.

Definition threadRow (value : jsval) : res ThreadRow :=
  row ← as_row value;
  Ok {| th_peer := str_or row "peer" "";
        th_name := str_or row "name" "";
        th_deviceId := str_or row "device_id" "";
        th_messages := nbr_or0 row "messages";
        th_unsent := nbr_or0 row "unsent";
        th_unread := nbr_or0 row "unread";
        th_lastBody := str_or row "last_body" "";
        th_lastAt := nbr_or0 row "last_at";
        th_lastInbound := flag row "last_inbound" |}.

Record ContactRow := {
  co_peer : jstring;
  co_name : jstring;
  co_note : jstring;
  co_updatedAt : Z;
}.

Definition contactRow (value : jsval) : res ContactRow :=
  row ← as_row value;
  Ok {| co_peer := str_or row "peer" "";
        co_name := str_or row "name" "";
        co_note := str_or row "note" "";
        co_updatedAt := nbr_or0 row "updated_at" |}.

Record ThreadMessage := {
  tm_id : jstring;
  tm_deviceId : jstring;
  tm_direction : jstring;
  tm_peer : jstring;
  tm_body : jstring;
  tm_bearer : jstring;
  tm_encoding : jstring;
  tm_iccid : option jstring;
  tm_status : jstring;
  tm_receivedAt : Z;
  tm_deliveredAt : option Z;
  tm_readAt : option Z;
  tm_failureReason : option jstring;
}.

Definition threadMessage (value : jsval) : res ThreadMessage :=
  row ← as_row value;
  Ok {| tm_id := str_or row "id" "";
        tm_deviceId := str_or row "device_id" "";
        tm_direction := str_or row "direction" "";
        tm_peer := str_or row "peer" "";
        tm_body := str_or row "body" "";
        tm_bearer := str_or row "bearer" "";
        tm_encoding := str_or row "encoding" "unknown";
        tm_iccid := str row "iccid";
        tm_status := str_or row "status" "";
        tm_receivedAt := nbr_or0 row "received_at";
        tm_deliveredAt := nbr row "delivered_at";
        tm_readAt := nbr row "read_at";
        tm_failureReason := str row "failure_reason" |}.

(** ** Card policies *)

Record CardPolicyRow := {
  cp_iccid : jstring;
  cp_cellularEnabled : bool;
  cp_vertical : jstring;
  cp_apn : option jstring;
  cp_note : jstring;
  cp_updatedAt : Z;
  cp_smsSend : option bool;
  cp_smsReceive : option bool;
  cp_data : option bool;
  cp_voice : option bool;
}.

Definition cardPolicyRow (value : jsval) : res CardPolicyRow :=
  row ← as_row value;
  Ok {| cp_iccid := str_or row "iccid" "";
        cp_cellularEnabled := flag row "cellular_enabled";
        cp_vertical := str_or row "vertical" "cn";
        cp_apn := str row "apn";
        cp_note := str_or row "note" "";
        cp_updatedAt := nbr_or0 row "updated_at";
        cp_smsSend := asTriState (prop row (u "sms_send"));
        cp_smsReceive := asTriState (prop row (u "sms_receive"));
        cp_data := asTriState (prop row (u "data"));
        cp_voice := asTriState (prop row (u "voice")) |}.

(** ** The journal *)

Record JournalEvent := {
  jo_seq : Z;
  jo_deviceId : jstring;
  jo_kind : jstring;
  jo_receivedAt : Z;
  jo_payload : jsval;
}.

Definition journalEvent (value : jsval) : res JournalEvent :=
  row ← as_row value;
  Ok {| jo_seq := nbr_or0 row "seq";
        jo_deviceId := str_or row "device_id" "";
        jo_kind := str_or row "kind" "";
        jo_receivedAt := nbr_or0 row "received_at";
        jo_payload := prop row (u "payload") |}.

(** The serialiser of [URLSearchParams]: form encoding of the UTF-8 bytes, a
    lone surrogate as U+FFFD. *)
Fixpoint scalar_values (s : jstring) : list N :=
  match s with
  | [] => []
  | c :: s' =>
      if high_surrogate c then
        match s' with
        | d :: s'' =>
            if low_surrogate d
            then (0x10000 + (c - 0xD800) * 1024 + (d - 0xDC00))%N :: scalar_values s''
            else 0xFFFD%N :: scalar_values s'
        | [] => [0xFFFD%N]
        end
      else if low_surrogate c then 0xFFFD%N :: scalar_values s'
      else c :: scalar_values s'
  end.

Definition form_plain (b : N) : bool :=
  is_alnum b || (b =? 42)%N || (b =? 45)%N || (b =? 46)%N || (b =? 95)%N.
Definition form_byte (b : N) : jstring :=
  if (b =? 32)%N then [43%N] else if form_plain b then [b] else pct b.
Definition form_encode (s : jstring) : jstring :=
  concat (form_byte <$> concat (utf8_of_point <$> scalar_values s)).

Definition URLSearchParams (pairs : list (jstring * jstring)) : jstring :=
  join_on (u "&") ((fun p => form_encode p.1 ++ u "=" ++ form_encode p.2) <$> pairs).

(** [if (v) query.set(name, v)]. *)
Definition query_set (name : string) (v : option jstring) : list (jstring * jstring) :=
  match v with
  | Some s => if jeqb s [] then [] else [(u name, s)]
  | None => []
  end.

(** The options of fetchJournal; the limit a caller gives is an integer. *)
Record JournalOptions := {
  op_kind : option jstring;
  op_deviceId : option jstring;
  op_limit : option Z;
}.

Definition journal_query (options : JournalOptions) : jstring :=
  URLSearchParams
    (query_set "kind" (op_kind options) ++ query_set "device_id" (op_deviceId options)
     ++ [(u "limit", u (pretty (default_to 100%Z (op_limit options))))]).

(** ** Rules *)

(** [isRule] only narrows the type: a rule row is the value as it came, two of
    its fields tested. *)
Definition isRule (value : jsval) : bool :=
  negb (not_object value)
  && match text value "id", text value "name" with Some _, Some _ => true | _, _ => false end.

(** ** Their fetches *)

Section Fetches.
Variable env : environment.
Variable fetchImpl : fetch_fn.
Variables (host : jstring) (token : option jstring).

Definition fetchMessages : res (list MessageRow) :=
  body ← getCatalog env fetchImpl host (u "/v1/messages") token;
  Ok (filter_map parseMessage (arrayOf (prop body (u "messages")))).

Definition fetchSessions : res (list SessionRow) :=
  body ← getCatalog env fetchImpl host (u "/v1/sessions") token;
  Ok (filter_map parseSession (arrayOf (prop body (u "sessions")))).

Definition fetchThreads : res (list ThreadRow) :=
  body ← getCatalog env fetchImpl host (u "/v1/messages/threads") token;
  res_map threadRow (arrayOf (prop body (u "threads"))).

Definition fetchContacts : res (list ContactRow) :=
  body ← getCatalog env fetchImpl host (u "/v1/messages/contacts") token;
  res_map contactRow (arrayOf (prop body (u "contacts"))).

Definition fetchThread (peer : jstring) : res (list ThreadMessage) :=
  e ← encodeURIComponent peer;
  body ← getCatalog env fetchImpl host (u "/v1/messages/thread?peer=" ++ e) token;
  res_map threadMessage (arrayOf (prop body (u "messages"))).

Definition fetchCardPolicies : res (list CardPolicyRow) :=
  body ← getCatalog env fetchImpl host (u "/v1/cards/policies") token;
  res_map cardPolicyRow (arrayOf (prop body (u "policies"))).

Definition fetchJournal (options : JournalOptions) : res (list JournalEvent) :=
  body ← getCatalog env fetchImpl host (u "/v1/journal?" ++ journal_query options) token;
  res_map journalEvent (arrayOf (prop body (u "events"))).

Definition fetchRules : res (list jsval) :=
  body ← getCatalog env fetchImpl host (u "/v1/rules") token;
  Ok (List.filter isRule (arrayOf (prop body (u "rules")))).
End Fetches.
