(* ===== verification/Network.v ===== *)
(** * Channel health, settings sections, proxies and schedules (lib/catalog.ts)

    The rows of the settings, proxy and schedule pages. *)

From Stdlib Require Import Lia.
From S2P Require Import Prelude JsString JsValue JsSort Fetch Gateway.

(** Two functions of the language these parsers call. *)
Class Platform := {
  Date_parse : jstring -> num;           (** NaN when it is not a date *)
  JSON_stringify : jsval -> jstring;
}.

(** ** Channel health *)

Record ChannelHealthRow := {
  ch_channel : jstring;
  ch_consecutiveFailures : Z;
  ch_lastSuccess : option Z;
  ch_lastDetail : jstring;
  ch_total : Z;
  ch_windowFull : bool;
}.

Section Health.
Context `{Platform} `{Collation}.

(** One turn of the loop: the row it pushes, if any. *)
Definition channelRow (entry : jstring * jsval) : option ChannelHealthRow :=
  let '(channel, raw) := entry in
  if not_object raw then None else
  match nbr raw "total" with
  | None => None
  | Some total =>
      let parsed := match str raw "last_success" with
                    | Some successAt => Date_parse successAt
                    | None => NaN
                    end in
      Some {| ch_channel := channel;
              ch_consecutiveFailures := nbr_or0 raw "consecutive_failures";
              ch_lastSuccess := match parsed with Fin m => Some m | _ => None end;
              ch_lastDetail := str_or raw "last_detail" "";
              ch_total := total;
              ch_windowFull := flag raw "window_full" |}
  end.

(** [b.consecutiveFailures - a.consecutiveFailures ||
     a.channel.localeCompare(b.channel)]. *)
Definition health_order : comparator ChannelHealthRow :=
  cmp_then (cmp_on ch_consecutiveFailures cmp_desc) (cmp_on ch_channel localeCompare).

#[export] Instance health_order_consistent : Consistent health_order.
Proof. unfold health_order. apply _. Qed.

Definition parseChannelHealth (value : jsval) : list ChannelHealthRow :=
  if not_object value then []
  else sort health_order (filter_map channelRow (entries value)).
End Health.

(** ** Settings sections *)

Abbreviation SettingsBySection := (list (jstring * jsval)).

(** [out[section] = document] under the name [__proto__] makes no property. *)
Definition settings_entry (entry : jstring * jsval) : option (jstring * jsval) :=
  let '(section, document) := entry in
  if truthy document && typeof_object document && negb (jeqb section (u "__proto__"))
  then Some (section, document) else None.

(** ** Proxies *)

Record UpstreamRow := {
  up_id : jstring;
  up_name : jstring;
  up_address : jstring;
  up_protocol : jstring;
  up_username : jstring;
  up_enabled : bool;
  up_hasPassword : bool;
  up_lastProbe : option jsval;
  up_lastProbeAt : option Z;
}.

Definition upstreamRow (value : jsval) : res UpstreamRow :=
  row ← as_row value;
  Ok {| up_id := str_or row "id" "";
        up_name := str_or row "name" "";
        up_address := str_or row "address" "";
        up_protocol := str_or row "protocol" "socks5";
        up_username := str_or row "username" "";
        up_enabled := flag row "enabled";
        up_hasPassword := flag row "has_password";
        up_lastProbe :=
          if truthy (prop row (u "last_probe")) && typeof_object (prop row (u "last_probe"))
          then Some (prop row (u "last_probe")) else None;
        up_lastProbeAt := nbr row "last_probe_at" |}.

Record ProxyInstanceRow := {
  pi_id : jstring;
  pi_deviceId : jstring;
  pi_name : jstring;
  pi_modemImei : jstring;
  pi_protocol : jstring;
  pi_listenAddr : jstring;
  pi_listenPort : Z;
  pi_authEnabled : bool;
  pi_username : jstring;
  pi_hasPassword : bool;
  pi_upstreamId : jstring;
  pi_enabled : bool;
}.

Definition proxyInstanceRow (value : jsval) : res ProxyInstanceRow :=
  row ← as_row value;
  Ok {| pi_id := str_or row "id" "";
        pi_deviceId := str_or row "device_id" "";
        pi_name := str_or row "name" "";
        pi_modemImei := str_or row "modem_imei" "";
        pi_protocol := str_or row "protocol" "socks5";
        pi_listenAddr := str_or row "listen_addr" "";
        pi_listenPort := nbr_or0 row "listen_port";
        pi_authEnabled := flag row "auth_enabled";
        pi_username := str_or row "username" "";
        pi_hasPassword := flag row "has_password";
        pi_upstreamId := str_or row "upstream_id" "";
        pi_enabled := flag row "enabled" |}.

Record TrafficPoint := {
  tp_instanceId : jstring;
  tp_hour : Z;
  tp_bytesUp : Z;
  tp_bytesDown : Z;
  tp_connections : Z;
}.

Definition trafficPoint (value : jsval) : res TrafficPoint :=
  row ← as_row value;
  Ok {| tp_instanceId := str_or row "instance_id" "";
        tp_hour := nbr_or0 row "hour";
        tp_bytesUp := nbr_or0 row "bytes_up";
        tp_bytesDown := nbr_or0 row "bytes_down";
        tp_connections := nbr_or0 row "connections" |}.

Record CountryRuleRow := {
  cr_countryCode : jstring;
  cr_upstreamId : jstring;
}.

Definition countryRuleRow (value : jsval) : res CountryRuleRow :=
  row ← as_row value;
  Ok {| cr_countryCode := str_or row "country_code" "";
        cr_upstreamId := str_or row "upstream_id" "" |}.

(** ** Schedules *)

Record Selector := {
  sel_mode : jstring;
  sel_deviceId : option jstring;
  sel_iccid : option jstring;
  sel_modemImei : option jstring;
}.

Record ScheduleRow := {
  sc_id : jstring;
  sc_name : jstring;
  sc_enabled : bool;
  sc_action : jstring;
  sc_commandKind : option jstring;
  sc_selector : Selector;
  sc_intervalSeconds : Z;
  sc_nextDueAt : option Z;
  sc_lastRunAt : option Z;
  sc_lastStatus : option jstring;
  sc_lastCommandId : option jstring;
  sc_lastDetail : option jstring;
}.

Section Schedules.
Context `{Platform}.

Definition parseSchedule (value : jsval) : option ScheduleRow :=
  if not_object value then None else
  match str value "id", str value "name" with
  | Some id, Some name =>
      let selector := nullish (prop value (u "selector")) (VObj []) in
      let detail := prop value (u "last_detail") in
      Some {| sc_id := id;
              sc_name := name;
              sc_enabled := flag value "enabled";
              sc_action := str_or value "action" "command";
              sc_commandKind := str value "command_kind";
              sc_selector := {| sel_mode := str_or selector "mode" "unknown";
                                sel_deviceId := str selector "device_id";
                                sel_iccid := str selector "iccid";
                                sel_modemImei := str selector "modem_imei" |};
              sc_intervalSeconds := nbr_or0 value "interval_seconds";
              sc_nextDueAt := nbr value "next_due_at";
              sc_lastRunAt := nbr value "last_run_at";
              sc_lastStatus := str value "last_status";
              sc_lastCommandId := str value "last_command_id";
              sc_lastDetail :=
                if truthy detail && typeof_object detail && (0 <? length (entries detail))%nat
                then Some (JSON_stringify detail) else None |}
  | _, _ => None
  end.
End Schedules.

(** ** Their fetches *)

Section Fetches.
Context `{Platform} `{Collation}.
Variable env : environment.
Variable fetchImpl : fetch_fn.
Variables (host : jstring) (token : option jstring).

Definition fetchSettings : res SettingsBySection :=
  body ← getCatalog env fetchImpl host (u "/v1/settings") token;
  let raw := prop body (u "settings") in
  if not_object raw then Ok [] else Ok (filter_map settings_entry (entries raw)).

Definition fetchChannelHealth : res (list ChannelHealthRow) :=
  body ← getCatalog env fetchImpl host (u "/v1/settings") token;
  Ok (parseChannelHealth (prop body (u "notification_health"))).

Definition fetchUpstreams : res (list UpstreamRow) :=
  body ← getCatalog env fetchImpl host (u "/v1/proxy/upstreams") token;
  res_map upstreamRow (arrayOf (prop body (u "upstreams"))).

Definition fetchProxyInstances : res (list ProxyInstanceRow) :=
  body ← getCatalog env fetchImpl host (u "/v1/proxy/instances") token;
  res_map proxyInstanceRow (arrayOf (prop body (u "instances"))).

Definition fetchTraffic : res (list TrafficPoint) :=
  body ← getCatalog env fetchImpl host (u "/v1/proxy/traffic") token;
  res_map trafficPoint (arrayOf (prop body (u "traffic"))).

Definition fetchCountryRules : res (list CountryRuleRow) :=
  body ← getCatalog env fetchImpl host (u "/v1/proxy/country-rules") token;
  res_map countryRuleRow (arrayOf (prop body (u "country_rules"))).

Definition fetchSchedules : res (list ScheduleRow) :=
  body ← getCatalog env fetchImpl host (u "/v1/schedules") token;
  Ok (filter_map parseSchedule (arrayOf (prop body (u "schedules")))).
End Fetches.

(** ** Properties *)

Section Properties.
Context `{Platform} `{Collation}.

Lemma channelRow_some e r :
  channelRow e = Some r ->
  ch_channel r = e.1 /\ not_object e.2 = false /\ nbr e.2 "total" = Some (ch_total r) /\
  forall m, ch_lastSuccess r = Some m <->
    exists s, str e.2 "last_success" = Some s /\ Date_parse s = Fin m.
Proof.
  destruct e as [c raw]. unfold channelRow. cbn. destruct (not_object raw); [done|].
  destruct (nbr raw "total") eqn:Et; [|done]. intros [= <-]. cbn. split_and!; [done..|].
  intros m. destruct (str raw "last_success") as [s|]; [|by split; [|intros (?&?&?)]].
  split.
  - destruct (Date_parse s) eqn:Ed; [|done..]. intros [= <-]. by exists s.
  - by intros (? & [= <-] & ->).
Qed.

Lemma channelRow_total c raw :
  not_object raw = false -> nbr raw "total" <> None ->
  exists r, channelRow (c, raw) = Some r /\ ch_channel r = c.
Proof.
  unfold channelRow. intros ->. destruct (nbr raw "total"); [|done]. eauto.
Qed.

(** Channel health lists exactly the channels whose record is an
    object with a denominator, the failing ones first and equal counts by
    name.  Its last success is the parsed date of the text the gateway
    sent: none when there is no text, or the text is not a date. *)
Theorem parseChannelHealth_spec fs :
  let rows := parseChannelHealth (VObj fs) in
  StronglySorted (cmp_le health_order) rows /\
  rows ≡ₚ omap channelRow fs /\
  (forall r, r ∈ rows ->
     exists raw, (ch_channel r, raw) ∈ fs /\ nbr raw "total" = Some (ch_total r) /\
       forall m, ch_lastSuccess r = Some m <->
         exists s, str raw "last_success" = Some s /\ Date_parse s = Fin m) /\
  (forall c raw, (c, raw) ∈ fs -> not_object raw = false -> nbr raw "total" <> None ->
     exists r, r ∈ rows /\ ch_channel r = c).
Proof.
  unfold parseChannelHealth. rewrite not_object_obj. cbn [entries]. split_and!.
  - apply sort_sorted. apply _.
  - apply sort_perm.
  - intros r Hr. apply (elem_of_sort health_order), elem_of_filter_map in Hr as ([c raw] & Hin & Hr).
    apply channelRow_some in Hr as (Hc & _ & Ht & Hm). cbn in *. subst c. by exists raw.
  - intros c raw Hin Ho Ht. destruct (channelRow_total c raw Ho Ht) as (r & Hr & Hc).
    exists r. split; [|done].
    apply elem_of_sort, elem_of_filter_map. eauto.
Qed.
End Properties.
