(* ===== verification/AuditLog.v ===== *)
(** * The audit log (lib/catalog.ts: loadAudit and auditScreen)

    One load is one of four outcomes; the screen is a function of it. *)

From Stdlib Require Import Lia.
From S2P Require Import Prelude JsString JsValue Fetch Gateway.

Record AuditRow := {
  au_actor : jstring;
  au_action : jstring;
  au_target : jstring;
}.
#[export] Instance AuditRow_eq_dec : EqDecision AuditRow.
Proof. solve_decision. Defined.

Inductive AuditLoad :=
  | AuditOk (events : list AuditRow)
  | AuditEmpty
  | AuditUnreadable (received : nat)
  | AuditFailed.

(** [name.charAt(0).toUpperCase() + name.slice(1)]; the names it is given are
    lower-case ASCII words. *)
Definition goName (name : jstring) : jstring :=
  match name with
  | c :: rest => (if is_lower c then (c - 32)%N else c) :: rest
  | [] => []
  end.

Definition eitherCase (row : jsval) (name : jstring) : option jstring :=
  or_else (asString (prop row name)) (asString (prop row (goName name))).

Definition parseAuditEvent (value : jsval) : option AuditRow :=
  if not_object value then None else
  match eitherCase value (u "action") with
  | None => None
  | Some action =>
      Some {| au_actor := default_to [] (eitherCase value (u "actor"));
              au_action := action;
              au_target := default_to [] (eitherCase value (u "target")) |}
  end.

Definition loadAudit (env : environment) (fetchImpl : fetch_fn) (host : jstring)
    (token : option jstring) : AuditLoad :=
  match getCatalog env fetchImpl host (u "/v1/audit") token with
  | Throw _ => AuditFailed
  | Ok body =>
      let received := arrayOf (prop body (u "events")) in
      let events := filter_map parseAuditEvent received in
      if (0 <? length events)%nat then AuditOk events
      else if (0 <? length received)%nat then AuditUnreadable (length received)
      else AuditEmpty
  end.

Record AuditPlaceholder := {
  pl_titleKey : jstring;
  pl_descriptionKey : jstring;
  pl_vars : list (jstring * nat);
}.

Record AuditScreen := {
  as_rows : list AuditRow;
  as_errorKey : option jstring;
  as_placeholder : option AuditPlaceholder;
}.

Definition auditScreen (load : AuditLoad) : AuditScreen :=
  match load with
  | AuditOk events => {| as_rows := events; as_errorKey := None; as_placeholder := None |}
  | AuditEmpty =>
      {| as_rows := [];
         as_errorKey := None;
         as_placeholder := Some {| pl_titleKey := u "empty.audit.title";
                                   pl_descriptionKey := u "empty.audit.desc";
                                   pl_vars := [] |} |}
  | AuditUnreadable received =>
      {| as_rows := [];
         as_errorKey := Some (u "audit.unreadableError");
         as_placeholder := Some {| pl_titleKey := u "empty.audit.unreadableTitle";
                                   pl_descriptionKey := u "empty.audit.unreadableDesc";
                                   pl_vars := [(u "count", received)] |} |}
  | AuditFailed =>
      {| as_rows := [];
         as_errorKey := Some (u "audit.loadError");
         as_placeholder := Some {| pl_titleKey := u "empty.audit.failedTitle";
                                   pl_descriptionKey := u "empty.audit.failedDesc";
                                   pl_vars := [] |} |}
  end.

(** ** The two spellings of an event on the wire *)

Definition tagged_event (a : AuditRow) : jsval :=
  VObj [(u "actor", VStr (au_actor a)); (u "action", VStr (au_action a));
        (u "target", VStr (au_target a))].
Definition go_event (a : AuditRow) : jsval :=
  VObj [(u "Actor", VStr (au_actor a)); (u "Action", VStr (au_action a));
        (u "Target", VStr (au_target a))].

Lemma omap_nil_iff {A B} (f : A -> option B) (l : list A) :
  omap f l = [] <-> forall x, x ∈ l -> f x = None.
Proof.
  induction l as [|x l IH]; cbn.
  - split; [|done]. by intros _ x ?%not_elem_of_nil.
  - destruct (f x) eqn:E; cbn.
    + split; [done|]. intros H. rewrite H in E by left. done.
    + rewrite IH. split; [intros H y [->|Hy]%elem_of_cons; auto|intros H y Hy; apply H; by right].
Qed.

Lemma length_pos {A} (l : list A) : (0 <? length l)%nat = negb (bool_decide (l = [])).
Proof. by destruct l. Qed.

(** What a load of the audit log reports is what happened: [failed]
    exactly when the gateway refused or could not be reached, [empty] exactly
    when it answered with no event, [unreadable] exactly when it sent events
    and the parser could read none, and [ok] with the readable ones, in
    order, otherwise. *)
Theorem loadAudit_outcome env f host token :
  match loadAudit env f host token with
  | AuditFailed => exists e, getCatalog env f host (u "/v1/audit") token = Throw e
  | AuditEmpty => exists body, getCatalog env f host (u "/v1/audit") token = Ok body /\
                    arrayOf (prop body (u "events")) = []
  | AuditUnreadable n =>
      exists body, getCatalog env f host (u "/v1/audit") token = Ok body /\
        n = length (arrayOf (prop body (u "events"))) /\ 0 < n /\
        forall v, v ∈ arrayOf (prop body (u "events")) -> parseAuditEvent v = None
  | AuditOk events =>
      exists body, getCatalog env f host (u "/v1/audit") token = Ok body /\
        events = omap parseAuditEvent (arrayOf (prop body (u "events"))) /\ events <> []
  end.
Proof.
  unfold loadAudit. destruct (getCatalog _ _ _ _ _) as [body|e]; [|by exists e].
  set (received := arrayOf _). rewrite length_pos. case_bool_decide as He; cbn [negb].
  - destruct (0 <? length received)%nat eqn:Er.
    + apply Nat.ltb_lt in Er. exists body. split_and!; [done..|]. by apply omap_nil_iff.
    + exists body. split; [done|]. apply Nat.ltb_ge in Er. apply length_zero_iff_nil. subst received. lia.
  - by exists body.
Qed.

(** A table exactly when there are rows. *)
Lemma auditScreen_rows env f host token :
  let screen := auditScreen (loadAudit env f host token) in
  (as_placeholder screen = None -> as_rows screen <> [])
  /\ (forall p, as_placeholder screen = Some p -> as_rows screen = []).
Proof.
  assert (Hne : forall events, loadAudit env f host token = AuditOk events -> events <> []).
  { intros events. unfold loadAudit. destruct (getCatalog _ _ _ _ _); [|done].
    rewrite length_pos. case_bool_decide as He; cbn [negb]; [by case_match|]. by intros [= <-]. }
  destruct (loadAudit env f host token) as [events| |n|]; cbn -[u]; naive_solver.
Qed.

(** The audit page draws a table exactly when it has rows, and the
    placeholder otherwise; the empty-log copy is shown only for a log the
    gateway said is empty, and an error line exactly for the other two. *)
Theorem auditScreen_honest env f host token :
  let load := loadAudit env f host token in
  let screen := auditScreen load in
  (as_placeholder screen = None <-> as_rows screen <> []) /\
  ((pl_titleKey <$> as_placeholder screen) = Some (u "empty.audit.title") <-> load = AuditEmpty) /\
  (as_errorKey screen = None <-> load = AuditEmpty \/ exists events, load = AuditOk events).
Proof.
  intros load screen. subst screen.
  assert (Hne : forall events, load = AuditOk events -> events <> []).
  { intros events. subst load. unfold loadAudit. destruct (getCatalog _ _ _ _ _); [|done].
    rewrite length_pos. case_bool_decide as He; cbn [negb]; [by case_match|]. by intros [= <-]. }
  destruct load as [events| |n|]; cbn -[u]; split_and!; try naive_solver.
Qed.

(** An event is read the same under its tagged names and under the Go
    field names, and nothing but a missing action drops it. *)
Theorem parseAuditEvent_spellings a :
  parseAuditEvent (go_event a) = parseAuditEvent (tagged_event a) /\
  (parseAuditEvent (tagged_event a) = Some a <-> au_action a <> []) /\
  (parseAuditEvent (tagged_event a) = None <-> au_action a = []).
Proof.
  destruct a as [actor action target].
  split_and!; [destruct actor, action, target; reflexivity|..];
    destruct actor, action, target; cbv; naive_solver.
Qed.
