(* ===== verification/JsMap.v ===== *)
(** * [Map] and [Set] of strings, in insertion order

    [new Map<string, V>()] as an association list without duplicate keys, and
    the loop the catalog runs over one again and again: keep, per key, the
    entry that beats the others. *)

From Stdlib Require Import Lia.
From S2P Require Import Prelude JsString JsValue.

Section Map.
Context {V : Type}.
Abbreviation jsmap := (list (jstring * V)).

Definition map_get (k : jstring) (m : jsmap) : option V := field k m.

(** [m.set(k, v)]: an existing key keeps its place. *)
Fixpoint map_set (k : jstring) (v : V) (m : jsmap) : jsmap :=
  match m with
  | [] => [(k, v)]
  | (k', w) :: m => if jeqb k k' then (k', v) :: m else (k', w) :: map_set k v m
  end.

Definition map_values (m : jsmap) : list V := m.*2.

Lemma map_get_set_eq k v m : map_get k (map_set k v m) = Some v.
Proof.
  induction m as [|[k' w] m IH]; unfold map_get; cbn; [by rewrite jeqb_refl|].
  destruct (jeqb k k') eqn:E; cbn; rewrite E; [done|apply IH].
Qed.

Lemma map_get_set_ne k k' v m : k <> k' -> map_get k (map_set k' v m) = map_get k m.
Proof.
  intros Hk. induction m as [|[k'' w] m IH]; unfold map_get in *; cbn.
  - by rewrite (proj2 (jeqb_neq k k')).
  - destruct (jeqb k' k'') eqn:E; cbn.
    + apply jeqb_eq in E as <-. by rewrite (proj2 (jeqb_neq k k')).
    + by rewrite IH.
Qed.

Lemma map_set_keys k v m x : x ∈ (map_set k v m).*1 <-> x = k \/ x ∈ m.*1.
Proof.
  induction m as [|[k' w] m IH]; cbn; [by rewrite list_elem_of_singleton, elem_of_nil; naive_solver|].
  destruct (jeqb k k') eqn:E; cbn; rewrite !elem_of_cons, ?IH.
  - apply jeqb_eq in E as <-. naive_solver.
  - naive_solver.
Qed.

Lemma map_set_NoDup k v m : NoDup m.*1 -> NoDup (map_set k v m).*1.
Proof.
  induction m as [|[k' w] m IH]; cbn; [intros _; by apply NoDup_singleton|].
  intros [Hk Hm]%NoDup_cons. destruct (jeqb k k') eqn:E; cbn; apply NoDup_cons; split; try done.
  - rewrite map_set_keys. apply jeqb_neq in E. naive_solver.
  - by apply IH.
Qed.

Lemma map_get_elem k v m : NoDup m.*1 -> (map_get k m = Some v <-> (k, v) ∈ m).
Proof.
  unfold map_get. induction m as [|[k' w] m IH]; cbn; [by rewrite elem_of_nil|].
  intros [Hk Hm]%NoDup_cons. specialize (IH Hm). rewrite elem_of_cons.
  destruct (jeqb k k') eqn:E.
  - apply jeqb_eq in E as <-. split; [intros [= ->]; by left|].
    intros [[= ->]|Hin]; [done|]. destruct Hk. apply list_elem_of_fmap. by exists (k, v).
  - apply jeqb_neq in E. rewrite IH. naive_solver.
Qed.

(** ** Keeping the winner of every key *)

(** [if (existing && keeps(existing, v)) continue; m.set(k, v);] *)
Context (keeps : V -> V -> bool).

Definition put (m : jsmap) (kv : jstring * V) : jsmap :=
  match map_get kv.1 m with
  | Some existing => if keeps existing kv.2 then m else map_set kv.1 kv.2 m
  | None => map_set kv.1 kv.2 m
  end.

Definition put_all (entries : list (jstring * V)) (m : jsmap) : jsmap :=
  fold_left put entries m.

(** The values offered for one key, in order. *)
Definition offers (k : jstring) (entries : list (jstring * V)) : list V :=
  omap (fun kv => if jeqb k kv.1 then Some kv.2 else None) entries.

Lemma elem_of_offers k v entries : v ∈ offers k entries <-> (k, v) ∈ entries.
Proof.
  unfold offers. rewrite list_elem_of_omap. split.
  - intros ([k' w] & Hin & Hk). cbn in Hk. destruct (jeqb k k') eqn:E; [|done].
    apply jeqb_eq in E as <-. by simplify_eq.
  - intros Hin. exists (k, v). split; [done|]. cbn. by rewrite jeqb_refl.
Qed.

Lemma put_NoDup m kv : NoDup m.*1 -> NoDup (put m kv).*1.
Proof.
  intros Hm. unfold put. repeat case_match; try done; by apply map_set_NoDup.
Qed.

Lemma put_all_NoDup entries m : NoDup m.*1 -> NoDup (put_all entries m).*1.
Proof.
  revert m. induction entries as [|kv es IH]; intros m Hm; [done|].
  cbn. apply IH. by apply put_NoDup.
Qed.

(** [v] is what is left of [l] when each value meets the one before it that
    is still standing. *)
Definition winner (l : list V) (v : V) : Prop :=
  exists l1 l2, l = l1 ++ v :: l2 /\ (forall x, x ∈ l1 -> keeps x v = false)
           /\ forall y, y ∈ l2 -> keeps v y = true.

Fixpoint last_standing (cur : V) (l : list V) : V :=
  match l with
  | [] => cur
  | v :: l => last_standing (if keeps cur v then cur else v) l
  end.

Lemma put_get k m kv :
  map_get k (put m kv) =
  if jeqb k kv.1 then
    match map_get k m with
    | Some cur => Some (if keeps cur kv.2 then cur else kv.2)
    | None => Some kv.2
    end
  else map_get k m.
Proof.
  unfold put. destruct (jeqb k kv.1) eqn:E.
  - apply jeqb_eq in E as ->. destruct (map_get kv.1 m) as [cur|] eqn:Eg;
      [|by rewrite map_get_set_eq]. destruct (keeps cur kv.2); [done|by rewrite map_get_set_eq].
  - apply jeqb_neq in E. repeat case_match; try done; by rewrite map_get_set_ne.
Qed.

Lemma put_all_get k entries m :
  map_get k (put_all entries m) =
  match map_get k m, offers k entries with
  | Some cur, l => Some (last_standing cur l)
  | None, v :: l => Some (last_standing v l)
  | None, [] => None
  end.
Proof.
  revert m. induction entries as [|kv es IH]; intros m; cbn; [by case_match|].
  rewrite IH, put_get. unfold offers. cbn. destruct (jeqb k kv.1); cbn; [|done].
  destruct (map_get k m); done.
Qed.

(** Both answers of [keeps] are transitive, as they are when it compares a
    number of the two values. *)
Class Ranked : Prop := {
  keeps_true_trans x y z : keeps x y = true -> keeps y z = true -> keeps x z = true;
  keeps_false_trans x y z : keeps x y = false -> keeps y z = false -> keeps x z = false;
}.

Lemma last_standing_winner `{!Ranked} cur l : winner (cur :: l) (last_standing cur l).
Proof.
  revert cur. induction l as [|v l IH]; intros cur; cbn.
  - exists [], []. split_and!; [done|by intros ? ?%not_elem_of_nil..].
  - specialize (IH (if keeps cur v then cur else v)). revert IH.
    generalize (last_standing (if keeps cur v then cur else v) l).
    intros w (l1 & l2 & Hl & H1 & H2).
    destruct (keeps cur v) eqn:E; destruct l1 as [|x l1]; cbn in Hl; injection Hl as Hx ->.
    + subst w. exists [], (v :: l2). split_and!; [done|by intros ? ?%not_elem_of_nil|].
      intros y [->|Hy]%elem_of_cons; auto.
    + subst x. exists (cur :: v :: l1), l2. split_and!; [done| |done].
      pose proof (H1 cur (list_elem_of_here _ _)) as Hc.
      intros y [->|[->|Hy]%elem_of_cons]%elem_of_cons; [done| |by apply H1; right].
      apply not_true_iff_false. intros Hv. pose proof (keeps_true_trans _ _ _ E Hv). congruence.
    + subst w. exists [cur], l2. split_and!; [done| |done].
      by intros y ->%list_elem_of_singleton.
    + subst x. exists (cur :: v :: l1), l2. split_and!; [done| |done].
      pose proof (H1 v (list_elem_of_here _ _)) as Hv.
      intros y [->|[->|Hy]%elem_of_cons]%elem_of_cons; [|done|by apply H1; right].
      by eapply keeps_false_trans.
Qed.

(** Per key, the map holds the winner among the entries offered for it. *)
Lemma put_all_winner `{!Ranked} k v entries :
  map_get k (put_all entries []) = Some v <-> winner (offers k entries) v.
Proof.
  rewrite put_all_get. cbn. destruct (offers k entries) as [|w l].
  - split; [done|]. intros ([|? ?] & ? & ? & _); done.
  - pose proof (last_standing_winner w l) as Hw. split; [by intros [= <-]|].
    intros Hv. f_equal. revert Hw. generalize (last_standing w l).
    intros w' (a1 & a2 & Ha & Hb & Hc). destruct Hv as (b1 & b2 & Hd & He & Hf).
    rewrite Ha in Hd. apply app_eq_inv in Hd as [(m & -> & Hm)|(m & -> & Hm)];
      destruct m as [|z m]; cbn in Hm; injection Hm as Hz Hm; try done; exfalso.
    + assert (Hx : keeps v w' = true) by (apply Hf; rewrite Hm; set_solver).
      rewrite Hb in Hx; [done|set_solver].
    + assert (Hx : keeps w' v = true) by (apply Hc; rewrite Hm; set_solver).
      rewrite He in Hx; [done|set_solver].
Qed.

Lemma put_all_values `{!Ranked} v entries :
  v ∈ map_values (put_all entries []) <-> exists k, winner (offers k entries) v.
Proof.
  unfold map_values. rewrite list_elem_of_fmap. setoid_rewrite <-put_all_winner.
  pose proof (put_all_NoDup entries [] (NoDup_nil_2)) as Hd. split.
  - intros ([k w] & -> & Hin). exists k. cbn. by apply map_get_elem.
  - intros [k Hk]. apply map_get_elem in Hk; [|done]. by exists (k, v).
Qed.

Lemma winner_elem l v : winner l v -> v ∈ l.
Proof. intros (l1 & l2 & -> & _). apply elem_of_app. right. left. Qed.

Lemma put_all_elem `{!Ranked} k v entries :
  (k, v) ∈ put_all entries [] <-> winner (offers k entries) v.
Proof. rewrite <-put_all_winner, map_get_elem; [done|]. apply put_all_NoDup, NoDup_nil_2. Qed.

(** When the key is a part of the value, no two values share it. *)
Lemma put_all_NoDup_by `{!Ranked} (key : V -> jstring) entries :
  (forall k v, (k, v) ∈ entries -> key v = k) ->
  NoDup (key <$> map_values (put_all entries [])).
Proof.
  intros Hk. pose proof (put_all_NoDup entries [] (NoDup_nil_2)) as Hd.
  unfold map_values. rewrite <-list_fmap_compose.
  rewrite (list_fmap_ext (key ∘ snd) fst (put_all entries [])); [done|].
  intros i [k v] Hi%list_elem_of_lookup_2. cbn. apply Hk.
  by apply elem_of_offers, winner_elem, put_all_elem.
Qed.
End Map.
Arguments Ranked {V} keeps.

(** Comparing a number of the two values ranks them. *)
#[export] Instance ranked_ge {V} (time : V -> Z) : Ranked (fun x y => (time y <=? time x)%Z).
Proof. split; intros x y z; rewrite ?Z.leb_le, ?Z.leb_gt; lia. Qed.
#[export] Instance ranked_gt {V} (time : V -> Z) : Ranked (fun x y => (time y <? time x)%Z).
Proof. split; intros x y z; rewrite ?Z.ltb_lt, ?Z.ltb_ge; lia. Qed.

(** The loop that keeps the entry of the greatest time among those that pass
    a test: [if (!p(v)) continue; if (!best || time(v) > time(best)) best = v;] *)
Section Best.
Context {V : Type} (p : V -> bool) (time : V -> Z).

Definition keep_best (best : option V) (v : V) : option V :=
  if negb (p v) then best else
  match best with
  | None => Some v
  | Some b => if (time b <? time v)%Z then Some v else best
  end.

(** The first entry of the greatest time. *)
Definition best_of (l : list V) (v : V) : Prop :=
  exists l1 l2, List.filter p l = l1 ++ v :: l2
    /\ (forall x, x ∈ l1 -> time x < time v)%Z /\ (forall y, y ∈ l2 -> time y <= time v)%Z.

Lemma keep_best_scan l cur :
  fold_left keep_best l cur =
  match cur, List.filter p l with
  | Some c, r => Some (last_standing (fun x y => time y <=? time x)%Z c r)
  | None, v :: r => Some (last_standing (fun x y => time y <=? time x)%Z v r)
  | None, [] => None
  end.
Proof.
  revert cur. induction l as [|v l IH]; intros cur; cbn; [by destruct cur|].
  rewrite IH. unfold keep_best. destruct (p v); cbn [negb]; [|done].
  destruct cur as [c|]; [|done]. cbn. rewrite Z.leb_antisym. by destruct (_ <? _)%Z.
Qed.

Lemma keep_best_some l v : fold_left keep_best l None = Some v -> best_of l v.
Proof.
  rewrite keep_best_scan. unfold best_of. destruct (List.filter p l) as [|w r]; [done|].
  intros [= <-]. destruct (last_standing_winner (fun x y => time y <=? time x)%Z w r)
    as (l1 & l2 & Hl & H1 & H2).
  exists l1, l2. split_and!; [done|..].
  - intros x Hx. by apply Z.leb_gt, H1.
  - intros y Hy. by apply Z.leb_le, H2.
Qed.

Lemma keep_best_none l : fold_left keep_best l None = None <-> forall v, v ∈ l -> p v = false.
Proof.
  rewrite keep_best_scan. destruct (List.filter p l) as [|w r] eqn:E.
  - split; [|done]. intros _ v Hv. destruct (p v) eqn:Ep; [|done].
    assert (Hin : v ∈ List.filter p l) by (by apply elem_of_filter_bool).
    rewrite E in Hin. by apply not_elem_of_nil in Hin.
  - split; [done|]. intros Hp. assert (Hin : w ∈ List.filter p l) by (rewrite E; left).
    apply elem_of_filter_bool in Hin as [Hw Hpw]. rewrite Hp in Hpw; done.
Qed.

Lemma best_of_greatest l v :
  best_of l v -> v ∈ l /\ p v = true /\ forall w, w ∈ l -> p w = true -> (time w <= time v)%Z.
Proof.
  intros (l1 & l2 & Hl & H1 & H2). assert (Hin : v ∈ List.filter p l) by (rewrite Hl; set_solver).
  apply elem_of_filter_bool in Hin as [Hv Hp]. split_and!; [done..|]. intros w Hw Hpw.
  assert (Hwin : w ∈ List.filter p l) by (by apply elem_of_filter_bool).
  rewrite Hl in Hwin. apply elem_of_app in Hwin as [Hx|[->|Hy]%elem_of_cons]; [|done|by apply H2].
  specialize (H1 w Hx). lia.
Qed.
End Best.

(** The loop [for (const a of l) m.set(key(a), val(a))]: the last one wins. *)
Lemma fold_map_set_last {A} {V} (key : A -> jstring) (val : A -> V) l (m : list (jstring * V)) k :
  map_get k (fold_left (fun m a => map_set (key a) (val a) m) l m)
  = or_else (last (omap (fun a => if jeqb k (key a) then Some (val a) else None) l)) (map_get k m).
Proof.
  revert m. induction l as [|a l IH]; intros m; [done|]. cbn [fold_left]. rewrite IH.
  cbn [omap list_omap]. destruct (jeqb k (key a)) eqn:E.
  - apply jeqb_eq in E as ->. rewrite map_get_set_eq.
    destruct (omap _ l) as [|b bs]; [done|]. change (last (val a :: b :: bs)) with (last (b :: bs)).
    destruct (last_is_Some (b :: bs)) as [_ [x Hx]]; [done|]. by rewrite Hx.
  - apply jeqb_neq in E. by rewrite map_get_set_ne.
Qed.

(** ** [Set] of strings *)

(** [[...new Set(xs)]]: first occurrences, in order. *)
Fixpoint distinct_from (seen l : list jstring) : list jstring :=
  match l with
  | [] => []
  | x :: l =>
      if existsb (jeqb x) seen then distinct_from seen l
      else x :: distinct_from (seen ++ [x]) l
  end.
Definition distinct (l : list jstring) : list jstring := distinct_from [] l.

Lemma distinct_from_seen seen l :
  distinct_from seen l = [] <-> Forall (fun y => y ∈ seen) l.
Proof.
  revert seen. induction l as [|y l IH]; intros seen; cbn; [done|].
  rewrite Forall_cons. destruct (existsb (jeqb y) seen) eqn:E.
  - apply existsb_elem in E as (z & Hz & ->%jeqb_eq). rewrite IH. tauto.
  - split; [done|]. intros [Hy _]. rewrite <-not_true_iff_false, existsb_elem in E.
    exfalso. apply E. exists y. split; [done|apply jeqb_refl].
Qed.

Lemma distinct_single x l : length (distinct (x :: l)) = 1 <-> Forall (eq x) l.
Proof.
  unfold distinct. cbn [distinct_from existsb app length].
  transitivity (distinct_from [x] l = []).
  { destruct (distinct_from [x] l); cbn; split; (done || lia). }
  rewrite distinct_from_seen. apply Forall_iff. intros y.
  rewrite list_elem_of_singleton. split; congruence.
Qed.

Lemma distinct_from_spec seen l :
  NoDup (distinct_from seen l)
  /\ forall x, x ∈ distinct_from seen l <-> x ∈ l /\ x ∉ seen.
Proof.
  revert seen. induction l as [|y l IH]; intros seen; cbn.
  { split; [constructor|]. intros x. rewrite elem_of_nil. tauto. }
  destruct (existsb (jeqb y) seen) eqn:E.
  - destruct (IH seen) as [Hn Hx]. split; [done|]. intros x. rewrite Hx, elem_of_cons.
    apply existsb_elem in E as (z & Hz & ->%jeqb_eq). split; [tauto|].
    intros [[->|Hl] Hs]; done.
  - destruct (IH (seen ++ [y])) as [Hn Hx].
    assert (Hy : y ∉ seen).
    { intros Hy. rewrite <-not_true_iff_false, existsb_elem in E. apply E. exists y.
      split; [done|apply jeqb_refl]. }
    split.
    + constructor; [|done]. rewrite Hx, elem_of_app, list_elem_of_singleton. tauto.
    + intros x. rewrite !elem_of_cons, Hx, elem_of_app, list_elem_of_singleton.
      destruct (decide (x = y)) as [->|]; tauto.
Qed.

Lemma NoDup_distinct l : NoDup (distinct l).
Proof. apply distinct_from_spec. Qed.
Lemma elem_of_distinct x l : x ∈ distinct l <-> x ∈ l.
Proof. unfold distinct. rewrite (proj2 (distinct_from_spec [] l)), elem_of_nil. tauto. Qed.
