(* ===== verification/EsimData.v ===== *)
(** * eSIM command results (lib/catalog.ts: the parsers of the eSIM section)

    What a chip, a notification queue, an ES9+ authentication and a download
    said, read out of command results. *)

From Stdlib Require Import Lia.
From S2P Require Import Prelude JsString JsValue Fetch Gateway.

Definition stringsOf (value : jsval) : list jstring :=
  filter_map (fun entry => match entry with VStr s => Some s | _ => None end) (arrayOf value).

Definition strs (row : jsval) (k : string) : list jstring := stringsOf (prop row (u k)).

(** [arrayOf(row.k).map(parse).filter(entry => entry !== null)]. *)
Definition rows_of {A} (parse : jsval -> option A) (row : jsval) (k : string) : list A :=
  filter_map parse (arrayOf (prop row (u k))).

(** [row.k ?? {}]. *)
Definition sub (row : jsval) (k : string) : jsval := nullish (prop row (u k)) (VObj []).

(** ** The chip reading *)

Record EsimChipInfo := {
  ci_profileVersion : option jstring;
  ci_sgp22Version : option jstring;
  ci_firmwareVersion : option jstring;
  ci_installedApplications : option Z;
  ci_freeNonVolatileMemory : option Z;
  ci_freeVolatileMemory : option Z;
  ci_uiccCapabilities : list jstring;
  ci_ts102241Version : option jstring;
  ci_globalPlatformVersion : option jstring;
  ci_rspCapabilities : list jstring;
  ci_ciKeyIdsForVerification : list jstring;
  ci_ciKeyIdsForSigning : list jstring;
  ci_category : option Z;
  ci_forbiddenProfilePolicyRules : list jstring;
  ci_ppVersion : option jstring;
  ci_sasAccreditationNumber : option jstring;
  ci_decodedFields : Z;
}.

Record EsimNotificationRow := {
  en_sequenceNumber : Z;
  en_operations : list jstring;
  en_address : jstring;
  en_iccid : option jstring;
}.

Definition parseEsimNotification (value : jsval) : option EsimNotificationRow :=
  if not_object value then None else
  match nbr value "sequence_number", str value "address" with
  | Some sequenceNumber, Some address =>
      Some {| en_sequenceNumber := sequenceNumber;
              en_operations := strs value "operations";
              en_address := address;
              en_iccid := str value "iccid" |}
  | _, _ => None
  end.

Record EsimReadProfile := {
  rp_iccid : jstring;
  rp_enabled : bool;
  rp_label : option jstring;
  rp_name : option jstring;
  rp_nickname : option jstring;
  rp_provider : option jstring;
  rp_profileClass : option Z;
  rp_isdpAid : option jstring;
}.

Definition parseEsimReadProfile (value : jsval) : option EsimReadProfile :=
  if not_object value then None else
  match str value "iccid" with
  | None => None
  | Some iccid =>
      Some {| rp_iccid := iccid;
              rp_enabled := bool_decide (asBoolean (prop value (u "enabled")) = Some true);
              rp_label := str value "label";
              rp_name := str value "name";
              rp_nickname := str value "nickname";
              rp_provider := str value "provider";
              rp_profileClass := nbr value "class";
              rp_isdpAid := str value "isdp_aid" |}
  end.

Record EsimInfoResult := {
  ei_imei : jstring;
  ei_eid : jstring;
  ei_chip : EsimChipInfo;
  ei_profiles : list EsimReadProfile;
  ei_notifications : list EsimNotificationRow;
  ei_notificationsError : option jstring;
  ei_profilesError : option jstring;
}.

Definition parseEsimInfoResult (value : jsval) : option EsimInfoResult :=
  if not_object value then None else
  match str value "eid", str value "imei" with
  | Some eid, Some imei =>
      let chip := sub value "chip" in
      Some {| ei_imei := imei;
              ei_eid := eid;
              ei_chip := {|
                ci_profileVersion := str chip "profile_version";
                ci_sgp22Version := str chip "sgp22_version";
                ci_firmwareVersion := str chip "firmware_version";
                ci_installedApplications := nbr chip "installed_applications";
                ci_freeNonVolatileMemory := nbr chip "free_non_volatile_memory";
                ci_freeVolatileMemory := nbr chip "free_volatile_memory";
                ci_uiccCapabilities := strs chip "uicc_capabilities";
                ci_ts102241Version := str chip "ts102241_version";
                ci_globalPlatformVersion := str chip "global_platform_version";
                ci_rspCapabilities := strs chip "rsp_capabilities";
                ci_ciKeyIdsForVerification := strs chip "ci_key_ids_for_verification";
                ci_ciKeyIdsForSigning := strs chip "ci_key_ids_for_signing";
                ci_category := nbr chip "category";
                ci_forbiddenProfilePolicyRules := strs chip "forbidden_profile_policy_rules";
                ci_ppVersion := str chip "pp_version";
                ci_sasAccreditationNumber := str chip "sas_accreditation_number";
                ci_decodedFields := nbr_or0 chip "decoded_fields" |};
              ei_profiles := rows_of parseEsimReadProfile value "profiles";
              ei_notifications := rows_of parseEsimNotification value "notifications";
              ei_notificationsError := str value "notifications_error";
              ei_profilesError := str value "profiles_error" |}
  | _, _ => None
  end.

(** ** Retrieved notifications *)

Record RetrievedNotification := {
  rn_imei : jstring;
  rn_sequenceNumber : Z;
  rn_operations : list jstring;
  rn_address : jstring;
  rn_iccid : option jstring;
  rn_installationResult : bool;
  rn_payloadBytes : Z;
  rn_delivered : bool;
  rn_deliveryBlockedBy : option jstring;
}.

Definition parseRetrievedNotification (value : jsval) : option RetrievedNotification :=
  if not_object value then None else
  match nbr value "sequence_number", str value "imei" with
  | Some sequenceNumber, Some imei =>
      Some {| rn_imei := imei;
              rn_sequenceNumber := sequenceNumber;
              rn_operations := strs value "operations";
              rn_address := str_or value "address" "";
              rn_iccid := str value "iccid";
              rn_installationResult := flag value "installation_result";
              rn_payloadBytes := nbr_or0 value "payload_bytes";
              rn_delivered := flag value "delivered";
              rn_deliveryBlockedBy := str value "delivery_blocked_by" |}
  | _, _ => None
  end.

(** ** ES9+ authentication *)

Record EsimTrustAnchor := {
  ta_label : jstring;
  ta_keyId : jstring;
  ta_sha256 : jstring;
  ta_notAfter : jstring;
}.

Definition parseTrustAnchor (value : jsval) : option EsimTrustAnchor :=
  if not_object value then None else
  match str value "label", str value "key_id" with
  | Some label, Some keyId =>
      Some {| ta_label := label;
              ta_keyId := keyId;
              ta_sha256 := str_or value "sha256" "";
              ta_notAfter := str_or value "not_after" "" |}
  | _, _ => None
  end.

Record EsimAuthentication := {
  ea_imei : jstring;
  ea_eid : jstring;
  ea_smdpAddress : jstring;
  ea_smdpAddressSource : jstring;
  ea_configuredDefaultSmdp : option jstring;
  ea_configuredRootSmds : option jstring;
  ea_notificationAddresses : list jstring;
  ea_euiccChallenge : jstring;
  ea_transactionId : jstring;
  ea_serverAddress : jstring;
  ea_serverChallenge : jstring;
  ea_echoedEuiccChallenge : jstring;
  ea_euiccCiPkidToBeUsed : jstring;
  ea_chipCiKeyIds : list jstring;
  ea_ciKeyAcceptedByChip : bool;
  ea_certificateKeyId : jstring;
  ea_certificateAuthorityKeyId : jstring;
  ea_certificateSha256 : jstring;
  ea_certificateNotAfter : jstring;
  ea_certificateSignedByCi : bool;
  ea_serverSignatureValid : bool;
  ea_challengeEchoed : bool;
  ea_trustAnchorLabel : jstring;
  ea_trustAnchorKeyId : jstring;
  ea_trustDirectory : jstring;
  ea_trustAnchors : list EsimTrustAnchor;
  ea_negotiatedTls : option jstring;
  ea_adminProtocol : option jstring;
  ea_httpStatus : Z;
  ea_elapsedMs : Z;
  ea_profileDownloaded : bool;
  ea_stoppedAfter : option jstring;
}.

Definition parseEsimAuthentication (value : jsval) : option EsimAuthentication :=
  if not_object value then None else
  match str value "transaction_id", str value "imei", str value "smdp_address" with
  | Some transactionId, Some imei, Some smdpAddress =>
      Some {| ea_imei := imei;
              ea_eid := str_or value "eid" "";
              ea_smdpAddress := smdpAddress;
              ea_smdpAddressSource := str_or value "smdp_address_source" "";
              ea_configuredDefaultSmdp := str value "configured_default_smdp";
              ea_configuredRootSmds := str value "configured_root_smds";
              ea_notificationAddresses := strs value "notification_addresses";
              ea_euiccChallenge := str_or value "euicc_challenge" "";
              ea_transactionId := transactionId;
              ea_serverAddress := str_or value "server_address" "";
              ea_serverChallenge := str_or value "server_challenge" "";
              ea_echoedEuiccChallenge := str_or value "echoed_euicc_challenge" "";
              ea_euiccCiPkidToBeUsed := str_or value "euicc_ci_pkid_to_be_used" "";
              ea_chipCiKeyIds := strs value "chip_ci_key_ids";
              ea_ciKeyAcceptedByChip := flag value "ci_key_accepted_by_chip";
              ea_certificateKeyId := str_or value "certificate_key_id" "";
              ea_certificateAuthorityKeyId := str_or value "certificate_authority_key_id" "";
              ea_certificateSha256 := str_or value "certificate_sha256" "";
              ea_certificateNotAfter := str_or value "certificate_not_after" "";
              ea_certificateSignedByCi := flag value "certificate_signed_by_ci";
              ea_serverSignatureValid := flag value "server_signature_valid";
              ea_challengeEchoed := flag value "challenge_echoed";
              ea_trustAnchorLabel := str_or value "trust_anchor_label" "";
              ea_trustAnchorKeyId := str_or value "trust_anchor_key_id" "";
              ea_trustDirectory := str_or value "trust_directory" "";
              ea_trustAnchors := rows_of parseTrustAnchor value "trust_anchors";
              ea_negotiatedTls := str value "negotiated_tls";
              ea_adminProtocol := str value "admin_protocol";
              ea_httpStatus := nbr_or0 value "http_status";
              ea_elapsedMs := nbr_or0 value "elapsed_ms";
              ea_profileDownloaded := flag value "profile_downloaded";
              ea_stoppedAfter := str value "stopped_after" |}
  | _, _, _ => None
  end.

(** ** Downloads *)

Record EsimDownloadedProfile := {
  dp_iccid : jstring;
  dp_label : jstring;
  dp_enabled : bool;
  dp_provider : option jstring;
  dp_name : option jstring;
}.

Definition parseDownloadedProfile (value : jsval) : option EsimDownloadedProfile :=
  if not_object value then None else
  match str value "iccid" with
  | None => None
  | Some iccid =>
      Some {| dp_iccid := iccid;
              dp_label := default_to iccid (str value "label");
              dp_enabled := flag value "enabled";
              dp_provider := str value "provider";
              dp_name := str value "name" |}
  end.

Record EsimDownloadSnapshot := {
  sn_freeNonVolatileMemory : option Z;
  sn_profiles : list EsimDownloadedProfile;
  sn_notifications : list EsimNotificationRow;
}.

Definition parseDownloadSnapshot (value : jsval) : EsimDownloadSnapshot :=
  let row := nullish value (VObj []) in
  {| sn_freeNonVolatileMemory := nbr row "free_non_volatile_memory";
     sn_profiles := rows_of parseDownloadedProfile row "profiles";
     sn_notifications := rows_of parseEsimNotification row "notifications" |}.

Record EsimBppSegment := {
  bs_label : jstring;
  bs_bytes : Z;
  bs_blocks : Z;
}.

Definition parseBppSegment (value : jsval) : option EsimBppSegment :=
  if not_object value then None else
  match str value "label" with
  | None => None
  | Some label =>
      Some {| bs_label := label;
              bs_bytes := nbr_or0 value "bytes";
              bs_blocks := nbr_or0 value "blocks" |}
  end.

Record EsimDownload := {
  ed_imei : jstring;
  ed_eid : jstring;
  ed_smdpAddress : jstring;
  ed_transactionId : jstring;
  ed_matchingIdSupplied : bool;
  ed_profileName : option jstring;
  ed_serviceProviderName : option jstring;
  ed_profileIccid : option jstring;
  ed_policyRules : list jstring;
  ed_refusedPolicyRules : list jstring;
  ed_before : EsimDownloadSnapshot;
  ed_after : option EsimDownloadSnapshot;
  ed_freeMemoryConsumed : option Z;
  ed_profilesAdded : option Z;
  ed_authenticateServerBlocks : Z;
  ed_prepareDownloadBlocks : Z;
  ed_boundProfilePackageBytes : Z;
  ed_boundProfilePackageBlocks : Z;
  ed_boundProfilePackageSegments : list EsimBppSegment;
  ed_installed : bool;
  ed_enabled : bool;
  ed_installationIccid : option jstring;
  ed_installationError : option jstring;
  ed_failedBppCommand : option jstring;
  ed_notificationSequenceNumber : option Z;
  ed_notificationDelivered : bool;
  ed_notificationDeliveryError : option jstring;
  ed_notificationRemovedCode : option Z;
  ed_notificationsPendingBefore : Z;
  ed_notificationsPendingAfter : option Z;
  ed_sessionCancelled : option jstring;
  ed_cancelError : option jstring;
  ed_stoppedAfter : option jstring;
  ed_certificateSignedByCi : bool;
  ed_serverSignatureValid : bool;
  ed_challengeEchoed : bool;
  ed_ciKeyAcceptedByChip : bool;
  ed_negotiatedTls : option jstring;
  ed_trustAnchorKeyId : jstring;
}.

Definition parseEsimDownload (value : jsval) : option EsimDownload :=
  if not_object value then None else
  match str value "imei", str value "eid", str value "transaction_id" with
  | Some imei, Some eid, Some transactionId =>
      let profile := sub value "profile" in
      let after := prop value (u "after") in
      Some {| ed_imei := imei;
              ed_eid := eid;
              ed_smdpAddress := str_or value "smdp_address" "";
              ed_transactionId := transactionId;
              ed_matchingIdSupplied := flag value "matching_id_supplied";
              ed_profileName := str profile "profile_name";
              ed_serviceProviderName := str profile "service_provider_name";
              ed_profileIccid := str profile "iccid";
              ed_policyRules := strs profile "policy_rules";
              ed_refusedPolicyRules := strs value "refused_policy_rules";
              ed_before := parseDownloadSnapshot (prop value (u "before"));
              ed_after := if truthy after then Some (parseDownloadSnapshot after) else None;
              ed_freeMemoryConsumed := nbr value "free_memory_consumed";
              ed_profilesAdded := nbr value "profiles_added";
              ed_authenticateServerBlocks := nbr_or0 value "authenticate_server_blocks";
              ed_prepareDownloadBlocks := nbr_or0 value "prepare_download_blocks";
              ed_boundProfilePackageBytes := nbr_or0 value "bound_profile_package_bytes";
              ed_boundProfilePackageBlocks := nbr_or0 value "bound_profile_package_blocks";
              ed_boundProfilePackageSegments :=
                rows_of parseBppSegment value "bound_profile_package_segments";
              ed_installed := flag value "installed";
              ed_enabled := flag value "enabled";
              ed_installationIccid := str value "installation_iccid";
              ed_installationError := str value "installation_error";
              ed_failedBppCommand := str value "failed_bpp_command";
              ed_notificationSequenceNumber := nbr value "notification_sequence_number";
              ed_notificationDelivered := flag value "notification_delivered";
              ed_notificationDeliveryError := str value "notification_delivery_error";
              ed_notificationRemovedCode := nbr value "notification_removed_code";
              ed_notificationsPendingBefore := nbr_or0 value "notifications_pending_before";
              ed_notificationsPendingAfter := nbr value "notifications_pending_after";
              ed_sessionCancelled := str value "session_cancelled";
              ed_cancelError := str value "cancel_error";
              ed_stoppedAfter := str value "stopped_after";
              ed_certificateSignedByCi := flag value "certificate_signed_by_ci";
              ed_serverSignatureValid := flag value "server_signature_valid";
              ed_challengeEchoed := flag value "challenge_echoed";
              ed_ciKeyAcceptedByChip := flag value "ci_key_accepted_by_chip";
              ed_negotiatedTls := str value "negotiated_tls";
              ed_trustAnchorKeyId := str_or value "trust_anchor_key_id" "" |}
  | _, _, _ => None
  end.

Lemma flag_true row k : flag row k = true <-> prop row (u k) = VBool true.
Proof. unfold flag, isTrue. apply bool_decide_eq_true. Qed.

(** No security verdict is coerced: an authentication or a download the
    page shows as verified, echoed, accepted, installed or delivered says so
    with a literal [true] under that very name, and a result without its
    identifiers (transaction, module, and the server or the chip) is not
    shown at all. *)
Theorem verdicts_are_literal v :
  match parseEsimAuthentication v with
  | Some a =>
      ea_transactionId a <> [] /\ ea_imei a <> [] /\ ea_smdpAddress a <> [] /\
      (ea_certificateSignedByCi a = true <-> prop v (u "certificate_signed_by_ci") = VBool true) /\
      (ea_serverSignatureValid a = true <-> prop v (u "server_signature_valid") = VBool true) /\
      (ea_challengeEchoed a = true <-> prop v (u "challenge_echoed") = VBool true) /\
      (ea_ciKeyAcceptedByChip a = true <-> prop v (u "ci_key_accepted_by_chip") = VBool true) /\
      (ea_profileDownloaded a = true <-> prop v (u "profile_downloaded") = VBool true)
  | None =>
      not_object v = true \/ str v "transaction_id" = None \/ str v "imei" = None \/
      str v "smdp_address" = None
  end /\
  match parseEsimDownload v with
  | Some d =>
      ed_transactionId d <> [] /\ ed_imei d <> [] /\ ed_eid d <> [] /\
      (ed_installed d = true <-> prop v (u "installed") = VBool true) /\
      (ed_enabled d = true <-> prop v (u "enabled") = VBool true) /\
      (ed_notificationDelivered d = true <-> prop v (u "notification_delivered") = VBool true) /\
      (ed_certificateSignedByCi d = true <-> prop v (u "certificate_signed_by_ci") = VBool true) /\
      (ed_serverSignatureValid d = true <-> prop v (u "server_signature_valid") = VBool true) /\
      (ed_challengeEchoed d = true <-> prop v (u "challenge_echoed") = VBool true) /\
      (ed_ciKeyAcceptedByChip d = true <-> prop v (u "ci_key_accepted_by_chip") = VBool true)
  | None =>
      not_object v = true \/ str v "imei" = None \/ str v "eid" = None \/
      str v "transaction_id" = None
  end.
Proof.
  unfold parseEsimAuthentication, parseEsimDownload.
  destruct (not_object v); [by split; left|].
  destruct (str v "transaction_id") eqn:Et, (str v "imei") eqn:Ei, (str v "smdp_address") eqn:Es,
    (str v "eid") eqn:Ee; split; cbn; auto;
    split_and!; (by eapply str_nonempty) || apply flag_true.
Qed.
