(* ===== verification/Esim.v ===== *)
(** * eSIM state out of the command log (lib/catalog.ts)

    The console keeps no eSIM state of its own: each table is rebuilt from the
    relayed commands, the newest answer per chip or module winning. *)

From Stdlib Require Import Lia.
From S2P Require Import Prelude JsString JsValue JsSort JsMap JsRegex Fetch Gateway EsimData.

(** ** The command log *)

Record CommandResult := {
  rs_reason : option jstring;
  rs_details : jsval;                    (** undefined when absent *)
}.

Record EsimCommandRow := {
  cm_kind : jstring;
  cm_status : jstring;
  cm_completed_at : option Z;
  cm_payload : jsval;                    (** an object, or null *)
  cm_result : option CommandResult;
}.

(** [row.result?.details], [row.completed_at ?? 0], and
    [(row.payload ?? {}).modem_imei] read as a string. *)
Definition details_of (row : EsimCommandRow) : jsval :=
  match cm_result row with Some r => rs_details r | None => VUndef end.
Definition at_of (completed_at : option Z) : Z := default_to 0%Z completed_at.
Definition payload_imei (row : EsimCommandRow) : option jstring :=
  str (nullish (cm_payload row) (VObj [])) "modem_imei".

Definition ESIM_CHIP_COMMANDS : list jstring := [u "read_esim_info"; u "list_esim_profiles"].
Definition is_chip_command (kind : jstring) : bool := existsb (jeqb kind) ESIM_CHIP_COMMANDS.

Section Logs.
Context `{Collation}.

(** ** latestEsimChipReads *)

Record EsimChipReading := {
  cr_info : EsimInfoResult;
  cr_completedAt : option Z;
}.

(** What one row offers the map, keyed by the chip. *)
Definition chip_reading (row : EsimCommandRow) : option (jstring * EsimChipReading) :=
  if negb (jeqb (cm_kind row) (u "read_esim_info"))
     || negb (jeqb (cm_status row) (u "succeeded")) then None else
  match parseEsimInfoResult (details_of row) with
  | None => None
  | Some info =>
      Some (ei_eid info, {| cr_info := info; cr_completedAt := cm_completed_at row |})
  end.

Definition reading_at (r : EsimChipReading) : Z := at_of (cr_completedAt r).
Definition reading_stays (existing r : EsimChipReading) : bool :=
  (reading_at r <=? reading_at existing)%Z.

Definition latestEsimChipReads (rows : list EsimCommandRow) : list EsimChipReading :=
  sort (cmp_on (fun r => ei_eid (cr_info r)) localeCompare)
    (map_values (put_all reading_stays (filter_map chip_reading rows) [])).

Definition esimProfileDisplayName (profile : EsimReadProfile) : option jstring :=
  or_else (rp_nickname profile)
    (or_else (rp_name profile) (or_else (rp_provider profile) (rp_label profile))).

(** ** latestEsimProfileListings *)

Record EsimProfileListing := {
  li_modemImei : jstring;
  li_eid : option jstring;
  li_profiles : list EsimReadProfile;
  li_profilesError : option jstring;
  li_collectedAt : Z;
}.

(** [for (const { info } of latestEsimChipReads(rows))
      eidByImei.set(info.imei, info.eid)] *)
Definition eid_by_imei (rows : list EsimCommandRow) : list (jstring * jstring) :=
  fold_left (fun m r => map_set (ei_imei (cr_info r)) (ei_eid (cr_info r)) m)
    (latestEsimChipReads rows) [].

Definition profile_listing (eids : list (jstring * jstring)) (row : EsimCommandRow)
    : option (jstring * EsimProfileListing) :=
  if negb (jeqb (cm_status row) (u "succeeded")) || negb (is_chip_command (cm_kind row))
  then None else
  let body := details_of row in
  if not_object body then None else
  match or_else (str body "imei") (payload_imei row) with
  | None => None
  | Some modemImei =>
      Some (modemImei,
            {| li_modemImei := modemImei;
               li_eid := or_else (str body "eid") (map_get modemImei eids);
               li_profiles := rows_of parseEsimReadProfile body "profiles";
               li_profilesError := str body "profiles_error";
               li_collectedAt := at_of (cm_completed_at row) |})
  end.

Definition listing_stays (existing l : EsimProfileListing) : bool :=
  (li_collectedAt l <=? li_collectedAt existing)%Z.

Definition latestEsimProfileListings (rows : list EsimCommandRow) : list EsimProfileListing :=
  let eids := eid_by_imei rows in
  sort (cmp_on li_modemImei localeCompare)
    (map_values (put_all listing_stays (filter_map (profile_listing eids) rows) [])).

(** ** The profile table *)

Inductive EsimProfileSource := inventory | read.

Record EsimProfileRow := {
  pr_eid : jstring;
  pr_iccid : jstring;
  pr_state : jstring;
  pr_nickname : option jstring;
  pr_modemImei : option jstring;
  pr_collectedAt : Z;
  pr_source : EsimProfileSource;
}.

Definition profile_row (listing : EsimProfileListing) (eid : jstring)
    (profile : EsimReadProfile) : EsimProfileRow :=
  {| pr_eid := eid;
     pr_iccid := rp_iccid profile;
     pr_state := if rp_enabled profile then u "enabled" else u "disabled";
     pr_nickname := esimProfileDisplayName profile;
     pr_modemImei := Some (li_modemImei listing);
     pr_collectedAt := li_collectedAt listing;
     pr_source := read |}.

Definition esimProfileRowsFromReads (rows : list EsimCommandRow) : list EsimProfileRow :=
  concat ((fun listing =>
             match li_eid listing with
             | Some eid => if jeqb eid [] then [] else profile_row listing eid <$> li_profiles listing
             | None => []
             end) <$> latestEsimProfileListings rows).

Definition esimStateRank (state : jstring) : Z :=
  if jeqb state (u "enabled") then 0
  else if jeqb state (u "disabled") then 1
  else if jeqb state (u "deleted") then 2
  else 3.

(** [`${row.eid}/${row.iccid}`]. *)
Definition profile_key (row : EsimProfileRow) : jstring := pr_eid row ++ u "/" ++ pr_iccid row.

Definition keyed_profile (row : EsimProfileRow) : option (jstring * EsimProfileRow) :=
  if jeqb (pr_eid row) [] || jeqb (pr_iccid row) [] then None
  else Some (profile_key row, row).

Definition profile_stays (existing row : EsimProfileRow) : bool :=
  (pr_collectedAt row <? pr_collectedAt existing)%Z.

Definition profile_order : comparator EsimProfileRow :=
  cmp_then (cmp_on pr_eid localeCompare)
    (cmp_then (cmp_on (fun r => esimStateRank (pr_state r)) cmp_asc)
              (cmp_on pr_iccid localeCompare)).

Definition mergeEsimProfiles (inventory fromReads : list EsimProfileRow)
    : list EsimProfileRow :=
  sort profile_order
    (map_values (put_all profile_stays (filter_map keyed_profile (inventory ++ fromReads)) [])).

(** The inventory endpoint's rows. *)
Definition inventory_row (value : jsval) : res EsimProfileRow :=
  row ← as_row value;
  Ok {| pr_eid := str_or row "eid" "";
        pr_iccid := str_or row "iccid" "";
        pr_state := str_or row "state" "unknown";
        pr_nickname := str row "nickname";
        pr_modemImei := str row "modem_imei";
        pr_collectedAt := nbr_or0 row "collected_at";
        pr_source := inventory |}.

Definition fetchEsimProfiles (env : environment) (fetchImpl : fetch_fn) (host : jstring)
    (token deviceId : option jstring) : res (list EsimProfileRow) :=
  path ← (match deviceId with
          | Some d =>
              if jeqb d [] then Ok (u "/v1/esim/profiles")
              else e ← encodeURIComponent d; Ok (u "/v1/esim/profiles?device_id=" ++ e)
          | None => Ok (u "/v1/esim/profiles")
          end);
  body ← getCatalog env fetchImpl host path token;
  res_map inventory_row (arrayOf (prop body (u "profiles"))).

(** ** esimReadFailures *)

Inductive EsimReadFailureCause := no_euicc | read_failed.

Record EsimReadFailure := {
  rf_modemImei : jstring;
  rf_cause : EsimReadFailureCause;
  rf_reason : jstring;
  rf_failedAt : option Z;
}.

(** [/open ISD-R channel/i]. *)
Definition refusedIsdrChannel (reason : jstring) : bool :=
  test (rlit_i (u "open ISD-R channel")) reason.

(** The three collections the loop fills. *)
Record failure_state := {
  fs_known : list jstring;                     (** knownEuicc *)
  fs_newest : list (jstring * Z);              (** newestSuccess *)
  fs_failures : list (jstring * EsimReadFailure);
}.

Definition failure_at (f : EsimReadFailure) : Z := at_of (rf_failedAt f).
Definition failure_stays (existing f : EsimReadFailure) : bool :=
  (failure_at f <=? failure_at existing)%Z.
Definition newest_of (m : list (jstring * Z)) (imei : jstring) : Z :=
  default_to (int (-1)) (map_get imei m).

Definition failure_row (s : failure_state) (row : EsimCommandRow) : failure_state :=
  if negb (is_chip_command (cm_kind row)) then s else
  match payload_imei row with
  | None => s
  | Some imei =>
      let at_ := at_of (cm_completed_at row) in
      if jeqb (cm_status row) (u "succeeded") then
        {| fs_known := match parseEsimInfoResult (details_of row) with
                       | Some _ => imei :: fs_known s
                       | None => fs_known s
                       end;
           fs_newest := if (newest_of (fs_newest s) imei <? at_)%Z
                        then map_set imei at_ (fs_newest s) else fs_newest s;
           fs_failures := fs_failures s |}
      else if negb (jeqb (cm_status row) (u "failed")) then s
      else
        {| fs_known := fs_known s;
           fs_newest := fs_newest s;
           fs_failures :=
             put failure_stays (fs_failures s)
               (imei,
                {| rf_modemImei := imei;
                   rf_cause := read_failed;
                   rf_reason := default_to [] (cm_result row ≫= rs_reason);
                   rf_failedAt := cm_completed_at row |}) |}
  end.

(** [if (row.modemImei && row.eid) knownEuicc.add(row.modemImei)]. *)
Definition known_imei (row : EsimProfileRow) : option jstring :=
  match pr_modemImei row with
  | Some imei => if jeqb imei [] || jeqb (pr_eid row) [] then None else Some imei
  | None => None
  end.

Definition classify_failure (known : list jstring) (f : EsimReadFailure) : EsimReadFailure :=
  {| rf_modemImei := rf_modemImei f;
     rf_cause := if refusedIsdrChannel (rf_reason f)
                    && negb (existsb (jeqb (rf_modemImei f)) known)
                 then no_euicc else read_failed;
     rf_reason := rf_reason f;
     rf_failedAt := rf_failedAt f |}.

Definition failure_scan (rows : list EsimCommandRow) (inventory : list EsimProfileRow)
    : failure_state :=
  fold_left failure_row rows
    {| fs_known := filter_map known_imei inventory; fs_newest := []; fs_failures := [] |}.

Definition esimReadFailures (rows : list EsimCommandRow) (inventory : list EsimProfileRow)
    : list EsimReadFailure :=
  let s := failure_scan rows inventory in
  sort (cmp_on rf_modemImei localeCompare)
    (classify_failure (fs_known s)
       <$> List.filter (fun f => (newest_of (fs_newest s) (rf_modemImei f) <? failure_at f)%Z)
             (map_values (fs_failures s))).
End Logs.

(** ** mergeCommandBatches *)

(** The two loops; the state is [seen] and [out]. *)
Definition merge_row {T} (id : T -> jstring) (s : list jstring * list T) (row : T)
    : list jstring * list T :=
  let '(seen, out) := s in
  if existsb (jeqb (id row)) seen then s else (id row :: seen, out ++ [row]).

Definition mergeCommandBatches {T} (id : T -> jstring) (batches : list (list T)) : list T :=
  (fold_left (fun s batch => fold_left (merge_row id) batch s) batches ([], [])).2.

(** ** The batches *)

Section Batches.
Context {T : Type} (id : T -> jstring).

(** What the loops keep of a list, given the ids already seen. *)
Fixpoint fresh (seen : list jstring) (rows : list T) : list T :=
  match rows with
  | [] => []
  | row :: rows =>
      if existsb (jeqb (id row)) seen then fresh seen rows
      else row :: fresh (id row :: seen) rows
  end.

Lemma existsb_jeqb k (seen : list jstring) : existsb (jeqb k) seen = true <-> k ∈ seen.
Proof.
  rewrite existsb_elem. setoid_rewrite jeqb_eq. naive_solver.
Qed.

Lemma merge_rows_fresh rows seen out :
  (fold_left (merge_row id) rows (seen, out)).2 = out ++ fresh seen rows.
Proof.
  revert seen out. induction rows as [|row rows IH]; intros seen out; cbn; [by rewrite app_nil_r|].
  destruct (existsb _ seen); [apply IH|]. rewrite IH. by rewrite <-app_assoc.
Qed.

Lemma merge_batches_concat batches s :
  fold_left (fun s batch => fold_left (merge_row id) batch s) batches s
  = fold_left (merge_row id) (concat batches) s.
Proof.
  revert s. induction batches as [|b bs IH]; intros s; cbn; [done|].
  by rewrite fold_left_app, IH.
Qed.

Lemma mergeCommandBatches_fresh batches :
  mergeCommandBatches id batches = fresh [] (concat batches).
Proof. unfold mergeCommandBatches. by rewrite merge_batches_concat, merge_rows_fresh. Qed.

Lemma fresh_sublist seen rows : fresh seen rows `sublist_of` rows.
Proof.
  revert seen. induction rows as [|row rows IH]; intros seen; cbn; [done|].
  case_match; [by apply sublist_cons|by apply sublist_skip].
Qed.

Lemma elem_of_fresh seen rows row :
  row ∈ fresh seen rows <->
  id row ∉ seen /\ exists l1 l2, rows = l1 ++ row :: l2 /\ id row ∉ id <$> l1.
Proof.
  revert seen. induction rows as [|r rows IH]; intros seen; cbn.
  - rewrite elem_of_nil. split; [done|]. by intros (_ & [|? ?] & ? & ? & _).
  - destruct (existsb (jeqb (id r)) seen) eqn:E.
    + apply existsb_jeqb in E. rewrite IH. split.
      * intros (Hs & l1 & l2 & -> & Hl). split; [done|]. exists (r :: l1), l2.
        split; [done|]. cbn. rewrite not_elem_of_cons. split; [congruence|done].
      * intros (Hs & [|x l1] & l2 & [= -> ->] & Hl); [done|]. split; [done|].
        cbn in Hl. rewrite not_elem_of_cons in Hl. naive_solver.
    + assert (Hr : id r ∉ seen) by (by rewrite <-existsb_jeqb, E).
      rewrite elem_of_cons, IH, not_elem_of_cons. split.
      * intros [->|((Hn & Hs) & l1 & l2 & -> & Hl)].
        -- split; [done|]. exists [], rows. split; [done|apply not_elem_of_nil].
        -- split; [done|]. exists (r :: l1), l2. split; [done|]. cbn.
           by rewrite not_elem_of_cons.
      * intros (Hs & [|x l1] & l2 & [= -> ->] & Hl); [by left|]. right.
        cbn in Hl. rewrite not_elem_of_cons in Hl. naive_solver.
Qed.

Lemma fresh_complete seen rows row :
  row ∈ rows -> id row ∈ seen \/ id row ∈ id <$> fresh seen rows.
Proof.
  revert seen. induction rows as [|r rows IH]; intros seen; [by intros ?%not_elem_of_nil|].
  cbn. intros [->|Hin]%elem_of_cons.
  - destruct (existsb (jeqb (id r)) seen) eqn:E; [left; by apply existsb_jeqb|].
    right. cbn. left.
  - destruct (existsb (jeqb (id r)) seen); [by apply IH|]. cbn. rewrite elem_of_cons.
    destruct (IH (id r :: seen) Hin) as [[->|?]%elem_of_cons|?]; auto.
Qed.

Lemma fresh_NoDup seen rows : NoDup (id <$> fresh seen rows).
Proof.
  revert seen. induction rows as [|row rows IH]; intros seen; cbn; [apply NoDup_nil_2|].
  case_match; [apply IH|]. cbn. apply NoDup_cons. split; [|apply IH].
  intros (r & Hid & (Hn & _)%elem_of_fresh)%list_elem_of_fmap. rewrite Hid in Hn.
  apply Hn. left.
Qed.
End Batches.

(** ** The failure scan *)

(** A failed chip command, as the row that reports it. *)
Definition failed_entry (row : EsimCommandRow) : option (jstring * EsimReadFailure) :=
  if is_chip_command (cm_kind row) && jeqb (cm_status row) (u "failed") then
    imei ← payload_imei row;
    Some (imei, {| rf_modemImei := imei; rf_cause := read_failed;
                   rf_reason := default_to [] (cm_result row ≫= rs_reason);
                   rf_failedAt := cm_completed_at row |})
  else None.

(** A successful chip command of the module [imei], and when it finished. *)
Definition succeeded_at (imei : jstring) (row : EsimCommandRow) (t : Z) : Prop :=
  is_chip_command (cm_kind row) = true /\ cm_status row = u "succeeded" /\
  payload_imei row = Some imei /\ at_of (cm_completed_at row) = t.

(** The module ever showed an eUICC: in the inventory, or in the log. *)
Definition euicc_seen (rows : list EsimCommandRow) (inv : list EsimProfileRow) (imei : jstring)
    : Prop :=
  (exists p, p ∈ inv /\ known_imei p = Some imei) \/
  (exists row t, row ∈ rows /\ succeeded_at imei row t /\
     parseEsimInfoResult (details_of row) <> None).

Lemma failures_scan rows s :
  fs_failures (fold_left failure_row rows s)
  = put_all failure_stays (filter_map failed_entry rows) (fs_failures s).
Proof.
  revert s. induction rows as [|row rows IH]; intros s; [done|].
  cbn [fold_left]. rewrite IH. unfold filter_map. cbn [omap list_omap].
  unfold failed_entry at 2, failure_row.
  destruct (is_chip_command (cm_kind row)); cbn [negb andb]; [|done].
  destruct (payload_imei row) as [imei|] eqn:Ei; cbn [mbind option_bind]; [|by destruct (jeqb _ (u "failed"))].
  destruct (jeqb (cm_status row) (u "succeeded")) eqn:Es.
  { apply jeqb_eq in Es. rewrite Es. done. }
  destruct (jeqb (cm_status row) (u "failed")); done.
Qed.

Lemma newest_step s row imei t :
  (newest_of (fs_newest (failure_row s row)) imei < t <->
   newest_of (fs_newest s) imei < t /\ forall t', succeeded_at imei row t' -> t' < t)%Z.
Proof.
  unfold failure_row, succeeded_at.
  destruct (is_chip_command (cm_kind row)); cbn [negb]; [|naive_solver].
  destruct (payload_imei row) as [i|]; [|naive_solver].
  destruct (jeqb (cm_status row) (u "succeeded")) eqn:Es; [apply jeqb_eq in Es|apply jeqb_neq in Es].
  - cbn [fs_newest]. set (at_ := at_of _).
    destruct (decide (i = imei)) as [->|Hne].
    + destruct (Z.ltb_spec (newest_of (fs_newest s) imei) at_) as [Hlt|Hge].
      * unfold newest_of at 1. rewrite map_get_set_eq. cbn. split.
        -- intros Ht. split; [lia|]. by intros t' (_ & _ & _ & <-).
        -- intros [_ Ht]. by apply Ht.
      * split; [|naive_solver]. intros Ht. split; [done|]. intros t' (_ & _ & _ & <-). lia.
    + assert (Hs : newest_of (if (newest_of (fs_newest s) i <? at_)%Z
                              then map_set i at_ (fs_newest s) else fs_newest s) imei
                   = newest_of (fs_newest s) imei).
      { case_match; [|done]. unfold newest_of. rewrite map_get_set_ne; [done|congruence]. }
      rewrite Hs. naive_solver.
  - assert (Hn : fs_newest (if negb (jeqb (cm_status row) (u "failed")) then s else
        {| fs_known := fs_known s; fs_newest := fs_newest s;
           fs_failures := put failure_stays (fs_failures s)
             (i, {| rf_modemImei := i; rf_cause := read_failed;
                    rf_reason := default_to [] (cm_result row ≫= rs_reason);
                    rf_failedAt := cm_completed_at row |}) |}) = fs_newest s)
      by (by case_match).
    rewrite Hn. naive_solver.
Qed.

Lemma newest_scan rows s imei t :
  (newest_of (fs_newest (fold_left failure_row rows s)) imei < t <->
   newest_of (fs_newest s) imei < t /\
   forall row t', row ∈ rows -> succeeded_at imei row t' -> t' < t)%Z.
Proof.
  revert s. induction rows as [|row rows IH]; intros s; cbn.
  - split; [|naive_solver]. intros. split; [done|]. by intros ? ? ?%not_elem_of_nil.
  - rewrite IH, newest_step. setoid_rewrite elem_of_cons. naive_solver.
Qed.

Lemma known_step s row imei :
  imei ∈ fs_known (failure_row s row) <->
  imei ∈ fs_known s \/
  (exists t, succeeded_at imei row t) /\ parseEsimInfoResult (details_of row) <> None.
Proof.
  unfold failure_row, succeeded_at.
  destruct (is_chip_command (cm_kind row)); cbn [negb]; [|naive_solver].
  destruct (payload_imei row) as [i|]; [|naive_solver].
  destruct (jeqb (cm_status row) (u "succeeded")) eqn:Es; [apply jeqb_eq in Es|apply jeqb_neq in Es].
  - cbn [fs_known]. destruct (parseEsimInfoResult _).
    + rewrite elem_of_cons. split; [intros [->|?]; [right|by left]|].
      * split; [by eexists|done].
      * intros [?|[(t & _ & _ & [= ->] & _) _]]; auto.
    + naive_solver.
  - assert (Hk : forall s', fs_known (if negb (jeqb (cm_status row) (u "failed")) then s else
      {| fs_known := fs_known s; fs_newest := fs_newest s; fs_failures := s' |}) = fs_known s)
      by (intros; by case_match).
    rewrite Hk. split; [by left|]. by intros [?|[(t & _ & ? & _) _]].
Qed.

Lemma known_scan rows s imei :
  imei ∈ fs_known (fold_left failure_row rows s) <->
  imei ∈ fs_known s \/
  exists row t, row ∈ rows /\ succeeded_at imei row t /\ parseEsimInfoResult (details_of row) <> None.
Proof.
  revert s. induction rows as [|row rows IH]; intros s; cbn.
  - split; [by left|]. by intros [?|(? & ? & ?%not_elem_of_nil & _)].
  - rewrite IH, known_step. setoid_rewrite elem_of_cons. naive_solver.
Qed.

#[export] Instance reading_stays_ranked : Ranked reading_stays.
Proof. apply (ranked_ge reading_at). Qed.
#[export] Instance listing_stays_ranked : Ranked listing_stays.
Proof. apply (ranked_ge li_collectedAt). Qed.
#[export] Instance profile_stays_ranked : Ranked profile_stays.
Proof. apply (ranked_gt pr_collectedAt). Qed.
#[export] Instance failure_stays_ranked : Ranked failure_stays.
Proof. apply (ranked_ge failure_at). Qed.

(** ** Tables with one row per key *)

Section Table.
Context {V : Type} (keeps : V -> V -> bool) `{!Ranked keeps}.
Context (order : comparator V) `{!Consistent order}.
Context (key : V -> jstring) (entries : list (jstring * V)).
Hypothesis entries_key : forall k v, (k, v) ∈ entries -> key v = k.

Definition table : list V := sort order (map_values (put_all keeps entries [])).

Lemma table_sorted : StronglySorted (cmp_le order) table.
Proof. apply sort_sorted, _. Qed.

Lemma table_NoDup : NoDup (key <$> table).
Proof. unfold table. rewrite sort_perm. apply put_all_NoDup_by; [apply _|done]. Qed.

Lemma elem_of_table v : v ∈ table <-> winner keeps (offers (key v) entries) v.
Proof.
  unfold table. rewrite elem_of_sort, put_all_values by apply _. split; [|by exists (key v)].
  intros [k Hk]. assert (Hv : (k, v) ∈ entries) by (by apply elem_of_offers, (winner_elem keeps)).
  apply entries_key in Hv. by rewrite Hv.
Qed.

Lemma table_complete k v : (k, v) ∈ entries -> exists w, w ∈ table /\ key w = k.
Proof.
  intros Hv. apply elem_of_offers in Hv.
  destruct (map_get k (put_all keeps entries [])) as [w|] eqn:Eg.
  - apply put_all_winner in Eg; [|apply _].
    assert (Hw : key w = k) by (by apply entries_key, elem_of_offers, (winner_elem keeps)).
    exists w. by rewrite elem_of_table, Hw.
  - rewrite put_all_get in Eg. cbn in Eg.
    by destruct (offers k entries); [apply not_elem_of_nil in Hv|].
Qed.
Lemma table_spec :
  NoDup (key <$> table) /\ StronglySorted (cmp_le order) table /\
  (forall k v, (k, v) ∈ entries -> exists w, w ∈ table /\ key w = k) /\
  forall v, v ∈ table <-> winner keeps (offers (key v) entries) v.
Proof.
  split_and!; [apply table_NoDup|apply table_sorted|apply table_complete|apply elem_of_table].
Qed.
End Table.

(** ** Properties *)

Section Properties.
Context `{Collation}.

(** The readings of one chip in the log, in its order. *)
Definition readings_of (eid : jstring) (rows : list EsimCommandRow) : list EsimChipReading :=
  offers eid (omap chip_reading rows).

Lemma chip_reading_key rows k r :
  (k, r) ∈ filter_map chip_reading rows -> ei_eid (cr_info r) = k.
Proof.
  intros (row & _ & Hr)%elem_of_filter_map. unfold chip_reading in Hr.
  destruct (_ || _); [done|]. case_match; [|done]. by injection Hr as <- <-.
Qed.

(** The chip table has one reading per EID, ordered by EID, for every
    chip that answered; and each is the newest the log holds for that chip:
    strictly newer than those before it and not older than those after. *)
Theorem latestEsimChipReads_newest rows :
  NoDup ((fun r => ei_eid (cr_info r)) <$> latestEsimChipReads rows) /\
  StronglySorted (cmp_le (cmp_on (fun r => ei_eid (cr_info r)) localeCompare))
    (latestEsimChipReads rows) /\
  (forall row k r, row ∈ rows -> chip_reading row = Some (k, r) ->
     exists r', r' ∈ latestEsimChipReads rows /\ ei_eid (cr_info r') = k) /\
  forall r, r ∈ latestEsimChipReads rows <->
    exists l1 l2, readings_of (ei_eid (cr_info r)) rows = l1 ++ r :: l2 /\
      (forall x, x ∈ l1 -> reading_at x < reading_at r)%Z /\
      (forall y, y ∈ l2 -> reading_at y <= reading_at r)%Z.
Proof.
  destruct (table_spec reading_stays (cmp_on (fun r => ei_eid (cr_info r)) localeCompare)
              (fun r => ei_eid (cr_info r)) _ (chip_reading_key rows)) as (Hd & Hs & Hc & Hw).
  split_and!; [exact Hd|exact Hs|..].
  - intros row k r Hrow Hr. apply (Hc k r), elem_of_filter_map. eauto.
  - intros r. etransitivity; [apply Hw|].
    unfold winner, reading_stays. by setoid_rewrite Z.leb_gt; setoid_rewrite Z.leb_le.
Qed.

Lemma profile_listing_key eids rows k l :
  (k, l) ∈ filter_map (profile_listing eids) rows -> li_modemImei l = k.
Proof.
  intros (row & _ & Hr)%elem_of_filter_map. unfold profile_listing in Hr.
  destruct (_ || _); [done|]. destruct (not_object _); [done|].
  case_match; [|done]. by injection Hr as <- <-.
Qed.

(** One profile listing per module, ordered by IMEI, for every module
    that answered either command, and it is that module's newest. *)
Theorem latestEsimProfileListings_newest rows :
  let offered := omap (profile_listing (eid_by_imei rows)) rows in
  NoDup (li_modemImei <$> latestEsimProfileListings rows) /\
  StronglySorted (cmp_le (cmp_on li_modemImei localeCompare)) (latestEsimProfileListings rows) /\
  (forall k l, (k, l) ∈ offered ->
     exists l', l' ∈ latestEsimProfileListings rows /\ li_modemImei l' = k) /\
  forall l, l ∈ latestEsimProfileListings rows <->
    exists l1 l2, offers (li_modemImei l) offered = l1 ++ l :: l2 /\
      (forall x, x ∈ l1 -> li_collectedAt x < li_collectedAt l)%Z /\
      (forall y, y ∈ l2 -> li_collectedAt y <= li_collectedAt l)%Z.
Proof.
  intros offered.
  destruct (table_spec listing_stays (cmp_on li_modemImei localeCompare) li_modemImei _
              (profile_listing_key (eid_by_imei rows) rows)) as (Hd & Hs & Hc & Hw).
  split_and!; [exact Hd|exact Hs|exact Hc|].
  intros l. etransitivity; [apply Hw|].
      unfold winner, listing_stays. by setoid_rewrite Z.leb_gt; setoid_rewrite Z.leb_le.
Qed.

Lemma profile_order_consistent : Consistent profile_order.
Proof. unfold profile_order. apply _. Qed.

Lemma keyed_profile_some row k r :
  keyed_profile row = Some (k, r) <->
  r = row /\ k = profile_key row /\ pr_eid row <> [] /\ pr_iccid row <> [].
Proof.
  unfold keyed_profile. destruct (jeqb (pr_eid row) []) eqn:E1; cbn [orb];
    [apply jeqb_eq in E1; naive_solver|apply jeqb_neq in E1].
  destruct (jeqb (pr_iccid row) []) eqn:E2;
    [apply jeqb_eq in E2; naive_solver|apply jeqb_neq in E2; naive_solver].
Qed.

(** The rows filed under one chip and one profile, inventory first. *)
Definition same_profile (rows : list EsimProfileRow) (r : EsimProfileRow)
    : list EsimProfileRow :=
  offers (profile_key r) (omap keyed_profile rows).

(** The merged table has one row per (EID, ICCID) key, sorted by chip,
    state and ICCID; it holds exactly the rows that were collected last
    among the two sources, a tie going to the later one, that is to the
    reading; and no profile of either source is lost. *)
Theorem mergeEsimProfiles_newest inv reads :
  NoDup (profile_key <$> mergeEsimProfiles inv reads) /\
  StronglySorted (cmp_le profile_order) (mergeEsimProfiles inv reads) /\
  (forall r, r ∈ inv ++ reads -> pr_eid r <> [] -> pr_iccid r <> [] ->
     exists r', r' ∈ mergeEsimProfiles inv reads /\ profile_key r' = profile_key r) /\
  forall r, r ∈ mergeEsimProfiles inv reads <->
    exists l1 l2, same_profile (inv ++ reads) r = l1 ++ r :: l2 /\
      (forall x, x ∈ l1 -> pr_collectedAt x <= pr_collectedAt r)%Z /\
      (forall y, y ∈ l2 -> pr_collectedAt y < pr_collectedAt r)%Z.
Proof.
  pose proof profile_order_consistent.
  assert (Hk : forall k r, (k, r) ∈ filter_map keyed_profile (inv ++ reads) -> profile_key r = k).
  { intros k r (row & _ & (-> & -> & _)%keyed_profile_some)%elem_of_filter_map. done. }
  destruct (table_spec profile_stays profile_order profile_key _ Hk) as (Hd & Hs & Hc & Hw).
  split_and!; [exact Hd|exact Hs|..].
  - intros r Hr He Hi. apply (Hc _ r), elem_of_filter_map. exists r. split; [done|].
    by apply keyed_profile_some.
  - intros r. etransitivity; [apply Hw|].
    unfold winner, profile_stays. by setoid_rewrite Z.ltb_ge; setoid_rewrite Z.ltb_lt.
Qed.

Lemma failed_entry_key rows k f :
  (k, f) ∈ filter_map failed_entry rows -> rf_modemImei f = k.
Proof.
  intros (row & _ & Hr)%elem_of_filter_map. unfold failed_entry in Hr.
  destruct (_ && _); [|done]. destruct (payload_imei row); [|done]. by injection Hr as <- <-.
Qed.

Lemma failure_scan_known rows inv imei :
  existsb (jeqb imei) (fs_known (failure_scan rows inv)) = true <-> euicc_seen rows inv imei.
Proof.
  rewrite existsb_jeqb. unfold failure_scan, euicc_seen. rewrite known_scan. cbn.
  rewrite elem_of_filter_map. naive_solver.
Qed.

Lemma failure_scan_newest rows inv imei t :
  (newest_of (fs_newest (failure_scan rows inv)) imei < t <->
   int (-1) < t /\ forall row t', row ∈ rows -> succeeded_at imei row t' -> t' < t)%Z.
Proof. unfold failure_scan. apply newest_scan. Qed.

Lemma failure_scan_failed rows inv f :
  f ∈ map_values (fs_failures (failure_scan rows inv)) <->
  winner failure_stays (offers (rf_modemImei f) (omap failed_entry rows)) f.
Proof.
  unfold failure_scan. rewrite failures_scan. cbn [fs_failures].
  rewrite put_all_values by apply _. split; [|by exists (rf_modemImei f)].
  intros [k Hk]. assert (Hf : (k, f) ∈ filter_map failed_entry rows)
    by (by apply elem_of_offers, (winner_elem failure_stays)).
  apply failed_entry_key in Hf. by rewrite Hf.
Qed.

Lemma classify_failure_cause known f imei :
  rf_modemImei f = imei ->
  rf_cause (classify_failure known f) = no_euicc <->
  refusedIsdrChannel (rf_reason f) = true /\ ~ existsb (jeqb imei) known = true.
Proof.
  intros <-. cbn. rewrite not_true_iff_false.
  destruct (refusedIsdrChannel _), (existsb _ _); cbn; naive_solver.
Qed.

(** C18. A read failure is reported for a module exactly when its newest
    failed chip command finished after every successful one the log holds
    for it; and it is called [no-euicc] exactly when the edge's words are
    the refused ISD-R channel and neither the inventory nor the log ever
    showed an eUICC in that module. *)
Theorem esimReadFailures_sound rows inv f :
  f ∈ esimReadFailures rows inv <->
  exists f0,
    winner failure_stays (offers (rf_modemImei f) (omap failed_entry rows)) f0 /\
    (int (-1) < failure_at f0)%Z /\
    (forall row t, row ∈ rows -> succeeded_at (rf_modemImei f) row t -> t < failure_at f0)%Z /\
    rf_modemImei f = rf_modemImei f0 /\ rf_reason f = rf_reason f0 /\
    rf_failedAt f = rf_failedAt f0 /\
    (rf_cause f = no_euicc <->
     refusedIsdrChannel (rf_reason f) = true /\ ~ euicc_seen rows inv (rf_modemImei f)).
Proof.
  unfold esimReadFailures. rewrite elem_of_sort, list_elem_of_fmap.
  setoid_rewrite elem_of_filter_bool. setoid_rewrite Z.ltb_lt.
  setoid_rewrite failure_scan_failed. setoid_rewrite failure_scan_newest.
  setoid_rewrite <-failure_scan_known. split.
  - intros (g & -> & Hw & Hm & Ht). exists g. cbn [classify_failure rf_modemImei rf_reason rf_failedAt].
    split_and!; try done. by apply classify_failure_cause.
  - intros (g & Hw & Hm & Ht & Hi & Hr & Ha & Hc). rewrite Hi in *. exists g. split_and!; try done.
    pose proof (classify_failure_cause (fs_known (failure_scan rows inv)) g _ eq_refl) as Hg.
    rewrite <-Hr, <-Hc in Hg. unfold classify_failure in *.
    destruct f as [i c r t], g as [i' c' r' t'].
    cbn [rf_cause rf_reason rf_modemImei rf_failedAt] in *. subst. f_equal. revert Hg. clear.
    generalize (if refusedIsdrChannel r' && negb (existsb (jeqb i') (fs_known (failure_scan rows inv)))
                then no_euicc else read_failed).
    intros d Hd. destruct c, d; intuition congruence.
Qed.
End Properties.

(** Merging command batches loses no command and repeats none: what is
    left is, in order, the first occurrence of every id. *)
Theorem mergeCommandBatches_first {T} (id : T -> jstring) batches :
  NoDup (id <$> mergeCommandBatches id batches) /\
  mergeCommandBatches id batches `sublist_of` concat batches /\
  (forall row, row ∈ mergeCommandBatches id batches <->
     exists l1 l2, concat batches = l1 ++ row :: l2 /\ id row ∉ id <$> l1) /\
  (forall row, row ∈ concat batches -> id row ∈ id <$> mergeCommandBatches id batches).
Proof.
  rewrite mergeCommandBatches_fresh. split_and!.
  - apply fresh_NoDup.
  - apply fresh_sublist.
  - intros row. rewrite elem_of_fresh. split; [by intros [_ ?]|].
    split; [apply not_elem_of_nil|done].
  - intros row Hin. destruct (fresh_complete id [] _ row Hin) as [H|H]; [|done].
    by apply not_elem_of_nil in H.
Qed.

(** ** The borrowed chip *)

Definition read_command (imei eid : jstring) (at_ : Z) : EsimCommandRow :=
  {| cm_kind := u "read_esim_info"; cm_status := u "succeeded"; cm_completed_at := Some at_;
     cm_payload := VObj [(u "modem_imei", VStr imei)];
     cm_result := Some {| rs_reason := None;
                          rs_details := VObj [(u "imei", VStr imei); (u "eid", VStr eid)] |} |}.
Definition list_command (imei : jstring) (at_ : Z) : EsimCommandRow :=
  {| cm_kind := u "list_esim_profiles"; cm_status := u "succeeded"; cm_completed_at := Some at_;
     cm_payload := VObj [(u "modem_imei", VStr imei)];
     cm_result := Some {| rs_reason := None; rs_details := VObj [(u "imei", VStr imei)] |} |}.

(** A listing without an EID borrows, of the chips read in that module,
    the one whose EID sorts last, not the one read last: after the chip of a
    module was replaced, a listing newer than both readings is filed under
    the old chip when its EID is the greater. *)
Theorem borrowed_eid_sorts_last :
  (forall (C : Collation) rows imei,
     map_get imei (eid_by_imei rows) =
     last (omap (fun r => if jeqb imei (ei_imei (cr_info r)) then Some (ei_eid (cr_info r)) else None)
             (latestEsimChipReads rows))) /\
  let rows := [list_command (u "86") 3; read_command (u "86") (u "8901") 2;
               read_command (u "86") (u "8902") 1] in
  exists l, l ∈ @latestEsimProfileListings collation_reference rows /\
    li_collectedAt l = 3%Z /\ li_eid l = Some (u "8902").
Proof.
  split.
  - intros C rows imei. unfold eid_by_imei. rewrite fold_map_set_last. by destruct (last _).
  - intros rows. eexists. split; [vm_compute; left|]. done.
Qed.
