(* ===== verification/Ussd.v ===== *)
(** * USSD sessions (lib/catalog.ts: the USSD section)

    A session is not stored anywhere: it is read off the newest [send_ussd]
    command, and three guards decide what may be sent on it. *)

From Stdlib Require Import Lia.
From S2P Require Import Prelude JsString JsValue JsMap Gateway.

Record UssdResult := {
  us_code : jstring;
  us_stage : jstring;
  us_text : jstring;
  us_dcs : option Z;
  us_expectsReply : bool;
  us_elapsedMs : option Z;
}.

Definition parseUssdResult (value : jsval) : option UssdResult :=
  if not_object value then None else
  match str value "stage" with
  | None => None
  | Some stage =>
      Some {| us_code := default_to [] (text value "code");
              us_stage := stage;
              us_text := default_to [] (text value "text");
              us_dcs := nbr value "dcs";
              us_expectsReply := default_to (jeqb stage (u "needs_reply"))
                                   (asBoolean (prop value (u "expects_reply")));
              us_elapsedMs := nbr value "elapsed_ms" |}
  end.

Record UssdCommandRow := {
  uc_id : jstring;
  uc_kind : jstring;
  uc_status : jstring;
  uc_issued_at : Z;
  uc_completed_at : option Z;
  uc_payload : jsval;                       (** an object, or null *)
  uc_result : option jsval;                 (** its [details] *)
}.

Record UssdExchange := {
  ux_commandId : jstring;
  ux_modemImei : option jstring;
  ux_stageSent : jstring;
  ux_status : jstring;
  ux_completedAt : option Z;
  ux_result : option UssdResult;
}.

Definition is_ussd (row : UssdCommandRow) : bool := jeqb (uc_kind row) (u "send_ussd").

(** One turn of the loop over the rows. *)
Definition later_ussd (latest : option UssdCommandRow) (row : UssdCommandRow)
    : option UssdCommandRow :=
  if negb (is_ussd row) then latest else
  match latest with
  | None => Some row
  | Some l => if (uc_issued_at l <? uc_issued_at row)%Z then Some row else latest
  end.

Definition exchange_of (latest : UssdCommandRow) : UssdExchange :=
  let payload := nullish (uc_payload latest) (VObj []) in
  {| ux_commandId := uc_id latest;
     ux_modemImei := str payload "modem_imei";
     ux_stageSent := str_or payload "stage" "start";
     ux_status := uc_status latest;
     ux_completedAt := uc_completed_at latest;
     ux_result := parseUssdResult (default VUndef (uc_result latest)) |}.

Definition latestUssdExchange (rows : list UssdCommandRow) : option UssdExchange :=
  exchange_of <$> fold_left later_ussd rows None.

Definition USSD_SESSION_TTL_MS : Z := int 120000.

(** [Math.max(byGateway ?? 0, byPage ?? 0)], when either clock is known. *)
Definition ussdSessionAgeMs (exchange : option UssdExchange) (observedAtMs : option Z)
    (nowMs : Z) : option Z :=
  match exchange with
  | None => None
  | Some x =>
      let byGateway := (fun t => nowMs - t)%Z <$> ux_completedAt x in
      let byPage := (fun t => nowMs - t)%Z <$> observedAtMs in
      match byGateway, byPage with
      | None, None => None
      | _, _ => Some (Z.max (default_to 0%Z byGateway) (default_to 0%Z byPage))
      end
  end.

Inductive UssdSessionState := UssdNone | UssdOpen | UssdExpired.

(** [!x.modemImei]. *)
Definition no_text (o : option jstring) : bool :=
  match o with Some s => jeqb s [] | None => true end.

Definition ussdSessionState (exchange : option UssdExchange) (ageMs : option Z) (ttlMs : Z)
    : UssdSessionState :=
  match exchange with
  | None => UssdNone
  | Some x =>
      match ux_result x with
      | None => UssdNone
      | Some r =>
          if negb (us_expectsReply r) then UssdNone
          else if no_text (ux_modemImei x) then UssdNone
          else if negb (jeqb (ux_status x) (u "succeeded")) then UssdNone
          else match ageMs with
               | None => UssdExpired
               | Some age => if (ttlMs <? age)%Z then UssdExpired else UssdOpen
               end
      end
  end.

Definition USSD_STAGE_LABELS : list (jstring * jstring) :=
  [ (u "complete", u "ussdStageComplete"); (u "needs_reply", u "ussdStageNeedsReply");
    (u "terminated", u "ussdStageTerminated"); (u "other_client", u "ussdStageOtherClient");
    (u "not_supported", u "ussdStageNotSupported");
    (u "network_timeout", u "ussdStageNetworkTimeout") ].

(** [USSD_STAGE_LABELS[stage] ?? "ussdStageOther"]; an inherited member of the
    table is not null and not a label. *)
Definition ussdStageLabelKey (stage : jstring) : looked_up jstring :=
  match table_read USSD_STAGE_LABELS stage with
  | Absent => Own (u "ussdStageOther")
  | found => found
  end.

(** ** What is sent *)

Record UssdRequest := {
  uq_modem_imei : jstring;
  uq_code : jstring;
  uq_stage : jstring;
}.

Definition ussdStartRequest (modemImei code : jstring) : option UssdRequest :=
  if jeqb modemImei [] || jeqb (trim code) [] then None
  else Some {| uq_modem_imei := modemImei; uq_code := trim code; uq_stage := u "start" |}.

Definition ussdContinueRequest (exchange : option UssdExchange) (reply : jstring)
    : option UssdRequest :=
  match exchange ≫= ux_modemImei with
  | None => None
  | Some imei =>
      if jeqb imei [] || jeqb (trim reply) [] then None
      else Some {| uq_modem_imei := imei; uq_code := trim reply; uq_stage := u "continue" |}
  end.

Definition ussdCancelRequest (exchange : option UssdExchange) (selectedImei : jstring)
    : option UssdRequest :=
  let modemImei := default_to selectedImei (exchange ≫= ux_modemImei) in
  if jeqb modemImei [] then None
  else Some {| uq_modem_imei := modemImei; uq_code := []; uq_stage := u "cancel" |}.

(** ** Facts *)

Definition ussd_stays (existing row : UssdCommandRow) : bool :=
  (uc_issued_at row <=? uc_issued_at existing)%Z.
#[export] Instance ussd_stays_ranked : Ranked ussd_stays.
Proof. apply (ranked_ge uc_issued_at). Qed.

Lemma later_ussd_scan rows cur :
  fold_left later_ussd rows cur =
  match cur, List.filter is_ussd rows with
  | Some c, l => Some (last_standing ussd_stays c l)
  | None, r :: l => Some (last_standing ussd_stays r l)
  | None, [] => None
  end.
Proof.
  revert cur. induction rows as [|row rows IH]; intros cur; cbn; [by case_match|].
  rewrite IH. unfold later_ussd. destruct (is_ussd row); cbn [negb]; [|done].
  destruct cur as [c|]; [|done]. cbn.
  assert (Hs : ussd_stays c row = negb (uc_issued_at c <? uc_issued_at row)%Z)
    by (unfold ussd_stays; by rewrite Z.leb_antisym).
  rewrite Hs. by destruct (_ <? _)%Z.
Qed.

Lemma ttl_nonneg : (0 <= USSD_SESSION_TTL_MS)%Z.
Proof. unfold USSD_SESSION_TTL_MS. change 0%Z with (int 0). by apply int_le. Qed.

Lemma no_text_false o : no_text o = false <-> exists s, o = Some s /\ s <> [].
Proof. destruct o as [s|]; cbn; [rewrite jeqb_neq|]; naive_solver. Qed.

Lemma ussdSessionState_open exchange age ttl :
  ussdSessionState exchange age ttl = UssdOpen <->
  exists x r imei a, exchange = Some x /\ ux_result x = Some r /\ us_expectsReply r = true /\
    ux_modemImei x = Some imei /\ imei <> [] /\ ux_status x = u "succeeded" /\
    age = Some a /\ (a <= ttl)%Z.
Proof.
  unfold ussdSessionState. split.
  - destruct exchange as [x|]; [|done]. destruct (ux_result x) as [r|] eqn:Er; [|done].
    destruct (us_expectsReply r) eqn:Ee; [|done]. cbn [negb].
    destruct (no_text _) eqn:En; [done|]. apply no_text_false in En as (imei & Hi & Hne).
    destruct (jeqb (ux_status x) _) eqn:Es; [|done]. apply jeqb_eq in Es. cbn [negb].
    destruct age as [a|]; [|done]. destruct (Z.ltb_spec ttl a); [done|]. intros _.
    by exists x, r, imei, a.
  - intros (x & r & imei & a & -> & -> & -> & Hi & Hne & -> & -> & Ha). cbn [negb].
    rewrite (proj2 (no_text_false _)) by eauto. rewrite jeqb_refl. cbn [negb].
    by rewrite (proj2 (Z.ltb_ge _ _)).
Qed.

(** Young by the larger of the two ages is young by each clock there is. *)
Lemma ussdSessionAge_le x observedAtMs nowMs ttl :
  (0 <= ttl)%Z ->
  (exists a, ussdSessionAgeMs (Some x) observedAtMs nowMs = Some a /\ (a <= ttl)%Z) <->
  (ux_completedAt x <> None \/ observedAtMs <> None) /\
  (forall t, ux_completedAt x = Some t -> nowMs - t <= ttl)%Z /\
  (forall t, observedAtMs = Some t -> nowMs - t <= ttl)%Z.
Proof.
  intros Ht. unfold ussdSessionAgeMs.
  destruct (ux_completedAt x) as [g|], observedAtMs as [p|]; cbn; split.
  all: try (intros (a & [= <-] & Ha); split_and!;
            [first [by left | by right]|intros t; try done; intros [= <-]; lia..]).
  all: try (intros (_ & H1 & H2); eexists; split; [done|];
            try specialize (H1 _ eq_refl); try specialize (H2 _ eq_refl); lia).
  - by intros (a & ? & _).
  - by intros ([?|?] & _).
Qed.

(** The newest of a list of USSD rows, the first one among equals. *)
Definition newest_ussd (rows : list UssdCommandRow) (row : UssdCommandRow) : Prop :=
  exists l1 l2, List.filter is_ussd rows = l1 ++ row :: l2 /\
    (forall x, x ∈ l1 -> uc_issued_at x < uc_issued_at row)%Z /\
    (forall y, y ∈ l2 -> uc_issued_at y <= uc_issued_at row)%Z.

(** ** Properties *)

(** The exchange shown is the newest [send_ussd] of the log, whatever
    became of it and the first one among equal times; there is none exactly
    when the log holds no such command. *)
Theorem latestUssdExchange_newest rows :
  match latestUssdExchange rows with
  | None => forall row, row ∈ rows -> uc_kind row <> u "send_ussd"
  | Some x => exists row, newest_ussd rows row /\ x = exchange_of row
  end.
Proof.
  unfold latestUssdExchange. rewrite later_ussd_scan.
  destruct (List.filter is_ussd rows) as [|r l] eqn:E; cbn.
  - intros row Hrow Hk. assert (Hr : row ∈ List.filter is_ussd rows).
    { apply elem_of_filter_bool. split; [done|]. by apply jeqb_eq. }
    rewrite E in Hr. by apply not_elem_of_nil in Hr.
  - exists (last_standing ussd_stays r l). split; [|done]. unfold newest_ussd. rewrite E.
    destruct (last_standing_winner ussd_stays r l) as (l1 & l2 & Hl & H1 & H2).
    exists l1, l2. split_and!; [done|..].
    + intros x Hx. by apply Z.leb_gt, H1.
    + intros y Hy. by apply Z.leb_le, H2.
Qed.

(** A follow-up may be sent exactly on a session the network is waiting
    in: the newest exchange succeeded, its answer expects a reply, it names
    its module, and it is young by every clock there is.  An age nobody
    knows is not young. *)
Theorem ussdSession_open_iff exchange observedAtMs nowMs :
  ussdSessionState exchange (ussdSessionAgeMs exchange observedAtMs nowMs) USSD_SESSION_TTL_MS
    = UssdOpen <->
  exists x r imei,
    exchange = Some x /\ ux_result x = Some r /\ us_expectsReply r = true /\
    ux_modemImei x = Some imei /\ imei <> [] /\ ux_status x = u "succeeded" /\
    (ux_completedAt x <> None \/ observedAtMs <> None) /\
    (forall t, ux_completedAt x = Some t -> nowMs - t <= USSD_SESSION_TTL_MS)%Z /\
    (forall t, observedAtMs = Some t -> nowMs - t <= USSD_SESSION_TTL_MS)%Z.
Proof.
  rewrite ussdSessionState_open. pose proof ttl_nonneg as Ht. split.
  - intros (x & r & imei & a & -> & Hr & He & Hi & Hn & Hs & Ha & Hl). exists x, r, imei.
    split_and!; try done; by apply (ussdSessionAge_le x observedAtMs nowMs _ Ht); exists a.
  - intros (x & r & imei & -> & Hr & He & Hi & Hn & Hs & Hc).
    apply (ussdSessionAge_le x observedAtMs nowMs _ Ht) in Hc as (a & Ha & Hl).
    by exists x, r, imei, a.
Qed.

(** A reply is addressed to the module of the exchange it answers and to
    no other, whatever is selected on the page; there is no request without a
    module or without text, and what is sent is the text trimmed. *)
Theorem ussdContinueRequest_addressed exchange reply q :
  ussdContinueRequest exchange reply = Some q <->
  exists x imei, exchange = Some x /\ ux_modemImei x = Some imei /\ imei <> [] /\
    ~ Forall (fun c => is_space c = true) reply /\
    q = {| uq_modem_imei := imei; uq_code := trim reply; uq_stage := u "continue" |}.
Proof.
  unfold ussdContinueRequest. pose proof (trim_nil_spaces reply) as Ht. split.
  - destruct exchange as [x|]; cbn; [|done]. destruct (ux_modemImei x) as [imei|] eqn:Ei; cbn; [|done].
    destruct (jeqb imei []) eqn:E1; cbn [orb]; [done|]. destruct (jeqb (trim reply) []) eqn:E2; [done|].
    apply jeqb_neq in E1, E2. intros [= <-]. exists x, imei. naive_solver.
  - intros (x & imei & -> & Hi & Hn & Hr & ->). cbn. rewrite Hi.
    by rewrite (proj2 (jeqb_neq imei [])), (proj2 (jeqb_neq (trim reply) [])) by naive_solver.
Qed.

(** Every stage is explained by one of the seven labels, except a stage
    that is the name of a member every object inherits: that one is looked
    up to the inherited member and is not explained at all. *)
Theorem ussdStageLabelKey_total stage :
  (ussdStageLabelKey stage = Inherited <-> stage ∈ object_prototype) /\
  (stage ∉ object_prototype ->
   exists label, ussdStageLabelKey stage = Own label /\
                 (label = u "ussdStageOther" \/ (stage, label) ∈ USSD_STAGE_LABELS)).
Proof.
  unfold ussdStageLabelKey, table_read.
  assert (Hp : existsb (jeqb stage) object_prototype = true <-> stage ∈ object_prototype).
  { rewrite existsb_elem. setoid_rewrite jeqb_eq. naive_solver. }
  destruct (field stage USSD_STAGE_LABELS) as [l|] eqn:E.
  - assert (Hin : (stage, l) ∈ USSD_STAGE_LABELS).
    { apply map_get_elem; [|done]. apply (bool_decide_unpack _). by vm_compute. }
    split; [split; [done|]|eauto]. intros Hs. exfalso.
    assert (Hd : Forall (fun p => p.1 ∉ object_prototype) USSD_STAGE_LABELS)
      by (apply (bool_decide_unpack _); by vm_compute).
    rewrite Forall_forall in Hd. by apply (Hd _ Hin).
  - destruct (existsb _ _); [split; [split; [intros _; by apply Hp|done]|]|split; [split; [done|]|]].
    + intros Hn. destruct Hn. by apply Hp.
    + intros Hs. apply Hp in Hs. done.
    + intros _. eauto.
Qed.
