(* ===== verification/TableQuery.v ===== *)
(** * Filtering and sorting a list page (lib/table-query.ts) *)

From Stdlib Require Import Lia.
From S2P Require Import Prelude JsString JsValue JsSort.

(** [String(field)] of a number. *)
Class NumberText := { number_text : num -> jstring }.

Definition pickSort (raw : option jstring) (allowed : list jstring) (fallback : jstring)
    : jstring :=
  match raw with
  | Some r => if existsb (jeqb r) allowed then r else fallback
  | None => fallback
  end.

(** [string | number | null | undefined]. *)
Inductive table_field :=
  | FText (s : jstring)
  | FNumber (n : num)
  | FMissing.

Section Filter.
Context `{CaseMapping} `{NumberText}.

Definition needleOf (raw : option jstring) : jstring :=
  toLowerCase (trim (default_to [] raw)).

Definition field_text (field : table_field) : option jstring :=
  match field with
  | FText s => Some s
  | FNumber n => Some (number_text n)
  | FMissing => None
  end.

Definition matches (needle : jstring) (fields : list table_field) : bool :=
  if jeqb needle [] then true
  else existsb (fun field =>
         match field_text field with
         | Some s => includes (toLowerCase s) needle
         | None => false
         end) fields.
End Filter.

Definition biggestFirst : comparator (option Z) := fun left right =>
  match left, right with
  | None, None => 0
  | None, Some _ => 1
  | Some _, None => -1
  | Some a, Some b => b - a
  end%Z.

(** The comparator [by(...comparisons)]. *)
Fixpoint by_ {A} (comparisons : list (comparator A)) : comparator A := fun left right =>
  match comparisons with
  | [] => 0%Z
  | compare :: comparisons =>
      if (compare left right =? 0)%Z then by_ comparisons left right else compare left right
  end.

Definition alphabetical `{Collation} : comparator jstring := fun left right =>
  localeCompare left right.

Inductive EmptyKind := EmptyNone | EmptyNoMatch.

Definition emptyKind (total shown : nat) (needle : jstring) : option EmptyKind :=
  if (total =? 0)%nat then Some EmptyNone
  else if (shown =? 0)%nat then (if jeqb needle [] then Some EmptyNone else Some EmptyNoMatch)
  else None.

(** No query is the empty needle. *)
Lemma needleOf_none `{CaseMapping} : needleOf None = [].
Proof. unfold needleOf. cbn. by rewrite toLowerCase_latin1 by constructor. Qed.

(** ** The comparators are orders *)

#[export] Instance biggestFirst_consistent : Consistent biggestFirst.
Proof.
  split.
  - intros [a|]; cbn; lia.
  - intros [a|] [b|]; cbn; lia.
  - intros [a|] [b|] [c|]; cbn; lia.
Qed.

Lemma by_consistent {A} (cs : list (comparator A)) : Forall Consistent cs -> Consistent (by_ cs).
Proof.
  induction 1 as [|c cs Hc _ IH].
  - split; cbn; intros; lia.
  - exact (cmp_then_consistent c (by_ cs) Hc IH).
Qed.

Lemma by_zero {A} (cs : list (comparator A)) a b :
  by_ cs a b = 0%Z <-> forall c, c ∈ cs -> c a b = 0%Z.
Proof.
  induction cs as [|c cs IH]; cbn.
  - split; [|done]. by intros _ c ?%not_elem_of_nil.
  - setoid_rewrite elem_of_cons. destruct (Z.eqb_spec (c a b) 0); naive_solver.
Qed.

(** A list page keeps its order between two polls: sorted by any list of
    comparisons one of which tells different rows apart, the rows come out
    the same whatever order the gateway sent them in. *)
Theorem by_order_independent {A} (cs : list (comparator A)) (l1 l2 : list A) :
  Forall Consistent cs ->
  (exists c, c ∈ cs /\ forall a b, c a b = 0%Z -> a = b) ->
  l1 ≡ₚ l2 ->
  sort (by_ cs) l1 = sort (by_ cs) l2.
Proof.
  intros Hc (c & Hin & Hsep) Hp. pose proof (by_consistent cs Hc) as Hb.
  assert (AntiSymm (=) (cmp_le (by_ cs))).
  { intros a b Hab Hba. unfold cmp_le in *. apply Hsep.
    assert (Hz : by_ cs a b = 0%Z) by (pose proof (cmp_antisym (cmp := by_ cs) a b); lia).
    rewrite by_zero in Hz. auto. }
  apply (StronglySorted_unique (cmp_le (by_ cs))); [apply sort_sorted, Hb..|].
  by rewrite !sort_perm.
Qed.

Lemma by_order_independent_witness :
  let key : comparator (option Z * Z) := by_ [cmp_on fst biggestFirst; cmp_on snd cmp_asc] in
  sort (by_ [key]) [(Some 1, 7); (None, 3); (Some 1, 2)]%Z
  = sort (by_ [key]) [(None, 3); (Some 1, 2); (Some 1, 7)]%Z.
Proof.
  intros key. apply (by_order_independent [key]).
  - apply Forall_cons; split; [|constructor]. apply by_consistent.
    apply Forall_cons; split; [apply _|]. apply Forall_cons; split; [apply _|constructor].
  - exists key. split; [left|]. intros [a b] [a' b'] Hk.
    assert (Hc : forall c, c ∈ [cmp_on fst biggestFirst; cmp_on snd cmp_asc] -> c (a, b) (a', b') = 0%Z)
      by (by apply by_zero).
    assert (Ha : cmp_on fst biggestFirst (a, b) (a', b') = 0%Z) by (apply Hc; left).
    assert (Hb : cmp_on snd cmp_asc (a, b) (a', b') = 0%Z) by (apply Hc; right; left).
    unfold cmp_on, cmp_asc in Hb. cbn in Hb. unfold cmp_on in Ha. cbn in Ha.
    destruct a, a'; cbn in Ha; try done; repeat f_equal; lia.
  - apply (Permutation_cons_append [_; _]).
Defined.

(** ** Missing readings *)

Section Missing.
Context {A : Type} (reading : A -> option Z).
Abbreviation missing := (fun a => bool_decide (reading a = None)).
Abbreviation by_reading := (cmp_on reading biggestFirst).

Lemma missing_stable l :
  List.filter missing (sort by_reading l) = List.filter missing l.
Proof.
  destruct (List.filter missing l) as [|e rest] eqn:E.
  - destruct (List.filter missing (sort by_reading l)) as [|x xs] eqn:Ex; [done|].
    assert (Hx : x ∈ List.filter missing (sort by_reading l)) by (rewrite Ex; left).
    apply elem_of_filter_bool in Hx as [Hx Hm]. apply elem_of_sort in Hx.
    assert (Hl : x ∈ List.filter missing l) by (by apply elem_of_filter_bool).
    rewrite E in Hl. by apply not_elem_of_nil in Hl.
  - assert (He : reading e = None).
    { assert (Hin : e ∈ List.filter missing l) by (rewrite E; left).
      apply elem_of_filter_bool in Hin as [_ Hin]. by apply bool_decide_eq_true in Hin. }
    rewrite <-E. assert (Hf : forall k, List.filter missing k = List.filter (same by_reading e) k).
    { intros k. apply filter_ext. intros a. unfold same, cmp_on. rewrite He.
      by destruct (reading a). }
    rewrite !Hf. apply sort_stable, _.
Qed.

(** Once a row without a reading is met, only such rows follow. *)
Lemma missing_tail s :
  StronglySorted (cmp_le by_reading) s ->
  s = List.filter (fun a => negb (missing a)) s ++ List.filter missing s.
Proof.
  induction 1 as [|a s Hs IH Ha]; [done|]. cbn. case_bool_decide as Hr; cbn.
  - assert (Hall : forall b, b ∈ s -> reading b = None).
    { intros b Hb. rewrite Forall_forall in Ha. specialize (Ha b Hb).
      unfold cmp_le, cmp_on in Ha. rewrite Hr in Ha. by destruct (reading b). }
    assert (Hn : List.filter (fun a => negb (missing a)) s = []).
    { clear -Hall. induction s as [|b s IH]; [done|]. cbn.
      rewrite bool_decide_eq_true_2 by (apply Hall; left). cbn. apply IH.
      intros c Hc. apply Hall. by right. }
    rewrite Hn in *. cbn in *. by f_equal.
  - by f_equal.
Qed.
End Missing.

(** Missing readings sort last and say nothing else: a list sorted by a
    reading, largest first, is the measured rows in falling order followed by
    the rows without a reading in the order they came in. *)
Theorem biggestFirst_missing_last {A} (reading : A -> option Z) (l : list A) :
  exists measured : list A,
    sort (cmp_on reading biggestFirst) l
      = measured ++ List.filter (fun a => bool_decide (reading a = None)) l /\
    measured ≡ₚ List.filter (fun a => negb (bool_decide (reading a = None))) l /\
    StronglySorted (fun a b => exists x y, reading a = Some x /\ reading b = Some y /\ (y <= x)%Z)
      measured.
Proof.
  set (cmp := cmp_on reading biggestFirst).
  set (measured := List.filter (fun a => negb (bool_decide (reading a = None)))).
  pose proof (sort_sorted cmp l) as Hs.
  exists (measured (sort cmp l)). split_and!.
  - rewrite <-(missing_stable reading l). by apply missing_tail.
  - unfold measured. by rewrite sort_perm.
  - induction Hs as [|a s Hs IH Ha]; [constructor|]. cbn. case_bool_decide as Hr; [done|].
    cbn. constructor; [done|]. apply Forall_forall. intros b [Hb Hn]%elem_of_filter_bool.
    apply negb_true_iff, bool_decide_eq_false in Hn. rewrite Forall_forall in Ha.
    specialize (Ha b Hb). unfold cmp_le, cmp, cmp_on in Ha.
    destruct (reading a) as [x|], (reading b) as [y|]; try done. exists x, y.
    split_and!; [done..|]. cbn in Ha. lia.
Qed.

(** A filter that matched nothing is not an empty list: the page says
    nothing was recorded exactly when there are no rows, says nothing matched
    exactly when there are rows and none of them does, and draws the table
    otherwise. *)
Theorem emptyKind_honest `{CaseMapping} `{NumberText} {A} (fields : A -> list table_field)
    (rows : list A) (needle : jstring) :
  let shown := List.filter (fun row => matches needle (fields row)) rows in
  match emptyKind (length rows) (length shown) needle with
  | Some EmptyNone => rows = []
  | Some EmptyNoMatch =>
      rows <> [] /\ needle <> [] /\ forall row, row ∈ rows -> matches needle (fields row) = false
  | None => shown <> []
  end.
Proof.
  intros shown. unfold emptyKind. destruct rows as [|r rows]; [done|].
  set (all := r :: rows) in *. assert (Hall : all <> []) by done. cbn [length Nat.eqb].
  change (length all =? 0)%nat with false.
  destruct (Nat.eqb_spec (length shown) 0) as [E|E].
  - apply length_zero_iff_nil in E.
    assert (Hno : forall row, row ∈ all -> matches needle (fields row) = false).
    { intros row Hrow. apply not_true_iff_false. intros Hm.
      assert (Hin : row ∈ shown) by (by apply elem_of_filter_bool).
      rewrite E in Hin. by apply not_elem_of_nil in Hin. }
    destruct (jeqb needle []) eqn:En; [apply jeqb_eq in En|apply jeqb_neq in En]; [|done].
    subst needle. specialize (Hno r ltac:(left)). done.
  - intros Hs. rewrite Hs in E. done.
Qed.

(** ** A list page

    What every list page draws: the rows that match the needle, sorted. *)

Section ListPage.
Context `{CaseMapping} `{NumberText} {A : Type}.
Context (fields : A -> list table_field) (order : comparator A).

Definition shown_rows (needle : jstring) (rows : list A) : list A :=
  sort order (List.filter (fun row => matches needle (fields row)) rows).

(** A blank search box is not a filter. *)
Lemma shown_rows_blank rows : shown_rows [] rows = sort order rows.
Proof.
  unfold shown_rows. rewrite List.forallb_filter_id; [done|]. by induction rows.
Qed.

Context `{!Consistent order}.

Lemma elem_of_shown needle rows row :
  row ∈ shown_rows needle rows <-> row ∈ rows /\ matches needle (fields row) = true.
Proof. unfold shown_rows. by rewrite elem_of_sort, elem_of_filter_bool. Qed.

(** The list is exactly what matches, in order; and each of its three empty
    states is what it says. *)
Lemma shown_rows_spec needle rows :
  StronglySorted (cmp_le order) (shown_rows needle rows)
  /\ shown_rows needle rows ≡ₚ List.filter (fun row => matches needle (fields row)) rows
  /\ match emptyKind (length rows) (length (shown_rows needle rows)) needle with
     | Some EmptyNone => rows = []
     | Some EmptyNoMatch => rows <> [] /\ needle <> [] /\ shown_rows needle rows = []
     | None => shown_rows needle rows <> []
     end.
Proof.
  split_and!; [apply sort_sorted, _|apply sort_perm|].
  pose proof (emptyKind_honest fields rows needle) as Hk. cbn zeta in Hk.
  unfold shown_rows. rewrite sort_length.
  destruct (emptyKind _ _ _) as [[]|]; [done| |by rewrite sort_nil].
  destruct Hk as (Hr & Hn & Hno). split_and!; [done..|]. apply sort_nil.
  destruct (List.filter _ rows) as [|r l] eqn:E; [done|].
  assert (Hin : r ∈ List.filter (fun row => matches needle (fields row)) rows) by (rewrite E; left).
  apply elem_of_filter_bool in Hin as [Hin Hm]. by rewrite (Hno r Hin) in Hm.
Qed.

(** And it does not depend on the order the gateway sent its rows in, when
    the page's comparison tells them apart. *)
Lemma shown_rows_arrival needle rows rows' :
  rows ≡ₚ rows' -> (forall a b, a ∈ rows -> b ∈ rows -> order a b = 0%Z -> a = b) ->
  shown_rows needle rows = shown_rows needle rows'.
Proof.
  intros Hp Hsep. apply sort_arrival; [done|by rewrite Hp|].
  intros a b [Ha _]%elem_of_filter_bool [Hb _]%elem_of_filter_bool. by apply Hsep.
Qed.
End ListPage.

(** The first comparison of a page that sorts by choice. *)
Definition when {A} (chosen : bool) (cmp : comparator A) : comparator A :=
  fun left right => if chosen then cmp left right else 0%Z.
#[export] Instance when_consistent {A} chosen (cmp : comparator A) :
  Consistent cmp -> Consistent (when chosen cmp).
Proof.
  intros Hc. destruct chosen; [done|]. split; intros; unfold when; lia.
Qed.

(** The first comparison that is in force decides. *)
Lemma by_first {A} (cmp : comparator A) cs a b : cmp_le (by_ (cmp :: cs)) a b -> (cmp a b <= 0)%Z.
Proof. unfold cmp_le. cbn. destruct (Z.eqb_spec (cmp a b) 0); lia. Qed.
Lemma by_skip {A} (cmp : comparator A) cs a b :
  cmp a b = 0%Z -> cmp_le (by_ (cmp :: cs)) a b -> cmp_le (by_ cs) a b.
Proof. unfold cmp_le. cbn. by intros ->. Qed.

Lemma biggest_missing {A} (reading : A -> option Z) a b :
  (cmp_on reading biggestFirst a b <= 0)%Z -> reading a = None -> reading b = None.
Proof. unfold cmp_on. intros Hle Ha. rewrite Ha in Hle. by destruct (reading b). Qed.
