(* ===== verification/Fleet.v ===== *)
(** * Uptime, candidates and alerts, and what every list page shares
      (lib/catalog.ts) *)

From Stdlib Require Import Lia.
From stdpp Require Import pretty.
From S2P Require Import Prelude JsString JsValue JsSort Session Fetch Gateway Devices Messages Network AuditLog Esim.

(** ** Uptime *)

Record UptimeHourRow := {
  uh_hour : Z;
  uh_minutesOnline : Z;
}.

(** The callback of the flatMap; a null row throws. *)
Definition uptimeRow (value : jsval) : res (option UptimeHourRow) :=
  row ← as_row value;
  Ok (match nbr row "hour", nbr row "minutes_online" with
      | Some hour, Some minutes => Some {| uh_hour := hour; uh_minutesOnline := minutes |}
      | _, _ => None
      end).

(** [rows.flatMap(f)] for an [f] of no or one result. *)
Definition flat_map {A} (f : jsval -> res (option A)) (l : list jsval) : res (list A) :=
  rows ← res_map f l; Ok (filter_map (fun x => x) rows).

Definition total_minutes (rows : list UptimeHourRow) : Z :=
  fold_left (fun total row => total + uh_minutesOnline row)%Z rows 0%Z.

(** The quotient as its numerator and denominator. *)
Definition uptimeRatio (rows : list UptimeHourRow) : option (Z * Z) :=
  if (length rows =? 0)%nat then None
  else Some (total_minutes rows, int (Z.of_nat (length rows) * 60)).

(** ** Candidates *)

Record CandidateRow := {
  ca_deviceId : jstring;
  ca_candidateKey : jstring;
  ca_usbDevice : option jstring;
  ca_transport : jstring;
  ca_controlPort : jstring;
  ca_vendorId : option jstring;
  ca_productId : option jstring;
  ca_state : jstring;
  ca_imei : option jstring;
  ca_detail : jstring;
  ca_lastSeen : option Z;
}.

Definition candidateRow (value : jsval) : res (option CandidateRow) :=
  row ← as_row value;
  Ok (match str row "candidate_key" with
      | None => None
      | Some key =>
          Some {| ca_deviceId := str_or row "device_id" "";
                  ca_candidateKey := key;
                  ca_usbDevice := str row "usb_device";
                  ca_transport := str_or row "transport" "at";
                  ca_controlPort := str_or row "control_port" "";
                  ca_vendorId := str row "vendor_id";
                  ca_productId := str row "product_id";
                  ca_state := str_or row "state" "found";
                  ca_imei := str row "imei";
                  ca_detail := str_or row "detail" "";
                  ca_lastSeen := nbr row "last_seen" |}
      end).

(** ** Alerts *)

Record AlertRow := {
  al_id : jstring;
  al_deviceId : jstring;
  al_level : jstring;
  al_code : jstring;
  al_message : jstring;
  al_context : jsval;
  al_occurredAt : Z;
}.

Definition alertRow (value : jsval) : res (option AlertRow) :=
  row ← as_row value;
  Ok (match str row "id" with
      | None => None
      | Some id =>
          Some {| al_id := id;
                  al_deviceId := str_or row "device_id" "";
                  al_level := str_or row "level" "error";
                  al_code := str_or row "code" "unknown";
                  al_message := str_or row "message" "";
                  al_context := if truthy (prop row (u "context"))
                                   && typeof_object (prop row (u "context"))
                                then prop row (u "context") else VObj [];
                  al_occurredAt := nbr_or0 row "occurred_at" |}
      end).

Definition alertTone (level : jstring) : jstring :=
  if jeqb level (u "critical") || jeqb level (u "error") then u "bad"
  else if jeqb level (u "warning") then u "warn"
  else if jeqb level (u "info") then u "info"
  else u "neutral".

(** ** Their fetches; the numbers callers pass are integers *)

Section Fetches.
Variable env : environment.
Variable fetchImpl : fetch_fn.
Variables (host : jstring) (token : option jstring).

Definition fetchDeviceUptime (deviceId : jstring) (hours : Z) : res (list UptimeHourRow) :=
  e ← encodeURIComponent deviceId;
  body ← getCatalog env fetchImpl host
           (u "/v1/devices/" ++ e ++ u "/uptime?hours=" ++ u (pretty hours)) token;
  flat_map uptimeRow (arrayOf (prop body (u "uptime"))).

Definition fetchCandidates : res (list CandidateRow) :=
  body ← getCatalog env fetchImpl host (u "/v1/candidates") token;
  flat_map candidateRow (arrayOf (prop body (u "candidates"))).

Definition fetchAlerts (deviceId : option jstring) (limit : Z) : res (list AlertRow) :=
  let query := URLSearchParams ((u "limit", u (pretty limit)) :: query_set "device_id" deviceId) in
  body ← getCatalog env fetchImpl host (u "/v1/alerts?" ++ query) token;
  flat_map alertRow (arrayOf (prop body (u "alerts"))).
End Fetches.

(** ** Properties *)

Lemma total_minutes_cons r rows :
  total_minutes (r :: rows) = (uh_minutesOnline r + total_minutes rows)%Z.
Proof.
  assert (H : forall l x, fold_left (fun total row => total + uh_minutesOnline row)%Z l x
                          = (x + fold_left (fun total row => total + uh_minutesOnline row)%Z l 0)%Z).
  { induction l as [|a l IH]; intros x; cbn [fold_left]; [lia|].
    rewrite (IH (x + _)%Z), (IH (0 + _)%Z). lia. }
  unfold total_minutes. cbn [fold_left]. rewrite H. lia.
Qed.

Lemma int_plus a b : int (a + b) = (int a + int b)%Z.
Proof. unfold int. lia. Qed.

(** The uptime share is a share: over hours of at most sixty minutes it
    lies between nothing and all of the hours that have a row, it is all of
    them exactly when every reported hour was complete, and there is none
    when no hour was reported. *)
Theorem uptimeRatio_share rows :
  Forall (fun r => 0 <= uh_minutesOnline r <= int 60)%Z rows ->
  match uptimeRatio rows with
  | None => rows = []
  | Some (n, d) =>
      (0 <= n <= d /\ 0 < d)%Z /\
      (n = d <-> Forall (fun r => uh_minutesOnline r = int 60) rows)
  end.
Proof.
  intros Hr. unfold uptimeRatio. destruct (Nat.eqb_spec (length rows) 0) as [E|E].
  { by apply length_zero_iff_nil in E. }
  assert (Hb : (0 <= total_minutes rows <= int (Z.of_nat (length rows) * 60))%Z /\
               (total_minutes rows = int (Z.of_nat (length rows) * 60) <->
                Forall (fun r => uh_minutesOnline r = int 60) rows)).
  { clear E. induction Hr as [|r rows Hr _ [IH1 IH2]].
    - change (total_minutes []) with 0%Z. change (int (Z.of_nat (@length UptimeHourRow []) * 60)) with 0%Z.
      split; [lia|]. split; [constructor|done].
    - rewrite total_minutes_cons. cbn [length].
      replace (Z.of_nat (S (length rows)) * 60)%Z with (60 + Z.of_nat (length rows) * 60)%Z by lia.
      rewrite int_plus, Forall_cons, <-IH2. lia. }
  split; [split; [apply Hb|]|apply Hb]. change 0%Z with (int 0). apply int_lt. lia.
Qed.

Lemma uptimeRatio_share_witness :
  match uptimeRatio [{| uh_hour := 1; uh_minutesOnline := int 30 |}] with
  | Some (n, d) => (0 <= n <= d)%Z
  | None => False
  end.
Proof.
  pose proof (uptimeRatio_share [{| uh_hour := 1; uh_minutesOnline := int 30 |}]) as H.
  apply H. apply Forall_cons; split; [|constructor]. cbn. change 0%Z with (int 0).
  rewrite !int_le. lia.
Defined.

(** Every list of the console, by the fetch that fills it, as whether it was
    filled. *)
Section Lists.
Context `{Platform} `{Collation}.
Variables (env : environment) (f : fetch_fn) (host : jstring) (token : option jstring).

Definition console_lists (peer deviceId : jstring) (options : JournalOptions) (hours limit : Z)
    : list (bool * option js_error) :=
  let outcome {A} (r : res (list A)) : bool * option js_error :=
    match r with Ok _ => (true, None) | Throw e => (false, Some e) end in
  [ outcome (fetchDevices env f host token); outcome (fetchModems env f host token);
    outcome (fetchCertificates env f host token); outcome (fetchEnrollmentCodes env f host token);
    outcome (fetchLedger env f host token); outcome (fetchMessages env f host token);
    outcome (fetchSessions env f host token); outcome (fetchThreads env f host token);
    outcome (fetchContacts env f host token); outcome (fetchCardPolicies env f host token);
    outcome (fetchRules env f host token); outcome (fetchUpstreams env f host token);
    outcome (fetchProxyInstances env f host token); outcome (fetchTraffic env f host token);
    outcome (fetchCountryRules env f host token); outcome (fetchSchedules env f host token);
    outcome (fetchSettings env f host token); outcome (fetchChannelHealth env f host token);
    outcome (fetchCandidates env f host token); outcome (fetchAlerts env f host token (Some deviceId) limit);
    outcome (fetchJournal env f host token options); outcome (fetchThread env f host token peer);
    outcome (fetchDeviceUptime env f host token deviceId hours);
    outcome (fetchEsimProfiles env f host token (Some deviceId)) ].

(** A refusal is never an empty list: when the gateway answers 401,
    403 or 404 every list of the console fails with the session error, and
    with an error on any other answer that is not a success, so no page can
    show a signed-out operator a console with nothing in it. *)
Theorem refusal_is_not_empty e peer deviceId options hours limit :
  (forall rq, exists st json, f rq = Response st json /\ refusal st = Some e) ->
  latin1 peer -> latin1 deviceId ->
  Forall (fun o => o = (false, Some e)) (console_lists peer deviceId options hours limit) /\
  loadAudit env f host token = AuditFailed.
Proof.
  intros Hf Hp Hd.
  assert (Hg : forall path, getCatalog env f host path token = Throw e).
  { intros path. rewrite getCatalog_refusal.
    destruct (Hf (catalog_request env host path token)) as (st & json & -> & ->). done. }
  destruct (latin1_encodes _ Hp) as [ep Hep], (latin1_encodes _ Hd) as [ed Hed].
  split; [|unfold loadAudit; by rewrite Hg].
  unfold console_lists, fetchDevices, fetchModems, fetchCertificates, fetchEnrollmentCodes,
    fetchLedger, fetchMessages, fetchSessions, fetchThreads, fetchContacts, fetchCardPolicies,
    fetchRules, fetchUpstreams, fetchProxyInstances, fetchTraffic, fetchCountryRules,
    fetchSchedules, fetchSettings, fetchChannelHealth, fetchCandidates, fetchAlerts,
    fetchJournal, fetchThread, fetchDeviceUptime, fetchEsimProfiles.
  rewrite Hep, Hed. cbn [mbind res_bind]. rewrite !Hg. cbn [mbind res_bind].
  repeat (apply Forall_cons; split; [done|]). apply Forall_cons; split; [|constructor].
  destruct (jeqb deviceId []); cbn; by rewrite Hg.
Qed.
End Lists.

Definition sample_platform : Platform := {| Date_parse _ := NaN; JSON_stringify _ := [] |}.

Lemma refusal_is_not_empty_witness :
  Forall (fun o => o = (false, Some UnauthorizedError))
    (@console_lists sample_platform collation_reference (fun _ => None)
       (fun _ => Response 401 None) (u "ops.vodoge.com") None (u "+8610") (u "dev-1")
       {| op_kind := None; op_deviceId := None; op_limit := None |} 168 50).
Proof.
  apply (@refusal_is_not_empty sample_platform collation_reference (fun _ => None)
    (fun _ => Response 401 None) (u "ops.vodoge.com") None UnauthorizedError (u "+8610") (u "dev-1")).
  - intros rq. by exists 401%Z, None.
  - by apply (bool_decide_unpack (latin1 (u "+8610"))).
  - by apply (bool_decide_unpack (latin1 (u "dev-1"))).
Defined.
