(* ===== verification/Plmn.v ===== *)
(** * Network names (lib/plmn.ts) *)

From Stdlib Require Import Lia.
From S2P Require Import Prelude JsString JsValue JsMap.

Definition OPERATORS : list (jstring * jstring) :=
  [ (u "310-260", u "T-Mobile");
    (u "310-410", u "AT&T");
    (u "310-280", u "AT&T");
    (u "311-480", u "Verizon");
    (u "460-00", u "中国移动");
    (u "460-02", u "中国移动");
    (u "460-04", u "中国移动");
    (u "460-07", u "中国移动");
    (u "460-08", u "中国移动");
    (u "460-01", u "中国联通");
    (u "460-06", u "中国联通");
    (u "460-09", u "中国联通");
    (u "460-03", u "中国电信");
    (u "460-05", u "中国电信");
    (u "460-11", u "中国电信");
    (u "460-15", u "中国广电");
    (u "460-20", u "中国铁通");
    (u "454-00", u "CSL");
    (u "454-02", u "CSL");
    (u "454-10", u "CSL");
    (u "454-18", u "CSL");
    (u "454-03", u "3 HK");
    (u "454-04", u "3 HK");
    (u "454-06", u "SmarTone");
    (u "454-12", u "中国移动香港");
    (u "454-13", u "中国移动香港");
    (u "454-16", u "csl. PCCW");
    (u "454-19", u "csl. PCCW");
    (u "454-29", u "csl. PCCW") ].

Record Territory := {
  tr_name : jstring;
  tr_code : option jstring;
}.

Definition TERRITORIES : list (jstring * Territory) :=
  [ (u "310", {| tr_name := u "美国"; tr_code := Some (u "US") |});
    (u "311", {| tr_name := u "美国"; tr_code := Some (u "US") |});
    (u "460", {| tr_name := u "中国大陆"; tr_code := Some (u "CN") |});
    (u "454", {| tr_name := u "中国香港"; tr_code := Some (u "HK") |});
    (u "455", {| tr_name := u "中国澳门"; tr_code := Some (u "MO") |});
    (u "466", {| tr_name := u "中国台湾"; tr_code := None |});
    (u "440", {| tr_name := u "日本"; tr_code := Some (u "JP") |});
    (u "450", {| tr_name := u "韩国"; tr_code := Some (u "KR") |});
    (u "505", {| tr_name := u "澳大利亚"; tr_code := Some (u "AU") |});
    (u "525", {| tr_name := u "新加坡"; tr_code := Some (u "SG") |}) ].

(** A code point as UTF-16, [String.fromCodePoint] of one. *)
Definition flagOf (code : jstring) : jstring :=
  concat ((fun letter => utf16_of_point (0x1f1e6 + letter - 65)%N) <$> code).

(** What [OPERATORS[plmn] ?? plmn] yields: a name, or the member of that name
    every object inherits. *)
Inductive operator_label :=
  | Named (name : jstring)
  | Member (name : jstring).
#[export] Instance operator_label_eq_dec : EqDecision operator_label.
Proof. solve_decision. Defined.

Definition operatorName (plmn : jstring) : operator_label :=
  match table_read OPERATORS plmn with
  | Own name => Named name
  | Inherited => Member plmn
  | Absent => Named plmn
  end.

Definition territoryName (plmn : jstring) : option jstring :=
  match table_read TERRITORIES (take 3 plmn) with
  | Own t => Some (tr_name t)
  | _ => None
  end.

Definition territoryFlag (plmn : jstring) : option jstring :=
  match table_read TERRITORIES (take 3 plmn) with
  | Own t => match tr_code t with
             | Some code => if jeqb code [] then None else Some (flagOf code)
             | None => None
             end
  | _ => None
  end.

Definition isRoaming (home serving : jstring) : bool :=
  negb (bool_decide (operatorName home = operatorName serving)).

(** Nothing is roaming at home, and roaming has no direction. *)
Lemma isRoaming_refl p : isRoaming p p = false.
Proof. unfold isRoaming. by rewrite bool_decide_eq_true_2. Qed.
Lemma isRoaming_sym p q : isRoaming p q = isRoaming q p.
Proof. unfold isRoaming. f_equal. apply bool_decide_ext. naive_solver. Qed.

(** The names of a plmn pair: digits, a dash, digits. *)
Definition plmn_text (p : jstring) : Prop :=
  exists mcc mnc, p = mcc ++ u "-" ++ mnc /\ Forall (fun c => is_digit c = true) (mcc ++ mnc).

Lemma OPERATORS_names : Forall (fun e => exists c, c ∈ e.2 /\ is_digit c = false /\ c <> 45%N) OPERATORS.
Proof.
  assert (H : forallb (fun e => existsb (fun c => negb (is_digit c) && negb (c =? 45)%N) e.2)
                OPERATORS = true) by by vm_compute.
  apply Forall_forall. intros e He. rewrite forallb_elem in H.
  apply H, existsb_elem in He as (c & Hc & Hd). exists c. bool_solve. apply N.eqb_neq in H1. auto.
Qed.

Lemma plmn_text_chars p : plmn_text p -> Forall (fun c => is_digit c || (c =? 45)%N = true) p.
Proof.
  intros (mcc & mnc & -> & [Hc Hn]%Forall_app). apply Forall_app. split.
  - eapply Forall_impl; [exact Hc|]. intros c Hd. cbn in Hd. by rewrite Hd.
  - apply Forall_app. split; [by repeat constructor|].
    eapply Forall_impl; [exact Hn|]. intros c Hd. cbn in Hd. by rewrite Hd.
Qed.

(** No inherited member is written with digits and dashes. *)
Lemma plmn_text_own p : plmn_text p -> existsb (jeqb p) object_prototype = false.
Proof.
  intros Hp%plmn_text_chars. apply not_true_iff_false. intros (m & Hm & <-%jeqb_eq)%existsb_elem.
  assert (H : Forall (fun m => Exists (fun c => is_digit c || (c =? 45)%N = false) m) object_prototype)
    by (apply (bool_decide_unpack _); by vm_compute).
  rewrite Forall_forall in H. specialize (H _ Hm). apply Exists_exists in H as (c & Hc & Hf).
  rewrite Forall_forall in Hp. specialize (Hp c Hc). congruence.
Qed.

Lemma operatorName_spec p name :
  plmn_text p ->
  operatorName p = Named name <->
  (p, name) ∈ OPERATORS \/ p = name /\ p ∉ OPERATORS.*1.
Proof.
  intros Hp. unfold operatorName, table_read. rewrite (plmn_text_own p Hp).
  assert (Hd : NoDup OPERATORS.*1) by (apply (bool_decide_unpack _); by vm_compute).
  destruct (field p OPERATORS) as [n|] eqn:E.
  - pose proof E as Hin. apply (map_get_elem p n OPERATORS Hd) in Hin. split.
    + intros [= <-]. by left.
    + intros [H|[_ H]]; [|destruct H; apply list_elem_of_fmap; by exists (p, n)].
      apply (map_get_elem p name OPERATORS Hd) in H. unfold map_get in H. congruence.
  - assert (Hn : p ∉ OPERATORS.*1).
    { intros ([q n] & -> & Hin)%list_elem_of_fmap. cbn [fst] in E.
      apply (map_get_elem q n OPERATORS Hd) in Hin. unfold map_get in Hin. congruence. }
    split; [intros [= <-]; by right|]. intros [H|[-> _]]; [|done].
    destruct Hn. apply list_elem_of_fmap. by exists (p, name).
Qed.

(** A card is roaming unless the two networks are one operator's: for
    network codes as they are written, digits, a dash and digits, the answer
    is no exactly when the codes are equal or the table gives both the same
    name; in particular a network the table does not know is foreign to every
    other, and an operator's name is never mistaken for a code. *)
Theorem isRoaming_spec home serving :
  plmn_text home -> plmn_text serving ->
  isRoaming home serving = false <->
  home = serving \/ exists name, (home, name) ∈ OPERATORS /\ (serving, name) ∈ OPERATORS.
Proof.
  intros Hh Hs. unfold isRoaming. rewrite negb_false_iff, bool_decide_eq_true.
  pose proof OPERATORS_names as Ho. rewrite Forall_forall in Ho.
  assert (Hnot : forall p q, plmn_text q -> (p, q) ∉ OPERATORS).
  { intros p q Hq%plmn_text_chars Hin. destruct (Ho _ Hin) as (c & Hc & Hd & Hne). cbn in Hc.
    rewrite Forall_forall in Hq. specialize (Hq c Hc). apply N.eqb_neq in Hne.
    by rewrite Hd, Hne in Hq. }
  split.
  - intros He. assert (exists n, operatorName serving = Named n) as [n Hn].
    { unfold operatorName, table_read. rewrite (plmn_text_own serving Hs).
      destruct (field serving OPERATORS); eauto. }
    rewrite Hn in He. apply operatorName_spec in He; [|done]. apply operatorName_spec in Hn; [|done].
    destruct He as [He|[-> _]], Hn as [Hn|[-> _]].
    + right. eauto.
    + by destruct (Hnot home n).
    + by destruct (Hnot serving n).
    + by left.
  - intros [->|(n & H1 & H2)]; [done|].
    rewrite (proj2 (operatorName_spec home n Hh)) by (by left).
    symmetry. apply operatorName_spec; [done|]. by left.
Qed.

Lemma isRoaming_spec_witness :
  isRoaming (u "460-00") (u "460-02") = false /\
  (u "460-00" = u "460-02" \/
   exists name, (u "460-00", name) ∈ OPERATORS /\ (u "460-02", name) ∈ OPERATORS).
Proof.
  assert (E : isRoaming (u "460-00") (u "460-02") = false) by (by vm_compute).
  split; [exact E|]. apply (isRoaming_spec (u "460-00") (u "460-02")).
  - exists (u "460"), (u "00"). split; [by vm_compute|]. by repeat constructor.
  - exists (u "460"), (u "02"). split; [by vm_compute|]. by repeat constructor.
  - exact E.
Defined.
