(* ===== verification/SmsSafety.v ===== *)
(** * What the inbox refuses to send (lib/sms-safety.ts) and the operations a
      card's plan can declare (lib/card-capability.ts) *)

From Stdlib Require Import Lia.
From S2P Require Import Prelude JsString JsValue Devices.

Record blocked_entry := { be_why : jstring; be_cost : jstring }.

Definition SMS_BLOCKED_MODULES : list (jstring * blocked_entry) :=
  [ (u "867018069509705",
     {| be_why := u "inbox.smsBlockedWhy"; be_cost := u "inbox.smsBlockedCost" |}) ].

(** An entry found under an inherited name has neither sentence. *)
Record SmsBlockedModule := {
  sb_imei : jstring;
  sb_why : option jstring;
  sb_cost : option jstring;
}.

(** What one turn of the loop pushes. *)
Definition blocked_module (deviceId : jstring) (modem : ModemRow) : option SmsBlockedModule :=
  if negb (jeqb (md_deviceId modem) deviceId) then None else
  match table_read SMS_BLOCKED_MODULES (md_imei modem) with
  | Own entry => Some {| sb_imei := md_imei modem; sb_why := Some (be_why entry);
                         sb_cost := Some (be_cost entry) |}
  | Inherited => Some {| sb_imei := md_imei modem; sb_why := None; sb_cost := None |}
  | Absent => None
  end.

Definition blockedSendModules (modems : list ModemRow) (deviceId : jstring)
    : list SmsBlockedModule := filter_map (blocked_module deviceId) modems.

Inductive SendHold := BlockedModule | ModulesUnknown.

Definition sendHold (modemsKnown : bool) (blocked : list SmsBlockedModule) : option SendHold :=
  if (0 <? length blocked)%nat then Some BlockedModule
  else if negb modemsKnown then Some ModulesUnknown
  else None.

Inductive CardCapabilityOperation := smsSend | smsReceive | data | voice.

Definition CARD_CAPABILITY_OPERATIONS : list CardCapabilityOperation :=
  [smsSend; smsReceive; data; voice].

Definition cardCapabilityLabelKey (operation : CardCapabilityOperation) : jstring :=
  match operation with
  | smsSend => u "cards.capabilitySmsSend"
  | smsReceive => u "cards.capabilitySmsReceive"
  | data => u "cards.capabilityData"
  | voice => u "cards.capabilityVoice"
  end.

Lemma blocked_module_none deviceId modem :
  blocked_module deviceId modem = None <->
  (md_deviceId modem = deviceId ->
   md_imei modem <> u "867018069509705" /\ md_imei modem ∉ object_prototype).
Proof.
  unfold blocked_module. destruct (jeqb (md_deviceId modem) deviceId) eqn:Ed; cbn [negb].
  - apply jeqb_eq in Ed. unfold table_read, SMS_BLOCKED_MODULES. cbn [field].
    assert (Hp : existsb (jeqb (md_imei modem)) object_prototype = true <->
                 md_imei modem ∈ object_prototype).
    { rewrite existsb_elem. setoid_rewrite jeqb_eq. naive_solver. }
    destruct (jeqb (md_imei modem) (u "867018069509705")) eqn:Ei;
      [apply jeqb_eq in Ei|apply jeqb_neq in Ei].
    + split; [done|]. intros H. destruct (H Ed) as [Hn _]. by destruct (Hn Ei).
    + destruct (existsb _ _).
      * split; [done|]. intros H. destruct (H Ed) as [_ Hn]. destruct Hn. by apply Hp.
      * split; [|done]. intros _ _. split; [done|]. intros Hin. by apply Hp in Hin.
  - apply jeqb_neq in Ed. split; [|done]. by intros _ ?.
Qed.

Lemma blockedSendModules_nil modems deviceId :
  blockedSendModules modems deviceId = [] <->
  forall modem, modem ∈ modems -> blocked_module deviceId modem = None.
Proof.
  unfold blockedSendModules. split.
  - intros E modem Hm. destruct (blocked_module deviceId modem) as [b|] eqn:Eb; [|done].
    assert (Hin : b ∈ filter_map (blocked_module deviceId) modems)
      by (apply elem_of_filter_map; eauto). rewrite E in Hin. by apply not_elem_of_nil in Hin.
  - intros H. destruct (filter_map _ _) as [|b l] eqn:E; [done|].
    assert (Hin : b ∈ filter_map (blocked_module deviceId) modems) by (rewrite E; left).
    apply elem_of_filter_map in Hin as (m & Hm & Hs). rewrite H in Hs; done.
Qed.

(** The send form is live only when the module list was read and shows
    no barred module on the chosen device; a list that could not be read
    holds it, and so does a barred module even on a stale list. *)
Theorem sendHold_fail_closed modemsKnown modems deviceId :
  (sendHold modemsKnown (blockedSendModules modems deviceId) = None <->
   modemsKnown = true /\
   forall modem, modem ∈ modems -> md_deviceId modem = deviceId ->
     md_imei modem <> u "867018069509705" /\ md_imei modem ∉ object_prototype) /\
  (sendHold modemsKnown (blockedSendModules modems deviceId) = Some BlockedModule <->
   exists modem, modem ∈ modems /\ blocked_module deviceId modem <> None).
Proof.
  unfold sendHold.
  pose proof (blockedSendModules_nil modems deviceId) as Hb.
  setoid_rewrite <-blocked_module_none.
  destruct (blockedSendModules modems deviceId) as [|b l] eqn:E; cbn.
  - pose proof (proj1 Hb eq_refl) as Hn. split.
    { destruct modemsKnown; cbn; naive_solver. }
    split; [by destruct modemsKnown|]. intros (m & Hm & Hs). by rewrite Hn in Hs.
  - split.
    + split; [done|]. intros [_ H]. by apply Hb in H.
    + split; [|done]. intros _.
      assert (Hin : b ∈ blockedSendModules modems deviceId) by (rewrite E; left).
      apply elem_of_filter_map in Hin as (m & Hm & Hs). exists m. by rewrite Hs.
Qed.
