(* ===== verification/I18n.v ===== *)
(** * Messages and placeholders (lib/interpolate.ts, lib/i18n.ts, lib/locale.ts,
      lib/request-locale.ts)

    The catalogues are JSON files; they are parameters here. *)

From Stdlib Require Import Lia.
From S2P Require Import Prelude JsString JsValue JsSort.

(** ** Locales *)

Inductive Locale := zh | en.

Definition DEFAULT_LOCALE : Locale := zh.
Definition LOCALE_COOKIE : jstring := u "vodoge.locale".

(** [isLocale], with the locale it narrows to. *)
Definition isLocale (value : option jstring) : option Locale :=
  match value with
  | Some v => if jeqb v (u "zh") then Some zh else if jeqb v (u "en") then Some en else None
  | None => None
  end.

Definition htmlLang (locale : Locale) : jstring :=
  match locale with en => u "en" | zh => u "zh-CN" end.

Definition getRequestLocale (cookie : option jstring) : Locale :=
  default_to DEFAULT_LOCALE (isLocale cookie).

(** ** interpolate *)

(** A variable's value, as text; null and undefined are no value.  A name no
    variable has may still be a member every object inherits. *)
Section Interpolate.
Variable inherited_text : jstring -> jstring.

Definition substitute (vars : list (jstring * option jstring)) (name : jstring) : jstring :=
  match table_read vars name with
  | Own (Some value) => value
  | Own None | Absent => u "{" ++ name ++ u "}"
  | Inherited => inherited_text name
  end.

(** [template.replace(/\{(\w+)\}/g, ..)]: [pending] is the word read since
    the last open brace that may still start a match. *)
Fixpoint replace_holes (vars : list (jstring * option jstring)) (pending : option jstring)
    (s : jstring) : jstring :=
  let unread := match pending with Some w => u "{" ++ w | None => [] end in
  match s with
  | [] => unread
  | c :: s =>
      if (c =? 123)%N then unread ++ replace_holes vars (Some []) s
      else match pending with
           | Some w =>
               if is_word c then replace_holes vars (Some (w ++ [c])) s
               else if (c =? 125)%N && negb (jeqb w [])
                    then substitute vars w ++ replace_holes vars None s
                    else unread ++ c :: replace_holes vars None s
           | None => c :: replace_holes vars None s
           end
  end.

Definition interpolate (template : jstring) (vars : option (list (jstring * option jstring)))
    : jstring :=
  match vars with
  | None => template
  | Some vars => replace_holes vars None template
  end.

(** ** t *)

Definition t (catalogs : Locale -> list (jstring * jstring)) (key : jstring) (locale : Locale)
    (vars : option (list (jstring * option jstring))) : jstring :=
  match table_read (catalogs locale) key with
  | Own template => interpolate template vars
  | _ => u "⟦" ++ key ++ u "⟧"
  end.

(** ** Templates as text and holes *)

Inductive piece := Text (s : jstring) | Hole (name : jstring).

Definition render (p : piece) : jstring :=
  match p with Text s => s | Hole name => u "{" ++ name ++ u "}" end.
Definition fill (vars : list (jstring * option jstring)) (p : piece) : jstring :=
  match p with Text s => s | Hole name => substitute vars name end.

Definition piece_wf (p : piece) : Prop :=
  match p with
  | Text s => (123%N ∉ s)
  | Hole name => name <> [] /\ Forall (fun c => is_word c = true) name
  end.

Lemma replace_text vars s rest :
  (123%N ∉ s) -> replace_holes vars None (s ++ rest) = s ++ replace_holes vars None rest.
Proof.
  induction s as [|c s IH]; [done|]. rewrite not_elem_of_cons. intros [Hc Hs]. cbn.
  rewrite (proj2 (N.eqb_neq c 123)) by done. by rewrite IH.
Qed.

Lemma word_not_brace c : is_word c = true -> c <> 123%N /\ c <> 125%N.
Proof. intros Hc. split; intros ->; by vm_compute in Hc. Qed.

Lemma replace_word vars w name rest :
  Forall (fun c => is_word c = true) name -> w ++ name <> [] ->
  replace_holes vars (Some w) (name ++ u "}" ++ rest)
  = substitute vars (w ++ name) ++ replace_holes vars None rest.
Proof.
  intros Hw. revert w. induction Hw as [|c name Hc _ IH]; intros w Hne.
  - rewrite app_nil_r in *. change ([] ++ u "}" ++ rest) with (125%N :: rest). cbn [replace_holes].
    change (125 =? 123)%N with false. change (is_word 125) with false.
    change (125 =? 125)%N with true. cbv iota.
    by rewrite (proj2 (jeqb_neq w [])).
  - destruct (word_not_brace c Hc) as [H1 _]. cbn [app replace_holes].
    rewrite (proj2 (N.eqb_neq c 123)), Hc by done. rewrite IH by (by destruct w).
    by rewrite <-app_assoc.
Qed.

Lemma replace_pieces vars ps :
  Forall piece_wf ps ->
  replace_holes vars None (concat (render <$> ps)) = concat (fill vars <$> ps).
Proof.
  induction 1 as [|p ps Hp _ IH]; [done|]. cbn [fmap list_fmap concat]. rewrite <-IH.
  destruct p as [s|name]; cbn [render fill].
  - by apply replace_text.
  - destruct Hp as [Hn Hw]. rewrite <-!app_assoc.
    change (u "{" ++ name ++ u "}" ++ concat (render <$> ps))
      with (123%N :: (name ++ u "}" ++ concat (render <$> ps))).
    cbn [replace_holes]. change (123 =? 123)%N with true. cbv iota. cbn [app].
    by apply (replace_word vars []).
Qed.
End Interpolate.

(** ** diffCatalogKeys *)

(** [Object.keys(catalog).sort()]: code-unit order. *)
Definition catalogKeyList (catalog : list (jstring * jstring)) : list jstring :=
  sort unit_compare catalog.*1.

Definition keys_missing (left right : list (jstring * jstring)) : list jstring :=
  sort unit_compare (List.filter (fun key => negb (existsb (jeqb key) right.*1)) left.*1).

(** [missingInRight] and [missingInLeft]. *)
Definition diffCatalogKeys (left right : list (jstring * jstring)) : list jstring * list jstring :=
  (keys_missing left right, keys_missing right left).

Lemma keys_missing_spec left right key :
  key ∈ keys_missing left right <-> key ∈ left.*1 /\ key ∉ right.*1.
Proof.
  unfold keys_missing. rewrite elem_of_sort, elem_of_filter_bool, negb_true_iff.
  rewrite <-not_true_iff_false, existsb_elem. setoid_rewrite jeqb_eq. naive_solver.
Qed.

(** Interpolation is substitution: a template written as text without an
    open brace and named holes comes out as the same pieces with every hole
    whose name has a value replaced by that value exactly as given, and the
    hole itself left standing when there is none; substituted values are not
    read again. *)
Theorem interpolate_pieces inherited_text vars ps :
  Forall piece_wf ps ->
  interpolate inherited_text (concat (render <$> ps)) (Some vars)
    = concat (fill inherited_text vars <$> ps) /\
  (forall name, name ∉ vars.*1 -> name ∉ object_prototype ->
     fill inherited_text vars (Hole name) = render (Hole name)) /\
  (forall name value, field name vars = Some (Some value) ->
     fill inherited_text vars (Hole name) = value).
Proof.
  intros Hp. split_and!.
  - by apply replace_pieces.
  - intros name Hv Ho. cbn. unfold substitute, table_read.
    assert (Hf : field name vars = None).
    { clear Hp. induction vars as [|[k v] vars IH]; [done|]. cbn in *.
      rewrite not_elem_of_cons in Hv. destruct Hv as [Hk Hv].
      rewrite (proj2 (jeqb_neq name k)) by done. by apply IH. }
    rewrite Hf. destruct (existsb _ _) eqn:E; [|done].
    apply existsb_elem in E as (k & Hk & <-%jeqb_eq). done.
  - intros name value Hf. cbn. unfold substitute, table_read. by rewrite Hf.
Qed.

Lemma interpolate_pieces_witness :
  interpolate id (u "remove {name} now") (Some [(u "name", Some (u "{name}"))])
  = u "remove {name} now".
Proof.
  destruct (interpolate_pieces id [(u "name", Some (u "{name}"))]
    [Text (u "remove "); Hole (u "name"); Text (u " now")]) as [H _].
  - repeat (apply Forall_cons; split); [| | |constructor].
    + by apply (bool_decide_unpack (123%N ∉ u "remove ")).
    + split; [done|]. apply (bool_decide_unpack _). by vm_compute.
    + by apply (bool_decide_unpack (123%N ∉ u " now")).
  - exact H.
Defined.

(** The catalogue check is complete: it reports nothing exactly when
    both catalogues have the same keys, and what it reports for one side is
    exactly the keys of the other it lacks, in order. *)
Theorem diffCatalogKeys_complete left right :
  let '(missingInRight, missingInLeft) := diffCatalogKeys left right in
  (forall key, key ∈ missingInRight <-> key ∈ left.*1 /\ key ∉ right.*1) /\
  (forall key, key ∈ missingInLeft <-> key ∈ right.*1 /\ key ∉ left.*1) /\
  StronglySorted (cmp_le unit_compare) missingInRight /\
  StronglySorted (cmp_le unit_compare) missingInLeft /\
  (missingInRight = [] /\ missingInLeft = [] <-> forall key, key ∈ left.*1 <-> key ∈ right.*1).
Proof.
  unfold diffCatalogKeys. split_and!.
  - apply keys_missing_spec.
  - apply keys_missing_spec.
  - apply sort_sorted, _.
  - apply sort_sorted, _.
  - assert (He : forall l r, keys_missing l r = [] <-> forall key, key ∈ l.*1 -> key ∈ r.*1).
    { intros l r. split.
      - intros E key Hk. destruct (decide (key ∈ r.*1)) as [|Hn]; [done|].
        assert (Hin : key ∈ keys_missing l r) by (by apply keys_missing_spec).
        rewrite E in Hin. by apply not_elem_of_nil in Hin.
      - intros H. destruct (keys_missing l r) as [|k ks] eqn:E; [done|].
        assert (Hin : k ∈ keys_missing l r) by (rewrite E; left).
        apply keys_missing_spec in Hin as [Hl Hr]. destruct Hr. auto. }
    rewrite !He. split; [intros [H1 H2] key; split; auto|intros H; split; intros; by apply H].
Qed.
