(* ===== verification/Pwa.v ===== *)
(** * Installing, gating and honesty about the connection (lib/pwa.ts)

    The manifest, the middleware's matcher, the install decision, and the
    connection monitor: a small state machine around [window.fetch] that says
    when the data on the screen arrived. *)

From Stdlib Require Import Lia.
From S2P Require Import Prelude JsString JsValue JsRegex.

(** ** The manifest *)

Record ManifestIcon := {
  ic_src : jstring;
  ic_sizes : jstring;
  ic_type : jstring;
  ic_purpose : jstring;
}.

Record ManifestScreenshot := {
  sh_src : jstring;
  sh_sizes : jstring;
  sh_type : jstring;
  sh_form_factor : jstring;
  sh_label : jstring;
}.

Record ConsoleManifest := {
  mf_id : jstring;
  mf_name : jstring;
  mf_short_name : jstring;
  mf_description : jstring;
  mf_start_url : jstring;
  mf_scope : jstring;
  mf_display : jstring;
  mf_orientation : jstring;
  mf_background_color : jstring;
  mf_theme_color : jstring;
  mf_categories : list jstring;
  mf_icons : list ManifestIcon;
  mf_screenshots : list ManifestScreenshot;
}.

Definition CANVAS_dark : jstring := u "#09090b".

Definition icon (src sizes type purpose : string) : ManifestIcon :=
  {| ic_src := u src; ic_sizes := u sizes; ic_type := u type; ic_purpose := u purpose |}.
Definition screenshot (src sizes type form_factor label : string) : ManifestScreenshot :=
  {| sh_src := u src; sh_sizes := u sizes; sh_type := u type;
     sh_form_factor := u form_factor; sh_label := u label |}.

Definition consoleManifest : ConsoleManifest :=
  {| mf_id := u "/";
     mf_name := u "VoDoge Console";
     mf_short_name := u "VoDoge";
     mf_description := u "Multi-tenant modem fleet console";
     mf_start_url := u "/";
     mf_scope := u "/";
     mf_display := u "standalone";
     mf_orientation := u "any";
     mf_background_color := CANVAS_dark;
     mf_theme_color := CANVAS_dark;
     mf_categories := [u "business"; u "utilities"];
     mf_icons :=
       [ icon "/icon.svg" "any" "image/svg+xml" "any";
         icon "/icon-192.png" "192x192" "image/png" "any";
         icon "/icon-512.png" "512x512" "image/png" "any";
         icon "/icon-maskable-192.png" "192x192" "image/png" "maskable";
         icon "/icon-maskable-512.png" "512x512" "image/png" "maskable" ];
     mf_screenshots :=
       [ screenshot "/screenshot-mobile.png" "780x1688" "image/png" "narrow"
           "Fleet overview on a phone";
         screenshot "/screenshot-wide.png" "1280x800" "image/png" "wide"
           "Fleet overview on a desktop" ] |}.

(** ** The middleware's matcher *)

(** [.]: anything but a line terminator. *)
Definition line_terminator (c : N) : bool :=
  (c =? 10)%N || (c =? 13)%N || (c =? 0x2028)%N || (c =? 0x2029)%N.
Definition rdot : regex := RClass (fun c => negb (line_terminator c)).
Definition rnot_slash : regex := RClass (fun c => negb (c =? 47)%N).

(** [_next/|[^/]+\.[A-Za-z0-9]+$], the two exclusions. *)
Definition matcher_exclusions : regex :=
  RAlt (rlit (u "_next/"))
       (rseq [rplus rnot_slash; rchar 46; rplus (RClass is_alnum); REnd]).

(** [MIDDLEWARE_MATCHER] between the two anchors [middlewareRunsOn] adds: a
    slash, not followed by an exclusion, then any text. *)
Definition MIDDLEWARE_MATCHER : regex :=
  rseq [RStart; rchar 47; RNot matcher_exclusions; RStar rdot; REnd].

Definition middlewareRunsOn (pathname : jstring) : bool := test MIDDLEWARE_MATCHER pathname.

(** ** Installing *)

Inductive Platform := ios | android | other.

Definition detectPlatform (userAgent : jstring) (maxTouchPoints : Z) : Platform :=
  if test (ralt [rlit_i (u "iPhone"); rlit_i (u "iPad"); rlit_i (u "iPod")]) userAgent then ios
  else if test (rlit_i (u "Macintosh")) userAgent && (1 <? maxTouchPoints)%Z then ios
  else if test (rlit_i (u "Android")) userAgent then android
  else other.

Definition STANDALONE_QUERIES : list jstring :=
  [ u "(display-mode: standalone)"; u "(display-mode: fullscreen)"; u "(display-mode: minimal-ui)" ].

Definition isStandalone (matches : jstring -> bool) (iosStandalone : bool) : bool :=
  if iosStandalone then true else existsb matches STANDALONE_QUERIES.

Inductive InstallState := Installed | Promptable | IosGuide | Unavailable.

Definition installState (standalone promptAvailable : bool) (platform : Platform) : InstallState :=
  if standalone then Installed
  else if promptAvailable then Promptable
  else match platform with ios => IosGuide | _ => Unavailable end.

(** ** Watched requests *)

Definition LOST_AFTER_FAILURES : nat := 2.
Definition PROBE_PATH : jstring := u "/manifest.webmanifest".
Definition PROBE_INTERVAL_MS : Z := 15000.

(** [new URL(url, base)]: the origin and the pathname, or an exception. *)
Class UrlParsing := { new_URL : jstring -> option jstring -> option (jstring * jstring) }.

Definition isWatchedRequest `{UrlParsing} (url origin : jstring) : bool :=
  if jeqb url [] then false else
  match new_URL origin None, new_URL url (Some origin) with
  | Some (base_origin, _), Some (resolved_origin, pathname) =>
      if negb (jeqb resolved_origin base_origin) then false
      else startsWith pathname (u "/v1/") || startsWith pathname (u "/api/")
  | _, _ => false
  end.

Definition requestUrl (input : jsval) : jstring :=
  match input with
  | VStr s => s
  | _ =>
      if truthy input && typeof_object input then
        match prop input (u "url"), prop input (u "href") with
        | VStr s, _ => s
        | _, VStr s => s
        | _, _ => []
        end
      else []
  end.

(** An error is read by its name alone; undefined has none. *)
Definition isConnectionFailure (error : jsval) : bool :=
  negb (bool_decide (prop error (u "name") = VStr (u "AbortError"))).

(** ** The judgement *)

Record ConnectionSnapshot := {
  cs_online : bool;
  cs_failures : nat;
  cs_lastOkAt : option Z;
  cs_loadedAt : Z;
}.

Record ConnectionView := {
  cv_lost : bool;
  cv_dataAt : Z;
}.
#[export] Instance ConnectionView_eq_dec : EqDecision ConnectionView.
Proof. solve_decision. Defined.

Definition connectionView (s : ConnectionSnapshot) : ConnectionView :=
  {| cv_lost := negb (cs_online s) || (LOST_AFTER_FAILURES <=? cs_failures s)%nat;
     cv_dataAt := match cs_lastOkAt s with
                  | Some t => if (cs_loadedAt s <? t)%Z then t else cs_loadedAt s
                  | None => cs_loadedAt s
                  end |}.

(** [String(n).padStart(2, "0")] of the two parts of a clock. *)
Definition two_digits (n : N) : jstring := [48 + n / 10; 48 + n mod 10]%N.
Definition formatClock (hours minutes : N) : jstring :=
  two_digits hours ++ u ":" ++ two_digits minutes.

(** ** The monitor

    The variables of [createConnectionMonitor]: [polling] says whether
    [cancelProbes] is set, [inflight] the requests it started and has not
    heard of yet, [told] what the listeners were told, newest first. *)

Inductive origin_of_request := Probe | WatchedFetch.

Record monitor := {
  mo_online : bool;
  mo_failures : nat;
  mo_lastOkAt : option Z;
  mo_loadedAt : Z;
  mo_stopped : bool;
  mo_polling : bool;
  mo_last : ConnectionView;
  mo_listeners : list nat;
  mo_inflight : gmap nat origin_of_request;
  mo_told : list (nat * ConnectionView);
}.

Definition snapshot (m : monitor) : ConnectionSnapshot :=
  {| cs_online := mo_online m; cs_failures := mo_failures m; cs_lastOkAt := mo_lastOkAt m;
     cs_loadedAt := mo_loadedAt m |}.

(** [schedule()]: the polling that belongs to [last]. *)
Definition schedule (m : monitor) : monitor :=
  if mo_stopped m then m else
  {| mo_online := mo_online m; mo_failures := mo_failures m; mo_lastOkAt := mo_lastOkAt m;
     mo_loadedAt := mo_loadedAt m; mo_stopped := mo_stopped m;
     mo_polling := if cv_lost (mo_last m) && negb (mo_polling m) then true
                   else if negb (cv_lost (mo_last m)) && mo_polling m then false
                   else mo_polling m;
     mo_last := mo_last m; mo_listeners := mo_listeners m; mo_inflight := mo_inflight m;
     mo_told := mo_told m |}.

(** [publish()]. *)
Definition publish (m : monitor) : monitor :=
  let next := connectionView (snapshot m) in
  let changed := negb (Bool.eqb (cv_lost next) (cv_lost (mo_last m)))
                 || negb (cv_dataAt next =? cv_dataAt (mo_last m))%Z in
  let m' := schedule
    {| mo_online := mo_online m; mo_failures := mo_failures m; mo_lastOkAt := mo_lastOkAt m;
       mo_loadedAt := mo_loadedAt m; mo_stopped := mo_stopped m; mo_polling := mo_polling m;
       mo_last := next; mo_listeners := mo_listeners m; mo_inflight := mo_inflight m;
       mo_told := mo_told m |} in
  if negb changed then m' else
  {| mo_online := mo_online m'; mo_failures := mo_failures m'; mo_lastOkAt := mo_lastOkAt m';
     mo_loadedAt := mo_loadedAt m'; mo_stopped := mo_stopped m'; mo_polling := mo_polling m';
     mo_last := mo_last m'; mo_listeners := mo_listeners m'; mo_inflight := mo_inflight m';
     mo_told := rev ((fun l => (l, next)) <$> mo_listeners m') ++ mo_told m' |}.

(** The three assignments followed by a [publish()]. *)
Definition set_facts (online : bool) (failures : nat) (lastOkAt : option Z) (m : monitor) : monitor :=
  {| mo_online := online; mo_failures := failures; mo_lastOkAt := lastOkAt;
     mo_loadedAt := mo_loadedAt m; mo_stopped := mo_stopped m; mo_polling := mo_polling m;
     mo_last := mo_last m; mo_listeners := mo_listeners m; mo_inflight := mo_inflight m;
     mo_told := mo_told m |}.

Definition noteReachable (now : Z) (m : monitor) : monitor :=
  publish (set_facts true 0 (Some now) m).
Definition noteUnreachable (m : monitor) : monitor :=
  publish (set_facts (mo_online m) (S (mo_failures m)) (mo_lastOkAt m) m).
Definition went_offline (m : monitor) : monitor :=
  publish (set_facts false (mo_failures m) (mo_lastOkAt m) m).

Definition with_inflight (f : gmap nat origin_of_request) (m : monitor) : monitor :=
  {| mo_online := mo_online m; mo_failures := mo_failures m; mo_lastOkAt := mo_lastOkAt m;
     mo_loadedAt := mo_loadedAt m; mo_stopped := mo_stopped m; mo_polling := mo_polling m;
     mo_last := mo_last m; mo_listeners := mo_listeners m; mo_inflight := f;
     mo_told := mo_told m |}.

Definition with_listeners (l : list nat) (m : monitor) : monitor :=
  {| mo_online := mo_online m; mo_failures := mo_failures m; mo_lastOkAt := mo_lastOkAt m;
     mo_loadedAt := mo_loadedAt m; mo_stopped := mo_stopped m; mo_polling := mo_polling m;
     mo_last := mo_last m; mo_listeners := l; mo_inflight := mo_inflight m;
     mo_told := mo_told m |}.

(** [stop()]. *)
Definition stop_monitor (m : monitor) : monitor :=
  {| mo_online := mo_online m; mo_failures := mo_failures m; mo_lastOkAt := mo_lastOkAt m;
     mo_loadedAt := mo_loadedAt m; mo_stopped := true; mo_polling := false;
     mo_last := mo_last m; mo_listeners := []; mo_inflight := mo_inflight m;
     mo_told := mo_told m |}.

(** What the code before the [return] leaves behind. *)
Definition createConnectionMonitor (online : bool) (loadedAt : Z) : monitor :=
  let s := {| cs_online := online; cs_failures := 0; cs_lastOkAt := None; cs_loadedAt := loadedAt |} in
  schedule
    {| mo_online := online; mo_failures := 0; mo_lastOkAt := None; mo_loadedAt := loadedAt;
       mo_stopped := false; mo_polling := false; mo_last := connectionView s;
       mo_listeners := []; mo_inflight := ∅; mo_told := [] |}.

(** How a request ends: a response at some moment, whatever its status, or a
    rejection with an error. *)
Inductive settled := Responded (now : Z) | Rejected (error : jsval).

Definition settle (r : settled) (m : monitor) : monitor :=
  match r with
  | Responded now => noteReachable now m
  | Rejected error => if isConnectionFailure error then noteUnreachable m else m
  end.

(** Everything that can happen to a monitor, in any order.  A probe starts on
    the poll timer, on the [online] event or on a call to [probe()], and only
    while not stopped; requests that are not watched pass by unseen. *)
Inductive mon_step : monitor -> monitor -> Prop :=
  | step_start_probe m n :
      mo_stopped m = false -> mo_inflight m !! n = None ->
      mon_step m (with_inflight (<[n := Probe]> (mo_inflight m)) m)
  | step_start_watched m n :
      mo_inflight m !! n = None ->
      mon_step m (with_inflight (<[n := WatchedFetch]> (mo_inflight m)) m)
  | step_settle m n o r :
      mo_inflight m !! n = Some o ->
      mon_step m (settle r (with_inflight (delete n (mo_inflight m)) m))
  | step_offline m :
      mo_stopped m = false -> mon_step m (went_offline m)
  | step_subscribe m l :
      mon_step m (with_listeners
        (if existsb (Nat.eqb l) (mo_listeners m) then mo_listeners m else mo_listeners m ++ [l]) m)
  | step_unsubscribe m l :
      mon_step m (with_listeners (List.filter (fun k => negb (k =? l)%nat) (mo_listeners m)) m)
  | step_stop m : mon_step m (stop_monitor m).

Definition mon_reachable (m : monitor) : Prop :=
  exists online loadedAt, rtc mon_step (createConnectionMonitor online loadedAt) m.

(** ** The monitor's invariant *)

Record mon_inv (m : monitor) : Prop := {
  mi_view : mo_last m = connectionView (snapshot m);
  mi_polling : mo_polling m = negb (mo_stopped m) && cv_lost (mo_last m);
}.

Lemma schedule_inv m :
  mo_last m = connectionView (snapshot m) -> (mo_stopped m = true -> mo_polling m = false) ->
  mon_inv (schedule m).
Proof.
  intros Hl Hp. unfold schedule. destruct (mo_stopped m) eqn:Es.
  - split; [done|]. by rewrite Es, Hp.
  - split; cbn; [done|]. by destruct (cv_lost _), (mo_polling m).
Qed.

Lemma publish_inv m :
  (mo_stopped m = true -> mo_polling m = false) -> mon_inv (publish m).
Proof.
  intros Hp. unfold publish. set (m' := schedule _).
  assert (Hi : mon_inv m') by (by apply schedule_inv).
  destruct (negb _); [done|]. destruct Hi as [H1 H2]. by split.
Qed.

Lemma mon_inv_stopped m : mon_inv m -> mo_stopped m = true -> mo_polling m = false.
Proof. intros [_ Hp] Hs. by rewrite Hp, Hs. Qed.

Lemma settle_inv r m : mon_inv m -> mon_inv (settle r m).
Proof.
  intros Hm. destruct r as [now|e]; cbn.
  - apply publish_inv. exact (mon_inv_stopped _ Hm).
  - destruct (isConnectionFailure e); [|done]. apply publish_inv. exact (mon_inv_stopped _ Hm).
Qed.

Lemma mon_inv_step m m' : mon_step m m' -> mon_inv m -> mon_inv m'.
Proof.
  assert (Hin : forall f m, mon_inv m -> mon_inv (with_inflight f m)) by (by intros f k []).
  assert (Hls : forall l m, mon_inv m -> mon_inv (with_listeners l m)) by (by intros l k []).
  intros [k n Hs Hn|k n Hn|k n o r Hn|k Hs|k l|k l|k] Hm; auto.
  - apply settle_inv. auto.
  - apply publish_inv. exact (mon_inv_stopped _ Hm).
  - destruct Hm as [Hl _]. split; cbn; [by rewrite Hl|done].
Qed.

Lemma mon_inv_reachable m : mon_reachable m -> mon_inv m.
Proof.
  intros (online & loadedAt & Hr). revert Hr.
  assert (H0 : mon_inv (createConnectionMonitor online loadedAt)) by (by apply schedule_inv).
  generalize dependent (createConnectionMonitor online loadedAt). intros k Hk Hr.
  induction Hr as [|x y z Hxy _ IH]; [done|]. apply IH. by eapply mon_inv_step.
Qed.

Lemma publish_view m : mo_last (publish m) = connectionView (snapshot m).
Proof. unfold publish, schedule. cbn. destruct (negb _), (mo_stopped m); done. Qed.

(** ** What the matcher matches *)

Lemma rstar_class p x y :
  rmatch (RStar (RClass p)) x y <->
  exists w, Forall (fun c => p c = true) w /\ x.2 = w ++ y.2 /\ y.1 = rev w ++ x.1.
Proof.
  cbn. split.
  - induction 1 as [x|x y z (c & a & Hx & Hc & ->) _ (w & Hw & H1 & H2)].
    + exists []. auto.
    + exists (c :: w). cbn in *. split; [by constructor|]. rewrite Hx, H1, H2.
      split; [done|]. by rewrite <-app_assoc.
  - intros (w & Hw & H1 & H2). revert x H1 H2.
    induction Hw as [|c w Hc Hw IH]; intros x H1 H2.
    + destruct x, y; cbn in *; subst. constructor.
    + econstructor; [exists c, (w ++ y.2); split_and!; [done|done|reflexivity]|].
      apply IH; [done|]. cbn in *. by rewrite H2, <-app_assoc.
Qed.

Lemma rplus_class p x y :
  rmatch (rplus (RClass p)) x y <->
  exists w, w <> [] /\ Forall (fun c => p c = true) w /\ x.2 = w ++ y.2 /\ y.1 = rev w ++ x.1.
Proof.
  unfold rplus. cbn [rmatch]. split.
  - intros (z & (c & a & Hx & Hc & ->) & (w & Hw & H1 & H2)%rstar_class).
    exists (c :: w). cbn in *. split_and!; [done|by constructor|congruence|].
    by rewrite H2, <-app_assoc.
  - intros ([|c w] & Hne & Hw & H1 & H2); [done|]. apply Forall_cons in Hw as [Hc Hw].
    exists (c :: x.1, w ++ y.2). split; [exists c, (w ++ y.2); auto|].
    apply rstar_class. exists w. split_and!; [done|done|]. cbn in *. by rewrite H2, <-app_assoc.
Qed.

(** One path segment with a dot and an alphanumeric extension. *)
Definition asset_segment (s : jstring) : Prop :=
  exists name ext, s = name ++ u "." ++ ext /\ name <> [] /\ (47%N ∉ name) /\ ext <> [] /\
    Forall (fun c => is_alnum c = true) ext.

Lemma not_slash_Forall s : Forall (fun c => negb (c =? 47)%N = true) s <-> (47%N ∉ s).
Proof.
  rewrite Forall_forall. split.
  - intros H Hin. specialize (H _ Hin). done.
  - intros H c Hc. apply negb_true_iff, N.eqb_neq. intros ->. done.
Qed.

Lemma exclusions_spec b s :
  (exists y, rmatch matcher_exclusions (b, s) y) <-> startsWith s (u "_next/") = true \/ asset_segment s.
Proof.
  unfold matcher_exclusions. cbn [rmatch]. rewrite startsWith_spec. split.
  - intros (y & [[H _]%rlit_match|H]); [left; by exists y.2|right].
    destruct H as (z & (name & Hn & Hf & H1 & H2)%rplus_class & w & (c & a & Hc & <-%N.eqb_eq & ->) &
                   v & (ext & He & Hx & H3 & H4)%rplus_class & [t [[Ht <-] _]]).
    cbn in *. exists name, ext. rewrite H1, Hc, H3, Ht, app_nil_r.
    by rewrite not_slash_Forall in Hf.
  - intros [[t ->]|(name & ext & -> & Hn & Hf & He & Hx)].
    + exists (rev (u "_next/") ++ b, t). left. by apply rlit_match.
    + exists (rev ext ++ 46%N :: rev name ++ b, []). right.
      exists (rev name ++ b, u "." ++ ext). split.
      { apply rplus_class. exists name. rewrite not_slash_Forall. auto. }
      exists (46%N :: rev name ++ b, ext). split; [by exists 46%N, ext|].
      exists (rev ext ++ 46%N :: rev name ++ b, []). split.
      { apply rplus_class. exists ext. cbn. by rewrite app_nil_r. }
      exists (rev ext ++ 46%N :: rev name ++ b, []). split; [done|]. done.
Qed.

Lemma middlewareRunsOn_spec p :
  middlewareRunsOn p = true <->
  exists s, p = u "/" ++ s /\ startsWith s (u "_next/") = false /\ ~ asset_segment s /\
    Forall (fun c => line_terminator c = false) s.
Proof.
  unfold middlewareRunsOn, MIDDLEWARE_MATCHER. rewrite test_spec. unfold matches_in. cbn [rseq foldr].
  split.
  - intros (a & b & y & -> & z & [Ha <-] & w & (c & s & Hc & <-%N.eqb_eq & ->) & v & [Hn <-] &
            t & (tx & Ht & H1 & _)%rstar_class & e & [He <-] & _).
    cbn in *. assert (a = []) as -> by (by destruct a as [|c' a]; [|cbn in Ha; destruct (rev a)]). exists s. rewrite Hc. split; [done|].
    split; [apply not_true_iff_false; intros Hs; apply Hn, exclusions_spec; auto|].
    split; [intros Hs; apply Hn, exclusions_spec; auto|].
    rewrite H1, He, app_nil_r. eapply Forall_impl; [exact Ht|]. intros x. apply negb_true_iff.
  - intros (s & -> & Hs & Ha & Ht). exists [], (u "/" ++ s), (rev s ++ [47%N], []).
    split; [done|]. exists ([], u "/" ++ s). split; [done|].
    exists ([47%N], s). split; [by exists 47%N, s|]. exists ([47%N], s). split.
    { split; [|done]. intros [?|?]%exclusions_spec; [congruence|done]. }
    exists (rev s ++ [47%N], []). split.
    { apply rstar_class. exists s. cbn. rewrite app_nil_r. split_and!; [|done|done].
      eapply Forall_impl; [exact Ht|]. intros x ->. done. }
    exists (rev s ++ [47%N], []). done.
Qed.

Lemma asset_no_slash s : asset_segment s -> (47%N ∉ s).
Proof.
  intros (name & ext & -> & _ & Hn & _ & He). rewrite !not_elem_of_app. split_and!; [done| |].
  - by apply (bool_decide_unpack (47%N ∉ u ".")).
  - intros Hin. rewrite Forall_forall in He. by specialize (He _ Hin).
Qed.

(** ** Properties *)

(** The gate runs on every path except build output and a single
    segment that names a file; so no path of two segments outside [_next/],
    and in particular nothing under /v1/ or /api/, is reached without it. *)
Theorem middlewareRunsOn_gates p :
  (middlewareRunsOn p = true <->
   exists s, p = u "/" ++ s /\ startsWith s (u "_next/") = false /\ ~ asset_segment s /\
     Forall (fun c => line_terminator c = false) s) /\
  (forall a b, p = u "/" ++ a ++ u "/" ++ b -> (47%N ∉ a) -> a <> u "_next" ->
     Forall (fun c => line_terminator c = false) (a ++ b) -> middlewareRunsOn p = true).
Proof.
  split; [apply middlewareRunsOn_spec|]. intros a b -> Ha Hn Hl.
  apply middlewareRunsOn_spec. exists (a ++ u "/" ++ b). split; [done|]. split_and!.
  - apply not_true_iff_false. intros [t Ht]%startsWith_spec. apply Hn.
    change (u "_next/") with (u "_next" ++ [47%N]) in Ht. rewrite <-app_assoc in Ht.
    change ([47%N] ++ t) with (47%N :: t) in Ht. change (u "/" ++ b) with (47%N :: b) in Ht.
    assert (Hs : split_on 47 (a ++ 47%N :: b) = split_on 47 (u "_next" ++ 47%N :: t)) by (by rewrite Ht).
    rewrite !split_on_app in Hs by (done || by apply (bool_decide_unpack (47%N ∉ u "_next"))).
    by injection Hs.
  - intros Hs%asset_no_slash. apply Hs. apply elem_of_app. right. by left.
  - apply Forall_app in Hl as [Hla Hlb]. apply Forall_app. split; [done|].
    apply Forall_app. split; [|done]. repeat constructor.
Qed.

(** C25. The banner and the polling agree with what is known, in every state
    the monitor can reach: the view is the judgement of its own variables,
    the connection is lost exactly when the browser is offline or two watched
    requests in a row failed, and it polls exactly while lost and not
    stopped. *)
Theorem monitor_polls_while_lost m :
  mon_reachable m ->
  mo_last m = connectionView (snapshot m) /\
  (cv_lost (mo_last m) = true <-> mo_online m = false \/ 2 <= mo_failures m) /\
  (mo_polling m = true <-> mo_stopped m = false /\ cv_lost (mo_last m) = true).
Proof.
  intros [Hv Hp]%mon_inv_reachable. split_and!; [done| |].
  - rewrite Hv. cbn. rewrite orb_true_iff, negb_true_iff. unfold LOST_AFTER_FAILURES.
    destruct (mo_failures m) as [|[|k]]; cbn; intuition lia.
  - rewrite Hp, andb_true_iff, negb_true_iff. done.
Qed.

Lemma monitor_polls_while_lost_witness :
  mo_polling (went_offline (createConnectionMonitor true 7)) = true.
Proof.
  apply (monitor_polls_while_lost (went_offline (createConnectionMonitor true 7))).
  - exists true, 7%Z. apply rtc_once. by constructor.
  - by vm_compute.
Defined.

(** The moment shown for the data is never invented: a step changes it
    only by settling a request with a response, and then to the moment of
    that response; it never lies before the page was loaded. *)
Theorem dataAt_moves_by_response m m' :
  mon_reachable m -> mon_step m m' ->
  (mo_loadedAt m <= cv_dataAt (mo_last m))%Z /\
  (cv_dataAt (mo_last m') <> cv_dataAt (mo_last m) ->
   exists n o now, mo_inflight m !! n = Some o /\
     m' = settle (Responded now) (with_inflight (delete n (mo_inflight m)) m) /\
     cv_dataAt (mo_last m') = Z.max (mo_loadedAt m) now).
Proof.
  intros [Hv _]%mon_inv_reachable Hs.
  assert (Hsame : forall k, mo_lastOkAt k = mo_lastOkAt m -> mo_loadedAt k = mo_loadedAt m ->
                  cv_dataAt (mo_last (publish k)) = cv_dataAt (mo_last m)).
  { intros k H1 H2. rewrite publish_view, Hv. cbn. by rewrite H1, H2. }
  split.
  - rewrite Hv. cbn. destruct (mo_lastOkAt m) as [t|]; [|lia].
    destruct (Z.ltb_spec (mo_loadedAt m) t); lia.
  - destruct Hs as [m n|m n|m n o [now|e] Hn|m|m l|m l|m]; try done.
    + intros _. exists n, o, now. split_and!; [done..|]. cbn [settle].
      unfold noteReachable. rewrite publish_view. cbn.
      destruct (Z.ltb_spec (mo_loadedAt m) now); lia.
    + cbn [settle]. destruct (isConnectionFailure e); [|done]. intros []. by apply Hsame.
    + intros []. by apply Hsame.
Qed.

Lemma dataAt_moves_by_response_witness :
  let m := createConnectionMonitor false 7 in
  let m1 := with_inflight (<[0 := WatchedFetch]> ∅) m in
  let m2 := settle (Responded 9) (with_inflight (delete 0 (mo_inflight m1)) m1) in
  exists n o now, mo_inflight m1 !! n = Some o /\
    m2 = settle (Responded now) (with_inflight (delete n (mo_inflight m1)) m1) /\
    cv_dataAt (mo_last m2) = Z.max 7 now.
Proof.
  intros m m1 m2. apply (dataAt_moves_by_response m1 m2).
  - exists false, 7%Z. apply rtc_once. by apply (step_start_watched m 0).
  - by apply (step_settle m1 0 WatchedFetch).
  - by vm_compute.
Defined.

(** A probe moves that moment too.  It fetches the manifest, which
    brings no fleet data; yet a page loaded at [loadedAt] and opened offline,
    on which no request for data ever succeeded, is said to show data of the
    moment its first probe was answered. *)
Theorem probe_advances_dataAt loadedAt now :
  let m0 := createConnectionMonitor false loadedAt in
  let m1 := with_inflight (<[0 := Probe]> (mo_inflight m0)) m0 in
  let m2 := settle (Responded now) (with_inflight (delete 0 (mo_inflight m1)) m1) in
  mon_step m0 m1 /\ mon_step m1 m2 /\
  cv_lost (mo_last m2) = false /\ cv_dataAt (mo_last m2) = Z.max loadedAt now.
Proof.
  intros m0 m1 m2. split_and!.
  - by apply (step_start_probe m0 0).
  - by apply (step_settle m1 0 Probe).
  - unfold m2. cbn [settle]. unfold noteReachable. by rewrite publish_view.
  - unfold m2. cbn [settle]. unfold noteReachable. rewrite publish_view. cbn.
    destruct (Z.ltb_spec loadedAt now); lia.
Qed.
