(* ===== verification/Guards.v ===== *)
(** * What stands in front of each command (lib/tokens.ts: AT_COMMAND_GUARDS,
      DEVICE_COMMAND_GUARDS, CARD_POLICY_CONFIRMATIONS)

    The ledger of confirmations: which typed AT command, which relayed
    command and which card policy edit is asked about before it is sent. *)

From Stdlib Require Import Lia.
From S2P Require Import Prelude JsString JsValue JsMap JsRegex Gateway SmsSafety.

(** [String(v)] of any value; on a string it is the string. *)
Class ToString := {
  to_string : jsval -> jstring;
  to_string_str s : to_string (VStr s) = s;
}.

Definition sample_to_string : ToString :=
  {| to_string v := match v with VStr s => s | _ => [] end; to_string_str s := eq_refl |}.

(** ** AT commands *)

Record AtCommandGuard := {
  ag_id : jstring;
  ag_label : jstring;
  ag_pattern : regex;
  ag_consequence : jstring;
}.

(** [^at\+name\s*=]. *)
Definition at_ (name : string) : list regex := [RStart; rlit_i (u "at+"); rlit_i (u name)].
Definition at_set (name : string) : list regex := at_ name ++ [rspaces; rchar 61].
Definition rcomma : regex := rchar 44.

Definition AT_COMMAND_GUARDS : list AtCommandGuard :=
  [ {| ag_id := u "usbnet";
       ag_label := u "AT+QCFG=" ++ [34%N] ++ u "usbnet" ++ [34%N] ++ u ",N";
       ag_pattern := rseq (at_set "qcfg" ++ [rspaces; rchar 34; rlit_i (u "usbnet"); rchar 34;
                                             rspaces; rcomma; rspaces; rdigits]);
       ag_consequence := u "device.atGuardUsbnet" |};
    {| ag_id := u "cfun-reset";
       ag_label := u "AT+CFUN=N,1";
       ag_pattern := rseq (at_set "cfun" ++ [rspaces; rdigits; rspaces; rcomma; rspaces; rchar 49;
                                             rspaces; REnd]);
       ag_consequence := u "device.atGuardCfunReset" |};
    {| ag_id := u "cfun-off";
       ag_label := u "AT+CFUN=0 / =4 / =7";
       ag_pattern := rseq (at_set "cfun" ++ [rspaces; ralt [rchar 48; rchar 52; rchar 55]; rspaces;
                                             ropt (rseq [rcomma; rspaces; rchar 48; rspaces]); REnd]);
       ag_consequence := u "device.atGuardCfunOff" |};
    {| ag_id := u "cops-manual";
       ag_label := u "AT+COPS=1,… / =2";
       ag_pattern := rseq (at_set "cops" ++ [rspaces; ralt [rchar 49; rchar 50]; rspaces;
                                             RAlt rcomma REnd]);
       ag_consequence := u "device.atGuardCops" |};
    {| ag_id := u "crsm-write";
       ag_label := u "AT+CRSM=214/219/220,…";
       ag_pattern := rseq (at_set "crsm" ++ [rspaces; ralt [rlit (u "214"); rlit (u "219"); rlit (u "220")];
                                             RBoundary]);
       ag_consequence := u "device.atGuardCrsm" |};
    {| ag_id := u "csim";
       ag_label := u "AT+CSIM=…";
       ag_pattern := rseq (at_set "csim");
       ag_consequence := u "device.atGuardCsim" |};
    {| ag_id := u "logical-channel";
       ag_label := u "AT+CCHO / +CGLA / +CCHC";
       ag_pattern := rseq [RStart; rlit_i (u "at+");
                           ralt [rlit_i (u "ccho"); rlit_i (u "cgla"); rlit_i (u "cchc")]; RBoundary];
       ag_consequence := u "device.atGuardChannel" |};
    {| ag_id := u "nvram";
       ag_label := u "AT+QPRTPARA=…";
       ag_pattern := rseq (at_set "qprtpara");
       ag_consequence := u "device.atGuardNvram" |} ].

Definition atCommandGuard (command : jstring) : option AtCommandGuard :=
  let typed := trim command in
  List.find (fun guard => test (ag_pattern guard) typed) AT_COMMAND_GUARDS.

(** ** Relayed commands *)

Record CommandGuard := {
  cg_consequence : option jstring;
  cg_why : jstring;
}.

Record CommandGuardVariant := {
  gv_when : list (jstring * jsval);
  gv_guard : CommandGuard;
}.

Definition variant (when : list (jstring * jsval)) (consequence : option jstring) (why : string)
    : CommandGuardVariant :=
  {| gv_when := when; gv_guard := {| cg_consequence := consequence; cg_why := u why |} |}.

Definition DEVICE_COMMAND_GUARDS : list (jstring * list CommandGuardVariant) :=
  [
    (u "modem_report",
      [ variant [] None
          "a diagnostic read; it changes nothing on the module" ]);
    (u "refresh_modems",
      [ variant [] None
          "re-enumerates what the agent can already see" ]);
    (u "restart_modem",
      [ variant [] (Some (u "device.confirmRestartModem"))
          "the vowifi board's T078: this is how a module reaches +CFUN: 7, and nobody can reach the hardware to power-cycle it" ]);
    (u "reset_modem_usb",
      [ variant [] (Some (u "device.confirmResetModemUsb"))
          "the module leaves the USB bus; it arrives over USB/IP, so a stick that does not come back cannot be replugged" ]);
    (u "scan_operators",
      [ variant [] (Some (u "device.confirmScanOperators"))
          "the radio is taken away for up to three minutes; the way back is nothing, which the old shared sentence got wrong" ]);
    (u "rotate_ip",
      [ variant [] (Some (u "device.confirmRotateIp"))
          "the data session is torn down and rebuilt for a new address; the old sentence said 'off the network', which is not what this does" ]);
    (u "reregister_network",
      [ variant [] (Some (u "device.confirmReregister"))
          "detach and attach: the module is off the air until the network takes it back" ]);
    (u "set_radio",
      [ variant [(u "enabled", VBool false)] (Some (u "device.confirmRadioOff"))
          "no calls, no messages, no data until it is switched back on";
        variant [] None
          "switching the radio back on is the way back from the guarded half" ]);
    (u "set_data_network",
      [ variant [(u "enabled", VBool false)] (Some (u "device.confirmDataOff"))
          "the default bearer goes down and anything routed through this module stops";
        variant [] None
          "bringing data back up is the way back from the guarded half" ]);
    (u "rename_esim_profile",
      [ variant [] None
          "it changes a label stored on the card and nothing about the subscription; a dialog in front of renaming trains people to click through the one in front of deleting" ]);
    (u "disable_esim_profile",
      [ variant [] (Some (u "device.confirmDisableProfile"))
          "the module is left with no profile in service, so it drops off the network until another one is enabled" ]);
    (u "delete_esim_profile",
      [ variant [] (Some (u "device.confirmDeleteProfile"))
          "the only irreversible command in this catalogue: the card keeps no copy and a paid profile generally needs a fresh activation code from the operator" ]);
    (u "claim_modem_candidate",
      [ variant [] (Some (u "device.confirmClaimCandidate"))
          "approving one lets the agent write AT to a port it has only looked at, and a serial endpoint is not necessarily a modem" ]);
    (u "revoke_modem_candidate",
      [ variant [] (Some (u "device.confirmRevokeCandidate"))
          "the port stops being opened on the next pass, so a module that only answers there goes quiet; the agent refuses outright when that module is currently managed, but an operator who revoked the wrong row would watch a probe they were waiting on simply stop" ]);
    (u "register_modem",
      [ variant [] None
          "adopting a module the agent already identified changes nothing on the hardware; reading its identity is what already happened, and the list it joins is the point" ]);
    (u "unregister_modem",
      [ variant [] (Some (u "device.confirmUnregister"))
          "the module stops being polled and leaves the list; what it carried is kept, but an operator who did this by accident would see a working stick vanish" ]);
    (u "create_modem",
      [ variant [] (Some (u "device.confirmCreateModem"))
          "it writes a register entry for hardware nothing has looked at, so a mistyped IMEI becomes a module that will never appear and will be alerted about forever, with no observation anywhere to catch the typo. Discovery-then-adopt has the module's own answer to check against; this path has nothing" ]);
    (u "update_modem",
      [ variant [] None
          "it edits the adoption note and nothing else: the module keeps working through it, and the adoption date and who decided are not writable here at all. A dialog in front of correcting a sentence is how notes stay wrong" ]);
    (u "reconfirm_modem",
      [ variant [] None
          "it re-runs the adoption gates and touches no hardware: the mark is cleared only when they pass, and otherwise kept while the quarantine clock restarts. It is the first thing to press after a gate alarm, and a dialog in front of that is how people stop pressing it" ]);
    (u "read_logs",
      [ variant [] None
          "it returns the agent's own recent output and touches no module; a dialog in front of reading a log is how people stop reading logs" ]);
    (u "configure_apn",
      [ variant [] (Some (u "device.confirmConfigureApn"))
          "the module keeps a written context across a reboot, so a wrong APN takes the stick off data until somebody notices and there is no automatic way back" ]);
    (u "select_operator",
      [ variant [(u "mode", VStr (u "manual"))] (Some (u "device.confirmSelectOperator"))
          "T030: pinning a module to a PLMN that is not on the air leaves it searching for ever, and the page shows that as 'searching'";
        variant [] None
          "automatic selection is the recovery from a manual one; guarding the way back is how a dialog becomes reflex" ]);
    (u "set_usbnet_mode",
      [ variant [(u "usbnet_mode", VStr (u "rmnet"))] (Some (u "device.confirmUsbnetRmnet"))
          "rmnet keeps the QMI port, so the module comes back by itself — but it still re-enumerates on the spot";
        variant [] (Some (u "device.confirmUsbnet"))
          "every other mode removes the port the agent finds the module through, so the undo cannot travel back" ]);
    (u "send_ussd",
      [ variant [(u "stage", VStr (u "cancel"))] None
          "cancelling closes a session somebody already opened; it is the way out, not a way in";
        variant [(u "stage", VStr (u "continue"))] (Some (u "device.confirmUssdReply"))
          "T030: a menu item is a chargeable choice, and the call-forwarding menus change the subscription";
        variant [] (Some (u "device.confirmUssdSend"))
          "T030: a service code can be billed and can change the subscription; nothing asked before this card" ]);
    (u "run_at_command",
      [ variant [] None
          "decided per typed command by AT_COMMAND_GUARDS; a command that trips no entry is a read or a reversible write" ]);
    (u "list_esim_profiles",
      [ variant [] None
          "ES10c list; it reads the chip's inventory and writes nothing" ]);
    (u "read_esim_info",
      [ variant [] None
          "ES10b read-only, which is what its own heading says" ]);
    (u "retrieve_esim_notification",
      [ variant [] None
          "fetches a notification the card is already holding for delivery; it is the delivery step, not a change of state" ]);
    (u "initiate_esim_authentication",
      [ variant [] None
          "an ES9+ round trip that stops before PrepareDownload; the panel renders the evidence that it stopped" ]);
    (u "switch_esim_profile",
      [ variant [] (Some (u "esim.confirmSwitch"))
          "disable one profile and enable another: the card is off the network across the re-registration, and a switch that half-lands leaves no profile enabled" ]);
    (u "download_esim_profile",
      [ variant [] (Some (u "esim.dlWarn"))
          "writes a profile into the eUICC and cannot be undone from here; a ppr1/ppr2 profile could never be removed at all" ]) ].

Definition UNKNOWN_COMMAND : jstring := u "device.confirmUnknownCommand".

Section Commands.
Context `{ToString}.

(** [Object.entries(when).every(([field, value]) => payload[field] === value)];
    the values of the table are booleans and strings. *)
Definition variant_applies (payload : jsval) (v : CommandGuardVariant) : bool :=
  forallb (fun fv => bool_decide (prop payload fv.1 = fv.2)) (gv_when v).

(** A kind that names a member every object inherits finds that member,
    and it is not iterable. *)
Definition deviceCommandGuard (kind : jstring) (payload : jsval) : res CommandGuard :=
  let unmatched :=
    {| cg_consequence := Some UNKNOWN_COMMAND;
       cg_why := u "no variant matched, so the fallback was removed from this entry" |} in
  let by_variant (variants : list CommandGuardVariant) :=
    match List.find (variant_applies payload) variants with
    | Some v => gv_guard v
    | None => unmatched
    end in
  if jeqb kind (u "run_at_command") then
    match atCommandGuard (to_string (nullish (prop payload (u "command")) (VStr []))) with
    | Some guard =>
        Ok {| cg_consequence := Some (ag_consequence guard);
              cg_why := u "AT_COMMAND_GUARDS: " ++ ag_id guard |}
    | None =>
        match field (u "run_at_command") DEVICE_COMMAND_GUARDS with
        | Some (v :: _) => Ok (gv_guard v)
        | _ => Throw TypeError
        end
    end
  else
    match table_read DEVICE_COMMAND_GUARDS kind with
    | Own variants => Ok (by_variant variants)
    | Inherited => Throw TypeError
    | Absent =>
        Ok {| cg_consequence := Some UNKNOWN_COMMAND;
              cg_why := u "no entry in DEVICE_COMMAND_GUARDS; fail closed rather than send it unasked" |}
    end.
End Commands.

(** ** Card policy edits *)

Inductive CardPolicyEdit :=
  | EditCellular (enabled : bool)
  | EditVertical (from to : jstring)
  | EditCapability (operation : CardCapabilityOperation) (value : option bool)
  | EditAdd
  | EditRemove.

Inductive CardPolicyGuard :=
  | cellularOff | cellularOn | vertical | add | remove
  | capabilityOff | capabilityOn | capabilityClear.

(** The title and the consequence of each dialog. *)
Definition CARD_POLICY_CONFIRMATIONS (g : CardPolicyGuard) : jstring * jstring :=
  match g with
  | cellularOff => (u "cards.confirmCellularOffTitle", u "cards.confirmCellularOff")
  | cellularOn => (u "cards.confirmCellularOnTitle", u "cards.confirmCellularOn")
  | vertical => (u "cards.confirmVerticalTitle", u "cards.confirmVertical")
  | add => (u "cards.confirmAddTitle", u "cards.confirmAdd")
  | remove => (u "cards.confirmRemoveTitle", u "cards.confirmRemove")
  | capabilityOff => (u "cards.confirmCapabilityOffTitle", u "cards.confirmCapabilityOff")
  | capabilityOn => (u "cards.confirmCapabilityOnTitle", u "cards.confirmCapabilityOn")
  | capabilityClear => (u "cards.confirmCapabilityClearTitle", u "cards.confirmCapabilityClear")
  end.

Definition cardPolicyGuardFor (edit : CardPolicyEdit) : option CardPolicyGuard :=
  match edit with
  | EditCellular enabled => Some (if enabled then cellularOn else cellularOff)
  | EditVertical from to => if jeqb to from then None else Some vertical
  | EditCapability _ (Some false) => Some capabilityOff
  | EditCapability _ (Some true) => Some capabilityOn
  | EditCapability _ None => Some capabilityClear
  | EditAdd => Some add
  | EditRemove => Some remove
  end.

Definition operation_name (o : CardCapabilityOperation) : jstring :=
  match o with
  | smsSend => u "smsSend" | smsReceive => u "smsReceive" | data => u "data" | voice => u "voice"
  end.

(** The fields the edit changes; a removal has no patch. *)
Definition cardPolicyPatch (edit : CardPolicyEdit) : option (list (jstring * jsval)) :=
  match edit with
  | EditCellular enabled => Some [(u "cellularEnabled", VBool enabled)]
  | EditVertical _ to => Some [(u "vertical", VStr to)]
  | EditCapability operation value =>
      Some [(operation_name operation, from_option VBool VNull value)]
  | EditAdd => Some [(u "cellularEnabled", VBool true); (u "vertical", VStr (u "cn"))]
  | EditRemove => None
  end.

(** ** Letter case *)

(** A pattern that tells no letter from its capital. *)
Fixpoint caseless (r : regex) : Prop :=
  match r with
  | RClass p => forall c, p (ascii_upper c) = p c
  | RSeq r1 r2 | RAlt r1 r2 => caseless r1 /\ caseless r2
  | RStar r | RNot r => caseless r
  | REmpty | RStart | REnd | RBoundary => True
  end.

Definition up_pos (x : position) : position := (ascii_upper <$> x.1, ascii_upper <$> x.2).

Lemma upper_of_lower c : is_lower c = true -> is_upper (c - 32) = true /\ (97 <= c)%N.
Proof.
  unfold is_lower, is_upper. intros H. bool_solve. rewrite andb_true_iff, !N.leb_le in *. lia.
Qed.

Lemma is_word_upper c : is_word (ascii_upper c) = is_word c.
Proof.
  unfold ascii_upper. destruct (is_lower c) eqn:E; [|done].
  unfold is_word, is_alnum. destruct (upper_of_lower c E) as [-> _]. by rewrite E, !orb_true_r.
Qed.

Lemma at_boundary_up x : at_boundary (up_pos x) = at_boundary x.
Proof.
  unfold at_boundary, up_pos. destruct x as [[|c b] [|d a]]; cbn; by rewrite ?is_word_upper.
Qed.

Lemma fmap_concat_ends (f : position -> list position) (g : position -> list position) l :
  (forall x, f (up_pos x) = up_pos <$> g x) ->
  concat (f <$> (up_pos <$> l)) = up_pos <$> concat (g <$> l).
Proof.
  intros Hf. induction l as [|x l IH]; [done|]. cbn. rewrite IH, Hf. by rewrite fmap_app.
Qed.

Lemma star_ends_up (f g : position -> list position) n x :
  (forall x, f (up_pos x) = up_pos <$> g x) ->
  star_ends f n (up_pos x) = up_pos <$> star_ends g n x.
Proof.
  intros Hf. revert x. induction n as [|n IH]; intros x; [done|]. cbn [star_ends fmap list_fmap].
  f_equal. rewrite <-fmap_concat_ends with (f := star_ends f n) by done. f_equal. f_equal.
  rewrite Hf. induction (g x) as [|y l IHl]; [done|]. cbn [fmap list_fmap List.filter].
  assert (Hlt : (length (up_pos y).2 <? length (up_pos x).2)%nat = (length y.2 <? length x.2)%nat)
    by (cbn; by rewrite !length_fmap).
  change (list_fmap position position up_pos l) with (up_pos <$> l).
  rewrite IHl, Hlt. by destruct (length y.2 <? length x.2)%nat.
Qed.

Lemma ends_up r x : caseless r -> ends r (up_pos x) = up_pos <$> ends r x.
Proof.
  revert x. induction r as [|p|r1 IH1 r2 IH2|r1 IH1 r2 IH2|r IH| | | |r IH]; intros x Hr; cbn in Hr.
  - done.
  - destruct x as [b [|c a]]; cbn; [done|]. rewrite Hr. by destruct (p c).
  - destruct Hr as [H1 H2]. cbn. rewrite IH1 by done. apply fmap_concat_ends. auto.
  - destruct Hr as [H1 H2]. cbn. rewrite IH1, IH2 by done. by rewrite fmap_app.
  - cbn. rewrite length_fmap. apply star_ends_up. auto.
  - by destruct x as [[|c b] a].
  - by destruct x as [b [|c a]].
  - cbn. rewrite at_boundary_up. by destruct (at_boundary x).
  - cbn. rewrite IH by done. by destruct (ends r x).
Qed.

Lemma test_up r s : caseless r -> test r (ascii_upper <$> s) = test r s.
Proof.
  intros Hr. unfold test.
  assert (H : forall before, test_from r (ascii_upper <$> before) (ascii_upper <$> s)
                             = test_from r before s).
  { induction s as [|c s IH]; intros before; cbn [fmap list_fmap test_from].
    - f_equal. unfold matches_at. pose proof (ends_up r (before, []) Hr) as He. unfold up_pos in He.
      cbn in He. rewrite He. by destruct (ends r (before, [])).
    - rewrite <-IH. f_equal. unfold matches_at.
      pose proof (ends_up r (before, c :: s) Hr) as He. unfold up_pos in He. cbn in He.
      change (list_fmap N N ascii_upper s) with (ascii_upper <$> s) in He. rewrite He. by destruct (ends r (before, c :: s)). }
  apply (H []).
Qed.

Lemma ascii_upper_idem c : ascii_upper (ascii_upper c) = ascii_upper c.
Proof.
  unfold ascii_upper at 2. destruct (is_lower c) eqn:E.
  - unfold ascii_upper. rewrite E. unfold is_lower in *. bool_solve. rewrite !N.leb_le in *.
    assert (H1 : ((97 <=? c - 32) && (c - 32 <=? 122))%N = false).
    { apply andb_false_iff. left. apply N.leb_gt. lia. }
    by rewrite H1.
  - done.
Qed.

(** A character no letter folds to. *)
Lemma rchar_caseless c : is_lower c = false -> is_upper c = false -> caseless (rchar c).
Proof.
  intros Hl Hu d. cbn. unfold ascii_upper. destruct (is_lower d) eqn:E; [|done].
  destruct (upper_of_lower d E) as [Hd _].
  destruct (N.eqb_spec c (d - 32)), (N.eqb_spec c d); subst; congruence.
Qed.

Lemma rchar_i_caseless c : caseless (rchar_i c).
Proof. intros d. by rewrite ascii_upper_idem. Qed.

Lemma rlit_i_caseless s : caseless (rlit_i s).
Proof. induction s as [|c s IH]; [done|]. split; [apply rchar_i_caseless|done]. Qed.

Definition lower_letters : list N := N.of_nat <$> seq 97 26.

Lemma lower_letters_all c : is_lower c = true -> c ∈ lower_letters.
Proof.
  unfold is_lower, lower_letters. intros H. bool_solve. rewrite !N.leb_le in *.
  apply list_elem_of_fmap. exists (N.to_nat c). rewrite N2Nat.id. split; [done|].
  apply elem_of_seq. lia.
Qed.

(** A class that holds no letter at all. *)
Lemma class_caseless p :
  forallb (fun c => negb (p c) && negb (p (c - 32)%N)) lower_letters = true -> caseless (RClass p).
Proof.
  intros Hp c. unfold ascii_upper. destruct (is_lower c) eqn:E; [|done].
  rewrite forallb_elem in Hp. specialize (Hp c (lower_letters_all c E)).
  bool_solve. congruence.
Qed.

Lemma spaces_caseless : caseless rspaces.
Proof. apply (class_caseless is_space). by vm_compute. Qed.
Lemma digits_caseless : caseless rdigits.
Proof. split; apply (class_caseless is_digit); by vm_compute. Qed.

Lemma guards_caseless : Forall (fun g => caseless (ag_pattern g)) AT_COMMAND_GUARDS.
Proof.
  assert (Hi : forall n, caseless (rlit_i n)) by (intros; apply rlit_i_caseless).
  assert (Hc : forall c, is_lower c = false -> is_upper c = false -> caseless (rchar c))
    by (intros; by apply rchar_caseless).
  pose proof spaces_caseless as Hs. pose proof (proj1 digits_caseless) as Hd.
  pose proof rchar_i_caseless as Hr.
  apply Forall_forall. intros g Hg. unfold AT_COMMAND_GUARDS in Hg.
  repeat (apply elem_of_cons in Hg as [->|Hg]); [..|by apply not_elem_of_nil in Hg];
    unfold ag_pattern, at_set, at_, rseq, ralt, ropt, rcomma, rlit;
    cbn [app foldr foldl]; repeat split; first [exact I | apply Hr | exact Hs | exact Hd | by apply Hc].
Qed.

Lemma is_space_upper c : is_space (ascii_upper c) = is_space c.
Proof.
  assert (H : caseless (RClass is_space)) by (apply class_caseless; by vm_compute).
  apply H.
Qed.

Lemma trim_start_upper s : trim_start (ascii_upper <$> s) = ascii_upper <$> trim_start s.
Proof.
  induction s as [|c s IH]; [done|]. cbn. rewrite is_space_upper. by destruct (is_space c).
Qed.

Lemma trim_upper s : trim (ascii_upper <$> s) = ascii_upper <$> trim s.
Proof.
  unfold trim, trim_end. rewrite trim_start_upper.
  change (ascii_upper <$> ?l) with (map ascii_upper l). rewrite <-map_rev.
  change (map ascii_upper ?l) with (ascii_upper <$> l). rewrite trim_start_upper.
  by rewrite <-(map_rev ascii_upper).
Qed.

Lemma trim_start_spaces a s : Forall (fun c => is_space c = true) a -> trim_start (a ++ s) = trim_start s.
Proof. induction 1 as [|c a Hc _ IH]; [done|]. cbn. by rewrite Hc. Qed.

Lemma trim_start_app_spaces s b :
  Forall (fun c => is_space c = true) b -> trim_end (trim_start (s ++ b)) = trim_end (trim_start s).
Proof.
  intros Hb. induction s as [|c s IH]; cbn.
  - rewrite <-(app_nil_r b), trim_start_spaces by done. done.
  - destruct (is_space c); [done|]. unfold trim_end.
    change (c :: s ++ b) with ((c :: s) ++ b). rewrite rev_app_distr.
    by rewrite trim_start_spaces by (by apply Forall_rev).
Qed.

Lemma trim_spaces a s b :
  Forall (fun c => is_space c = true) a -> Forall (fun c => is_space c = true) b ->
  trim (a ++ s ++ b) = trim s.
Proof. intros Ha Hb. unfold trim. by rewrite trim_start_spaces, trim_start_app_spaces. Qed.

Lemma find_ext {A} (p q : A -> bool) l :
  (forall x, x ∈ l -> p x = q x) -> List.find p l = List.find q l.
Proof.
  induction l as [|x l IH]; intros H; [done|]. cbn. rewrite (H x) by left.
  rewrite IH; [done|]. intros y Hy. apply H. by right.
Qed.

(** ** Matches *)

Lemma rseq_cons r rs x y z : rmatch r x y -> rmatch (rseq rs) y z -> rmatch (rseq (r :: rs)) x z.
Proof. intros Hr Hrs. by exists y. Qed.

Lemma rlit_i_self s b a : rmatch (rlit_i s) (b, s ++ a) (rev s ++ b, a).
Proof.
  revert b. induction s as [|c s IH]; intros b; [done|].
  exists (c :: b, s ++ a). split; [exists c, (s ++ a); by rewrite N.eqb_refl|].
  specialize (IH (c :: b)). cbn [rev]. by rewrite <-app_assoc.
Qed.

Lemma rchar_self c b a : rmatch (rchar c) (b, c :: a) (c :: b, a).
Proof. exists c, a. by rewrite N.eqb_refl. Qed.

Lemma rspaces_none x : rmatch rspaces x x.
Proof. apply rtc_refl. Qed.

Lemma rdigits_all ds b a :
  ds <> [] -> Forall (fun c => is_digit c = true) ds -> rmatch rdigits (b, ds ++ a) (rev ds ++ b, a).
Proof.
  intros Hn Hd. destruct Hd as [|d ds Hd Hds]; [done|]. exists (d :: b, ds ++ a).
  split; [by exists d, (ds ++ a)|]. clear Hn. cbn [rev]. rewrite <-app_assoc. cbn [app].
  generalize (d :: b). induction Hds as [|e ds He _ IH]; intros w; [apply rtc_refl|].
  eapply rtc_l; [by exists e, (ds ++ a)|]. specialize (IH (e :: w)).
  cbn [rev]. by rewrite <-app_assoc.
Qed.

Lemma matched_is_guarded g s y :
  g ∈ AT_COMMAND_GUARDS -> rmatch (ag_pattern g) ([], trim s) y -> atCommandGuard s <> None.
Proof.
  intros Hg Hm Hn. unfold atCommandGuard in Hn.
  pose proof (List.find_none _ _ Hn g (proj1 (list_elem_of_In _ _) Hg)) as Hf. cbn in Hf.
  assert (Ht : test (ag_pattern g) (trim s) = true); [|congruence].
  apply test_spec. by exists [], (trim s), y.
Qed.

(** The end of a text that ends in no white space is kept. *)
Lemma trim_kept_prefix d p c rest :
  is_space d = false -> is_space c = false ->
  exists w, trim ((d :: p) ++ [c] ++ rest) = (d :: p) ++ [c] ++ w.
Proof.
  intros Hd Hc.
  exists (rev (trim_start (rev rest))). unfold trim.
  replace (trim_start ((d :: p) ++ [c] ++ rest)) with (((d :: p) ++ [c]) ++ rest)
    by (cbn; by rewrite Hd, <-app_assoc).
  assert (Hgo : forall a b, trim_start b = b -> trim_start (a ++ b) = trim_start a ++ b).
  { intros a b Hb. induction a as [|e a IH]; [done|]. cbn. by destruct (is_space e). }
  unfold trim_end. rewrite rev_app_distr, Hgo.
  - by rewrite rev_app_distr, rev_involutive, <-app_assoc.
  - rewrite rev_app_distr. cbn. by rewrite Hc.
Qed.

Lemma csim_guarded apdu : atCommandGuard (u "at+csim=" ++ apdu) <> None.
Proof.
  destruct (trim_kept_prefix 97%N (u "t+csim") 61%N apdu) as [w Hw]; [done..|].
  change (u "at+csim=" ++ apdu) with ((97%N :: u "t+csim") ++ [61%N] ++ apdu).
  eapply matched_is_guarded; [do 5 right; left|]. rewrite Hw.
  change ((97%N :: u "t+csim") ++ [61%N] ++ w) with (u "at+" ++ u "csim" ++ 61%N :: w).
  eapply rseq_cons; [by split|]. do 2 (eapply rseq_cons; [apply rlit_i_self|]).
  eapply rseq_cons; [apply rspaces_none|]. eapply rseq_cons; [apply rchar_self|]. exact eq_refl.
Qed.

Lemma trim_id s c w d : s = c :: w -> is_space c = false -> last s = Some d -> is_space d = false ->
  trim s = s.
Proof.
  intros -> Hc Hl Hd. unfold trim. cbn [trim_start]. rewrite Hc. unfold trim_end.
  apply last_Some in Hl as [l ->]. rewrite rev_app_distr. cbn. rewrite Hd.
  cbn [rev]. by rewrite rev_involutive.
Qed.

Lemma cfun_reset_guarded ds :
  ds <> [] -> Forall (fun c => is_digit c = true) ds ->
  atCommandGuard (u "at+cfun=" ++ ds ++ u ",1") <> None.
Proof.
  intros Hn Hd. eapply matched_is_guarded; [right; left|].
  rewrite (trim_id _ 97%N (u "t+cfun=" ++ ds ++ u ",1") 49%N); [|done|done| |done].
  - change (u "at+cfun=" ++ ds ++ u ",1") with (u "at+" ++ u "cfun" ++ 61%N :: ds ++ [44; 49]%N).
    eapply rseq_cons; [by split|]. do 2 (eapply rseq_cons; [apply rlit_i_self|]).
    eapply rseq_cons; [apply rspaces_none|]. eapply rseq_cons; [apply rchar_self|].
    eapply rseq_cons; [apply rspaces_none|]. eapply rseq_cons; [by apply rdigits_all|].
    eapply rseq_cons; [apply rspaces_none|]. eapply rseq_cons; [apply rchar_self|].
    eapply rseq_cons; [apply rspaces_none|]. eapply rseq_cons; [apply rchar_self|].
    eapply rseq_cons; [apply rspaces_none|]. eapply rseq_cons; [by split|]. exact eq_refl.
  - change (u ",1") with ([44%N] ++ [49%N]). by rewrite !app_assoc, last_snoc.
Qed.

(** ** Properties *)

(** The AT table does not depend on how a command is typed: capitals
    and surrounding white space never take a command past its guard.  A reset
    of the module is guarded for every function number, and a raw command to
    the card whatever its bytes; the recoveries stay unguarded, a plain
    AT+CFUN=1 and the network search. *)
Theorem atCommandGuard_typing s :
  atCommandGuard (ascii_upper <$> s) = atCommandGuard s /\
  (forall a b, Forall (fun c => is_space c = true) a -> Forall (fun c => is_space c = true) b ->
     atCommandGuard (a ++ s ++ b) = atCommandGuard s) /\
  (forall ds, ds <> [] -> Forall (fun c => is_digit c = true) ds ->
     atCommandGuard (u "at+cfun=" ++ ds ++ u ",1") <> None) /\
  (forall apdu, atCommandGuard (u "at+csim=" ++ apdu) <> None) /\
  atCommandGuard (u "AT+CFUN=1") = None /\ atCommandGuard (u "at+cops=?") = None.
Proof.
  split_and!; [| | | |by vm_compute..].
  - unfold atCommandGuard. rewrite trim_upper. apply find_ext. intros g Hg. apply test_up.
    pose proof guards_caseless as H. rewrite Forall_forall in H. auto.
  - intros a b Ha Hb. unfold atCommandGuard. by rewrite trim_spaces.
  - apply cfun_reset_guarded.
  - apply csim_guarded.
Qed.

(** The kinds sent without a question whatever they carry. *)
Definition unasked_kinds : list jstring :=
  [ u "modem_report"; u "refresh_modems"; u "rename_esim_profile"; u "register_modem";
    u "update_modem"; u "reconfirm_modem"; u "read_logs"; u "list_esim_profiles";
    u "read_esim_info"; u "retrieve_esim_notification"; u "initiate_esim_authentication" ].

Section Commands.
Context `{ToString}.

(** The commands that go out unasked: reads, notes on the register, the way
    back from a guarded half, and an AT command that trips no entry. *)
Definition unasked (kind : jstring) (payload : jsval) : bool :=
  existsb (jeqb kind) unasked_kinds
  || jeqb kind (u "set_radio") && negb (bool_decide (prop payload (u "enabled") = VBool false))
  || jeqb kind (u "set_data_network") && negb (bool_decide (prop payload (u "enabled") = VBool false))
  || jeqb kind (u "select_operator") && negb (bool_decide (prop payload (u "mode") = VStr (u "manual")))
  || jeqb kind (u "send_ussd") && bool_decide (prop payload (u "stage") = VStr (u "cancel"))
  || jeqb kind (u "run_at_command")
     && bool_decide (ag_id <$> atCommandGuard (to_string (nullish (prop payload (u "command")) (VStr [])))
                     = None).

Lemma known_kind kind payload variants v :
  field kind DEVICE_COMMAND_GUARDS = Some variants ->
  jeqb kind (u "run_at_command") = false ->
  List.find (variant_applies payload) variants = v ->
  from_option (fun v => bool_decide (cg_consequence (gv_guard v) = None)) false v = unasked kind payload
  /\ v <> None.
Proof.
  intros Hf Hn <-. apply map_get_elem in Hf.
  2: { apply (bool_decide_unpack _). by vm_compute. }
  unfold DEVICE_COMMAND_GUARDS in Hf.
  repeat (apply elem_of_cons in Hf as [[= -> ->]|Hf]); [..|by apply not_elem_of_nil in Hf].
  all: unfold unasked, variant_applies, variant; cbn [List.find gv_when forallb existsb unasked_kinds].
  all: js_names; cbn [andb orb negb]; cbn [fst snd gv_guard cg_consequence from_option].
  all: repeat case_bool_decide; cbn; (done || congruence).
Qed.


Lemma guard_find kind payload variants :
  field kind DEVICE_COMMAND_GUARDS = Some variants -> jeqb kind (u "run_at_command") = false ->
  exists v, List.find (variant_applies payload) variants = Some v /\
    (cg_consequence (gv_guard v) = None <-> unasked kind payload = true).
Proof.
  intros Hf Hn. destruct (known_kind kind payload variants _ Hf Hn eq_refl) as [Hu Hs].
  destruct (List.find _ variants) as [v|]; [|done]. exists v. split; [done|].
  rewrite <-Hu. cbn. by rewrite bool_decide_eq_true.
Qed.

(** A listed kind always has an answer. *)
Lemma guard_known kind payload :
  is_some (field kind DEVICE_COMMAND_GUARDS) = true -> jeqb kind (u "run_at_command") = false ->
  exists g, deviceCommandGuard kind payload = Ok g /\
    (cg_consequence g = None <-> unasked kind payload = true).
Proof.
  intros Hk Hn. destruct (field kind DEVICE_COMMAND_GUARDS) as [variants|] eqn:Ef; [|done].
  destruct (guard_find kind payload variants Ef Hn) as (v & Hv & Hu).
  exists (gv_guard v). split; [|done]. unfold deviceCommandGuard, table_read. by rewrite Hn, Ef, Hv.
Qed.

(** An AT command is asked about by what is typed. *)
Lemma guard_at payload :
  exists g, deviceCommandGuard (u "run_at_command") payload = Ok g /\
    cg_consequence g
    = ag_consequence <$> atCommandGuard (to_string (nullish (prop payload (u "command")) (VStr []))).
Proof.
  unfold deviceCommandGuard. rewrite jeqb_refl. destruct (atCommandGuard _) as [g|]; cbn; by eexists.
Qed.

(** No entry of the table, and not the kind that is routed by its text, is
    the name of an inherited member. *)
Lemma inherited_unlisted kind :
  kind ∈ object_prototype -> jeqb kind (u "run_at_command") = false /\ field kind DEVICE_COMMAND_GUARDS = None.
Proof.
  assert (Ha : forallb (fun k => negb (jeqb k (u "run_at_command")) && negb (is_some (field k DEVICE_COMMAND_GUARDS)))
    object_prototype = true) by (by vm_compute).
  intros Hk%list_elem_of_In. pose proof (proj1 (forallb_forall _ _) Ha kind Hk) as [Hr Hn]%andb_true_iff.
  split; [by apply negb_true_iff|]. by destruct (field kind DEVICE_COMMAND_GUARDS).
Qed.

(** C22. Every command kind has an answer and an unknown one is asked
    about: the lookup throws exactly for a kind that names a member every
    object inherits (and nothing is sent); for any other it returns a guard,
    which lets a command out unasked exactly when it is on the list of
    harmless kinds, is the way back from a guarded half, or is an AT
    command that trips no entry. *)
Theorem deviceCommandGuard_closed kind payload :
  (deviceCommandGuard kind payload = Throw TypeError <-> kind ∈ object_prototype) /\
  match deviceCommandGuard kind payload with
  | Throw _ => kind ∈ object_prototype
  | Ok g =>
      (cg_consequence g = None <-> unasked kind payload = true) /\
      (field kind DEVICE_COMMAND_GUARDS = None -> cg_consequence g = Some UNKNOWN_COMMAND)
  end.
Proof.
  split; [split|].
  { destruct (deviceCommandGuard kind payload) eqn:E; [done|]. intros _. revert E. unfold deviceCommandGuard, table_read.
    destruct (jeqb kind (u "run_at_command")); [by destruct (atCommandGuard _)|].
    destruct (field kind DEVICE_COMMAND_GUARDS) as [variants|]; [by destruct (List.find _ variants)|].
    destruct (existsb (jeqb kind) object_prototype) eqn:Eo; [|done].
    by apply existsb_elem in Eo as (k & Hk & <-%jeqb_eq). }
  { intros Hk. destruct (inherited_unlisted kind Hk) as [Hr Hn]. unfold deviceCommandGuard, table_read. rewrite Hr, Hn.
    replace (existsb (jeqb kind) object_prototype) with true; [done|]. symmetry. apply existsb_elem.
    exists kind. split; [done|apply jeqb_refl]. }
  unfold deviceCommandGuard.
  destruct (jeqb kind (u "run_at_command")) eqn:Er.
  - apply jeqb_eq in Er as ->. set (g := atCommandGuard _).
    assert (Hu : unasked (u "run_at_command") payload = bool_decide (ag_id <$> g = None)).
    { unfold unasked. js_names. cbn [orb andb existsb unasked_kinds]. js_names. done. }
    destruct g as [g|]; cbn; rewrite Hu; cbn; split; done.
  - unfold table_read. destruct (field kind DEVICE_COMMAND_GUARDS) as [variants|] eqn:Ef.
    + destruct (guard_find kind payload variants Ef Er) as (v & -> & Hv). done.
    + assert (Hn : unasked kind payload = false).
      { assert (Ha : forall k, is_some (field k DEVICE_COMMAND_GUARDS) = true -> jeqb kind k = false).
        { intros k Hk. apply jeqb_neq. intros ->. by rewrite Ef in Hk. }
        unfold unasked, unasked_kinds. cbn [existsb].
        rewrite !Ha by (by vm_compute). done. }
      destruct (existsb (jeqb kind) object_prototype) eqn:Eo.
      * apply existsb_elem in Eo as (k & Hk & <-%jeqb_eq). done.
      * cbn. rewrite Hn. done.
Qed.
End Commands.

(** A card policy edit is either asked about or not sent at all, and it
    is not sent exactly when it changes nothing; what it sends is the field
    it edits, under that field's name, and no other. *)
Theorem cardPolicy_asked edit :
  (cardPolicyGuardFor edit = None <-> exists v, edit = EditVertical v v) /\
  match edit with
  | EditCellular b => cardPolicyPatch edit = Some [(u "cellularEnabled", VBool b)] /\
      cardPolicyGuardFor edit = Some (if b then cellularOn else cellularOff)
  | EditVertical _ to => cardPolicyPatch edit = Some [(u "vertical", VStr to)]
  | EditCapability op v =>
      cardPolicyPatch edit = Some [(operation_name op, of_bool v)] /\
      (cardPolicyGuardFor edit = Some capabilityOff <-> v = Some false) /\
      (cardPolicyGuardFor edit = Some capabilityClear <-> v = None)
  | EditAdd => cardPolicyPatch edit <> None
  | EditRemove => cardPolicyPatch edit = None
  end.
Proof.
  split.
  - destruct edit as [b|from to|op [[]|]| |]; cbn; try (split; [done|by intros [? ?]]).
    destruct (jeqb to from) eqn:E; [apply jeqb_eq in E as ->; naive_solver|].
    apply jeqb_neq in E. split; [done|]. intros [v [= -> ->]]. done.
  - by destruct edit as [b|from to|op [[]|]| |]; cbn.
Qed.
