(* ===== verification/Settings.v ===== *)
(** * The settings form (lib/tokens.ts: from SETTINGS_FIELD_KINDS on, and
      secretInputProps)

    Which boxes a section has, what they hold, and the document a save
    sends. *)

From Stdlib Require Import Lia.
From S2P Require Import Prelude JsString JsValue JsMap Gateway Guards.

(** [Number(v)]; a number is itself. *)
Class ToNumber := {
  to_number : jsval -> num;
  to_number_num n : to_number (VNum n) = n;
}.

Inductive SettingsFieldKind := KText | KSecret | KNumber | KBoolean | KList.
#[export] Instance SettingsFieldKind_eq_dec : EqDecision SettingsFieldKind.
Proof. solve_decision. Defined.

Record SettingsField := {
  sf_path : jstring;
  sf_kind : SettingsFieldKind;
}.

Definition setting (path : string) (kind : SettingsFieldKind) : SettingsField :=
  {| sf_path := u path; sf_kind := kind |}.

Definition NOTIFICATION_FIELDS : list SettingsField :=
  [ setting "webhook.enabled" KBoolean;
    setting "webhook.urls" KList;
    setting "webhook.secret" KSecret;
    setting "email.enabled" KBoolean;
    setting "email.smtp_host" KText;
    setting "email.smtp_port" KNumber;
    setting "email.username" KText;
    setting "email.password" KSecret;
    setting "email.from_address" KText;
    setting "email.to_addresses" KList;
    setting "bark.enabled" KBoolean;
    setting "bark.urls" KList;
    setting "telegram.enabled" KBoolean;
    setting "telegram.chat_id" KText;
    setting "telegram.bot_token" KSecret;
    setting "telegram.bot.enabled" KBoolean;
    setting "telegram.bot.operators" KList;
    setting "feishu.enabled" KBoolean;
    setting "feishu.webhook_url" KText;
    setting "feishu.secret" KSecret;
    setting "wecom.enabled" KBoolean;
    setting "wecom.webhook_url" KText;
    setting "pushplus.enabled" KBoolean;
    setting "pushplus.token" KSecret;
    setting "pushplus.topic" KText ].

Definition SMS_FIELDS : list SettingsField := [setting "hourly_limit" KNumber].
Definition DEVICE_FIELDS : list SettingsField := [setting "device_quota" KNumber].
Definition SECURITY_FIELDS : list SettingsField := [setting "session_ttl_hours" KNumber].

(** [field.path.split(".")]. *)
Definition keys_of (path : jstring) : list jstring := split_on 46 path.

(** [[...new Set(fields.map(field => field.path.split(".")[0]))]]. *)
Definition notificationChannels (fields : list SettingsField) : list jstring :=
  (put_all (fun _ _ => true)
     ((fun f => let k := default [] (head (keys_of (sf_path f))) in (k, k)) <$> fields) []).*1.

(** ** Groups *)

Record SettingsGroup := {
  sg_name : option jstring;
  sg_fields : list SettingsField;
  sg_enabledPath : option jstring;
}.

(** [parts.length > 1 ? parts[0] : null]. *)
Definition group_name (f : SettingsField) : option jstring :=
  match keys_of (sf_path f) with
  | name :: _ :: _ => Some name
  | _ => None
  end.

Definition same_group (a b : option jstring) : bool := bool_decide (a = b).

(** [order] and [byName] together: the groups met so far, with their fields. *)
Fixpoint add_to_group (name : option jstring) (f : SettingsField)
    (groups : list (option jstring * list SettingsField))
    : list (option jstring * list SettingsField) :=
  match groups with
  | [] => [(name, [f])]
  | (n, own) :: groups =>
      if same_group name n then (n, own ++ [f]) :: groups
      else (n, own) :: add_to_group name f groups
  end.

Definition enabled_switch (name : option jstring) (own : list SettingsField) : option jstring :=
  match name with
  | None => None
  | Some n =>
      let enabledPath := n ++ u ".enabled" in
      if existsb (fun f => jeqb (sf_path f) enabledPath && bool_decide (sf_kind f = KBoolean)) own
      then Some enabledPath else None
  end.

Definition groupSettingsFields (fields : list SettingsField) : list SettingsGroup :=
  (fun g => {| sg_name := g.1; sg_fields := g.2; sg_enabledPath := enabled_switch g.1 g.2 |})
    <$> fold_left (fun groups f => add_to_group (group_name f) f groups) fields [].

(** ** Values *)

(** [values[path]]. *)
Definition value_at (values : list (jstring * jsval)) (path : jstring) : jsval :=
  default VUndef (field path values).

Definition settingsGroupIsOn (group : SettingsGroup) (values : list (jstring * jsval)) : bool :=
  match sg_enabledPath group with
  | Some path => isTrue (value_at values path)
  | None => false
  end.

Fixpoint read_keys (cursor : jsval) (keys : list jstring) : jsval :=
  match keys with
  | [] => cursor
  | key :: keys => if not_object cursor then VUndef else read_keys (prop cursor key) keys
  end.

Definition readSettingValue (source : jsval) (path : jstring) : jsval :=
  read_keys source (keys_of path).

(** [writeSettingValue]: every key but the last is entered, made an object
    where it is not one.  A named property put on an array is not part of
    the JSON that is sent, so the array is left as it is. *)
Fixpoint write_keys (keys : list jstring) (value : jsval) (doc : list (jstring * jsval))
    : list (jstring * jsval) :=
  match keys with
  | [] => doc
  | [key] => map_set key value doc
  | key :: keys =>
      match field key doc with
      | Some (VObj fs) => map_set key (VObj (write_keys keys value fs)) doc
      | Some (VArr _) => doc
      | _ => map_set key (VObj (write_keys keys value [])) doc
      end
  end.

Definition writeSettingValue (document : list (jstring * jsval)) (path : jstring) (value : jsval)
    : list (jstring * jsval) := write_keys (keys_of path) value document.

(** [s.split(/[\n,]/)]. *)
Fixpoint split_entries (s : jstring) : list jstring :=
  match s with
  | [] => [[]]
  | c :: s =>
      if (c =? 10)%N || (c =? 44)%N then [] :: split_entries s
      else match split_entries s with
           | w :: ws => (c :: w) :: ws
           | [] => [[c]]
           end
  end.

Definition REDACTED_SECRET : jstring := u "••••••••".

Record SecretInputProps := {
  si_value : jstring;
  si_placeholder : jstring;
  si_stored : bool;
}.

Section Form.
Context `{ToString} `{ToNumber}.

(** The literal attributes of the box are left out. *)
Definition secretInputProps (value : jsval) : SecretInputProps :=
  let stored := bool_decide (value = VStr REDACTED_SECRET) in
  {| si_value := if stored then [] else to_string (nullish value (VStr []));
     si_placeholder := if stored then REDACTED_SECRET else [];
     si_stored := stored |}.

(** [l.join(sep)]: null and undefined are empty. *)
Definition array_join (sep : jstring) (l : list jsval) : jstring :=
  join_on sep ((fun v => match v with VUndef | VNull => [] | _ => to_string v end) <$> l).

Definition form_value (stored : jsval) : jsval :=
  match stored with VArr l => VStr (array_join [10%N] l) | _ => stored end.

Definition settingsFormValues (initial : jsval) (fields : list SettingsField)
    : list (jstring * jsval) :=
  fold_left (fun m f => map_set (sf_path f) (form_value (readSettingValue initial (sf_path f))) m)
    fields [].

Definition coerceSettingValue (f : SettingsField) (value : jsval) : jsval :=
  match sf_kind f with
  | KNumber => match to_number value with Fin m => VNum (Fin m) | _ => VNum (Fin 0) end
  | KBoolean => VBool (isTrue value)
  | KList =>
      VArr (VStr <$> List.filter (fun item => negb (jeqb item []))
                       (trim <$> split_entries (to_string (nullish value (VStr [])))))
  | KText | KSecret => nullish value (VStr [])
  end.

(** A secret that is left out of the document. *)
Definition untyped_secret (f : SettingsField) (value : jsval) : bool :=
  bool_decide (sf_kind f = KSecret) && bool_decide (value = VStr [] \/ value = VUndef).

Definition document_field (values : list (jstring * jsval)) (document : list (jstring * jsval))
    (f : SettingsField) : list (jstring * jsval) :=
  let value := value_at values (sf_path f) in
  if untyped_secret f value then document
  else writeSettingValue document (sf_path f) (coerceSettingValue f value).

Definition settingsDocument (fields : list SettingsField) (values : list (jstring * jsval))
    : list (jstring * jsval) :=
  fold_left (document_field values) fields [].

Definition displaySettingValue (value : jsval) (on off : jstring) : jstring :=
  match value with
  | VUndef | VNull => u "—"
  | VStr s => if jeqb s [] then u "—" else s
  | VArr l => if (length l =? 0)%nat then u "—" else array_join (u ", ") l
  | VBool b => if b then on else off
  | v => to_string v
  end.
End Form.

Definition settingsSaveConsequence (fields : list SettingsField) (save secrets : jstring) : jstring :=
  if existsb (fun f => bool_decide (sf_kind f = KSecret)) fields
  then save ++ u " " ++ secrets else save.

(** ** Writing and reading back *)

(** Neither path leads through the other. *)
Definition apart (a b : list jstring) : Prop := ~ a `prefix_of` b /\ ~ b `prefix_of` a.

Lemma apart_sym a b : apart a b -> apart b a.
Proof. intros [? ?]. by split. Qed.

Lemma apart_cons k a b : apart (k :: a) (k :: b) -> apart a b.
Proof. intros [H1 H2]. split; intros H; [apply H1|apply H2]; by apply prefix_cons. Qed.

Lemma apart_nil a b : apart a b -> a <> [] /\ b <> [].
Proof. intros [H1 H2]. split; intros ->; [apply H1|apply H2]; apply prefix_nil. Qed.

(** No array lies on the way. *)
Fixpoint open_path (keys : list jstring) (doc : list (jstring * jsval)) : Prop :=
  match keys with
  | [] | [_] => True
  | key :: keys =>
      match field key doc with
      | Some (VObj fs) => open_path keys fs
      | Some (VArr _) => False
      | _ => True
      end
  end.

Lemma field_set_eq k v (m : list (jstring * jsval)) : field k (map_set k v m) = Some v.
Proof. exact (map_get_set_eq k v m). Qed.
Lemma field_set_ne k k' v (m : list (jstring * jsval)) :
  k <> k' -> field k (map_set k' v m) = field k m.
Proof. exact (map_get_set_ne k k' v m). Qed.

Lemma read_absent keys : keys <> [] -> read_keys (VObj []) keys = VUndef.
Proof. destruct keys as [|k [|k' keys]]; done. Qed.

Lemma read_primitive v keys : not_object v = true -> keys <> [] -> read_keys v keys = VUndef.
Proof. destruct keys; cbn; [done|]. by intros ->. Qed.

Lemma read_cons doc k keys :
  read_keys (VObj doc) (k :: keys) = read_keys (default VUndef (field k doc)) keys.
Proof. done. Qed.

Lemma write_cons k keys v doc :
  keys <> [] ->
  write_keys (k :: keys) v doc =
  match field k doc with
  | Some (VObj fs) => map_set k (VObj (write_keys keys v fs)) doc
  | Some (VArr _) => doc
  | _ => map_set k (VObj (write_keys keys v [])) doc
  end.
Proof. by destruct keys. Qed.

Lemma read_write_same keys v doc :
  keys <> [] -> open_path keys doc -> read_keys (VObj (write_keys keys v doc)) keys = v.
Proof.
  revert doc. induction keys as [|k keys IH]; intros doc Hn Ho; [done|].
  destruct (decide (keys = [])) as [->|Hk].
  - cbn. by rewrite field_set_eq.
  - rewrite write_cons by done. rewrite read_cons.
    assert (Ho' : match field k doc with
                  | Some (VObj fs) => open_path keys fs | Some (VArr _) => False | _ => True end)
      by (destruct keys; [done|exact Ho]).
    assert (Hnil : open_path keys []) by (destruct keys as [|? [|? ?]]; done).
    destruct (field k doc) as [[| | | | | |fs]|]; try done;
      rewrite field_set_eq; cbn [default]; by apply IH.
Qed.

Lemma read_write_other keys keys' v doc :
  apart keys keys' ->
  read_keys (VObj (write_keys keys v doc)) keys' = read_keys (VObj doc) keys'.
Proof.
  revert keys' doc. induction keys as [|k keys IH]; intros keys' doc Ha; [done|].
  destruct keys' as [|k' keys']; [by destruct (apart_nil _ _ Ha)|].
  destruct (decide (k' = k)) as [->|Hk].
  - apply apart_cons in Ha. destruct (apart_nil _ _ Ha) as [Hn Hn'].
    rewrite write_cons by done. rewrite !read_cons.
    assert (He : read_keys (VObj (write_keys keys v [])) keys' = VUndef)
      by (by rewrite (IH keys' [] Ha), read_absent).
    assert (Hp : forall x, typeof_object x = false -> read_keys x keys' = VUndef).
    { intros x Hx. apply read_primitive; [|done]. unfold not_object. by rewrite Hx, orb_true_r. }
    destruct (field k doc) as [[| | | | |l|fs]|] eqn:Ef; rewrite ?field_set_eq, ?Ef; unfold default, from_option, id;
      rewrite ?He; [symmetry; by apply Hp| |symmetry; by apply Hp..|done|by apply IH|symmetry; by apply Hp].
    by destruct keys'.
  - rewrite !read_cons. f_equal. f_equal.
    destruct (decide (keys = [])) as [->|Hn]; [cbn; by apply field_set_ne|].
    rewrite write_cons by done.
    destruct (field k doc) as [[| | | | |l|fs]|]; try done; by apply field_set_ne.
Qed.

Lemma open_cons k keys doc :
  keys <> [] ->
  open_path (k :: keys) doc =
  match field k doc with
  | Some (VObj fs) => open_path keys fs
  | Some (VArr _) => False
  | _ => True
  end.
Proof. by destruct keys. Qed.

Lemma open_empty keys : open_path keys [].
Proof. by destruct keys as [|? [|? ?]]. Qed.

Lemma open_write keys keys' v doc :
  apart keys keys' -> open_path keys' doc -> open_path keys' (write_keys keys v doc).
Proof.
  revert keys' doc. induction keys as [|k keys IH]; intros keys' doc Ha Ho; [done|].
  destruct keys' as [|k' keys']; [done|].
  destruct (decide (keys' = [])) as [->|Hn']; [done|].
  rewrite open_cons in Ho |- * by done.
  destruct (decide (k' = k)) as [->|Hk].
  - apply apart_cons in Ha. destruct (apart_nil _ _ Ha) as [Hn _].
    rewrite write_cons by done.
    destruct (field k doc) as [[| | | | |l|fs]|] eqn:Ef; rewrite ?field_set_eq, ?Ef; try done;
      apply IH; auto using open_empty.
  - assert (Hf : field k' (write_keys (k :: keys) v doc) = field k' doc).
    { destruct (decide (keys = [])) as [->|Hn]; [by apply field_set_ne|].
      rewrite write_cons by done.
      destruct (field k doc) as [[| | | | |l|fs]|]; try done; by apply field_set_ne. }
    by rewrite Hf.
Qed.

(** ** Sections whose paths are apart *)

Definition apartb (f g : SettingsField) : bool :=
  bool_decide (~ keys_of (sf_path f) `prefix_of` keys_of (sf_path g))
  && bool_decide (~ keys_of (sf_path g) `prefix_of` keys_of (sf_path f)).

Fixpoint all_apart (fields : list SettingsField) : bool :=
  match fields with
  | [] => true
  | f :: fields => forallb (apartb f) fields && all_apart fields
  end.

Lemma apartb_spec f g : apartb f g = true -> apart (keys_of (sf_path f)) (keys_of (sf_path g)).
Proof. unfold apartb. intros H. bool_solve. by split. Qed.

Section Documents.
Context `{ToString} `{ToNumber}.
Variable values : list (jstring * jsval).

Lemma document_field_other f doc keys :
  apart (keys_of (sf_path f)) keys ->
  read_keys (VObj (document_field values doc f)) keys = read_keys (VObj doc) keys /\
  (open_path keys doc -> open_path keys (document_field values doc f)).
Proof.
  intros Ha. unfold document_field. destruct (untyped_secret f _); [done|].
  unfold writeSettingValue. split; [by apply read_write_other|by apply open_write].
Qed.

Lemma document_fields_other fields doc keys :
  (forall f, f ∈ fields -> apart (keys_of (sf_path f)) keys) ->
  read_keys (VObj (fold_left (document_field values) fields doc)) keys = read_keys (VObj doc) keys.
Proof.
  revert doc. induction fields as [|f fields IH]; intros doc Ha; [done|]. cbn.
  rewrite IH by (intros g Hg; apply Ha; by right).
  apply (document_field_other f doc keys). apply Ha. left.
Qed.

(** What a section's document holds at the path of one of its fields. *)
Lemma document_reads fields doc f :
  all_apart fields = true -> f ∈ fields ->
  (forall g, g ∈ fields -> open_path (keys_of (sf_path g)) doc /\
                           read_keys (VObj doc) (keys_of (sf_path g)) = VUndef) ->
  read_keys (VObj (fold_left (document_field values) fields doc)) (keys_of (sf_path f)) =
  if untyped_secret f (value_at values (sf_path f)) then VUndef
  else coerceSettingValue f (value_at values (sf_path f)).
Proof.
  revert doc. induction fields as [|g fields IH]; intros doc Ha Hf Hd.
  { by apply not_elem_of_nil in Hf. }
  cbn in Ha. apply andb_true_iff in Ha as [Hg Ha]. rewrite forallb_elem in Hg. cbn.
  apply elem_of_cons in Hf as [->|Hf].
  - rewrite document_fields_other.
    2: { intros h Hh. by apply apart_sym, apartb_spec, Hg. }
    destruct (Hd g (list_elem_of_here _ _)) as [Ho Hr].
    unfold document_field. destruct (untyped_secret g _); [done|]. unfold writeSettingValue.
    apply read_write_same; [|done].
    unfold keys_of. destruct (split_on_cons 46 (sf_path g)) as (w & ws & ->). done.
  - apply IH; [done|done|]. intros h Hh.
    destruct (Hd h ltac:(by right)) as [Ho Hr].
    destruct (document_field_other g doc (keys_of (sf_path h))) as [Hr' Ho'].
    { by apply apartb_spec, Hg. }
    split; [by apply Ho'|]. by rewrite Hr'.
Qed.

Lemma settingsDocument_field fields f :
  all_apart fields = true -> f ∈ fields ->
  readSettingValue (VObj (settingsDocument fields values)) (sf_path f) =
  if untyped_secret f (value_at values (sf_path f)) then VUndef
  else coerceSettingValue f (value_at values (sf_path f)).
Proof.
  intros Ha Hf. apply document_reads; [done|done|]. intros g _. split; [apply open_empty|].
  apply read_absent. unfold keys_of. destruct (split_on_cons 46 (sf_path g)) as (w & ws & ->). done.
Qed.
End Documents.

Definition SECTIONS : list (list SettingsField) :=
  [NOTIFICATION_FIELDS; SMS_FIELDS; DEVICE_FIELDS; SECURITY_FIELDS].

Lemma sections_apart fields : fields ∈ SECTIONS -> all_apart fields = true.
Proof.
  unfold SECTIONS. intros H. repeat (apply elem_of_cons in H as [->|H]); [by vm_compute..|].
  by apply not_elem_of_nil in H.
Qed.

(** What a save sends is what the boxes say, field by field: the
    document of a section holds at every path the box's value in the type of
    its kind, and nothing at the path of a secret nobody typed into, which
    is what tells the gateway to keep its own. *)
Theorem settingsDocument_reads `{ToString} `{ToNumber} fields values f :
  fields ∈ SECTIONS -> f ∈ fields ->
  readSettingValue (VObj (settingsDocument fields values)) (sf_path f) =
  if untyped_secret f (value_at values (sf_path f)) then VUndef
  else coerceSettingValue f (value_at values (sf_path f)).
Proof. intros Hs Hf. apply settingsDocument_field; [by apply sections_apart|done]. Qed.

Definition sample_to_number : ToNumber :=
  {| to_number v := match v with VNum n => n | _ => NaN end; to_number_num n := eq_refl |}.

Lemma settingsDocument_reads_witness :
  readSettingValue
    (VObj (@settingsDocument sample_to_string sample_to_number NOTIFICATION_FIELDS
             [(u "telegram.bot.operators", VStr (u "7=ops, 8=sre"))]))
    (u "telegram.bot.operators")
  = VArr [VStr (u "7=ops"); VStr (u "8=sre")].
Proof.
  rewrite (@settingsDocument_reads sample_to_string sample_to_number NOTIFICATION_FIELDS _
             (setting "telegram.bot.operators" KList)).
  - by vm_compute.
  - unfold SECTIONS. left.
  - unfold NOTIFICATION_FIELDS. do 16 right. left.
Defined.

(** ** An untouched form *)

(** A list entry that survives the box: one line, no comma, no outer space. *)
Definition entry_wf (e : jstring) : Prop :=
  e <> [] /\ trim e = e /\ Forall (fun c => (c =? 10)%N || (c =? 44)%N = false) e.

(** A value as the gateway stores it for the kind. *)
Definition stored_wf (f : SettingsField) (v : jsval) : Prop :=
  match sf_kind f with
  | KText => exists s, v = VStr s
  | KSecret => exists s, v = VStr s /\ s <> []
  | KNumber => exists m, v = VNum (Fin m)
  | KBoolean => exists b, v = VBool b
  | KList => exists l, v = VArr (VStr <$> l) /\ Forall entry_wf l
  end.

Lemma split_entries_word e rest :
  Forall (fun c => (c =? 10)%N || (c =? 44)%N = false) e ->
  split_entries (e ++ 10%N :: rest) = e :: split_entries rest.
Proof. induction 1 as [|c e Hc _ IH]; cbn; [done|]. rewrite Hc. cbn in IH. by rewrite IH. Qed.

Lemma split_entries_last e :
  Forall (fun c => (c =? 10)%N || (c =? 44)%N = false) e -> split_entries e = [e].
Proof. induction 1 as [|c e Hc _ IH]; cbn; [done|]. by rewrite Hc, IH. Qed.

Lemma split_entries_join l :
  Forall entry_wf l -> l <> [] -> split_entries (join_on [10%N] l) = l.
Proof.
  induction 1 as [|e l (He & Ht & Hf) Hl IH]; [done|]. intros _. destruct l as [|e' l].
  - by apply split_entries_last.
  - change (join_on [10%N] (e :: e' :: l)) with (e ++ [10%N] ++ join_on [10%N] (e' :: l)).
    cbn [app]. rewrite split_entries_word by done. by rewrite IH.
Qed.

Lemma list_box_roundtrip l :
  Forall entry_wf l ->
  List.filter (fun item => negb (jeqb item [])) (trim <$> split_entries (join_on [10%N] l)) = l.
Proof.
  intros Hl. destruct (decide (l = [])) as [->|Hn]; [done|]. rewrite split_entries_join by done.
  clear Hn. induction Hl as [|e l (He & Ht & _) _ IH]; [done|]. cbn. rewrite Ht.
  rewrite (proj2 (jeqb_neq e [])) by done. cbn. by rewrite IH.
Qed.

Section Untouched.
Context `{ToString} `{ToNumber}.

Lemma array_join_strings sep (l : list jstring) : array_join sep (VStr <$> l) = join_on sep l.
Proof.
  unfold array_join. f_equal. rewrite <-list_fmap_compose.
  rewrite <-(list_fmap_id l) at 2. apply list_fmap_ext. intros i s _. cbn. apply to_string_str.
Qed.

Lemma form_values_at initial fields f :
  f ∈ fields ->
  value_at (settingsFormValues initial fields) (sf_path f)
  = form_value (readSettingValue initial (sf_path f)).
Proof.
  intros Hf. unfold value_at. change (field ?k ?m) with (map_get k m).
  unfold settingsFormValues. rewrite fold_map_set_last.
  set (g := fun a => if jeqb (sf_path f) (sf_path a) then _ else _).
  assert (Hin : form_value (readSettingValue initial (sf_path f)) ∈ omap g fields).
  { apply list_elem_of_omap. exists f. split; [done|]. unfold g. by rewrite jeqb_refl. }
  destruct (last (omap g fields)) as [x|] eqn:El.
  - cbn. apply last_Some_elem_of in El. apply list_elem_of_omap in El as (a & _ & Ha).
    unfold g in Ha. destruct (jeqb (sf_path f) (sf_path a)) eqn:E; [|done].
    apply jeqb_eq in E. rewrite E. by injection Ha as <-.
  - apply last_None in El. rewrite El in Hin. by apply not_elem_of_nil in Hin.
Qed.

Lemma coerce_form_value f v :
  stored_wf f v ->
  untyped_secret f (form_value v) = false /\ coerceSettingValue f (form_value v) = v.
Proof.
  unfold stored_wf, untyped_secret, coerceSettingValue. destruct (sf_kind f) eqn:Ek.
  - intros [s ->]. done.
  - intros (s & -> & Hs). cbn. split; [|done]. apply bool_decide_eq_false. naive_solver.
  - intros [m ->]. cbn. by rewrite to_number_num.
  - intros [b ->]. cbn. by rewrite isTrue_bool.
  - intros (l & -> & Hl). cbn. split; [done|].
    rewrite array_join_strings, to_string_str. by rewrite list_box_roundtrip.
Qed.
End Untouched.

(** Saving a form nobody touched changes nothing: for every field whose
    stored value is of its kind, the document sent holds exactly what the
    gateway sent, lists included.  A stored secret is the gateway's
    placeholder, and it is sent back as such: it is not left out. *)
Theorem settings_untouched `{ToString} `{ToNumber} fields initial f :
  fields ∈ SECTIONS -> f ∈ fields ->
  stored_wf f (readSettingValue initial (sf_path f)) ->
  readSettingValue (VObj (settingsDocument fields (settingsFormValues initial fields))) (sf_path f)
  = readSettingValue initial (sf_path f).
Proof.
  intros Hs Hf Hw. rewrite settingsDocument_field by (done || by apply sections_apart).
  rewrite form_values_at by done. by destruct (coerce_form_value f _ Hw) as [-> ->].
Qed.

Lemma settings_untouched_witness :
  let initial := VObj [(u "webhook", VObj [(u "secret", VStr REDACTED_SECRET)])] in
  readSettingValue (VObj (@settingsDocument sample_to_string sample_to_number NOTIFICATION_FIELDS
                            (@settingsFormValues sample_to_string initial NOTIFICATION_FIELDS)))
    (u "webhook.secret") = VStr REDACTED_SECRET.
Proof.
  intros initial.
  apply (@settings_untouched sample_to_string sample_to_number NOTIFICATION_FIELDS initial
           (setting "webhook.secret" KSecret)).
  - unfold SECTIONS. left.
  - unfold NOTIFICATION_FIELDS. do 2 right. left.
  - exists REDACTED_SECRET. split; [by vm_compute|done].
Defined.
