(* ===== verification/Navigation.v ===== *)
(** * Where the console's links lead (lib/tokens.ts: NAV_GROUPS, navState,
      DEVICE_TABS, the badge tones)

    The navigation table and which of its entries a path lights up, the tabs
    of the device page and the links between them, and the tables that turn a
    status word into a colour. *)

From Stdlib Require Import Lia.
From S2P Require Import Prelude JsString JsValue JsMap.

(** ** The navigation *)

Record NavItem := {
  ni_href : jstring;
  ni_key : jstring;
  ni_icon : jstring;
}.

Record NavGroup := {
  ng_label : option jstring;
  ng_items : list NavItem;
}.

Definition nav_item (href key icon : string) : NavItem :=
  {| ni_href := u href; ni_key := u key; ni_icon := u icon |}.

Definition NAV_GROUPS : list NavGroup :=
  [ {| ng_label := Some (u "nav.group.fleet");
       ng_items :=
         [ nav_item "/" "nav.overview"
             "M4 4H10V10H4ZM14 4H20V10H14ZM4 14H10V20H4ZM14 14H20V20H14Z";
           nav_item "/devices" "nav.devices" "M7 3H17V21H7ZM10 18H14";
           nav_item "/journal" "nav.journal" "M6 3H15L19 7V21H6ZM9 12H16M9 16H14";
           nav_item "/support-ledger" "nav.ledger" "M4 6H20M4 12H20M4 18H13";
           nav_item "/audit" "nav.audit"
             "M12 3L20 6V12C20 17 16 20 12 21C8 20 4 17 4 12V6Z M9 12L11 14L15 10" ] |};
    {| ng_label := Some (u "nav.group.comms");
       ng_items :=
         [ nav_item "/inbox" "nav.inbox" "M3 6H21V18H3Z M3 7L12 13L21 7";
           nav_item "/sessions" "nav.sessions"
             "M21 12C21 16 17 19 12 19C11 19 10 19 9 18L4 20L5 16C4 15 3 14 3 12C3 8 7 5 12 5C17 5 21 8 21 12Z";
           nav_item "/rules" "nav.rules" "M4 7H20M4 17H20 M9 4V10M15 14V20";
           nav_item "/schedule" "nav.schedule" "M4 6H20V20H4ZM4 10H20M9 3V7M15 3V7" ] |};
    {| ng_label := Some (u "nav.group.network");
       ng_items :=
         [ nav_item "/proxy" "nav.proxy" "M4 4H10V10H4ZM14 14H20V20H14ZM10 7H17V14" ] |};
    {| ng_label := Some (u "nav.group.settings");
       ng_items :=
         [ nav_item "/settings" "nav.settings"
             "M12 8A4 4 0 1 0 12 16A4 4 0 1 0 12 8Z M12 2V5M12 19V22M2 12H5M19 12H22" ] |} ].

(** [NAV_GROUPS.flatMap((group) => group.items)]. *)
Definition navItems : list NavItem := concat (ng_items <$> NAV_GROUPS).

Inductive NavState := NavPage | NavSection.

#[export] Instance NavState_eq_dec : EqDecision NavState.
Proof. solve_decision. Defined.

(** [None] is the source's null. *)
Definition navState (pathname href : jstring) : option NavState :=
  if jeqb pathname href then Some NavPage
  else if startsWith pathname (href ++ u "/") then Some NavSection else None.

(** ** The device page's tabs *)

Inductive DeviceTabId := overview | diagnostics | console | esim.

#[export] Instance DeviceTabId_eq_dec : EqDecision DeviceTabId.
Proof. solve_decision. Defined.

Definition tab_name (t : DeviceTabId) : jstring :=
  match t with
  | overview => u "overview" | diagnostics => u "diagnostics"
  | console => u "console" | esim => u "esim"
  end.

Record DeviceTab := {
  dt_id : DeviceTabId;
  dt_key : jstring;
  dt_readOnly : bool;
}.

Definition DEVICE_TABS : list DeviceTab :=
  [ {| dt_id := overview; dt_key := u "device.tabOverview"; dt_readOnly := true |};
    {| dt_id := diagnostics; dt_key := u "device.tabDiagnostics"; dt_readOnly := true |};
    {| dt_id := console; dt_key := u "device.console"; dt_readOnly := false |};
    {| dt_id := esim; dt_key := u "esim.title"; dt_readOnly := false |} ].

(** [string | string[] | undefined]. *)
Inductive SearchParam :=
  | ParamAbsent
  | ParamOne (value : jstring)
  | ParamMany (values : list jstring).

Definition deviceTab (value : SearchParam) : DeviceTabId :=
  let asked := match value with
               | ParamAbsent => None
               | ParamOne s => Some s
               | ParamMany l => head l
               end in
  let found := List.find (fun tab => bool_decide (Some (tab_name (dt_id tab)) = asked))
                 DEVICE_TABS in
  match found with Some tab => dt_id tab | None => overview end.

Definition deviceTabHref (deviceId : jstring) (tab : DeviceTabId) : res jstring :=
  id ← encodeURIComponent deviceId;
  Ok (u "/devices/" ++ id ++ u "?tab=" ++ tab_name tab).

(** ** Tones *)

Inductive BadgeTone := ToneOk | ToneWarn | ToneBad | ToneInfo | ToneNeutral.

Definition TONE_BY_STATE : list (jstring * BadgeTone) :=
  [ (u "online", ToneOk); (u "registered", ToneOk); (u "offline", ToneNeutral);
    (u "busy", ToneWarn); (u "searching", ToneWarn); (u "denied", ToneBad);
    (u "error", ToneBad) ].

Definition TONE_BY_DELIVERY : list (jstring * BadgeTone) :=
  [ (u "delivered", ToneOk); (u "sent", ToneOk); (u "failed", ToneBad);
    (u "undelivered", ToneBad) ].

Definition TONE_BY_COMMAND_STATUS : list (jstring * BadgeTone) :=
  [ (u "succeeded", ToneOk); (u "failed", ToneBad); (u "expired", ToneBad);
    (u "cancelled", ToneNeutral); (u "pending", ToneWarn); (u "dispatched", ToneWarn);
    (u "running", ToneWarn) ].

Definition TONE_BY_PROFILE_STATE : list (jstring * BadgeTone) :=
  [ (u "enabled", ToneOk); (u "deleted", ToneBad) ].

(** [TABLE[word] ?? fallback]. *)
Definition tone_in (t : list (jstring * BadgeTone)) (fallback : BadgeTone) (word : jstring)
    : looked_up BadgeTone :=
  match table_read t word with Absent => Own fallback | found => found end.

Section Tones.
Context `{CaseMapping}.

Definition toneForState (state : jstring) : looked_up BadgeTone :=
  tone_in TONE_BY_STATE ToneNeutral (toLowerCase state).
Definition toneForDeliveryStatus (status : jstring) : looked_up BadgeTone :=
  tone_in TONE_BY_DELIVERY ToneWarn (toLowerCase status).
Definition toneForCommandStatus (status : jstring) : looked_up BadgeTone :=
  tone_in TONE_BY_COMMAND_STATUS ToneNeutral (toLowerCase status).
Definition toneForProfileState (state : jstring) : looked_up BadgeTone :=
  tone_in TONE_BY_PROFILE_STATE ToneNeutral (toLowerCase state).
End Tones.

(** ** Lemmas *)

Definition slash : jstring := u "/".

(** The entry is the page, or an ancestor of it: both say that the path with
    a slash after it starts with the entry with a slash after it. *)
Lemma navState_lit pathname href st :
  navState pathname href = Some st -> startsWith (pathname ++ slash) (href ++ slash) = true.
Proof.
  unfold navState. destruct (jeqb pathname href) eqn:E.
  - apply jeqb_eq in E as ->. intros _. apply startsWith_spec. exists []. by rewrite app_nil_r.
  - destruct (startsWith _ _) eqn:Es; [|done]. intros _.
    apply startsWith_spec in Es as [t ->]. apply startsWith_spec. exists (t ++ slash).
    unfold slash. by rewrite <-!app_assoc.
Qed.

(** No entry is inside another. *)
Definition apart (a b : NavItem) : bool :=
  bool_decide (ni_href a = ni_href b)
  || negb (startsWith (ni_href a ++ slash) (ni_href b ++ slash)).

Lemma navItems_apart a b : a ∈ navItems -> b ∈ navItems -> apart a b = true.
Proof.
  assert (H : Forall (fun a => Forall (fun b => apart a b = true) navItems) navItems)
    by (apply (bool_decide_unpack _); by vm_compute).
  rewrite Forall_forall in H. intros Ha Hb. specialize (H a Ha).
  rewrite Forall_forall in H. by apply H.
Qed.

Lemma navItems_hrefs : NoDup (ni_href <$> navItems).
Proof. apply (bool_decide_unpack _). by vm_compute. Qed.

Lemma startsWith_comparable (s p q : jstring) :
  startsWith s p = true -> startsWith s q = true ->
  startsWith p q = true \/ startsWith q p = true.
Proof.
  rewrite !startsWith_spec. intros [a ->] [b Hb].
  apply app_eq_inv in Hb as [(m & -> & _)|(m & -> & _)]; [left|right]; by exists m.
Qed.

Lemma navState_section pathname href :
  navState pathname href = Some NavSection <-> exists t, pathname = href ++ slash ++ t.
Proof.
  unfold navState. split.
  - destruct (jeqb pathname href); [done|]. destruct (startsWith _ _) eqn:E; [|done].
    intros _. apply startsWith_spec in E as [t ->]. exists t. by rewrite app_assoc.
  - intros [t ->]. replace (jeqb _ _) with false.
    + unfold slash. by rewrite app_assoc, startsWith_app.
    + symmetry. apply jeqb_neq. intros Heq%(f_equal length). rewrite !length_app in Heq.
      change (length slash) with 1 in Heq. lia.
Qed.

Lemma find_deviceTab t :
  List.find (fun tab => bool_decide (Some (tab_name (dt_id tab)) = Some (tab_name t))) DEVICE_TABS
  = List.find (fun tab => bool_decide (dt_id tab = t)) DEVICE_TABS.
Proof. by destruct t; vm_compute. Qed.

Lemma tab_name_plain t : Forall (fun c => unreserved c = true) (tab_name t).
Proof. by destruct t; apply (bool_decide_unpack _); vm_compute. Qed.

(** ** Properties *)

(** On any path at most one entry of the navigation is lit, and it is lit
    as the page exactly when the path is its address, as the section exactly
    when the path is inside it. *)
Theorem navState_one_lit pathname a b sa sb :
  a ∈ navItems -> b ∈ navItems ->
  navState pathname (ni_href a) = Some sa -> navState pathname (ni_href b) = Some sb ->
  a = b /\ sa = sb /\
  match sa with
  | NavPage => pathname = ni_href a
  | NavSection => exists rest, pathname = ni_href a ++ u "/" ++ rest
  end.
Proof.
  intros Ha Hb Hsa Hsb.
  assert (Hab : ni_href a = ni_href b).
  { pose proof (navItems_apart a b Ha Hb) as H1. pose proof (navItems_apart b a Hb Ha) as H2.
    unfold apart in *. destruct (decide (ni_href a = ni_href b)) as [Hd|Hd]; [done|].
    rewrite bool_decide_eq_false_2 in H1 by done. rewrite bool_decide_eq_false_2 in H2 by congruence.
    destruct (startsWith_comparable _ _ _ (navState_lit _ _ _ Hsa) (navState_lit _ _ _ Hsb)) as [E|E];
      rewrite E in *; done. }
  assert (a = b) as <-.
  { pose proof navItems_hrefs as Hn.
    apply list_elem_of_lookup_1 in Ha as [i Hi]. apply list_elem_of_lookup_1 in Hb as [j Hj].
    assert (i = j) as <-; [|congruence].
    eapply (NoDup_lookup _ _ _ _ Hn); rewrite list_lookup_fmap, ?Hi, ?Hj; cbn; by rewrite ?Hab. }
  split; [done|]. split; [congruence|]. destruct sa.
  - unfold navState in Hsa. destruct (jeqb _ _) eqn:E; [by apply jeqb_eq|]. by case_match.
  - by apply navState_section.
Qed.

(** A tab's link leads back to the tab: the address is one path segment
    that decodes to the device and one query parameter the page reads as that
    tab. *)
Theorem deviceTabHref_roundtrip deviceId tab href :
  units16 deviceId -> deviceTabHref deviceId tab = Ok href ->
  exists segment value,
    href = u "/devices/" ++ segment ++ u "?tab=" ++ value /\
    47%N ∉ segment /\ 63%N ∉ segment /\ 35%N ∉ segment /\
    decodeURIComponent segment = Ok deviceId /\
    Forall (fun c => unreserved c = true) value /\
    deviceTab (ParamOne value) = tab.
Proof.
  unfold deviceTabHref. intros Hu. destruct (encodeURIComponent deviceId) as [s|] eqn:E; cbn; [|done].
  intros [= <-]. exists s, (tab_name tab). split; [done|].
  split_and!; [by eapply encode_no_char..|by apply decode_encode|apply tab_name_plain|].
  unfold deviceTab. rewrite find_deviceTab. by destruct tab.
Qed.

Lemma navState_one_lit_witness :
  exists a, a ∈ navItems /\ navState (u "/devices/a1") (ni_href a) = Some NavSection /\
    exists rest, u "/devices/a1" = ni_href a ++ u "/" ++ rest.
Proof.
  exists (nav_item "/devices" "nav.devices" "M7 3H17V21H7ZM10 18H14").
  assert (Hin : nav_item "/devices" "nav.devices" "M7 3H17V21H7ZM10 18H14" ∈ navItems)
    by (right; left).
  assert (Hs : navState (u "/devices/a1") (u "/devices") = Some NavSection) by (by vm_compute).
  split; [done|]. split; [done|].
  exact (proj2 (proj2 (navState_one_lit (u "/devices/a1") _ _ _ _ Hin Hin Hs Hs))).
Defined.

Lemma deviceTabHref_roundtrip_witness :
  exists segment value,
    u "/devices/a%2Fb?tab=esim" = u "/devices/" ++ segment ++ u "?tab=" ++ value /\
    decodeURIComponent segment = Ok (u "a/b").
Proof.
  destruct (deviceTabHref_roundtrip (u "a/b") esim (u "/devices/a%2Fb?tab=esim"))
    as (s & v & H & _ & _ & _ & Hd & _).
  - by apply latin1_units16, (bool_decide_unpack (latin1 (u "a/b"))).

  - by vm_compute.
  - by exists s, v.
Defined.
