(* ===== verification/Confirm.v ===== *)
(** * What a dialog may say, and whether a switch happened (lib/tokens.ts:
      consequenceProblem, assertConsequence, esimSwitchVerdict)

    A confirmation must state what will happen; and a profile switch the
    module reported is believed only after a reading of the chip taken later
    than the switch. *)

From Stdlib Require Import Lia.
From stdpp Require Import pretty.
From S2P Require Import Prelude JsString JsValue JsMap JsRegex Gateway SmsSafety Guards.

(** ** Consequences *)

Definition CONFIRM_MIN_CONSEQUENCE : nat := 16.

(** [/[.。!！;；]/] and [/[?？]\s*$/]. *)
Definition sentence_mark (c : N) : bool :=
  existsb (N.eqb c) (u "." ++ u "。" ++ u "!" ++ u "！" ++ u ";" ++ u "；").
Definition question_mark (c : N) : bool := existsb (N.eqb c) (u "?" ++ u "？").
Definition SENTENCE_END : regex := RClass sentence_mark.
Definition QUESTION_END : regex := rseq [RClass question_mark; rspaces; REnd].

Definition consequenceProblem (consequence : jstring) : option jstring :=
  let text := trim consequence in
  if jeqb text [] then Some (u "a confirmation with no consequence is a speed bump")
  else if test QUESTION_END text then
    Some (u "this is the question, and the dialog asks that itself; say what will happen")
  else if negb (test SENTENCE_END text) then
    Some (u "not one complete sentence — name the object and say what happens to it")
  else if (length text <? CONFIRM_MIN_CONSEQUENCE)%nat then
    Some (u (pretty (length text)) ++ u " characters cannot say which thing this is or what it does")
  else None.

Definition assertConsequence (consequence : jstring) : res jstring :=
  match consequenceProblem consequence with
  | Some _ => Throw GenericError
  | None => Ok (trim consequence)
  end.

(** ** Profile switches *)

Inductive EsimSwitchState := unverified | confirmed | contradicted.

Record EsimSwitchVerdict := {
  ev_targetIccid : jstring;
  ev_modemImei : option jstring;
  ev_state : EsimSwitchState;
  ev_readAt : option Z;
  ev_observed : option jstring;
}.

Record SwitchCommand := {
  sc_kind : jstring;
  sc_status : jstring;
  sc_completed_at : option Z;
  sc_payload : option jsval;
}.

Record ObservedProfile := {
  ob_iccid : jstring;
  ob_state : jstring;
  ob_collectedAt : Z;
}.

Section Switch.
Context `{ToString}.

Definition switched_at (row : SwitchCommand) : Z := default_to 0%Z (sc_completed_at row).

Definition is_switch (row : SwitchCommand) : bool :=
  jeqb (sc_kind row) (u "switch_esim_profile") && jeqb (sc_status row) (u "succeeded").

(** One turn of each loop. *)
Definition newer_switch (newest : option SwitchCommand) (row : SwitchCommand)
    : option SwitchCommand :=
  if negb (is_switch row) then newest else
  match newest with
  | None => Some row
  | Some n => if (switched_at n <? switched_at row)%Z then Some row else newest
  end.

Definition later_read (targetIccid : jstring) (switchedAt : Z) (latest : option ObservedProfile)
    (profile : ObservedProfile) : option ObservedProfile :=
  if negb (jeqb (ob_iccid profile) targetIccid) || (ob_collectedAt profile <=? switchedAt)%Z
  then latest else
  match latest with
  | None => Some profile
  | Some l => if (ob_collectedAt l <? ob_collectedAt profile)%Z then Some profile else latest
  end.

(** [newest.payload?.[name]]. *)
Definition payload_field (row : SwitchCommand) (name : string) : jsval :=
  match sc_payload row with Some p => prop p (u name) | None => VUndef end.

Definition target_of (row : SwitchCommand) : jstring :=
  to_string (nullish (payload_field row "target_iccid") (VStr [])).

Definition esimSwitchVerdict (commands : list SwitchCommand) (observed : list ObservedProfile)
    : option EsimSwitchVerdict :=
  newest ← fold_left newer_switch commands None;
  let targetIccid := target_of newest in
  if jeqb targetIccid [] then None else
  let latest := fold_left (later_read targetIccid (switched_at newest)) observed None in
  Some {| ev_targetIccid := targetIccid;
          ev_modemImei := match payload_field newest "modem_imei" with
                          | VStr s => Some s
                          | _ => None
                          end;
          ev_state := match latest with
                      | None => unverified
                      | Some l => if jeqb (ob_state l) (u "enabled") then confirmed
                                  else contradicted
                      end;
          ev_readAt := ob_collectedAt <$> latest;
          ev_observed := ob_state <$> latest |}.
End Switch.

(** ** Lemmas *)

Lemma test_class p s : test (RClass p) s = true <-> exists c, c ∈ s /\ p c = true.
Proof.
  rewrite test_spec. split.
  - intros (a & b & y & -> & c & t & Hb & Hp & _). cbn in Hb. subst b. exists c.
    split; [|done]. apply elem_of_app. right. left.
  - intros (c & Hin & Hp). apply list_elem_of_split in Hin as (a & t & ->).
    exists a, (c :: t), (c :: rev a, t). split; [done|]. by exists c, t.
Qed.

(** [\s*$] after a position: only white space follows it. *)
Lemma rtc_class_end p (x : position) y :
  rtc (rmatch (RClass p)) x y -> y.2 = [] -> Forall (fun c => p c = true) x.2.
Proof.
  induction 1 as [x|x z y Hx _ IH]; intros Hy; [by rewrite Hy|].
  destruct Hx as (c & a & -> & Hp & ->). constructor; [done|]. by apply IH.
Qed.

Lemma spaces_to_end b s : Forall (fun c => is_space c = true) s ->
  rmatch (RSeq rspaces (RSeq REnd REmpty)) (b, s) (rev s ++ b, []).
Proof.
  intros Hs. exists (rev s ++ b, []). split; [|by exists (rev s ++ b, [])]. cbn.
  revert b. induction Hs as [|c s Hc _ IH]; intros b; [done|].
  eapply rtc_l; [by exists c, s|]. cbn. rewrite <-app_assoc. apply IH.
Qed.

Lemma test_question s :
  test QUESTION_END s = true <->
  exists a q w, s = a ++ q :: w /\ question_mark q = true /\ Forall (fun c => is_space c = true) w.
Proof.
  rewrite test_spec. split.
  - intros (a & b & y & -> & z & (q & w & Hb & Hq & ->) & z' & Hs & z'' & [He <-] & _).
    cbn in Hb. subst b. exists a, q, w. split_and!; [done..|].
    exact (rtc_class_end _ _ _ Hs He).
  - intros (a & q & w & -> & Hq & Hw). exists a, (q :: w), (rev w ++ q :: rev a, []).
    split; [done|]. exists (q :: rev a, w). split; [by exists q, w|]. by apply spaces_to_end.
Qed.

Lemma trim_last s a c : trim s = a ++ [c] -> is_space c = false.
Proof.
  unfold trim, trim_end. intros Hs. apply (f_equal (@rev N)) in Hs.
  rewrite rev_involutive, rev_app_distr in Hs. change (rev [c] ++ rev a) with (c :: rev a) in Hs. by eapply trim_start_head.
Qed.

(** [None] exactly when the trimmed text is a statement long enough. *)
Definition statement (text : jstring) : Prop :=
  (CONFIRM_MIN_CONSEQUENCE <= length text)%nat /\
  (exists c, c ∈ text /\ sentence_mark c = true) /\
  (forall a q, text = a ++ [q] -> question_mark q = false).

Lemma trimmed_question s :
  test QUESTION_END (trim s) = true <-> exists a q, trim s = a ++ [q] /\ question_mark q = true.
Proof.
  rewrite test_question. split; [|by intros (a & q & -> & Hq); exists a, q, []].
  intros (a & q & w & Hs & Hq & Hw). destruct w as [|c w _] using rev_ind; [by exists a, q|].
  exfalso. apply Forall_app in Hw as [_ Hc]. inversion_clear Hc as [|?? Hc' _].
  rewrite app_comm_cons, app_assoc in Hs. apply trim_last in Hs. congruence.
Qed.

Lemma consequenceProblem_spec consequence :
  consequenceProblem consequence = None <-> statement (trim consequence).
Proof.
  unfold consequenceProblem, statement.
  pose proof (trimmed_question consequence) as Hq.
  pose proof (test_class sentence_mark (trim consequence)) as He. fold SENTENCE_END in He.
  destruct (jeqb (trim consequence) []) eqn:E0.
  { apply jeqb_eq in E0 as ->. split; [done|]. intros [H _]. cbn in H. unfold CONFIRM_MIN_CONSEQUENCE in H. lia. }
  destruct (test QUESTION_END _).
  { split; [done|]. intros (_ & _ & H). destruct (proj1 Hq eq_refl) as (a & q & Ha & Hm).
    specialize (H a q Ha). congruence. }
  destruct (test SENTENCE_END _); cbn [negb]; [|split; [done|naive_solver]].
  destruct (Nat.ltb_spec (length (trim consequence)) CONFIRM_MIN_CONSEQUENCE); [split; [done|lia]|].
  split; [intros _|done]. split_and!; [done|by apply He|].
  intros a q Ha. apply not_true_iff_false. intros Hm. assert (false = true); [|done].
  apply Hq. by exists a, q.
Qed.

(** ** Properties *)

(** A dialog opens on exactly the texts that state something: at least
    sixteen characters, the end of a sentence somewhere, and not a question.
    What it then shows is the trimmed text, which passes again; on every
    other text the call throws instead of asking. *)
Theorem assertConsequence_states consequence :
  (statement (trim consequence) ->
     assertConsequence consequence = Ok (trim consequence) /\
     assertConsequence (trim consequence) = Ok (trim consequence)) /\
  (~ statement (trim consequence) -> assertConsequence consequence = Throw GenericError).
Proof.
  unfold assertConsequence. split.
  - intros Hs. rewrite (proj2 (consequenceProblem_spec consequence)) by done.
    rewrite (proj2 (consequenceProblem_spec (trim consequence))) by (by rewrite trim_idem).
    by rewrite trim_idem.
  - intros Hs. destruct (consequenceProblem consequence) eqn:E; [done|].
    destruct Hs. by apply consequenceProblem_spec.
Qed.

Lemma assertConsequence_states_witness :
  assertConsequence (u " The module reboots. ") = Ok (u "The module reboots.").
Proof.
  assert (E : trim (u " The module reboots. ") = u "The module reboots.") by (by vm_compute).
  rewrite <-E. apply (proj1 (assertConsequence_states (u " The module reboots. "))).
  rewrite E. split_and!; [apply (bool_decide_unpack (_ <= _)%nat); by vm_compute| |].
  - exists 46%N. split; [|done]. by apply (bool_decide_unpack (46%N ∈ u "The module reboots.")).
  - intros a q Ha. assert (Hl : last (u "The module reboots.") = Some q) by (by rewrite Ha, last_snoc).
    vm_compute in Hl. by injection Hl as <-.
Defined.

Section SwitchProperties.
Context `{ToString}.

Definition read_after (iccid : jstring) (t : Z) (profile : ObservedProfile) : bool :=
  jeqb (ob_iccid profile) iccid && (t <? ob_collectedAt profile)%Z.

Lemma newer_switch_best cmds :
  fold_left newer_switch cmds None = fold_left (keep_best is_switch switched_at) cmds None.
Proof. done. Qed.

Lemma later_read_best iccid t obs cur :
  fold_left (later_read iccid t) obs cur
  = fold_left (keep_best (read_after iccid t) ob_collectedAt) obs cur.
Proof.
  revert cur. induction obs as [|p obs IH]; intros cur; [done|]. cbn. rewrite IH. f_equal.
  unfold later_read, keep_best, read_after. by rewrite negb_andb, Z.ltb_antisym, negb_involutive.
Qed.

Lemma read_after_spec iccid t p :
  read_after iccid t p = true <-> ob_iccid p = iccid /\ (t < ob_collectedAt p)%Z.
Proof. unfold read_after. by rewrite andb_true_iff, jeqb_eq, Z.ltb_lt. Qed.

(** The last switch that succeeded, the first of those completed at once. *)
Definition last_switch (commands : list SwitchCommand) (c : SwitchCommand) : Prop :=
  best_of is_switch switched_at commands c.

(** A switch is confirmed or contradicted only by what a reading of the
    chip says that was taken strictly after the last successful switch and
    about the profile it asked for, the newest such reading; with no such
    reading it stays unverified.  No verdict is given exactly when no
    switch succeeded or the last one named no profile. *)
Theorem esimSwitchVerdict_read commands observed :
  match esimSwitchVerdict commands observed with
  | None =>
      (forall c, c ∈ commands -> is_switch c = false) \/
      (exists c, last_switch commands c /\ target_of c = [])
  | Some v =>
      exists c, last_switch commands c /\ target_of c = ev_targetIccid v /\
        ev_targetIccid v <> [] /\
        match ev_state v with
        | unverified =>
            ev_readAt v = None /\
            forall p, p ∈ observed -> ob_iccid p = ev_targetIccid v ->
              (ob_collectedAt p <= switched_at c)%Z
        | verdict =>
            exists p, p ∈ observed /\ ob_iccid p = ev_targetIccid v /\
              (switched_at c < ob_collectedAt p)%Z /\
              (forall q, q ∈ observed -> ob_iccid q = ev_targetIccid v ->
                 (ob_collectedAt q <= ob_collectedAt p)%Z) /\
              (ob_state p = u "enabled" <-> verdict = confirmed) /\
              ev_readAt v = Some (ob_collectedAt p) /\ ev_observed v = Some (ob_state p)
        end
  end.
Proof.
  unfold esimSwitchVerdict. rewrite newer_switch_best.
  destruct (fold_left _ commands None) as [c|] eqn:Ec; cbn [mbind option_bind];
    [|left; by apply (keep_best_none _ switched_at)].
  apply keep_best_some in Ec. destruct (jeqb (target_of c) []) eqn:Et.
  { right. exists c. split; [done|]. by apply jeqb_eq. }
  apply jeqb_neq in Et. exists c. cbn [ev_targetIccid ev_state ev_readAt ev_observed].
  split_and!; [done..|]. rewrite later_read_best.
  destruct (fold_left _ observed None) as [p|] eqn:Ep.
  - apply keep_best_some, best_of_greatest in Ep as (Hin & Hp & Hmax).
    apply read_after_spec in Hp as [Hi Ht].
    assert (Hall : forall q, q ∈ observed -> ob_iccid q = target_of c ->
              (ob_collectedAt q <= ob_collectedAt p)%Z).
    { intros q Hq Hqi. destruct (Z.lt_ge_cases (switched_at c) (ob_collectedAt q)); [|lia].
      apply Hmax; [done|]. by apply read_after_spec. }
    destruct (jeqb (ob_state p) (u "enabled")) eqn:Ee; [apply jeqb_eq in Ee|apply jeqb_neq in Ee];
      exists p; split_and!; try done; by split.
  - rewrite keep_best_none in Ep. split; [done|]. intros p Hp Hi.
    apply Z.nlt_ge. intros Hlt. specialize (Ep p Hp).
    assert (read_after (target_of c) (switched_at c) p = true) by (by apply read_after_spec).
    congruence.
Qed.
End SwitchProperties.
