(* ===== verification/LoneCr.v ===== *)
(** * The lone-CR guard: scripts/check-lone-cr.cjs

    The repository's guard against a carriage return that no line feed
    follows: the byte census of a file, the split into lines, the exemption a
    file may declare for its own lines, the verdict, the scan of a tree and
    the exit code.  A [Buffer] is its list of bytes.  What git lists, what a
    read of a file answers and the digest are arguments; the lines [main] and
    [selfTest] print are not modelled, their exit codes are. *)

From S2P Require Import Prelude JsString JsMap.
From Stdlib Require Import Lia.

Abbreviation buffer := (list N).
Abbreviation CRb := 13%N.
Abbreviation LFb := 10%N.

(** ** [buf.toString('utf8')]

    The UTF-8 decoder of the platform: a malformed sequence gives one U+FFFD
    per maximal part, and the byte that broke it is read again. *)
Record utf8_state := {
  us_needed : nat;       (** continuation bytes still expected *)
  us_point : N;          (** bits collected so far *)
  us_lower : N;          (** bounds of the next continuation byte *)
  us_upper : N;
}.
Definition utf8_idle : utf8_state :=
  {| us_needed := 0; us_point := 0; us_lower := 0x80; us_upper := 0xBF |}.

Definition utf8_start (b : N) : jstring * utf8_state :=
  let need n p lo hi :=
    ([], {| us_needed := n; us_point := p; us_lower := lo; us_upper := hi |}) in
  (if b <? 0x80 then ([b], utf8_idle)
   else if (0xC2 <=? b) && (b <=? 0xDF) then need 1%nat (b - 0xC0) 0x80 0xBF
   else if b =? 0xE0 then need 2%nat 0 0xA0 0xBF
   else if b =? 0xED then need 2%nat 0xD 0x80 0x9F
   else if (0xE1 <=? b) && (b <=? 0xEF) then need 2%nat (b - 0xE0) 0x80 0xBF
   else if b =? 0xF0 then need 3%nat 0 0x90 0xBF
   else if b =? 0xF4 then need 3%nat 4 0x80 0x8F
   else if (0xF1 <=? b) && (b <=? 0xF3) then need 3%nat (b - 0xF0) 0x80 0xBF
   else ([0xFFFD], utf8_idle))%N.

Definition utf8_step (st : utf8_state) (b : N) : jstring * utf8_state :=
  match us_needed st with
  | 0 => utf8_start b
  | S n =>
      if ((us_lower st <=? b) && (b <=? us_upper st))%N then
        let p := (us_point st * 64 + (b - 0x80))%N in
        match n with
        | 0 => (utf16_of_point p, utf8_idle)
        | _ => ([], {| us_needed := n; us_point := p; us_lower := 0x80; us_upper := 0xBF |})
        end
      else (0xFFFD%N :: (utf8_start b).1, (utf8_start b).2)
  end.

Fixpoint utf8_run (st : utf8_state) (bs : buffer) : jstring :=
  match bs with
  | [] => if us_needed st =? 0 then [] else [0xFFFD%N]
  | b :: bs => (utf8_step st b).1 ++ utf8_run (utf8_step st b).2 bs
  end.

Definition toString_utf8 (bs : buffer) : jstring := utf8_run utf8_idle bs.

(** [Buffer.from(text, 'utf8')] of a literal. *)
Definition from_utf8 (s : string) : buffer := bytes_of s.
Arguments from_utf8 _%_string : simpl never.

(** ** The census of a buffer *)

Record Profile := { crlf : nat; loneLf : nat; loneCr : nat; nul : nat }.
#[export] Instance Profile_eq_dec : EqDecision Profile.
Proof. solve_decision. Defined.

Definition profile_add (p : Profile) (b : N) (before_lf : bool) : Profile :=
  if (b =? 0)%N then
    {| crlf := crlf p; loneLf := loneLf p; loneCr := loneCr p; nul := S (nul p) |}
  else if (b =? CRb)%N then
    if before_lf
    then {| crlf := S (crlf p); loneLf := loneLf p; loneCr := loneCr p; nul := nul p |}
    else {| crlf := crlf p; loneLf := loneLf p; loneCr := S (loneCr p); nul := nul p |}
  else if (b =? LFb)%N then
    {| crlf := crlf p; loneLf := S (loneLf p); loneCr := loneCr p; nul := nul p |}
  else p.

(** The next byte is a line feed. *)
Definition at_lf (buf : buffer) : bool :=
  match buf with b :: _ => (b =? LFb)%N | [] => false end.

(** The loop: [i] moves by two over a CRLF pair. *)
Fixpoint profile_from (p : Profile) (buf : buffer) : Profile :=
  match buf with
  | [] => p
  | b :: rest =>
      let p' := profile_add p b (at_lf rest) in
      match rest with
      | _ :: rest' =>
          if (b =? CRb)%N && at_lf rest then profile_from p' rest' else profile_from p' rest
      | [] => p'
      end
  end.

Definition profile (buf : buffer) : Profile :=
  profile_from {| crlf := 0; loneLf := 0; loneCr := 0; nul := 0 |} buf.

Inductive eol_class := BINARY | EMPTY | NONE | MIXED | CRLF | LF | CR.
#[export] Instance eol_class_eq_dec : EqDecision eol_class.
Proof. solve_decision. Defined.

Definition classify (p : Profile) (size : nat) : eol_class :=
  if 0 <? nul p then BINARY else
  let total := crlf p + loneLf p + loneCr p in
  if total =? 0 then (if size =? 0 then EMPTY else NONE) else
  let kinds := (if 0 <? crlf p then 1 else 0) + (if 0 <? loneLf p then 1 else 0)
               + (if 0 <? loneCr p then 1 else 0) in
  if 1 <? kinds then MIXED
  else if 0 <? crlf p then CRLF
  else if 0 <? loneLf p then LF
  else CR.

Fixpoint normalizeCrlf (buf : buffer) : buffer :=
  match buf with
  | [] => []
  | b :: rest =>
      if (b =? CRb)%N && at_lf rest then normalizeCrlf rest else b :: normalizeCrlf rest
  end.

Record inspection := {
  in_size : nat;
  in_sha256 : jstring;
  in_normSha256 : jstring;
  in_profile : Profile;
  in_lines : nat;
  in_cls : eol_class;
}.

Definition inspectBuffer (sha256 : buffer -> jstring) (buf : buffer) : inspection :=
  let p := profile buf in
  {| in_size := length buf;
     in_sha256 := sha256 buf;
     in_normSha256 := sha256 (normalizeCrlf buf);
     in_profile := p;
     in_lines := crlf p + loneLf p + loneCr p;
     in_cls := classify p (length buf) |}.

Definition isBinary (r : inspection) : bool := 0 <? nul (in_profile r).

(** ** Lines *)

(** The CR just before a line feed is the first half of the terminator. *)
Definition drop_cr (line : buffer) : buffer :=
  match rev line with
  | b :: front => if (b =? CRb)%N then rev front else line
  | [] => line
  end.

(** [cur] is the bytes between [start] and the index of the loop. *)
Fixpoint split_from (cur buf : buffer) : list buffer :=
  match buf with
  | [] => match cur with [] => [] | _ => [cur] end
  | b :: rest =>
      if (b =? LFb)%N then drop_cr cur :: split_from [] rest
      else split_from (cur ++ [b]) rest
  end.

Definition splitLines (buf : buffer) : list buffer := split_from [] buf.

Fixpoint render_parts (cur line : buffer) : list jstring :=
  match line with
  | [] => [toString_utf8 cur]
  | b :: rest =>
      if (b =? CRb)%N then toString_utf8 cur :: render_parts [] rest
      else render_parts (cur ++ [b]) rest
  end.

Definition renderLine (line : buffer) : jstring := join_on (u "<CR>") (render_parts [] line).

(** ** A file's own exemption *)

Definition EX_BEGIN : jstring := u "lone-cr-exemption: begin".
Definition EX_END : jstring := u "lone-cr-exemption: end".
Definition MIN_REASON : nat := 40.
Definition STABLE_READS : nat := 3.

Record Exemption := { ex_reason : jstring; ex_declared : list jstring }.
#[export] Instance Exemption_eq_dec : EqDecision Exemption.
Proof. solve_decision. Defined.

(** [xs.findIndex(p)]; [None] is -1. *)
Fixpoint findIndex {A} (p : A -> bool) (l : list A) : option nat :=
  match l with
  | [] => None
  | x :: l => if p x then Some 0 else S <$> findIndex p l
  end.

Record body_state := { bs_declared : list jstring; bs_reason : list jstring; bs_in : bool }.

Definition body_line (st : body_state) (l : jstring) : body_state :=
  let exempt := u "exempt-line: " in
  let reason := u "reason:" in
  if startsWith l exempt then
    {| bs_declared := bs_declared st ++ [drop (length exempt) l];
       bs_reason := bs_reason st; bs_in := false |}
  else if startsWith l reason then
    {| bs_declared := bs_declared st;
       bs_reason := bs_reason st ++ [trim (drop (length reason) l)]; bs_in := true |}
  else if bs_in st && negb (jeqb (trim l) []) then
    {| bs_declared := bs_declared st; bs_reason := bs_reason st ++ [trim l]; bs_in := true |}
  else {| bs_declared := bs_declared st; bs_reason := bs_reason st; bs_in := false |}.

Definition parseBody (body : list jstring) : body_state :=
  foldl body_line {| bs_declared := []; bs_reason := []; bs_in := false |} body.

Definition parseExemption (buf : buffer) : option Exemption :=
  let lines := renderLine <$> splitLines buf in
  match findIndex (fun l => jeqb l EX_BEGIN) lines with
  | None => None
  | Some b =>
      match findIndex (fun l => jeqb l EX_END) (drop (S b) lines) with
      | None => None
      | Some n =>
          let st := parseBody (take n (drop (S b) lines)) in
          match bs_declared st with
          | [] => None
          | _ => Some {| ex_reason := trim (join_on (u " ") (bs_reason st));
                         ex_declared := bs_declared st |}
          end
      end
  end.

(** ** The verdict *)

Inductive problem :=
  | LONE_CR (line : jstring)
  | EXEMPTION_WITHOUT_REASON (characters : nat)
  | EXEMPTION_POINTS_AT_NOTHING (line : jstring).
#[export] Instance problem_eq_dec : EqDecision problem.
Proof. solve_decision. Defined.

Record Assessment := { problems : list problem; exempted : list jstring }.

(** The lines of a file that hold a lone CR, rendered. *)
Definition withLoneCr (buf : buffer) : list jstring :=
  renderLine <$> List.filter (has_char CRb) (splitLines buf).

Definition assess (buf : buffer) : Assessment :=
  let bad := withLoneCr buf in
  match parseExemption buf with
  | None => {| problems := LONE_CR <$> bad; exempted := [] |}
  | Some ex =>
      let declared l := existsb (jeqb l) (ex_declared ex) in
      {| problems :=
           (if length (ex_reason ex) <? MIN_REASON
            then [EXEMPTION_WITHOUT_REASON (length (ex_reason ex))] else [])
           ++ (EXEMPTION_POINTS_AT_NOTHING
                 <$> List.filter (fun d => negb (existsb (jeqb d) bad)) (ex_declared ex))
           ++ (LONE_CR <$> List.filter (fun l => negb (declared l)) bad);
         exempted := List.filter declared bad |}
  end.

Definition isViolation (buf : buffer) : bool := 0 <? length (problems (assess buf)).

(** ** Where the lone CRs are *)

Record hit := { hit_offset : nat; hit_line : nat }.
#[export] Instance hit_eq_dec : EqDecision hit.
Proof. solve_decision. Defined.

Fixpoint offsets_from (i line : nat) (buf : buffer) : list hit :=
  match buf with
  | [] => []
  | b :: rest =>
      if (b =? CRb)%N then
        match rest with
        | c :: rest' =>
            if (c =? LFb)%N then offsets_from (S (S i)) (S line) rest'
            else {| hit_offset := i; hit_line := line |} :: offsets_from (S i) line rest
        | [] => [{| hit_offset := i; hit_line := line |}]
        end
      else if (b =? LFb)%N then offsets_from (S i) (S line) rest
      else offsets_from (S i) line rest
  end.

Definition loneCrOffsets (buf : buffer) : list hit := offsets_from 0 1 buf.

(** ** Scanning a tree *)

(** [git ls-files] and [fs.readFileSync]: the [n]-th read of a path answers
    its bytes, or throws.  A digest is hexadecimal. *)
Class Worktree := {
  trackedFiles : jstring -> list jstring;
  readFileSync : jstring -> jstring -> nat -> option buffer;
  sha256 : buffer -> jstring;
  sha256_hex buf : sha256 buf <> u "ERR";
}.

Record exempt_file := { xf_rel : jstring; xf_lines : list jstring; xf_r : inspection }.
Record candidate := {
  cd_rel : jstring; cd_r : inspection; cd_shas : list jstring;
  cd_problems : list problem; cd_offsets : list hit;
}.

Record ScanResult := {
  sr_repo : jstring;
  sr_scanned : nat; sr_text : nat; sr_binary : nat; sr_missing : nat;
  sr_violations : list candidate;
  sr_exempt : list exempt_file;
  sr_inconclusive : list candidate;
}.

Section Scan.
Context `{Worktree}.

(** The digests of the first read and of the re-reads. *)
Definition stable_shas (repo rel : jstring) (r : inspection) : list jstring :=
  distinct (in_sha256 r ::
    map (fun i => match readFileSync repo rel i with
                  | Some buf => in_sha256 (inspectBuffer sha256 buf)
                  | None => u "ERR"
                  end) (seq 1 (STABLE_READS - 1))).

Definition scanFile (repo : jstring) (res : ScanResult) (rel : jstring) : ScanResult :=
  match readFileSync repo rel 0 with
  | None =>
      {| sr_repo := sr_repo res; sr_scanned := sr_scanned res; sr_text := sr_text res;
         sr_binary := sr_binary res; sr_missing := S (sr_missing res);
         sr_violations := sr_violations res; sr_exempt := sr_exempt res;
         sr_inconclusive := sr_inconclusive res |}
  | Some buf =>
      let r := inspectBuffer sha256 buf in
      if isBinary r then
        {| sr_repo := sr_repo res; sr_scanned := S (sr_scanned res); sr_text := sr_text res;
           sr_binary := S (sr_binary res); sr_missing := sr_missing res;
           sr_violations := sr_violations res; sr_exempt := sr_exempt res;
           sr_inconclusive := sr_inconclusive res |}
      else
        let a := assess buf in
        let shas := stable_shas repo rel r in
        let rec := {| cd_rel := rel; cd_r := r; cd_shas := shas;
                      cd_problems := problems a; cd_offsets := loneCrOffsets buf |} in
        let clean := length (problems a) =? 0 in
        {| sr_repo := sr_repo res; sr_scanned := S (sr_scanned res); sr_text := S (sr_text res);
           sr_binary := sr_binary res; sr_missing := sr_missing res;
           sr_violations :=
             if negb clean && (length shas =? 1) then sr_violations res ++ [rec]
             else sr_violations res;
           sr_exempt :=
             if clean && negb (length (exempted a) =? 0)
             then sr_exempt res ++ [{| xf_rel := rel; xf_lines := exempted a; xf_r := r |}]
             else sr_exempt res;
           sr_inconclusive :=
             if negb clean && negb (length shas =? 1) then sr_inconclusive res ++ [rec]
             else sr_inconclusive res |}
  end.

Definition scanRepo (repo : jstring) : ScanResult :=
  foldl (scanFile repo)
    {| sr_repo := repo; sr_scanned := 0; sr_text := 0; sr_binary := 0; sr_missing := 0;
       sr_violations := []; sr_exempt := []; sr_inconclusive := [] |}
    (trackedFiles repo).

(** ** The self-test *)

Record self_test_case := { tc_name : jstring; tc_expect : bool; tc_buf : buffer }.

Definition exemption_block (reason : buffer) (declared : list buffer) : buffer :=
  from_utf8 "lone-cr-exemption: begin" ++ [LFb] ++ from_utf8 "reason: " ++ reason ++ [LFb]
  ++ concat (map (fun d => from_utf8 "exempt-line: " ++ d ++ [LFb]) declared)
  ++ from_utf8 "lone-cr-exemption: end" ++ [LFb].

Definition GOOD_REASON : buffer := from_utf8
  "these bytes are captured shell output and deleting them would forge a message no shell prints".

Definition quote_byte : buffer := [34%N].

Definition selfTestCases : list self_test_case :=
  let t name expect buf := {| tc_name := u name; tc_expect := expect; tc_buf := buf |} in
  let CRs := [CRb] in
  let LFs := [LFb] in
  let CRLFs := [CRb; LFb] in
  let NUL := [0%N] in
  let not_found := from_utf8 "31: " ++ CRs ++ from_utf8 ": not found" ++ LFs in
  let declared := [from_utf8 "31: <CR>: not found"] in
  [ t "1-pure-lf"%string false (from_utf8 "const a = 1;" ++ LFs ++ from_utf8 "const b = 2;" ++ LFs);
    t "2-pure-crlf"%string false
      (from_utf8 "const a = 1;" ++ CRLFs ++ from_utf8 "const b = 2;" ++ CRLFs);
    t "3-mixed-no-lonecr"%string false
      (from_utf8 "const a = 1;" ++ CRLFs ++ from_utf8 "const b = 2;" ++ LFs
       ++ from_utf8 "const c = 3;" ++ CRLFs);
    t "4-lonecr-midline"%string true
      (from_utf8 "const XS = [" ++ CRs ++ from_utf8 "  " ++ quote_byte ++ from_utf8 "a.tsx"
       ++ quote_byte ++ from_utf8 "," ++ CRLFs ++ from_utf8 "];" ++ CRLFs);
    t "5-lonecr-at-eof"%string true
      (from_utf8 "const a = 1;" ++ CRLFs ++ from_utf8 "const b = 2;" ++ CRs);
    t "6-lonecr-in-string"%string true
      (from_utf8 "const s = " ++ quote_byte ++ from_utf8 "before" ++ CRs ++ from_utf8 "after"
       ++ quote_byte ++ from_utf8 ";" ++ CRLFs);
    t "7-binary-with-cr"%string false
      (NUL ++ from_utf8 "PNGish" ++ CRs ++ from_utf8 "tail" ++ NUL ++ CRs);
    t "8-exempt-valid"%string false (not_found ++ exemption_block GOOD_REASON declared);
    t "9-exempt-stale-line"%string true
      (not_found ++ exemption_block GOOD_REASON [from_utf8 "99: <CR>: something else"]);
    t "10-exempt-outlived-defect"%string true
      (from_utf8 "31: : not found" ++ LFs ++ exemption_block GOOD_REASON declared);
    t "11-exempt-no-reason"%string true
      (not_found ++ exemption_block (from_utf8 "legacy") declared);
    t "12-exempt-does-not-cover-new-cr"%string true
      (not_found ++ from_utf8 "const XS = [" ++ CRs ++ from_utf8 "];" ++ LFs
       ++ exemption_block GOOD_REASON declared) ].

Definition case_actual (c : self_test_case) : bool :=
  if isBinary (inspectBuffer sha256 (tc_buf c)) then false else isViolation (tc_buf c).

Definition selfTestOf (cases : list self_test_case) : Z :=
  let fails := length (List.filter (fun c => negb (eqb (case_actual c) (tc_expect c))) cases) in
  let pos := length (List.filter tc_expect cases) in
  let neg := length cases - pos in
  if (pos =? 0) || (neg =? 0) then 2%Z
  else if negb (fails =? 0) then 1%Z
  else 0%Z.

Definition selfTest : Z := selfTestOf selfTestCases.

(** ** The exit code *)

Definition main (argv : list jstring) : Z :=
  if existsb (jeqb (u "--self-test")) argv then selfTest else
  let repos := List.filter (fun a => negb (startsWith a (u "--"))) argv in
  match repos with
  | [] => 2%Z
  | _ =>
      let results := map scanRepo repos in
      let totalText := foldl (fun n r => n + sr_text r) 0 results in
      let violations := foldl (fun n r => n + length (sr_violations r)) 0 results in
      if totalText =? 0 then 2%Z else if 0 <? violations then 1%Z else 0%Z
  end.

End Scan.

(** A tree of two readable files, one of them absent from the worktree the
    second time it is read, whose digest is the content itself. *)
Program Definition sample_worktree : Worktree :=
  {| trackedFiles _ := [u "a.ts"; u "b.ts"; u "c.ts"; u "logo.png"];
     readFileSync _ rel n :=
       if jeqb rel (u "a.ts") then Some (from_utf8 "const a = 1;" ++ [CRb; LFb])
       else if jeqb rel (u "b.ts") then Some (from_utf8 "x" ++ [CRb] ++ from_utf8 "y")
       else if jeqb rel (u "c.ts") then
         (if n =? 0 then Some (from_utf8 "z" ++ [CRb]) else None)
       else Some [0%N; CRb];
     sha256 buf := 0%N :: buf |}.
Next Obligation. done. Qed.

(** ** The self-test passes, and the sample tree's scan *)

Example selfTest_sample : @selfTest sample_worktree = 0%Z.
Proof. vm_compute. reflexivity. Qed.

Example scan_sample :
  let r := @scanRepo sample_worktree (u "repo") in
  sr_scanned r = 4 /\ sr_text r = 3 /\ sr_binary r = 1
  /\ (cd_rel <$> sr_violations r) = [u "b.ts"] /\ (cd_rel <$> sr_inconclusive r) = [u "c.ts"].
Proof. vm_compute. auto. Qed.

(** ** The census and the lines agree *)

Definition count (b : N) (l : buffer) : nat := length (List.filter (N.eqb b) l).

(** CRs that no LF follows, and CRLF pairs, counted byte by byte. *)
Fixpoint lone_crs (buf : buffer) : nat :=
  match buf with
  | [] => 0
  | b :: rest => (if (b =? CRb)%N && negb (at_lf rest) then 1 else 0) + lone_crs rest
  end.
Fixpoint pairs (buf : buffer) : nat :=
  match buf with
  | [] => 0
  | b :: rest => (if (b =? CRb)%N && at_lf rest then 1 else 0) + pairs rest
  end.

Arguments count : simpl never.

Lemma count_nil b : count b [] = 0.
Proof. done. Qed.
Lemma count_app b l l' : count b (l ++ l') = count b l + count b l'.
Proof. unfold count. by rewrite List.filter_app, length_app. Qed.
Lemma count_cons b c l : count b (c :: l) = (if (b =? c)%N then 1 else 0) + count b l.
Proof. unfold count. cbn. by case_match. Qed.
Lemma count_pos b l : 0 < count b l <-> b ∈ l.
Proof.
  induction l as [|c l IH]; [split; [rewrite count_nil; lia|by intros ?%not_elem_of_nil]|].
  rewrite count_cons, elem_of_cons. case_match eqn:E.
  - apply N.eqb_eq in E. split; [auto|lia].
  - apply N.eqb_neq in E. rewrite Nat.add_0_l, IH. naive_solver.
Qed.
Lemma count_zero b l : count b l = 0 <-> b ∉ l.
Proof. rewrite <-count_pos. lia. Qed.

(** Decide a comparison of bytes in the goal. *)
Ltac byte_cases :=
  repeat match goal with
  | |- context [(?a =? ?b)%N] => is_var a; destruct (N.eqb_spec a b); subst
  | |- context [(?a =? ?b)%N] => is_var b; destruct (N.eqb_spec a b); subst
  end.

Lemma profile_from_spec p buf :
  let q := profile_from p buf in
  crlf q = crlf p + pairs buf
  /\ crlf q + loneLf q = crlf p + loneLf p + count LFb buf
  /\ loneCr q = loneCr p + lone_crs buf
  /\ nul q = nul p + count 0 buf.
Proof.
  revert p. induction buf as [|a|a b l IH1 IH2] using list_ind2; intros p q; subst q.
  - cbn. rewrite !count_nil. lia.
  - cbn [profile_from pairs lone_crs at_lf]. rewrite !count_cons, !count_nil.
    unfold profile_add. byte_cases; cbn; lia.
  - pose proof (IH1 (profile_add p a (at_lf (b :: l)))) as H1.
    pose proof (IH2 (profile_add p a (at_lf (b :: l)))) as H2.
    cbn [profile_from pairs lone_crs at_lf] in *. cbn zeta in *.
    rewrite !(count_cons _ a) in *. rewrite !(count_cons _ b) in *.
    unfold profile_add in *. revert H1 H2. byte_cases; cbn; lia.
Qed.

Lemma profile_spec buf :
  crlf (profile buf) = pairs buf
  /\ crlf (profile buf) + loneLf (profile buf) = count LFb buf
  /\ loneCr (profile buf) = lone_crs buf
  /\ nul (profile buf) = count 0 buf.
Proof. unfold profile. destruct (profile_from_spec {| crlf := 0; loneLf := 0; loneCr := 0; nul := 0 |} buf) as (?&?&?&?). auto. Qed.

Lemma drop_cr_snoc cur b : drop_cr (cur ++ [b]) = if (b =? CRb)%N then cur else cur ++ [b].
Proof. unfold drop_cr. rewrite rev_app_distr. cbn. case_match; [by rewrite rev_involutive|done]. Qed.

(** What the bytes before the loop index add to the lines' lone CRs. *)
Definition pending_crs (cur buf : buffer) : nat :=
  if at_lf buf then count CRb (drop_cr cur) else count CRb cur.

Lemma split_from_crs cur buf :
  sum_list_with (count CRb) (split_from cur buf) = pending_crs cur buf + lone_crs buf.
Proof.
  revert cur. induction buf as [|b rest IH]; intros cur; cbn [split_from lone_crs].
  - unfold pending_crs. destruct cur; cbn; rewrite ?count_nil; lia.
  - unfold pending_crs. cbn [at_lf]. destruct (b =? LFb)%N eqn:El.
    + apply N.eqb_eq in El; subst b. cbn [sum_list_with]. rewrite IH.
      unfold pending_crs. cbn. destruct (at_lf rest); cbn; rewrite ?count_nil; lia.
    + rewrite IH. unfold pending_crs.
      rewrite drop_cr_snoc. destruct (N.eqb_spec b CRb) as [->|Hb];
        [|apply N.eqb_neq in Hb; rewrite N.eqb_sym in Hb];
        destruct (at_lf rest); rewrite ?count_app, ?count_cons, ?count_nil, ?Hb; cbn; lia.
Qed.

Lemma profile_lines buf :
  loneCr (profile buf) = sum_list_with (count CRb) (splitLines buf).
Proof.
  destruct (profile_spec buf) as (_ & _ & -> & _). unfold splitLines.
  rewrite split_from_crs. unfold pending_crs. by destruct (at_lf buf).
Qed.

Lemma profile_withLoneCr buf : 0 < loneCr (profile buf) <-> withLoneCr buf <> [].
Proof.
  rewrite profile_lines. unfold withLoneCr.
  induction (splitLines buf) as [|l ls IH]; cbn; [split; [lia|done]|].
  destruct (has_char CRb l) eqn:Eh; cbn.
  - apply has_char_spec, count_pos in Eh. split; [done|lia].
  - apply has_char_false, count_zero in Eh. rewrite Eh. apply IH.
Qed.

(** ** The offsets *)

(** [h] is a lone CR of [buf], whose first byte has index [i] and stands on
    line [line]. *)
Definition lone_at (i line : nat) (buf : buffer) (h : hit) : Prop :=
  exists k, hit_offset h = i + k /\ buf !! k = Some CRb /\ buf !! S k <> Some LFb
    /\ hit_line h = line + count LFb (take k buf).

Lemma lone_at_nil i line h : lone_at i line [] h <-> False.
Proof. split; [|done]. by intros (k & _ & ? & _). Qed.

Lemma lone_at_cons i line a rest h :
  lone_at i line (a :: rest) h <->
  (a = CRb /\ at_lf rest = false /\ h = {| hit_offset := i; hit_line := line |})
  \/ lone_at (S i) (if (a =? LFb)%N then S line else line) rest h.
Proof.
  split.
  - intros ([|k] & E1 & E2 & E3 & E4); cbn in E2, E3, E4.
    + left. injection E2 as ->. split_and!; [done| |].
      * destruct rest as [|c rest]; [done|]. cbn in *. apply N.eqb_neq. congruence.
      * rewrite count_nil in E4. destruct h; cbn in *. f_equal; lia.
    + right. exists k. rewrite count_cons, N.eqb_sym in E4.
      split_and!; [lia|done|done|]. destruct (a =? LFb)%N; lia.
  - intros [(-> & Hl & ->)|(k & E1 & E2 & E3 & E4)].
    + exists 0. cbn. rewrite count_nil. split_and!; [lia|done| |lia].
      destruct rest as [|c rest]; [done|]. cbn in *. apply N.eqb_neq in Hl. congruence.
    + exists (S k). cbn. rewrite count_cons, (N.eqb_sym LFb).
      split_and!; [lia|done|done|]. destruct (a =? LFb)%N; lia.
Qed.

Lemma offsets_from_cons i line a rest :
  offsets_from i line (a :: rest) =
  if (a =? CRb)%N then
    if at_lf rest then offsets_from (S (S i)) (S line) (tail rest)
    else {| hit_offset := i; hit_line := line |} :: offsets_from (S i) line rest
  else offsets_from (S i) (if (a =? LFb)%N then S line else line) rest.
Proof. destruct rest; cbn; repeat case_match; done. Qed.

Lemma offsets_from_spec i line buf h :
  h ∈ offsets_from i line buf <-> lone_at i line buf h.
Proof.
  revert i line. induction buf as [|a|a b l IH1 IH2] using list_ind2; intros i line.
  - rewrite lone_at_nil. split; [by intros ?%not_elem_of_nil|done].
  - rewrite lone_at_cons, lone_at_nil. cbn. byte_cases;
      rewrite ?list_elem_of_singleton; [naive_solver| |];
      split; try (by intros ?%not_elem_of_nil); naive_solver.
  - rewrite lone_at_cons, offsets_from_cons. cbn [tail at_lf].
    destruct (N.eqb_spec a CRb) as [->|Ha].
    + destruct (N.eqb_spec b LFb) as [->|Hb].
      * rewrite IH2, lone_at_cons. cbn. naive_solver.
      * rewrite elem_of_cons, IH1. cbn. naive_solver.
    + rewrite IH1. naive_solver.
Qed.

Lemma offsets_from_length i line buf : length (offsets_from i line buf) = lone_crs buf.
Proof.
  revert i line. induction buf as [|a|a b l IH1 IH2] using list_ind2; intros i line.
  - done.
  - cbn. by byte_cases.
  - rewrite offsets_from_cons. cbn [lone_crs tail].
    destruct (a =? CRb)%N; [|apply IH1].
    cbn [at_lf]. destruct (N.eqb_spec b LFb) as [->|Hb]; cbn [length negb andb].
    + apply IH2.
    + rewrite IH1. done.
Qed.

Lemma offsets_from_ge i line buf : Forall (fun o => i <= o) (hit_offset <$> offsets_from i line buf).
Proof.
  rewrite Forall_fmap, Forall_forall. intros h (k & E & _)%offsets_from_spec. cbn. lia.
Qed.

Lemma offsets_from_sorted i line buf :
  StronglySorted lt (hit_offset <$> offsets_from i line buf).
Proof.
  revert i line. induction buf as [|a|a b l IH1 IH2] using list_ind2; intros i line.
  - constructor.
  - cbn. byte_cases; repeat constructor.
  - rewrite offsets_from_cons. cbn [tail at_lf].
    destruct (a =? CRb)%N; [destruct (b =? LFb)%N|]; auto.
    cbn [fmap list_fmap]. constructor; [apply IH1|]. apply (offsets_from_ge (S i)).
Qed.

(** The places the guard prints are exactly the lone CRs of the file:
    each offset holds a CR that no LF follows, its line number is one more
    than the line feeds before it, none is missed, they come in increasing
    order, and there are as many as the census counts. *)
Theorem loneCrOffsets_spec buf :
  (forall o l, {| hit_offset := o; hit_line := l |} ∈ loneCrOffsets buf <->
     buf !! o = Some CRb /\ buf !! S o <> Some LFb /\ l = S (count LFb (take o buf)))
  /\ length (loneCrOffsets buf) = loneCr (profile buf)
  /\ StronglySorted lt (hit_offset <$> loneCrOffsets buf).
Proof.
  split_and!.
  - intros o l. unfold loneCrOffsets. rewrite offsets_from_spec. unfold lone_at. cbn.
    split; [by intros (k & -> & ? & ? & ->)|]. intros (? & ? & ->). by exists o.
  - destruct (profile_spec buf) as (_ & _ & -> & _). apply offsets_from_length.
  - apply offsets_from_sorted.
Qed.

(** ** The verdict *)

Lemma fmap_nil_iff {A B} (f : A -> B) l : f <$> l = [] <-> l = [].
Proof. by destruct l. Qed.
Lemma filter_nil_iff {A} (p : A -> bool) l :
  List.filter p l = [] <-> forall x, x ∈ l -> p x = false.
Proof.
  induction l as [|x l IH]; cbn; [split; [by intros _ x ?%not_elem_of_nil|done]|].
  setoid_rewrite elem_of_cons. destruct (p x) eqn:E.
  - split; [done|]. intros H. specialize (H x). rewrite H in E by auto. done.
  - rewrite IH. split; [by intros ? ? [->|?]; auto|auto].
Qed.

(** The comment of [splitLines] says its lines match [profile] exactly:
    for every buffer, the lone CRs [profile] counts are the CRs left in the
    lines, terminators dropped; so a file has one exactly when some line
    shows one. *)
Theorem splitLines_matches_profile buf :
  loneCr (profile buf) = sum_list_with (count CRb) (splitLines buf)
  /\ (0 < loneCr (profile buf) <-> withLoneCr buf <> []).
Proof. split; [apply profile_lines|apply profile_withLoneCr]. Qed.

(** A file is clean exactly when it holds no lone CR and declares no
    exemption, or declares one that gives a reason of forty characters, whose
    every declared line is still in the file with its lone CR, and that
    declares every line with one.  So a second stray CR in an exempted file,
    a declaration that outlived its bytes and a perfunctory reason all
    fail. *)
Theorem assess_clean buf :
  isViolation buf = false <->
  match parseExemption buf with
  | None => loneCr (profile buf) = 0
  | Some ex =>
      MIN_REASON <= length (ex_reason ex)
      /\ forall l, l ∈ ex_declared ex <-> l ∈ withLoneCr buf
  end.
Proof.
  transitivity (problems (assess buf) = []).
  { unfold isViolation. destruct (problems (assess buf)); cbn; [done|]. by split. }
  unfold assess. destruct (parseExemption buf) as [ex|]; cbn [problems].
  - rewrite !app_nil, !fmap_nil_iff, !filter_nil_iff.
    assert (Hd : forall (x : jstring) l, negb (existsb (jeqb x) l) = false <-> x ∈ l).
    { intros x l. rewrite negb_false_iff, existsb_elem. setoid_rewrite jeqb_eq. naive_solver. }
    setoid_rewrite Hd.
    destruct (length (ex_reason ex) <? MIN_REASON) eqn:El;
      [apply Nat.ltb_lt in El|apply Nat.ltb_ge in El]; naive_solver lia.
  - rewrite fmap_nil_iff. pose proof (profile_withLoneCr buf) as H.
    destruct (withLoneCr buf); split; try done; intros; try lia.
    + destruct (loneCr (profile buf)); [done|]. exfalso. by apply (proj1 H); [lia|].
    + exfalso. enough (0 < loneCr (profile buf)) by lia. by apply H.
Qed.

(** ** Declaring an exemption *)

Definition ascii_text (s : buffer) : Prop := Forall (fun b => b < 0x80)%N s /\ CRb ∉ s /\ LFb ∉ s.
#[export] Instance ascii_text_dec s : Decision (ascii_text s).
Proof. unfold ascii_text. apply _. Defined.

Lemma toString_ascii s : Forall (fun b => b < 0x80)%N s -> toString_utf8 s = s.
Proof.
  unfold toString_utf8. induction 1 as [|b s Hb _ IH]; [done|].
  cbn. unfold utf8_step, utf8_start. cbn.
  apply N.ltb_lt in Hb. rewrite Hb. cbn. by rewrite IH.
Qed.

Lemma render_parts_plain cur s : CRb ∉ s -> render_parts cur s = [toString_utf8 (cur ++ s)].
Proof.
  revert cur. induction s as [|b s IH]; intros cur; cbn; [by rewrite app_nil_r|].
  rewrite not_elem_of_cons. intros [Hb Hs].
  destruct (N.eqb_spec b CRb); [congruence|]. rewrite IH by done. by rewrite <-app_assoc.
Qed.

Lemma renderLine_ascii s : ascii_text s -> renderLine s = s.
Proof.
  intros (Ha & Hc & _). unfold renderLine. rewrite render_parts_plain by done.
  cbn. by apply toString_ascii.
Qed.

Lemma split_from_line cur l rest :
  LFb ∉ l -> split_from cur (l ++ LFb :: rest) = drop_cr (cur ++ l) :: splitLines rest.
Proof.
  revert cur. induction l as [|b l IH]; intros cur; cbn; [by rewrite app_nil_r|].
  rewrite not_elem_of_cons. intros [Hb Hl].
  destruct (N.eqb_spec b LFb); [congruence|]. rewrite IH by done. by rewrite <-app_assoc.
Qed.

Lemma drop_cr_plain l : CRb ∉ l -> drop_cr l = l.
Proof.
  destruct l as [|b l] using rev_ind; [done|]. rewrite drop_cr_snoc.
  destruct (N.eqb_spec b CRb) as [->|]; [|done]. intros H. exfalso. apply H.
  apply elem_of_app. right. by apply list_elem_of_singleton.
Qed.

(** A line of plain text, read back with its terminator. *)
Lemma splitLines_text l rest :
  ascii_text l -> splitLines (l ++ LFb :: rest) = l :: splitLines rest.
Proof.
  intros (_ & Hc & Hl). unfold splitLines at 1. rewrite split_from_line by done.
  by rewrite drop_cr_plain.
Qed.

Lemma split_from_app cur p rest :
  split_from cur ((p ++ [LFb]) ++ rest) = split_from cur (p ++ [LFb]) ++ splitLines rest.
Proof.
  revert cur. induction p as [|b p IH]; intros cur; [done|].
  cbn. destruct (b =? LFb)%N; [rewrite IH; done|apply IH].
Qed.

Lemma findIndex_app {A} (p : A -> bool) l1 x l2 :
  (forall y, y ∈ l1 -> p y = false) -> p x = true ->
  findIndex p (l1 ++ x :: l2) = Some (length l1).
Proof.
  intros H1 Hx. induction l1 as [|y l1 IH]; cbn; [by rewrite Hx|].
  rewrite H1 by left. rewrite IH; [done|]. intros z Hz. apply H1. by right.
Qed.

Lemma drop_past {A} (l1 : list A) x l2 : drop (S (length l1)) (l1 ++ x :: l2) = l2.
Proof. by induction l1. Qed.

Definition declaration_line (d : buffer) : buffer := u "exempt-line: " ++ d.

Lemma ascii_text_app s t : ascii_text s -> ascii_text t -> ascii_text (s ++ t).
Proof.
  unfold ascii_text. rewrite Forall_app, !not_elem_of_app. naive_solver.
Qed.

Lemma literal_ascii (s : buffer) : bool_decide (ascii_text s) = true -> ascii_text s.
Proof. apply bool_decide_eq_true_1. Qed.

Lemma splitLines_declared ds rest :
  Forall ascii_text ds ->
  splitLines (concat (map (fun d => from_utf8 "exempt-line: " ++ d ++ [LFb]) ds) ++ rest)
  = map declaration_line ds ++ splitLines rest.
Proof.
  change (from_utf8 "exempt-line: ") with (u "exempt-line: ").
  induction 1 as [|d ds Hd _ IH]; [done|]. cbn [map concat].
  replace ((u "exempt-line: " ++ d ++ [LFb]) ++ concat (map (fun d => u "exempt-line: " ++ d ++ [LFb]) ds))
    with (declaration_line d ++ LFb :: concat (map (fun d => u "exempt-line: " ++ d ++ [LFb]) ds))
    by (unfold declaration_line; by rewrite <-!app_assoc).
  rewrite <-app_assoc. cbn [app]. rewrite splitLines_text; [by rewrite IH|].
  apply ascii_text_app; [by apply literal_ascii|done].
Qed.

Lemma splitLines_block reason ds :
  ascii_text reason -> Forall ascii_text ds ->
  splitLines (exemption_block reason ds)
  = EX_BEGIN :: (u "reason: " ++ reason) :: map declaration_line ds ++ [EX_END].
Proof.
  intros Hr Hds. unfold exemption_block.
  change (from_utf8 "lone-cr-exemption: begin") with EX_BEGIN.
  change (from_utf8 "lone-cr-exemption: end") with EX_END.
  change (from_utf8 "reason: ") with (u "reason: "). cbn [app].
  rewrite (splitLines_text EX_BEGIN) by (by apply literal_ascii).
  rewrite (app_assoc (u "reason: ")). rewrite splitLines_text;
    [|apply ascii_text_app; [by apply literal_ascii|done]].
  rewrite splitLines_declared by done.
  by rewrite (splitLines_text EX_END) by (by apply literal_ascii).
Qed.

Lemma parseBody_block reason ds :
  parseBody ((u "reason: " ++ reason) :: map declaration_line ds) =
  {| bs_declared := ds; bs_reason := [trim (32%N :: reason)]; bs_in := match ds with [] => true | _ => false end |}.
Proof.
  unfold parseBody. cbn [foldl].
  assert (E : body_line {| bs_declared := []; bs_reason := []; bs_in := false |} (u "reason: " ++ reason)
              = {| bs_declared := []; bs_reason := [trim (32%N :: reason)]; bs_in := true |}) by done.
  rewrite E. clear E.
  assert (H : forall done_ b,
    foldl body_line {| bs_declared := done_; bs_reason := [trim (32%N :: reason)]; bs_in := b |}
      (map declaration_line ds)
    = {| bs_declared := done_ ++ ds; bs_reason := [trim (32%N :: reason)];
         bs_in := match ds with [] => b | _ => false end |}); [|apply (H [] true)].
  induction ds as [|d ds IH]; intros done_ b; cbn [map foldl].
  - by rewrite app_nil_r.
  - assert (E : body_line {| bs_declared := done_; bs_reason := [trim (32%N :: reason)]; bs_in := b |}
        (declaration_line d)
      = {| bs_declared := done_ ++ [d]; bs_reason := [trim (32%N :: reason)]; bs_in := false |}).
    { unfold body_line, declaration_line. rewrite startsWith_app. cbn [bs_declared bs_reason].
      by rewrite drop_app_length. }
    rewrite E, IH, <-app_assoc. by destruct ds.
Qed.

Lemma render_all_ascii ls : Forall ascii_text ls -> renderLine <$> ls = ls.
Proof.
  induction 1 as [|x l Hx _ IH]; [done|]. by rewrite fmap_cons, IH, renderLine_ascii.
Qed.

Lemma block_lines pre reason ds :
  ascii_text reason -> Forall ascii_text ds ->
  renderLine <$> splitLines ((pre ++ [LFb]) ++ exemption_block reason ds)
  = (renderLine <$> splitLines (pre ++ [LFb])) ++ EX_BEGIN
      :: ((u "reason: " ++ reason) :: map declaration_line ds) ++ [EX_END].
Proof.
  intros Hr Hds. unfold splitLines at 1.
  rewrite split_from_app, fmap_app, splitLines_block by done. f_equal.
  assert (Ha : Forall ascii_text
    (EX_BEGIN :: ((u "reason: " ++ reason) :: map declaration_line ds) ++ [EX_END])).
  { constructor; [by apply literal_ascii|].
    constructor; [apply ascii_text_app; [by apply literal_ascii|done]|].
    apply Forall_app. split; [|constructor; [by apply literal_ascii|constructor]].
    apply Forall_map. eapply Forall_impl; [done|]. intros d Hd.
    apply ascii_text_app; [by apply literal_ascii|done]. }
  revert Ha. apply render_all_ascii.
Qed.

(** What the guard prints can be pasted back: a file that ends with a
    block declaring plain-text lines and a reason parses to exactly that
    reason, trimmed, and those lines, whatever precedes the block short of
    another begin marker. *)
Theorem parseExemption_block pre reason ds :
  EX_BEGIN ∉ renderLine <$> splitLines (pre ++ [LFb]) ->
  ascii_text reason -> Forall ascii_text ds -> ds <> [] ->
  parseExemption ((pre ++ [LFb]) ++ exemption_block reason ds)
  = Some {| ex_reason := trim reason; ex_declared := ds |}.
Proof.
  intros Hpre Hr Hds Hne. unfold parseExemption. rewrite block_lines by done.
  rewrite findIndex_app; [|intros y Hy; apply jeqb_neq; by intros ->|apply jeqb_refl].
  rewrite drop_past, findIndex_app; [| |apply jeqb_refl].
  - rewrite take_app_length, parseBody_block. cbn [bs_declared bs_reason].
    destruct ds as [|d ds]; [done|]. do 2 f_equal. cbn. unfold trim at 2. cbn [trim_start].
    fold (trim reason). apply trim_idem.
  - intros y [->|Hy]%elem_of_cons; [done|].
    by apply list_elem_of_In, in_map_iff in Hy as (d & <- & _).
Qed.

Lemma parseExemption_block_witness :
  parseExemption ((from_utf8 "31: : not found" ++ [LFb])
      ++ exemption_block (from_utf8 "legacy ") [from_utf8 "31: <CR>: not found"])
  = Some {| ex_reason := u "legacy"; ex_declared := [u "31: <CR>: not found"] |}.
Proof.
  refine (parseExemption_block (from_utf8 "31: : not found") (from_utf8 "legacy ")
            [from_utf8 "31: <CR>: not found"] _ _ _ _); [| | |done].
  - apply not_elem_of_cons. split; [by vm_compute|apply not_elem_of_nil].
  - apply literal_ascii. vm_compute. reflexivity.
  - constructor; [|constructor]. apply literal_ascii. vm_compute. reflexivity.
Defined.

(** ** What a scan reports *)

Arguments isBinary : simpl never.

Section ScanFacts.
Context `{Worktree}.

(** What the scan saw of a file: text, by its first read. *)
Definition text_file (repo rel : jstring) (buf : buffer) : Prop :=
  rel ∈ trackedFiles repo /\ readFileSync repo rel 0 = Some buf /\ 0%N ∉ buf.

(** The two re-reads answered a file of the same digest. *)
Definition settled (repo rel : jstring) (buf : buffer) : Prop :=
  forall i, i = 1 \/ i = 2 ->
    exists again, readFileSync repo rel i = Some again /\ sha256 again = sha256 buf.

Lemma isBinary_spec buf : isBinary (inspectBuffer sha256 buf) = false <-> 0%N ∉ buf.
Proof.
  unfold isBinary. cbn [in_profile inspectBuffer]. destruct (profile_spec buf) as (_ & _ & _ & ->).
  rewrite Nat.ltb_ge, <-count_zero. lia.
Qed.

Lemma stable_shas_settled repo rel buf :
  length (stable_shas repo rel (inspectBuffer sha256 buf)) = 1 <-> settled repo rel buf.
Proof.
  unfold stable_shas, settled. rewrite distinct_single. cbn.
  rewrite !Forall_cons, Forall_nil.
  assert (E : forall i, sha256 buf = match readFileSync repo rel i with
       Some b => in_sha256 (inspectBuffer sha256 b) | None => u "ERR" end
     <-> exists again, readFileSync repo rel i = Some again /\ sha256 again = sha256 buf).
  { intros i. destruct (readFileSync repo rel i) as [b|]; cbn; [naive_solver|].
    split; [|naive_solver]. intros E. by apply sha256_hex in E. }
  rewrite !E. naive_solver.
Qed.

Lemma isViolation_problems buf : (length (problems (assess buf)) =? 0) = negb (isViolation buf).
Proof. unfold isViolation. by destruct (problems (assess buf)). Qed.

(** The loop of [scanRepo], by what each file adds to a field. *)
Lemma scan_fold {A} (field_of : ScanResult -> list A) (adds : jstring -> list A) repo rels res :
  (forall rel r, field_of (scanFile repo r rel) = field_of r ++ adds rel) ->
  field_of (foldl (scanFile repo) res rels) = field_of res ++ concat (map adds rels).
Proof.
  intros Hadd. revert res. induction rels as [|rel rels IH]; intros res; cbn; [by rewrite app_nil_r|].
  by rewrite IH, Hadd, <-app_assoc.
Qed.

Definition violation_of (repo rel : jstring) : list candidate :=
  match readFileSync repo rel 0 with
  | None => []
  | Some buf =>
      let r := inspectBuffer sha256 buf in
      if isBinary r then [] else
      if isViolation buf && (length (stable_shas repo rel r) =? 1)
      then [{| cd_rel := rel; cd_r := r; cd_shas := stable_shas repo rel r;
               cd_problems := problems (assess buf); cd_offsets := loneCrOffsets buf |}]
      else []
  end.

Lemma scan_violations repo :
  sr_violations (scanRepo repo) = concat (map (violation_of repo) (trackedFiles repo)).
Proof.
  unfold scanRepo. rewrite (scan_fold sr_violations (violation_of repo)); [done|].
  intros rel r. unfold scanFile, violation_of.
  destruct (readFileSync repo rel 0) as [buf|]; [|by rewrite app_nil_r].
  cbn zeta. rewrite isViolation_problems, negb_involutive.
  repeat case_match; cbn; by rewrite ?app_nil_r.
Qed.

Lemma violation_of_spec repo rel c :
  c ∈ violation_of repo rel <->
  exists buf, readFileSync repo rel 0 = Some buf /\ 0%N ∉ buf /\ isViolation buf = true
    /\ settled repo rel buf
    /\ c = {| cd_rel := rel; cd_r := inspectBuffer sha256 buf;
              cd_shas := stable_shas repo rel (inspectBuffer sha256 buf);
              cd_problems := problems (assess buf); cd_offsets := loneCrOffsets buf |}.
Proof.
  unfold violation_of. split.
  - destruct (readFileSync repo rel 0) as [buf|]; [|by intros ?%not_elem_of_nil]. cbn zeta.
    destruct (isBinary _) eqn:Eb; [by intros ?%not_elem_of_nil|].
    destruct (isViolation buf) eqn:Ev; cbn [andb]; [|by intros ?%not_elem_of_nil].
    case_match eqn:El; [|by intros ?%not_elem_of_nil].
    rewrite list_elem_of_singleton. intros ->. exists buf.
    rewrite <-isBinary_spec, <-stable_shas_settled. apply Nat.eqb_eq in El. auto.
  - intros (buf & -> & Hb & Hv & Hs & ->). cbn zeta.
    apply isBinary_spec in Hb. apply stable_shas_settled in Hs.
    rewrite Hb, Hv, Hs. by apply list_elem_of_singleton.
Qed.

Definition is_text (repo rel : jstring) : bool :=
  match readFileSync repo rel 0 with
  | Some buf => negb (isBinary (inspectBuffer sha256 buf))
  | None => false
  end.

Lemma scan_text repo : sr_text (scanRepo repo) = length (List.filter (is_text repo) (trackedFiles repo)).
Proof.
  unfold scanRepo.
  assert (E : forall rels res, sr_text (foldl (scanFile repo) res rels)
                               = sr_text res + length (List.filter (is_text repo) rels)).
  { induction rels as [|rel rels IH]; intros res; cbn; [lia|]. rewrite IH. unfold scanFile, is_text.
    destruct (readFileSync repo rel 0) as [buf|]; cbn; [|lia].
    destruct (isBinary (inspectBuffer sha256 buf)); cbn; lia. }
  by rewrite E.
Qed.

Lemma scan_text_pos repo :
  0 < sr_text (scanRepo repo) <-> exists rel buf, text_file repo rel buf.
Proof.
  rewrite scan_text. transitivity (List.filter (is_text repo) (trackedFiles repo) <> []).
  { destruct (List.filter _ _); cbn; split; (done || lia). }
  rewrite filter_nil_iff. unfold text_file. split.
  - intros Hn. destruct (existsb (is_text repo) (trackedFiles repo)) eqn:E.
    + apply existsb_elem in E as (rel & Hin & Ht). unfold is_text in Ht.
      destruct (readFileSync repo rel 0) as [buf|] eqn:Er; [|done]. apply negb_true_iff in Ht.
      exists rel, buf. by rewrite <-isBinary_spec.
    + exfalso. apply Hn. intros rel Hin. apply not_true_iff_false. intros Ht.
      apply not_true_iff_false in E. apply E, existsb_elem. eauto.
  - intros (rel & buf & Hin & Hr & Hb) Hall. specialize (Hall rel Hin).
    unfold is_text in Hall. rewrite Hr in Hall. apply isBinary_spec in Hb. by rewrite Hb in Hall.
Qed.

Lemma sum_pos {A} (f : A -> nat) (l : list A) n :
  0 < foldl (fun n r => n + f r) n l <-> 0 < n \/ exists r, r ∈ l /\ 0 < f r.
Proof.
  revert n. induction l as [|x l IH]; intros n; cbn.
  - split; [auto|]. intros [?|(r & Hr & _)]; [done|by apply not_elem_of_nil in Hr].
  - rewrite IH. setoid_rewrite elem_of_cons. split.
    + intros [Hn|(r & ? & ?)]; [|by eauto]. destruct (decide (0 < n)); [by left|].
      right. exists x. split; [by left|lia].
    + intros [?|(r & [->|?] & ?)]; [left; lia|left; lia|eauto].
Qed.

(** A file stands among the violations exactly when it is tracked, its
    first read is text that fails the verdict, and two further reads gave
    the same digest; it is reported with its own problems and offsets. *)
Theorem scanRepo_violations repo c :
  c ∈ sr_violations (scanRepo repo) <->
  exists rel buf, text_file repo rel buf /\ isViolation buf = true /\ settled repo rel buf
    /\ c = {| cd_rel := rel; cd_r := inspectBuffer sha256 buf;
              cd_shas := stable_shas repo rel (inspectBuffer sha256 buf);
              cd_problems := problems (assess buf); cd_offsets := loneCrOffsets buf |}.
Proof.
  rewrite scan_violations, elem_of_concat. setoid_rewrite list_elem_of_In at 2.
  setoid_rewrite in_map_iff. split.
  - intros (l & Hc & rel & <- & Hin%list_elem_of_In).
    apply violation_of_spec in Hc as (buf & ? & ? & ? & ? & ?). exists rel, buf. by unfold text_file.
  - intros (rel & buf & (Hin & Hr & Hb) & Hv & Hs & ->).
    exists (violation_of repo rel). split; [|exists rel; by rewrite <-list_elem_of_In].
    apply violation_of_spec. by exists buf.
Qed.

Lemma scan_clean repo :
  length (sr_violations (scanRepo repo)) = 0 <->
  forall rel buf, text_file repo rel buf -> settled repo rel buf -> isViolation buf = false.
Proof.
  transitivity (forall c, c ∉ sr_violations (scanRepo repo)).
  { rewrite length_zero_iff_nil. destruct (sr_violations (scanRepo repo)) as [|c cs].
    - split; [by intros _ c ?%not_elem_of_nil|done].
    - split; [done|]. intros Hn. by destruct (Hn c (list_elem_of_here _ _)). }
  rewrite scan_violations. setoid_rewrite elem_of_concat.
  split.
  - intros Hc rel buf (Hin & Hr & Hb) Hs. apply not_true_iff_false. intros Hv.
    eapply Hc. exists (violation_of repo rel). split.
    + apply violation_of_spec. exists buf. auto.
    + apply list_elem_of_In, in_map_iff. exists rel. by rewrite <-list_elem_of_In.
  - intros Hall c (l & Hc & Hl). apply list_elem_of_In, in_map_iff in Hl as (rel & <- & Hin%list_elem_of_In).
    apply violation_of_spec in Hc as (buf & Hr & Hb & Hv & Hs & _).
    by rewrite (Hall rel buf) in Hv.
Qed.

(** The repositories named on the command line. *)
Definition repos_of (argv : list jstring) : list jstring :=
  List.filter (fun a => negb (startsWith a (u "--"))) argv.

Lemma repos_text repos :
  0 < foldl (fun n r => n + sr_text r) 0 (map scanRepo repos) <->
  exists repo rel buf, repo ∈ repos /\ text_file repo rel buf.
Proof.
  rewrite sum_pos. setoid_rewrite list_elem_of_In. setoid_rewrite in_map_iff. split.
  - intros [?|(r & (repo & <- & Hin) & (rel & buf & Ht)%scan_text_pos)]; [lia|].
    by exists repo, rel, buf.
  - intros (repo & rel & buf & Hin & Ht). right. exists (scanRepo repo).
    split; [by exists repo|]. apply scan_text_pos. eauto.
Qed.

Lemma repos_clean repos :
  ~ 0 < foldl (fun n r => n + length (sr_violations r)) 0 (map scanRepo repos) <->
  forall repo rel buf, repo ∈ repos -> text_file repo rel buf -> settled repo rel buf ->
    isViolation buf = false.
Proof.
  rewrite sum_pos. setoid_rewrite list_elem_of_In. setoid_rewrite in_map_iff. split.
  - intros Hn repo rel buf Hin Ht. apply (scan_clean repo); [|done].
    destruct (length (sr_violations (scanRepo repo))) eqn:E; [done|].
    exfalso. apply Hn. right. exists (scanRepo repo). split; [by exists repo|lia].
  - intros Hall [?|(r & (repo & <- & Hin) & Hp)]; [lia|].
    enough (length (sr_violations (scanRepo repo)) = 0) by lia. apply scan_clean. eauto.
Qed.

(** C29. The guard's exit code.  Without [--self-test] it is 0 exactly when
    the trees named hold some text file, and every tracked text file either
    passes the verdict or changed while it was read; an empty list of trees,
    or trees with no text in them, never pass. *)
Theorem main_green argv :
  u "--self-test" ∉ argv ->
  main argv = 0%Z <->
  (exists repo rel buf, repo ∈ repos_of argv /\ text_file repo rel buf)
  /\ forall repo rel buf, repo ∈ repos_of argv -> text_file repo rel buf ->
       settled repo rel buf -> isViolation buf = false.
Proof.
  intros Hst. unfold main.
  assert (existsb (jeqb (u "--self-test")) argv = false) as ->.
  { apply not_true_iff_false. rewrite existsb_elem. by intros (x & Hx & <-%jeqb_eq). }
  rewrite <-repos_text, <-repos_clean. fold (repos_of argv).
  destruct (repos_of argv) as [|r rs]; [cbn; split; [done|lia]|].
  destruct (Nat.eqb_spec (foldl (fun n r => n + sr_text r) 0 (map scanRepo (r :: rs))) 0) as [->|];
    [split; [done|lia]|].
  destruct (Nat.ltb_spec 0 (foldl (fun n r => n + length (sr_violations r)) 0 (map scanRepo (r :: rs))));
    split; (done || lia || (intros; split; lia)).
Qed.

End ScanFacts.

Lemma main_green_witness :
  let W := sample_worktree in
  main [u "repo"] = 1%Z
  /\ ~ ((exists repo rel buf, repo ∈ repos_of [u "repo"] /\ text_file repo rel buf)
        /\ forall repo rel buf, repo ∈ repos_of [u "repo"] -> text_file repo rel buf ->
             settled repo rel buf -> isViolation buf = false).
Proof.
  intros W. assert (E : main [u "repo"] = 1%Z) by (vm_compute; reflexivity).
  split; [exact E|]. intros H. apply (main_green [u "repo"]) in H; [congruence|].
  apply not_elem_of_cons. split; [by vm_compute|apply not_elem_of_nil].
Defined.

(** ** The self-test *)

(** The self-test exits 0, whatever the digest is: the verdict flags the
    seven cases meant to be flagged and passes the five meant to pass, and
    [--self-test] on the command line runs it before anything is scanned. *)
Theorem selfTest_passes `{Worktree} argv :
  u "--self-test" ∈ argv ->
  main argv = 0%Z
  /\ map case_actual selfTestCases = map tc_expect selfTestCases
  /\ length (List.filter tc_expect selfTestCases) = 7 /\ length selfTestCases = 12.
Proof.
  intros Hin. unfold main.
  assert (existsb (jeqb (u "--self-test")) argv = true) as ->.
  { apply existsb_elem. exists (u "--self-test"). split; [done|apply jeqb_refl]. }
  split_and!; vm_compute; reflexivity.
Qed.

Lemma selfTest_passes_witness : @main sample_worktree [u "--json"; u "--self-test"] = 0%Z.
Proof.
  refine (proj1 (selfTest_passes (H := sample_worktree) [u "--json"; u "--self-test"] _)).
  right. left.
Defined.

(** ** [normalizeCrlf] *)

(** No lone CR stands right before a CRLF pair. *)
Fixpoint no_cr_crlf (buf : buffer) : bool :=
  match buf with
  | [] => true
  | b :: rest =>
      negb ((b =? CRb)%N && match rest with c :: rest' => (c =? CRb)%N && at_lf rest' | [] => false end)
      && no_cr_crlf rest
  end.

Lemma at_lf_normalize buf :
  at_lf (normalizeCrlf buf)
  = at_lf buf || match buf with c :: rest => (c =? CRb)%N && at_lf rest | [] => false end.
Proof.
  destruct buf as [|b [|c rest]]; [done| |].
  - cbn. rewrite andb_false_r. cbn. by rewrite orb_false_r.
  - cbn [normalizeCrlf at_lf]. byte_cases; cbn; by byte_cases.
Qed.

(** Normalising turns every CRLF into a LF and keeps the lone CRs and
    the NULs, so no CRLF is left and doing it again changes nothing, for a
    file in which no lone CR stands right before a CRLF. *)
Theorem normalizeCrlf_profile buf :
  no_cr_crlf buf = true ->
  let p := profile buf in
  let q := profile (normalizeCrlf buf) in
  crlf q = 0 /\ loneLf q = crlf p + loneLf p /\ loneCr q = loneCr p /\ nul q = nul p
  /\ normalizeCrlf (normalizeCrlf buf) = normalizeCrlf buf.
Proof.
  intros Hn p q. subst p q.
  destruct (profile_spec buf) as (P1 & P2 & P3 & P4).
  destruct (profile_spec (normalizeCrlf buf)) as (Q1 & Q2 & Q3 & Q4).
  enough (pairs (normalizeCrlf buf) = 0 /\ count LFb (normalizeCrlf buf) = count LFb buf
          /\ lone_crs (normalizeCrlf buf) = lone_crs buf
          /\ count 0 (normalizeCrlf buf) = count 0 buf
          /\ normalizeCrlf (normalizeCrlf buf) = normalizeCrlf buf) by (split_and!; lia || tauto).
  clear -Hn. induction buf as [|b rest IH]; [done|].
  cbn [no_cr_crlf] in Hn. apply andb_true_iff in Hn as [Hb Hn].
  destruct (IH Hn) as (I1 & I2 & I3 & I4 & I5). clear IH.
  pose proof (at_lf_normalize rest) as Hl. cbn [normalizeCrlf].
  destruct (b =? CRb)%N eqn:Eb; cbn [andb negb] in *.
  - apply N.eqb_eq in Eb as ->. apply negb_true_iff in Hb. rewrite Hb, orb_false_r in Hl.
    destruct (at_lf rest) eqn:El; cbn [pairs lone_crs normalizeCrlf]; rewrite ?count_cons, ?Hl, ?El; cbn;
      rewrite ?I5; split_and!; try lia; done.
  - cbn [pairs lone_crs normalizeCrlf]. rewrite !count_cons, Eb. cbn. rewrite I5.
    split_and!; try lia; done.
Qed.

Lemma normalizeCrlf_profile_witness :
  normalizeCrlf (normalizeCrlf (from_utf8 "a" ++ [CRb; LFb; CRb]))
  = normalizeCrlf (from_utf8 "a" ++ [CRb; LFb; CRb]).
Proof. exact (proj2 (proj2 (proj2 (proj2 (normalizeCrlf_profile (from_utf8 "a" ++ [CRb; LFb; CRb]) eq_refl))))). Defined.

(** The comment says a lone CR is not touched.  One that stands before a
    CRLF becomes the first half of a CRLF pair: it is no longer lone, and
    normalising again deletes it. *)
Theorem normalizeCrlf_eats_cr :
  loneCr (profile [CRb; CRb; LFb]) = 1
  /\ loneCr (profile (normalizeCrlf [CRb; CRb; LFb])) = 0
  /\ normalizeCrlf (normalizeCrlf [CRb; CRb; LFb]) = [LFb].
Proof. by vm_compute. Qed.
