(* ===== verification/Component.v ===== *)
(** * Client components as machines

    What the components of apps/console/components share.  A component is a
    state and a partial step function: an event the screen or the platform
    can raise (a press, a timer, an answer arriving) gives a new state and
    the effects it has, or [None] when the event cannot happen in that state
    (the control is not drawn or is disabled, the timer is not running).  An
    [async] handler is split at each [await]: what remains of it stands in
    the state as a flight, and the answer that resumes it is an event, so
    answers come in any order and late. *)

From Stdlib Require Import Lia.
From S2P Require Import Prelude JsString JsValue JsMap.

(** ** The platform *)

(** One [fetch] of a component. *)
Record call := {
  cl_method : jstring;
  cl_url : jstring;
  cl_body : option jsval;             (** the value given to JSON.stringify *)
}.
#[export] Instance call_eq_dec : EqDecision call.
Proof. solve_decision. Defined.

Definition call_get (url : jstring) : call :=
  {| cl_method := u "GET"; cl_url := url; cl_body := None |}.
Definition call_post (url : jstring) (body : jsval) : call :=
  {| cl_method := u "POST"; cl_url := url; cl_body := Some body |}.

(** How a [fetch] settles: it rejects, or a response whose body is text that
    can be read or not, and JSON or not. *)
Inductive answer :=
  | NoAnswer
  | Answer (status : Z) (text : option jstring) (json : option jsval).

(** [response.ok]. *)
Definition ok_status (status : Z) : bool := ((200 <=? status) && (status <=? 299))%Z.

(** What a handler does to the outside. *)
Inductive effect :=
  | Fetch (c : call)
  | RouterRefresh
  | Navigate (url : jstring).
#[export] Instance effect_eq_dec : EqDecision effect.
Proof. solve_decision. Defined.

(** [{ ...base, ...extra }]: a later property replaces an earlier one in its
    place. *)
Definition spread (base extra : list (jstring * jsval)) : list (jstring * jsval) :=
  fold_left (fun acc kv => map_set kv.1 kv.2 acc) extra base.

Lemma spread_get k base extra :
  NoDup extra.*1 ->
  field k (spread base extra) =
  match field k extra with Some v => Some v | None => field k base end.
Proof.
  unfold spread. revert base. induction extra as [|[k' v] extra IH]; intros base; [done|].
  cbn [fmap list_fmap fst snd fold_left field]. intros [Hk Hn]%NoDup_cons. rewrite IH by done.
  destruct (jeqb k k') eqn:E.
  - apply jeqb_eq in E as <-. assert (field k extra = None) as ->.
    { destruct (field k extra) eqn:Ef; [|done]. exfalso. apply Hk.
      apply (map_get_elem k) in Ef; [|done]. apply list_elem_of_fmap. by eexists (_, _). }
    apply map_get_set_eq.
  - destruct (field k extra); [done|]. apply map_get_set_ne. by apply jeqb_neq.
Qed.

Lemma some_pair {A B} (p : A * B) a b : Some p = Some (a, b) -> a = p.1 /\ b = p.2.
Proof. by intros [= ->]. Qed.

(** ** Machines *)

Section Machine.
Context {S E O : Type} (step : S -> E -> option (S * list O)).

(** A run, with what each event did. *)
Inductive run : S -> list (E * list O) -> S -> Prop :=
  | run_nil s : run s [] s
  | run_cons s e s' out tr s'' :
      step s e = Some (s', out) -> run s' tr s'' -> run s ((e, out) :: tr) s''.

Lemma run_app s tr s' tr' s'' : run s tr s' -> run s' tr' s'' -> run s (tr ++ tr') s''.
Proof. induction 1; [done|]. intros. econstructor; eauto. Qed.

Lemma run_snoc s tr s' e s'' out :
  run s tr s' -> step s' e = Some (s'', out) -> run s (tr ++ [(e, out)]) s''.
Proof. intros Hr Hs. eapply run_app; [done|]. econstructor; [done|constructor]. Qed.

(** Rule induction: what every step keeps holds after every run. *)
Lemma run_invariant (I : S -> Prop) s tr s' :
  (forall s e s' out, I s -> step s e = Some (s', out) -> I s') ->
  I s -> run s tr s' -> I s'.
Proof. intros Hstep Hs Hr. induction Hr; eauto. Qed.

(** And what every step from such a state does is true of each step of the
    run. *)
Lemma run_steps (I : S -> Prop) (P : S -> E -> S -> list O -> Prop) s tr s' :
  (forall s e s' out, I s -> step s e = Some (s', out) -> I s') ->
  (forall s e s' out, I s -> step s e = Some (s', out) -> P s e s' out) ->
  I s -> run s tr s' ->
  Forall (fun eo => exists s1 s2, I s1 /\ step s1 eo.1 = Some (s2, eo.2) /\ P s1 eo.1 s2 eo.2) tr.
Proof.
  intros Hinv HP Hs Hr. induction Hr as [|s e s' out tr s'' Hst Hr IH]; constructor; eauto.
  exists s, s'. cbn. eauto.
Qed.

(** The same with a property of the events and their effects alone. *)
Lemma run_all (I : S -> Prop) (P : E -> list O -> Prop) s tr s' :
  (forall s e s' out, I s -> step s e = Some (s', out) -> I s' /\ P e out) ->
  I s -> run s tr s' -> I s' /\ Forall (fun eo => P eo.1 eo.2) tr.
Proof.
  intros Hstep Hs Hr. induction Hr as [s|s e s1 out tr s2 Hst Hr IH]; [by split; [|constructor]|].
  destruct (Hstep _ _ _ _ Hs Hst) as [H1 HP]. destruct (IH H1). split; [done|by constructor].
Qed.

(** Everything a run does to the outside, in order. *)
Definition effects (tr : list (E * list O)) : list O := concat tr.*2.

Lemma elem_of_effects tr x : x ∈ effects tr <-> exists e out, (e, out) ∈ tr /\ x ∈ out.
Proof.
  unfold effects. rewrite elem_of_concat. setoid_rewrite list_elem_of_fmap. split.
  - intros (out & Hx & [e o] & -> & Hin). by exists e, o.
  - intros (e & out & Hin & Hx). exists out. split; [done|]. by exists (e, out).
Qed.

Lemma effects_nil tr : Forall (fun eo => eo.2 = []) tr -> effects tr = [].
Proof. unfold effects. induction 1 as [|[e out] tr Ho _ IH]; [done|]. cbn in *. by rewrite Ho. Qed.

End Machine.

(** Case analysis on a step: the branches in which it is possible. *)
Ltac step_cases H :=
  repeat match type of H with
  | Some _ = Some _ => injection H as <- <-
  | None = Some _ => discriminate H
  | context [match ?x with _ => _ end] => let E := fresh "E" in destruct x eqn:E
  end.

(** ** Flights of one kind *)

Section Tally.
Context {A : Type} (p : A -> bool).

Definition tally (l : list A) : nat := length (List.filter p l).

Lemma tally_cons x l : tally (x :: l) = (if p x then 1 else 0) + tally l.
Proof. unfold tally. cbn. by destruct (p x). Qed.
Lemma tally_snoc l x : tally (l ++ [x]) = tally l + if p x then 1 else 0.
Proof. unfold tally. rewrite List.filter_app, length_app. cbn. by destruct (p x). Qed.

Lemma tally_app l l' : tally (l ++ l') = tally l + tally l'.
Proof. unfold tally. by rewrite List.filter_app, length_app. Qed.

Lemma tally_none l : Forall (fun x => p x = false) l -> tally l = 0.
Proof. induction 1 as [|x l Hx _ IH]; [done|]. by rewrite tally_cons, Hx, IH. Qed.

Lemma tally_delete l i x : l !! i = Some x -> tally l = (if p x then 1 else 0) + tally (delete i l).
Proof.
  revert i. induction l as [|y l IH]; intros [|i]; [done..| |]; intros Hi.
  - injection Hi as ->. apply tally_cons.
  - change (delete (S i) (y :: l)) with (y :: delete i l). rewrite !tally_cons, (IH i Hi). lia.
Qed.

Lemma tally_insert l i x y : l !! i = Some x -> p x = p y -> tally (<[i := y]> l) = tally l.
Proof.
  revert i. induction l as [|z l IH]; intros [|i]; [done..| |]; intros Hi Hp.
  - injection Hi as ->. change (<[0 := y]> (x :: l)) with (y :: l). by rewrite !tally_cons, Hp.
  - change (<[S i := y]> (z :: l)) with (z :: <[i := y]> l). by rewrite !tally_cons, (IH i Hi Hp).
Qed.

Lemma tally_pos l : 0 < tally l -> exists i x, l !! i = Some x /\ p x = true.
Proof.
  induction l as [|x l IH]; [by intros ?%Nat.nlt_0_r|]. rewrite tally_cons.
  destruct (p x) eqn:Ex; [by exists 0, x|]. intros (i & y & Hi & Hy)%IH. by exists (S i), y.
Qed.
End Tally.
Arguments tally : simpl never.

(** A machine runs a list of events, for the witnesses. *)
Fixpoint exec {S E O} (step : S -> E -> option (S * list O)) (s : S) (es : list E)
    : option (S * list O) :=
  match es with
  | [] => Some (s, [])
  | e :: es =>
      match step s e with
      | Some (s', out) =>
          match exec step s' es with Some (s'', out') => Some (s'', out ++ out') | None => None end
      | None => None
      end
  end.

Lemma exec_run {S E O} (step : S -> E -> option (S * list O)) s es s' out :
  exec step s es = Some (s', out) ->
  exists tr, run step s tr s' /\ tr.*1 = es /\ effects tr = out.
Proof.
  revert s out. induction es as [|e es IH]; intros s out; cbn.
  - intros [= <- <-]. exists []. split_and!; [constructor|done|done].
  - destruct (step s e) as [[s1 o]|] eqn:Es; [|done].
    destruct (exec step s1 es) as [[s2 o']|] eqn:Ee; [|done]. intros [= <- <-].
    destruct (IH s1 o' Ee) as (tr & Hr & <- & <-).
    exists ((e, o) :: tr). split_and!; [by econstructor|done|done].
Qed.

Arguments spread : simpl never.
