(* ===== verification/Console.v ===== *)
(** * The device page's command relay (components/device-console.tsx:
      useDeviceCommands, confirmationTitle and the two panels that use it)

    What may reach POST /v1/commands from a device page.  [request] asks
    [deviceCommandGuard] first; a guarded command waits in [pending] until
    the dialog is answered; [runNow] sends it, rereads the log and, for a
    command that writes the register, has the server draw the page again.
    The answers to the log reads, the polling timer and the props the server
    redraws are events of one machine ([console_step]). *)

From Stdlib Require Import Lia.
From S2P Require Import Prelude JsString JsValue JsMap Gateway Devices Guards Component.

Definition TERMINAL : list jstring :=
  [u "succeeded"; u "failed"; u "expired"; u "cancelled"; u "unknown"].

Definition READ_ONLY : list jstring := [u "modem_report"; u "list_esim_profiles"].

Definition REGISTER_WRITES : list jstring :=
  [ u "create_modem"; u "register_modem"; u "unregister_modem"; u "update_modem";
    u "claim_modem_candidate"; u "revoke_modem_candidate" ].

Definition DISRUPTIVE : list jstring :=
  [ u "restart_modem"; u "reset_modem_usb"; u "scan_operators"; u "rotate_ip"; u "set_radio";
    u "set_data_network"; u "reregister_network"; u "unregister_modem" ].

Definition TURNS_OFF : list (jstring * list (jstring * jsval)) :=
  [ (u "set_radio", [(u "enabled", VBool false)]);
    (u "set_data_network", [(u "enabled", VBool false)]) ].

(** [{ modem_imei: imei, ...extra }], what the guard is asked about. *)
Definition guard_payload (imei : jstring) (extra : list (jstring * jsval)) : jsval :=
  VObj (spread [(u "modem_imei", VStr imei)] extra).

(** [TERMINAL.has(row.status)]. *)
Definition settled_status (row : jsval) : bool :=
  match prop row (u "status") with VStr s => existsb (jeqb s) TERMINAL | _ => false end.

Record Pending := {
  pd_kind : jstring;
  pd_extra : list (jstring * jsval);
  pd_consequence : jstring;
  pd_title : jstring;
}.
#[export] Instance Pending_eq_dec : EqDecision Pending.
Proof. solve_decision. Defined.

(** What is left of an [async] call after its [await]. *)
Inductive flight :=
  | LogRead                        (** [void refresh()] *)
  | CommandSent (kind : jstring)   (** [runNow], waiting for the POST *)
  | CommandReread (kind : jstring). (** [runNow], waiting for [refresh()] *)
#[export] Instance flight_eq_dec : EqDecision flight.
Proof. solve_decision. Defined.

Definition is_run (f : flight) : bool := match f with LogRead => false | _ => true end.

Record commands_state := {
  hk_commands : list jsval;
  hk_busy : bool;
  hk_error : option jstring;
  hk_pending : option Pending;
  hk_mounted : bool;
  hk_flights : list flight;
  hk_crashed : bool;               (** a render threw: the rows are no array *)
}.

(** Which panel mounts the hook: only the console's dialog depends on the
    modules listed. *)
Inductive panel := DiagnosticsPanel | ConsolePanel.

Record console := {
  cs_modems : list ModemRow;       (** server props *)
  cs_imei : jstring;
  cs_hook : commands_state;
}.

Inductive console_event :=
  | Ask (kind : jstring) (extra : list (jstring * jsval))  (** a control's [request] *)
  | Proceed
  | CancelPending
  | SelectModem (imei : jstring)
  | Tick                                                   (** the polling timer *)
  | Arrive (flight : nat) (a : answer)
  | Redraw (modems : list ModemRow)
  | Unmount.

Section Console.
Context `{ToString}.
(** [`${Object.prototype[name]}`]: the text of an inherited member. *)
Context (inherited_text : jstring -> jstring).
Context (deviceId : jstring) (labels : list (jstring * jstring)) (writable : bool).

(** [labels.failed] and the other names of the label set. *)
Definition label (name : string) : jstring := default [] (field (u name) labels).

Definition commandLabel (kind : jstring) : jstring :=
  match table_read labels kind with
  | Own text => text
  | Inherited => inherited_text kind
  | Absent => kind
  end.

Definition confirmationTitle (kind : jstring) (extra : list (jstring * jsval)) (imei : jstring)
    : jstring :=
  let target := match prop (VObj extra) (u "modem_imei") with VStr s => s | _ => imei end in
  let what :=
    if jeqb kind (u "run_at_command")
    then to_string (nullish (prop (VObj extra) (u "command")) (VStr []))
    else commandLabel kind in
  if jeqb target [] then what else what ++ u " — " ++ target.

(** ** The requests *)

Definition log_url : res jstring :=
  id ← encodeURIComponent deviceId;
  Ok (u "/v1/commands?device_id=" ++ id ++ u "&limit=25").

Definition command_call (imei kind : jstring) (extra : list (jstring * jsval)) : call :=
  call_post (u "/v1/commands")
    (VObj (spread [(u "device_id", VStr deviceId); (u "kind", VStr kind);
                   (u "modem_imei", VStr imei)] extra)).

(** ** [useDeviceCommands] *)

Definition set_flights (fs : list flight) (s : commands_state) : commands_state :=
  {| hk_commands := hk_commands s; hk_busy := hk_busy s; hk_error := hk_error s;
     hk_pending := hk_pending s; hk_mounted := hk_mounted s; hk_flights := fs;
     hk_crashed := hk_crashed s |}.
Definition set_pending (p : option Pending) (s : commands_state) : commands_state :=
  {| hk_commands := hk_commands s; hk_busy := hk_busy s; hk_error := hk_error s;
     hk_pending := p; hk_mounted := hk_mounted s; hk_flights := hk_flights s;
     hk_crashed := hk_crashed s |}.
(** [setError(..)] and [setBusy(..)]. *)
Definition set_run (busy : bool) (error : option jstring) (s : commands_state) : commands_state :=
  {| hk_commands := hk_commands s; hk_busy := busy; hk_error := error;
     hk_pending := hk_pending s; hk_mounted := hk_mounted s; hk_flights := hk_flights s;
     hk_crashed := hk_crashed s |}.
(** [setCommands(value)], and the render that follows. *)
Definition set_commands (value : jsval) (s : commands_state) : commands_state :=
  let rows := match value with VArr rows => Some rows | _ => None end in
  let readable := match rows with
    | Some rows => forallb (fun row => match row with VUndef | VNull => false | _ => true end) rows
    | None => false
    end in
  {| hk_commands := default [] rows; hk_busy := hk_busy s; hk_error := hk_error s;
     hk_pending := hk_pending s; hk_mounted := hk_mounted s; hk_flights := hk_flights s;
     hk_crashed := hk_crashed s || negb readable |}.

Definition outstanding (s : commands_state) : bool :=
  existsb (fun row => negb (settled_status row)) (hk_commands s).

(** [refresh()] up to its first [await]; [None] when the URL cannot be built. *)
Definition refresh (f : flight) (s : commands_state) : option (commands_state * list effect) :=
  match log_url with
  | Ok url => Some (set_flights (hk_flights s ++ [f]) s, [Fetch (call_get url)])
  | Throw _ => None
  end.

(** The rest of [refresh()]: whether it returned, and the state it left. *)
Definition refreshed (a : answer) (s : commands_state) : commands_state * bool :=
  match a with
  | NoAnswer => (s, false)
  | Answer status _ json =>
      if negb (ok_status status) || negb (hk_mounted s) then (s, true) else
      match json with
      | None => (s, false)
      | Some body =>
          match get body (u "commands") with
          | Ok rows => (set_commands (nullish rows (VArr [])) s, true)
          | Throw _ => (s, false)
          end
      end
  end.

(** [runNow(kind, extra)] up to its first [await]. *)
Definition runNow (imei kind : jstring) (extra : list (jstring * jsval)) (s : commands_state)
    : commands_state * list effect :=
  (set_flights (hk_flights s ++ [CommandSent kind]) (set_run true None s),
   [Fetch (command_call imei kind extra)]).

Definition request (imei kind : jstring) (extra : list (jstring * jsval)) (s : commands_state)
    : commands_state * list effect :=
  match deviceCommandGuard kind (guard_payload imei extra) with
  | Throw _ => (s, [])
  | Ok guard =>
      match cg_consequence guard with
      | None => runNow imei kind extra s
      | Some consequence =>
          (set_pending (Some {| pd_kind := kind; pd_extra := extra;
                                pd_consequence := consequence;
                                pd_title := confirmationTitle kind extra imei |}) s, [])
      end
  end.

Definition cancelPending (s : commands_state) : commands_state := set_pending None s.

Definition proceed (imei : jstring) (s : commands_state) : commands_state * list effect :=
  match hk_pending s with
  | None => (s, [])
  | Some p => runNow imei (pd_kind p) (pd_extra p) (set_pending None s)
  end.

(** The [catch] and the [finally] of [runNow]. *)
Definition run_failed (s : commands_state) : commands_state :=
  set_run false (Some (label "failed")) s.

(** An answer resumes the flight that waits for it. *)
Definition arrive (i : nat) (a : answer) (s : commands_state)
    : option (commands_state * list effect) :=
  match hk_flights s !! i with
  | None => None
  | Some f =>
      let landed := set_flights (delete i (hk_flights s)) s in
      match f with
      | LogRead => Some ((refreshed a landed).1, [])
      | CommandSent kind =>
          match a with
          | NoAnswer => Some (run_failed landed, [])
          | Answer status text _ =>
              if negb (ok_status status) then
                match text with
                | None => Some (run_failed landed, [])
                | Some t =>
                    let shown := if jeqb (trim t) [] then label "failed" else trim t in
                    Some (set_run false (Some shown) landed, [])
                end
              else
                match refresh (CommandReread kind) landed with
                | Some next => Some next
                | None => Some (run_failed landed, [])
                end
          end
      | CommandReread kind =>
          let (after, returned) := refreshed a landed in
          if negb returned then Some (run_failed after, []) else
          Some (set_run false (hk_error after) after,
                if existsb (jeqb kind) REGISTER_WRITES then [RouterRefresh] else [])
      end
  end.

(** ** The panels *)

Definition initial_hook : commands_state :=
  {| hk_commands := []; hk_busy := false; hk_error := None; hk_pending := None;
     hk_mounted := true; hk_flights := []; hk_crashed := false |}.

(** The first render and its effects: the module of the first row is
    selected and the log is read. *)
Definition mount (modems : list ModemRow) : console * list effect :=
  let hook := default (initial_hook, []) (refresh LogRead initial_hook) in
  ({| cs_modems := modems; cs_imei := default [] (md_imei <$> head modems); cs_hook := hook.1 |},
   hook.2).

(** [DeviceConsole] returns before the dialog when the session is read-only
    and when no module is listed; [DeviceDiagnostics] always draws it. *)
Definition draws_dialog (p : panel) (modems : list ModemRow) : bool :=
  match p with
  | DiagnosticsPanel => true
  | ConsolePanel => writable && negb (length modems =? 0)
  end.

Definition dialog_open (p : panel) (s : console) : bool :=
  draws_dialog p (cs_modems s)
  && match hk_pending (cs_hook s) with Some _ => true | None => false end.

Definition with_hook (s : console) (next : commands_state * list effect)
    : option (console * list effect) :=
  Some ({| cs_modems := cs_modems s; cs_imei := cs_imei s; cs_hook := next.1 |}, next.2).

(** Drawn, and able to react. *)
Definition live (s : console) : bool :=
  hk_mounted (cs_hook s) && negb (hk_crashed (cs_hook s)).

(** Every control is disabled while [busy], and out of reach of the pointer
    and the keyboard behind an open dialog. *)
Definition controls (p : panel) (s : console) : bool :=
  live s && writable && negb (hk_busy (cs_hook s)) && negb (dialog_open p s).

Definition console_step (p : panel) (s : console) (e : console_event)
    : option (console * list effect) :=
  let hook := cs_hook s in
  match e with
  | Ask kind extra =>
      if controls p s then with_hook s (request (cs_imei s) kind extra hook) else None
  | Proceed =>
      if live s && dialog_open p s && negb (hk_busy hook)
      then with_hook s (proceed (cs_imei s) hook) else None
  | CancelPending =>
      if live s && dialog_open p s then with_hook s (cancelPending hook, []) else None
  | SelectModem imei =>
      if controls p s && existsb (jeqb imei) (md_imei <$> cs_modems s)
      then Some ({| cs_modems := cs_modems s; cs_imei := imei; cs_hook := hook |}, [])
      else None
  | Tick =>
      if live s && outstanding hook
      then with_hook s (default (hook, []) (refresh LogRead hook)) else None
  | Arrive i a => arrive i a hook ≫= with_hook s
  | Redraw modems =>
      if live s
      then Some ({| cs_modems := modems; cs_imei := cs_imei s; cs_hook := hook |}, []) else None
  | Unmount =>
      if hk_mounted hook then
        with_hook s ({| hk_commands := hk_commands hook; hk_busy := hk_busy hook;
                        hk_error := hk_error hook; hk_pending := hk_pending hook;
                        hk_mounted := false; hk_flights := hk_flights hook;
                        hk_crashed := hk_crashed hook |}, [])
      else None
  end.

(** ** Invariants *)

(** What a waiting command promises: the dialog's sentence is the guard's
    for this very payload, and its heading names this module. *)
Definition asked (imei : jstring) (p : Pending) : Prop :=
  exists g, deviceCommandGuard (pd_kind p) (guard_payload imei (pd_extra p)) = Ok g
    /\ cg_consequence g = Some (pd_consequence p)
    /\ pd_title p = confirmationTitle (pd_kind p) (pd_extra p) imei.

Definition runs (fs : list flight) : nat := tally is_run fs.
Arguments runs : simpl never.

Record console_inv (s : console) : Prop := {
  ci_busy : runs (hk_flights (cs_hook s)) = if hk_busy (cs_hook s) then 1 else 0;
  ci_asked p : hk_pending (cs_hook s) = Some p -> asked (cs_imei s) p;
}.

Lemma runs_snoc fs f : runs (fs ++ [f]) = runs fs + if is_run f then 1 else 0.
Proof. apply tally_snoc. Qed.

Lemma refresh_some f s s' out :
  refresh f s = Some (s', out) ->
  exists url, s' = set_flights (hk_flights s ++ [f]) s /\ out = [Fetch (call_get url)].
Proof. unfold refresh. destruct log_url as [url|]; [|done]. intros [= <- <-]. by exists url. Qed.

Lemma refreshed_keeps a s :
  hk_flights (refreshed a s).1 = hk_flights s
  /\ hk_busy (refreshed a s).1 = hk_busy s
  /\ hk_pending (refreshed a s).1 = hk_pending s
  /\ hk_error (refreshed a s).1 = hk_error s
  /\ hk_mounted (refreshed a s).1 = hk_mounted s.
Proof. unfold refreshed. cases; auto. Qed.

Lemma arrive_keeps i a s s' out :
  arrive i a s = Some (s', out) ->
  hk_pending s' = hk_pending s /\
  (runs (hk_flights s) = (if hk_busy s then 1 else 0) ->
   runs (hk_flights s') = if hk_busy s' then 1 else 0).
Proof.
  unfold arrive. destruct (hk_flights s !! i) as [f|] eqn:Ef; [|done].
  pose proof (tally_delete is_run _ _ _ Ef) as Hr. fold (runs (hk_flights s)) in Hr.
  fold (runs (delete i (hk_flights s))) in Hr.
  generalize dependent (delete i (hk_flights s)). intros rest Hr.
  set (landed := set_flights rest s).
  destruct (refreshed_keeps a landed) as (R1 & R2 & R3 & R4 & R5).
  destruct f as [|kind|kind]; cbn in Hr.
  - intros [= <- <-]. rewrite R1, R2, R3. subst landed. cbn. split; [done|].
    destruct (hk_busy s); lia.
  - assert (Hb : runs (hk_flights s) = (if hk_busy s then 1 else 0) -> runs rest = 0)
      by (destruct (hk_busy s); lia).
    destruct a as [|status text json]; [intros [= <- <-]; cbn; auto|].
    destruct (negb (ok_status status)).
    + destruct text as [t|]; intros [= <- <-]; cbn; auto.
    + destruct (refresh (CommandReread kind) landed) as [[s1 o]|] eqn:Er.
      * intros [= <- <-]. apply refresh_some in Er as (url & -> & ->). subst landed. cbn.
        rewrite runs_snoc. split; [done|]. destruct (hk_busy s); cbn; lia.
      * intros [= <- <-]. cbn. auto.
  - destruct (refreshed a landed) as [after returned]. cbn in R1, R3.
    destruct returned; cbn [negb]; intros [= <- <-]; cbn; rewrite R1, R3; subst landed; cbn;
      (split; [done|]); destruct (hk_busy s); lia.
Qed.

Lemma request_inv imei kind extra s :
  runs (hk_flights s) = (if hk_busy s then 1 else 0) ->
  hk_busy s = false -> (forall p, hk_pending s = Some p -> asked imei p) ->
  runs (hk_flights (request imei kind extra s).1)
    = (if hk_busy (request imei kind extra s).1 then 1 else 0)
  /\ forall p, hk_pending (request imei kind extra s).1 = Some p -> asked imei p.
Proof.
  intros Hr Hb Hp. rewrite Hb in Hr. unfold request.
  destruct (deviceCommandGuard kind (guard_payload imei extra)) as [g|e] eqn:Eg; cbn.
  - destruct (cg_consequence g) as [c|] eqn:Ec; cbn.
    + rewrite Hb. split; [done|]. intros p [= <-]. by exists g.
    + rewrite runs_snoc, Hr. by split.
  - rewrite Hb. auto.
Qed.

Lemma console_step_inv p s e s' out :
  console_inv s -> console_step p s e = Some (s', out) -> console_inv s'.
Proof.
  intros [Hb Ha]. unfold console_step, with_hook. destruct e as [kind extra| | |imei| |i a|ms|].
  - destruct (controls p s) eqn:Ec; [|done]. intros [= <- <-]. apply andb_true_iff in Ec as [[_ ?%negb_true_iff]%andb_true_iff _].
    destruct (request_inv (cs_imei s) kind extra (cs_hook s)) as [? ?]; [done..|]. by constructor.
  - destruct (_ && _) eqn:Ec; [|done]. intros [= <- <-].
    apply andb_true_iff in Ec as [_ Hnb%negb_true_iff]. unfold proceed. rewrite Hnb in Hb. destruct (hk_pending (cs_hook s)) as [q|] eqn:Eq; constructor; cbn; try done.
    + by rewrite runs_snoc, Hb.
    + by rewrite Hnb.
    + rewrite Eq. done.
  - destruct (_ && _); [|done]. intros [= <- <-]. by constructor.
  - destruct (_ && _) eqn:Ec; [|done]. intros [= <- <-]. constructor; cbn; [done|].
    intros q Hq. exfalso. apply andb_true_iff in Ec as [Ec Hin]. unfold controls in Ec.
    apply andb_true_iff in Ec as [[[_ Hw]%andb_true_iff _]%andb_true_iff Hd%negb_true_iff].
    unfold dialog_open in Hd. rewrite Hq, andb_true_r in Hd.
    destruct p; cbn in Hd; [done|]. rewrite Hw in Hd. by destruct (cs_modems s).
  - destruct (_ && _); [|done]. intros [= <- <-].
    destruct (refresh LogRead (cs_hook s)) as [[s1 o]|] eqn:Er; [|by constructor].
    apply refresh_some in Er as (url & -> & ->). constructor; cbn; [|done].
    rewrite runs_snoc. cbn. lia.
  - destruct (arrive i a (cs_hook s)) as [[s1 o]|] eqn:Er; [|done]. cbn. intros [= <- <-].
    apply arrive_keeps in Er as [Hp Hr]. constructor; cbn; [auto|]. by rewrite Hp.
  - destruct (live s); [|done]. intros [= <- <-]. by constructor.
  - destruct (hk_mounted (cs_hook s)); [|done]. intros [= <- <-]. by constructor.
Qed.

Lemma mount_inv modems : console_inv (mount modems).1.
Proof.
  unfold mount. destruct (refresh LogRead initial_hook) as [[s o]|] eqn:Er; [|by constructor].
  apply refresh_some in Er as (url & -> & ->). by constructor.
Qed.

Lemma reachable_inv p modems tr s :
  run (console_step p) (mount modems).1 tr s -> console_inv s.
Proof. apply run_invariant; [|apply mount_inv]. intros ????; apply console_step_inv. Qed.

(** ** What is sent *)

Definition is_post (x : effect) : bool :=
  match x with Fetch c => jeqb (cl_method c) (u "POST") | _ => false end.

Lemma refresh_no_post f s s' out x : refresh f s = Some (s', out) -> x ∈ out -> is_post x = false.
Proof. intros (url & _ & ->)%refresh_some ->%list_elem_of_singleton. by vm_compute. Qed.

Lemma arrive_no_post i a s s' out x : arrive i a s = Some (s', out) -> x ∈ out -> is_post x = false.
Proof.
  unfold arrive. destruct (hk_flights s !! i) as [[|kind|kind]|]; [| | |done].
  - intros [= _ <-] []%not_elem_of_nil.
  - destruct a as [|status text json]; [intros [= _ <-] []%not_elem_of_nil|].
    destruct (negb (ok_status status)).
    + destruct text; intros [= _ <-] []%not_elem_of_nil.
    + destruct (refresh _ _) as [[s1 o]|] eqn:Er.
      * intros [= _ <-] Hx. by apply (refresh_no_post _ _ _ _ x) in Er.
      * intros [= _ <-] []%not_elem_of_nil.
  - destruct (refreshed _ _) as [after returned]. destruct returned; cbn [negb];
      intros [= _ <-]; [|by intros []%not_elem_of_nil].
    case_match; [by intros ->%list_elem_of_singleton|by intros []%not_elem_of_nil].
Qed.

(** A POST is a control's request for a command nothing stands in front of,
    or the answer to the dialog that names it. *)
Lemma step_post p s e s' out x :
  console_step p s e = Some (s', out) -> x ∈ out -> is_post x = true ->
  exists kind extra, x = Fetch (command_call (cs_imei s) kind extra)
    /\ ((e = Ask kind extra
         /\ exists g, deviceCommandGuard kind (guard_payload (cs_imei s) extra) = Ok g
                      /\ cg_consequence g = None)
        \/ (e = Proceed /\ dialog_open p s = true
            /\ exists q, hk_pending (cs_hook s) = Some q /\ pd_kind q = kind /\ pd_extra q = extra)).
Proof.
  unfold console_step, with_hook. intros Hs Hx Hp. destruct e as [kind extra| | |imei| |i a|ms|].
  - destruct (controls p s); [|done]. injection Hs as _ <-. revert Hx. unfold request.
    destruct (deviceCommandGuard _ _) as [g|] eqn:Eg; [|by intros []%not_elem_of_nil].
    destruct (cg_consequence g) eqn:Ec; [by intros []%not_elem_of_nil|].
    intros ->%list_elem_of_singleton. exists kind, extra. split; [done|].
    left. split; [done|]. by exists g.
  - destruct (_ && _) eqn:Ec; [|done]. injection Hs as _ <-.
    apply andb_true_iff in Ec as [[_ Hd]%andb_true_iff _]. revert Hx. unfold proceed.
    destruct (hk_pending (cs_hook s)) as [q|]; [|by intros []%not_elem_of_nil].
    intros ->%list_elem_of_singleton. exists (pd_kind q), (pd_extra q). split; [done|].
    right. split_and!; [done|done|]. by exists q.
  - destruct (_ && _); [|done]. injection Hs as _ <-. by apply not_elem_of_nil in Hx.
  - destruct (_ && _); [|done]. injection Hs as _ <-. by apply not_elem_of_nil in Hx.
  - destruct (_ && _); [|done]. injection Hs as _ <-. revert Hx.
    destruct (refresh LogRead (cs_hook s)) as [[s1 o]|] eqn:Er; [|by intros []%not_elem_of_nil].
    intros Hx. by rewrite (refresh_no_post _ _ _ _ x Er Hx) in Hp.
  - destruct (arrive i a (cs_hook s)) as [[s1 o]|] eqn:Er; [|done]. injection Hs as _ <-.
    by rewrite (arrive_no_post _ _ _ _ _ x Er Hx) in Hp.
  - destruct (live s); [|done]. injection Hs as _ <-. by apply not_elem_of_nil in Hx.
  - destruct (hk_mounted _); [|done]. injection Hs as _ <-. by apply not_elem_of_nil in Hx.
Qed.

(** C4. Whatever the operator presses, however the answers arrive and
    whatever the server redraws, a command leaves the page only when the
    guard asks nothing about this kind with this payload, or when the
    operator answers an open dialog; and then it is the command the dialog
    holds, its sentence is the guard's for the payload being sent, and its
    heading names the module the request is addressed to. *)
Theorem console_asks_first p modems tr s e s' out x :
  run (console_step p) (mount modems).1 tr s ->
  console_step p s e = Some (s', out) -> x ∈ out -> is_post x = true ->
  exists kind extra g,
    x = Fetch (command_call (cs_imei s) kind extra)
    /\ deviceCommandGuard kind (guard_payload (cs_imei s) extra) = Ok g
    /\ match cg_consequence g with
       | None => e = Ask kind extra \/ e = Proceed
       | Some c => e = Proceed /\ dialog_open p s = true
                   /\ hk_pending (cs_hook s)
                      = Some {| pd_kind := kind; pd_extra := extra; pd_consequence := c;
                                pd_title := confirmationTitle kind extra (cs_imei s) |}
       end.
Proof.
  intros Hr Hs Hx Hp. apply reachable_inv in Hr as [_ Ha].
  destruct (step_post _ _ _ _ _ _ Hs Hx Hp) as (kind & extra & -> & [(-> & g & Hg & Hc)|(-> & Hd & q & Hq & <- & <-)]).
  - exists kind, extra, g. rewrite Hc. auto.
  - destruct (Ha q Hq) as (g & Hg & Hc & Ht). exists (pd_kind q), (pd_extra q), g. rewrite Hc.
    split_and!; try done. rewrite Hq. destruct q; cbn in *. by subst.
Qed.

(** ** The page comes to rest *)

Lemma reread_ends i kind a s :
  hk_flights s !! i = Some (CommandReread kind) ->
  exists s' out, arrive i a s = Some (s', out) /\ hk_busy s' = false.
Proof.
  intros Hi. unfold arrive. rewrite Hi. destruct (refreshed _ _) as [after returned].
  destruct returned; cbn [negb]; eauto.
Qed.

Lemma sent_ends i kind a s :
  hk_flights s !! i = Some (CommandSent kind) ->
  exists s' out, arrive i a s = Some (s', out)
    /\ (hk_busy s' = false \/ exists j, hk_flights s' !! j = Some (CommandReread kind)).
Proof.
  intros Hi. unfold arrive. rewrite Hi. destruct a as [|status text json]; [by eauto|].
  destruct (negb (ok_status status)); [destruct text; by eauto|].
  destruct (refresh _ _) as [[s1 o]|] eqn:Er; [|by eauto].
  eexists _, _. split; [done|]. right. apply refresh_some in Er as (url & -> & _).
  eexists (length _). cbn [hk_flights set_flights]. by rewrite list_lookup_middle.
Qed.

(** C31. A page waiting for a command does not wait for ever: whatever the
    gateway answers, an answer to the command's own request frees the
    controls, or else the answer to the log it then rereads does. *)
Theorem busy_ends p modems tr s a1 a2 :
  run (console_step p) (mount modems).1 tr s -> hk_busy (cs_hook s) = true ->
  exists i s1 out1, console_step p s (Arrive i a1) = Some (s1, out1)
    /\ (hk_busy (cs_hook s1) = false
        \/ exists j s2 out2, console_step p s1 (Arrive j a2) = Some (s2, out2)
             /\ hk_busy (cs_hook s2) = false).
Proof.
  intros Hr Hb. apply reachable_inv in Hr as [Hi _]. rewrite Hb in Hi.
  assert (Hpos : 0 < runs (hk_flights (cs_hook s))) by lia.
  apply (tally_pos is_run) in Hpos as (i & f & Hf0 & Hf). clear Hi. rename Hf0 into Hi. unfold console_step, with_hook.
  destruct f as [|kind|kind]; [done| |].
  - destruct (sent_ends i kind a1 (cs_hook s) Hi) as (s1 & out1 & Hs1 & Hend).
    exists i. rewrite Hs1. eexists _, _. split; [done|].
    destruct Hend as [?|(j & Hj)]; [by left|right].
    destruct (reread_ends j kind a2 s1 Hj) as (s2 & out2 & Hs2 & Hb2).
    exists j. cbn [cs_hook fst]. rewrite Hs2. eexists _, _. by split.
  - destruct (reread_ends i kind a1 (cs_hook s) Hi) as (s1 & out1 & Hs1 & Hb1).
    exists i. rewrite Hs1. eexists _, _. split; [done|]. by left.
Qed.

(** Nothing outstanding, nothing in flight. *)
Definition idle (s : console) : Prop :=
  hk_flights (cs_hook s) = [] /\ outstanding (cs_hook s) = false.

Definition sends (e : console_event) : bool :=
  match e with Ask _ _ | Proceed => true | _ => false end.

Lemma idle_step p s e s' out :
  idle s -> sends e = false -> console_step p s e = Some (s', out) -> idle s' /\ out = [].
Proof.
  intros [Hf Ho]. unfold console_step, with_hook. destruct e as [kind extra| | |imei| |i a|ms|];
    intros He; try done.
  - destruct (_ && _); [|done]. by intros [= <- <-].
  - destruct (_ && _); [|done]. by intros [= <- <-].
  - by rewrite Ho, andb_false_r.
  - unfold arrive. by rewrite Hf.
  - destruct (live s); [|done]. by intros [= <- <-].
  - destruct (hk_mounted (cs_hook s)); [|done]. by intros [= <- <-].
Qed.

(** C32. Polling.  While some command of the log is outstanding the timer
    runs and each tick asks for the log and nothing else; once the log says
    every command is over and no answer is awaited, the page sends nothing,
    whatever happens, until a command is sent. *)
Theorem polling_ends p s :
  (live s = true -> outstanding (cs_hook s) = true ->
   forall url, log_url = Ok url ->
   exists s', console_step p s Tick = Some (s', [Fetch (call_get url)]))
  /\ (idle s -> forall tr s',
      run (console_step p) s tr s' -> Forall (fun eo => sends eo.1 = false) tr ->
      effects tr = [] /\ idle s' /\ (forall url, Tick ∉ tr.*1 /\ Fetch (call_get url) ∉ effects tr)).
Proof.
  split.
  - intros Hl Ho url Hu. unfold console_step, refresh. rewrite Hl, Ho, Hu. cbn. by eexists.
  - intros Hi tr s' Hr. induction Hr as [s|s e s1 out tr s2 Hst Hr IH]; intros Hs.
    + split_and!; [done|done|]. intros url. split; apply not_elem_of_nil.
    + inversion Hs as [|? ? He Htr]; subst. destruct (idle_step _ _ _ _ _ Hi He Hst) as [Hi1 ->].
      destruct (IH Hi1 Htr) as (E1 & E2 & E3). split_and!; [exact E1|exact E2|].
      intros url. destruct (E3 url) as [F1 F2]. split; [|exact F2]. cbn.
      rewrite not_elem_of_cons. split; [|done]. intros <-. cbn in Hst.
      destruct Hi as [_ Ho]. by rewrite Ho, andb_false_r in Hst.
Qed.

(** ** A device with no modules *)

Lemma claim_guarded payload :
  exists g, deviceCommandGuard (u "claim_modem_candidate") payload = Ok g /\ cg_consequence g <> None.
Proof.
  destruct (guard_known (u "claim_modem_candidate") payload) as (g & Hg & Hu); [by vm_compute..|].
  exists g. split; [done|]. rewrite Hu. unfold unasked, unasked_kinds. cbn [existsb]. js_names. done.
Qed.

Lemma with_hook_some s next s' out :
  with_hook s next = Some (s', out) ->
  cs_modems s' = cs_modems s /\ cs_imei s' = cs_imei s /\ cs_hook s' = next.1 /\ out = next.2.
Proof. intros [= <- <-]. done. Qed.

(** The props and the selection change by their own events only. *)
Lemma step_props p s e s' out :
  console_step p s e = Some (s', out) ->
  (match e with Redraw ms => cs_modems s' = ms | _ => cs_modems s' = cs_modems s end)
  /\ (match e with SelectModem i => cs_imei s' = i | _ => cs_imei s' = cs_imei s end).
Proof.
  unfold console_step. destruct e as [kind extra| | |imei| |i a|ms|].
  - destruct (controls p s); [|done]. by intros (? & ? & _)%with_hook_some.
  - destruct (_ && _); [|done]. by intros (? & ? & _)%with_hook_some.
  - destruct (_ && _); [|done]. by intros (? & ? & _)%with_hook_some.
  - destruct (_ && _); [|done]. by intros [= <- _].
  - destruct (_ && _); [|done]. by intros (? & ? & _)%with_hook_some.
  - destruct (arrive i a _); cbn [mbind option_bind]; [|done]. by intros (? & ? & _)%with_hook_some.
  - destruct (live s); [|done]. by intros [= <- _].
  - destruct (hk_mounted _); [|done]. by intros (? & ? & _)%with_hook_some.
Qed.

Definition redraws (e : console_event) : bool := match e with Redraw _ => true | _ => false end.

(** Where the page departs from its comment ("these two cards exist for
    zero modules").  While a device lists no module the console draws the
    candidates but not the dialog: approving one is guarded, so it waits for
    an answer nobody can give, and until the server draws a module no
    guarded command leaves the page. *)
Theorem first_candidate_stranded tr s :
  run (console_step ConsolePanel) (mount []).1 tr s ->
  Forall (fun eo => redraws eo.1 = false) tr ->
  dialog_open ConsolePanel s = false
  /\ (forall e out x, (e, out) ∈ tr -> x ∈ out -> is_post x = true ->
        exists imei kind extra g, x = Fetch (command_call imei kind extra)
          /\ deviceCommandGuard kind (guard_payload imei extra) = Ok g /\ cg_consequence g = None)
  /\ (forall imei extra, exists g,
        deviceCommandGuard (u "claim_modem_candidate") (guard_payload imei extra) = Ok g
        /\ cg_consequence g <> None).
Proof.
  intros Hr Htr.
  assert (Hm : cs_modems s = [] /\ forall e out x, (e, out) ∈ tr -> x ∈ out -> is_post x = true ->
        exists imei kind extra g, x = Fetch (command_call imei kind extra)
          /\ deviceCommandGuard kind (guard_payload imei extra) = Ok g /\ cg_consequence g = None).
  { assert (H0 : cs_modems (mount []).1 = []) by done. revert H0 Htr.
    induction Hr as [s|s e s1 out tr s2 Hst Hr IH]; intros H0 Htr.
    - split; [done|]. by intros ??? []%not_elem_of_nil.
    - inversion Htr as [|? ? He Hrest]; subst.
      assert (H1 : cs_modems s1 = []).
      { apply step_props in Hst as [Hms _]. by destruct e; rewrite ?Hms. }
      destruct (IH H1 Hrest) as [H2 H3]. split; [done|].
      intros e' out' x [[= -> ->]|Hin]%elem_of_cons Hx Hp; [|by eapply H3].
      destruct (step_post _ _ _ _ _ _ Hst Hx Hp) as (kind & extra & -> & [(_ & g & Hg)|(_ & Hd & _)]).
      + exists (cs_imei s), kind, extra, g. naive_solver.
      + unfold dialog_open, draws_dialog in Hd. by rewrite H0, andb_false_r in Hd. }
  destruct Hm as [Hm Hposts]. split_and!; [|done|].
  - unfold dialog_open, draws_dialog. by rewrite Hm, andb_false_r.
  - intros imei extra. apply claim_guarded.
Qed.

(** The module that appears afterwards is shown in the picker and not
    addressed: the selection was initialised when there was none. *)
Theorem first_module_not_addressed p tr s :
  run (console_step p) (mount []).1 tr s ->
  Forall (fun eo => match eo.1 with SelectModem _ => false | _ => true end = true) tr ->
  cs_imei s = [].
Proof.
  assert (H0 : cs_imei (mount []).1 = []) by done. intros Hr. revert H0.
  induction Hr as [s|s e s1 out tr s2 Hst Hr IH]; intros H0 Htr; [done|].
  inversion Htr as [|? ? He Hrest]; subst. apply IH; [|done].
  apply step_props in Hst as [_ Hi]. by destruct e; rewrite ?Hi.
Qed.
End Console.

(** ** Concrete runs *)

(** A device page with one module listed. *)
Definition sample_modems : list ModemRow :=
  filter_map parseModem
    [VObj [(u "id", VStr (u "m1")); (u "imei", VStr (u "860000000000001"))]].
Definition sample_step := @console_step sample_to_string (fun _ => []) (u "dev-1")
  [(u "failed", u "The command failed."); (u "restart_modem", u "Restart")] true ConsolePanel.
Definition sample_mount (modems : list ModemRow) : console := (mount (u "dev-1") modems).1.
Definition log_answer (statuses : list jstring) : answer :=
  Answer 200 None (Some (VObj [(u "commands", VArr ((fun st => VObj [(u "status", VStr st)]) <$> statuses))])).

Definition restart_call : call :=
  command_call (u "dev-1") (u "860000000000001") (u "restart_modem") [].

Lemma console_asks_first_witness :
  exists s s', exec sample_step (sample_mount sample_modems) [Ask (u "restart_modem") []] = Some (s, [])
    /\ sample_step s Proceed = Some (s', [Fetch restart_call])
    /\ pd_title <$> hk_pending (cs_hook s) = Some (u "Restart — 860000000000001")
    /\ exists kind extra g, Fetch restart_call = Fetch (command_call (u "dev-1") (cs_imei s) kind extra)
         /\ @deviceCommandGuard sample_to_string kind (guard_payload (cs_imei s) extra) = Ok g.
Proof.
  destruct (exec sample_step (sample_mount sample_modems) [Ask (u "restart_modem") []])
    as [[s out]|] eqn:E; [|by vm_compute in E].
  assert (Eo : out = [] /\ exists s', sample_step s Proceed = Some (s', [Fetch restart_call])
    /\ pd_title <$> hk_pending (cs_hook s) = Some (u "Restart — 860000000000001")).
  { vm_compute in E. injection E as <- <-. split; [done|]. eexists. by vm_compute. }
  destruct Eo as (-> & s' & Hs & Ht). exists s, s'. split_and!; [reflexivity|exact Hs|exact Ht|].
  destruct (exec_run _ _ _ _ _ E) as (tr & Hr & _).
  destruct (@console_asks_first sample_to_string (fun _ => []) (u "dev-1")
    [(u "failed", u "The command failed."); (u "restart_modem", u "Restart")] true ConsolePanel
    sample_modems tr s Proceed s' [Fetch restart_call] (Fetch restart_call) Hr Hs)
    as (kind & extra & g & Hx & Hg & _); [left|by vm_compute|].
  exists kind, extra, g. split; [exact Hx|exact Hg].
Defined.

Lemma busy_ends_witness :
  exists s, exec sample_step (sample_mount sample_modems) [Ask (u "modem_report") []]
      = Some (s, [Fetch (command_call (u "dev-1") (u "860000000000001") (u "modem_report") [])])
    /\ exists i s1 out1, sample_step s (Arrive i NoAnswer) = Some (s1, out1)
    /\ (hk_busy (cs_hook s1) = false
        \/ exists j s2 out2, sample_step s1 (Arrive j NoAnswer) = Some (s2, out2)
             /\ hk_busy (cs_hook s2) = false).
Proof.
  destruct (exec sample_step (sample_mount sample_modems) [Ask (u "modem_report") []])
    as [[s out]|] eqn:E; [|by vm_compute in E].
  assert (Eo : out = [Fetch (command_call (u "dev-1") (u "860000000000001") (u "modem_report") [])]
               /\ hk_busy (cs_hook s) = true).
  { vm_compute in E. injection E as <- <-. by vm_compute. }
  destruct Eo as [-> Hb]. exists s. split; [reflexivity|].
  destruct (exec_run _ _ _ _ _ E) as (tr & Hr & _).
  exact (@busy_ends sample_to_string (fun _ => []) (u "dev-1")
    [(u "failed", u "The command failed."); (u "restart_modem", u "Restart")] true ConsolePanel
    sample_modems tr s NoAnswer NoAnswer Hr Hb).
Defined.

Definition claim : console_event :=
  Ask (u "claim_modem_candidate") [(u "candidate_key", VStr (u "usb-1-1"))].

Lemma first_candidate_stranded_witness :
  exists s, exec sample_step (sample_mount []) [claim; claim; Arrive 0 (log_answer [])] = Some (s, [])
    /\ dialog_open true ConsolePanel s = false
    /\ is_some (hk_pending (cs_hook s)) = true.
Proof.
  destruct (exec sample_step (sample_mount []) [claim; claim; Arrive 0 (log_answer [])])
    as [[s out]|] eqn:E; [|by vm_compute in E].
  assert (Eo : out = [] /\ is_some (hk_pending (cs_hook s)) = true).
  { vm_compute in E. injection E as <- <-. by vm_compute. }
  destruct Eo as [-> Hp]. exists s. split_and!; [reflexivity| |exact Hp].
  destruct (exec_run _ _ _ _ _ E) as (tr & Hr & Ht & _).
  refine (proj1 (@first_candidate_stranded sample_to_string (fun _ => []) (u "dev-1")
    [(u "failed", u "The command failed."); (u "restart_modem", u "Restart")] true tr s Hr _)).
  apply (Forall_fmap fst (fun e => redraws e = false)). rewrite Ht. by repeat constructor.
Defined.

(** Where the page departs from what it means to do: a command the gateway
    took is reported as failed when the reread of the log does not answer,
    and the register it changed is not drawn again. *)
Theorem accepted_reported_failed :
  exists s out,
    exec sample_step (sample_mount sample_modems)
      [ Arrive 0 (log_answer []); Ask (u "register_modem") [(u "modem_imei", VStr (u "86"))];
        Arrive 0 (Answer 202 (Some []) None); Arrive 0 NoAnswer ] = Some (s, out)
    /\ hk_error (cs_hook s) = Some (u "The command failed.") /\ hk_busy (cs_hook s) = false
    /\ length (List.filter is_post out) = 1 /\ RouterRefresh ∉ out.
Proof.
  eexists _, _. split; [vm_compute; reflexivity|]. split_and!; [by vm_compute..|].
  apply (bool_decide_eq_true_1 _). by vm_compute.
Qed.

(** A log read that was asked first and answers last replaces the newer
    log: the command just taken is gone from it and polling stops. *)
Theorem stale_answer_stops_polling :
  exists s1 s2 out1 out2,
    exec sample_step (sample_mount sample_modems)
      [ Ask (u "modem_report") []; Arrive 1 (Answer 202 (Some []) None);
        Arrive 1 (log_answer [u "queued"]) ] = Some (s1, out1)
    /\ outstanding (cs_hook s1) = true
    /\ exec sample_step s1 [Arrive 0 (log_answer [])] = Some (s2, out2)
    /\ idle s2 /\ sample_step s2 Tick = None.
Proof.
  eexists _, _, _, _. split; [vm_compute; reflexivity|]. split; [by vm_compute|].
  split; [vm_compute; reflexivity|]. by vm_compute.
Qed.
