(* ===== verification/ConsolePanels.v ===== *)
(** * The panels of the device page (components/device-console.tsx)

    Each panel is a form: what its boxes hold, when its button can be
    pressed, and what a press asks [useDeviceCommands] to send.  An [ask] is
    a command kind with its payload; Console says what becomes of it. *)

From Stdlib Require Import Lia.
From S2P Require Import Prelude JsString JsValue JsMap JsRegex Gateway Devices Ussd TableQuery Fleet Guards Settings Component Console.

Abbreviation fields := (list (jstring * jsval)).
Abbreviation ask := (jstring * fields)%type.

(** ** The buttons without a form *)

(** [DeviceDiagnostics]: its buttons, and whether one can be pressed. *)
Definition diagnostics_asks : list ask :=
  ((fun kind => (kind, [])) <$> READ_ONLY) ++ [(u "reconfirm_modem", []); (u "refresh_modems", [])].
Definition diagnostics_enabled (busy : bool) (modems : list ModemRow) (a : ask) : bool :=
  negb busy && (jeqb a.1 (u "refresh_modems") || negb (length modems =? 0)).

(** [DangerZone]: the row of disruptive commands, and the way back. *)
Definition danger_asks : list ask :=
  (fun kind => (kind, default [] (field kind TURNS_OFF))) <$> DISRUPTIVE.
Definition recovery_asks : list ask :=
  [ (u "set_radio", [(u "enabled", VBool true)]);
    (u "set_data_network", [(u "enabled", VBool true)]) ].

(** ** The AT box *)

Record at_console := { ac_command : jstring; ac_force : bool }.
Definition at_initial : at_console := {| ac_command := u "AT+CSQ"; ac_force := false |}.

Definition at_ready (busy : bool) (s : at_console) : bool :=
  negb (busy || (length (trim (ac_command s)) <? 2)).

Definition at_submit (s : at_console) : ask * at_console :=
  let tripped := atCommandGuard (ac_command s) in
  ((u "run_at_command",
    [(u "command", VStr (ac_command s)); (u "force", VBool (ac_force s || is_some tripped))]),
   {| ac_command := ac_command s; ac_force := false |}).

(** ** USSD *)

Record ussd_console := {
  uz_code : jstring;
  uz_reply : jstring;
  uz_observed : option (jstring * Z);   (** the command settled, when first seen *)
  uz_now : Z;
}.

Definition ussd_initial (now : Z) : ussd_console :=
  {| uz_code := []; uz_reply := []; uz_observed := None; uz_now := now |}.

Definition uz_with_observed (o : option (jstring * Z)) (s : ussd_console) : ussd_console :=
  {| uz_code := uz_code s; uz_reply := uz_reply s; uz_observed := o; uz_now := uz_now s |}.
Definition uz_with_now (now : Z) (s : ussd_console) : ussd_console :=
  {| uz_code := uz_code s; uz_reply := uz_reply s; uz_observed := uz_observed s; uz_now := now |}.

(** The effect after a render of [rows]: the time the newest answer was
    first seen settled. *)
Definition ussd_observe (rows : list UssdCommandRow) (clock : Z) (s : ussd_console) : ussd_console :=
  match latestUssdExchange rows with
  | None => s
  | Some x =>
      if jeqb (ux_commandId x) [] || negb (jeqb (ux_status x) (u "succeeded")) then s else
      match uz_observed s with
      | Some (id, _) =>
          if jeqb id (ux_commandId x) then s else uz_with_observed (Some (ux_commandId x, clock)) s
      | None => uz_with_observed (Some (ux_commandId x, clock)) s
      end
  end.

Definition observedAt (exchange : option UssdExchange) (s : ussd_console) : option Z :=
  match uz_observed s with
  | Some (id, at_) =>
      if bool_decide (Some id = ux_commandId <$> exchange) then Some at_ else None
  | None => None
  end.

Definition ussd_session (rows : list UssdCommandRow) (clock : Z) (s : ussd_console)
    : UssdSessionState :=
  let exchange := latestUssdExchange rows in
  ussdSessionState exchange (ussdSessionAgeMs exchange (observedAt exchange s) clock)
    USSD_SESSION_TTL_MS.

Definition ussd_send (body : option UssdRequest) : option ask :=
  (fun q => (u "send_ussd",
             [(u "modem_imei", VStr (uq_modem_imei q)); (u "code", VStr (uq_code q));
              (u "stage", VStr (uq_stage q))])) <$> body.

Definition ussd_submit_code (selectedImei : jstring) (s : ussd_console) : option ask :=
  ussd_send (ussdStartRequest selectedImei (uz_code s)).
Definition ussd_cancel (rows : list UssdCommandRow) (selectedImei : jstring) : option ask :=
  ussd_send (ussdCancelRequest (latestUssdExchange rows) selectedImei).

(** The reply form is drawn by a render whose clock was [uz_now]; the press
    looks at the clock again. *)
Definition ussd_submit_reply (rows : list UssdCommandRow) (clock : Z) (s : ussd_console)
    : option (option ask * ussd_console) :=
  match ussd_session rows (uz_now s) s with
  | UssdOpen =>
      match ussd_session rows clock s with
      | UssdOpen =>
          Some (ussd_send (ussdContinueRequest (latestUssdExchange rows) (uz_reply s)),
                {| uz_code := uz_code s; uz_reply := []; uz_observed := uz_observed s;
                   uz_now := uz_now s |})
      | _ => Some (None, uz_with_now clock s)
      end
  | _ => None
  end.

(** ** Operator and USB mode *)

Definition plmn_pattern : regex :=
  rseq [ RStart; RClass is_digit; RClass is_digit; RClass is_digit; rchar 45;
         RClass is_digit; RClass is_digit; RAlt (RClass is_digit) REmpty; REnd ].
Definition operator_ready (busy : bool) (plmn : jstring) : bool :=
  negb (busy || negb (test plmn_pattern plmn)).
Definition operator_submit (plmn : jstring) : ask :=
  (u "select_operator", [(u "mode", VStr (u "manual")); (u "plmn", VStr plmn)]).
Definition operator_automatic : ask := (u "select_operator", [(u "mode", VStr (u "automatic"))]).

Definition USBNET_MODES : list jstring := [u "rmnet"; u "ecm"; u "mbim"; u "rndis"].
Definition usbnet_submit (mode : jstring) : ask :=
  (u "set_usbnet_mode", [(u "usbnet_mode", VStr mode)]).
Definition usbnet_warned (mode : jstring) : bool := negb (jeqb mode (u "rmnet")).

(** ** Candidates *)

Definition candidates_pending (rows : list CandidateRow) : list CandidateRow :=
  List.filter (fun row => jeqb (ca_state row) (u "found")) rows.
Definition candidates_claimed (rows : list CandidateRow) : list CandidateRow :=
  List.filter (fun row => jeqb (ca_state row) (u "claimed")) rows.

Definition candidate_submit (c : CandidateRow) : ask :=
  match ca_imei c with
  | Some imei =>
      if jeqb imei [] then (u "claim_modem_candidate", [(u "candidate_key", VStr (ca_candidateKey c))])
      else (u "register_modem", [(u "modem_imei", VStr imei)])
  | None => (u "claim_modem_candidate", [(u "candidate_key", VStr (ca_candidateKey c))])
  end.
Definition candidate_revoke (c : CandidateRow) : ask :=
  (u "revoke_modem_candidate", [(u "candidate_key", VStr (ca_candidateKey c))]).

(** ** The agent's log *)

Definition agentLog_submit (contains : jstring) : ask :=
  (u "read_logs",
   if jeqb (trim contains) [] then [] else [(u "log_contains", VStr (trim contains))]).

(** [row.result?.details]. *)
Definition result_details (row : jsval) : jsval :=
  match prop row (u "result") with
  | VUndef | VNull => VUndef
  | result => prop result (u "details")
  end.

Definition agentLog_newest (commands : list jsval) : option jsval :=
  List.find (fun row => bool_decide (prop row (u "kind") = VStr (u "read_logs"))
                        && negb (bool_decide (result_details row = VUndef))) commands.

Record log_line := { ll_at : num; ll_text : jstring }.

Definition agentLogLine (entry : jsval) : option log_line :=
  if not_object entry then None else
  match prop entry (u "text") with
  | VStr text =>
      Some {| ll_at := match prop entry (u "at") with VNum n => n | _ => Fin 0 end;
              ll_text := text |}
  | _ => None
  end.

Definition agentLogLines (details : jsval) : option (list log_line) :=
  if not_object details then None else
  match prop details (u "lines") with
  | VArr entries => Some (filter_map agentLogLine entries)
  | _ => None
  end.

(** ** Packet data contexts *)

Definition APN_CIDS : list Z := [1; 2; 3; 4; 5; 6; 7; 8]%Z.
Definition APN_AUTHS : list jstring := [u "none"; u "pap"; u "chap"; u "pap_or_chap"].

Record apn_editor := {
  ae_apn : jstring;
  ae_pdpType : jstring;
  ae_username : jstring;
  ae_auth : jstring;
  ae_password : jstring;
  ae_clearPassword : bool;
}.

(** [useState(context?.field ?? "")], on the editor's first render. *)
Definition apn_editor_initial (context : option ApnContextRow) : apn_editor :=
  {| ae_apn := default [] (ap_apn <$> context);
     ae_pdpType := default [] (ap_pdpType <$> context);
     ae_username := default [] (ap_username <$> context);
     ae_auth := default [] (context ≫= ap_auth);
     ae_password := [];
     ae_clearPassword := false |}.

(** The checkbox empties and disables the password box. *)
Definition apn_set_clear (checked : bool) (e : apn_editor) : apn_editor :=
  {| ae_apn := ae_apn e; ae_pdpType := ae_pdpType e; ae_username := ae_username e;
     ae_auth := ae_auth e; ae_password := if checked then [] else ae_password e;
     ae_clearPassword := checked |}.

(** [ApnControls]: the identifier picked, and the editor React keeps as long
    as its key, the identifier, stays. *)
Record apn_controls := { an_cid : jstring; an_editor : apn_editor }.

Section Apn.
Context `{NumberText} `{ToNumber}.

Definition apn_chosen (contexts : option (list ApnContextRow)) (cid : jstring)
    : option ApnContextRow :=
  contexts ≫= List.find (fun row => jeqb (number_text (Fin (ap_cid row))) cid).

Definition apn_submit (cid : jstring) (context : option ApnContextRow) (e : apn_editor) : ask :=
  let startingUsername := default [] (ap_username <$> context) in
  let optional (b : bool) (name : string) (value : jstring) : fields :=
    if b then [(u name, VStr value)] else [] in
  (u "configure_apn",
   [(u "cid", VNum (to_number (VStr cid))); (u "apn", VStr (ae_apn e))]
   ++ optional (negb (jeqb (ae_pdpType e) [])) "pdp_type" (ae_pdpType e)
   ++ optional (negb (jeqb (ae_auth e) [])) "auth" (ae_auth e)
   ++ optional (negb (jeqb (ae_username e) startingUsername)) "username" (ae_username e)
   ++ (if ae_clearPassword e then [(u "password", VStr [])]
       else optional (negb (jeqb (ae_password e) [])) "password" (ae_password e))).

Definition apn_mount (contexts : option (list ApnContextRow)) : apn_controls :=
  {| an_cid := u "1"; an_editor := apn_editor_initial (apn_chosen contexts (u "1")) |}.

(** Picking another identifier mounts a new editor; picking the same one, or
    another module above, keeps the one there is. *)
Definition apn_pick (contexts : option (list ApnContextRow)) (cid : jstring) (s : apn_controls)
    : apn_controls :=
  if jeqb cid (an_cid s) then s
  else {| an_cid := cid; an_editor := apn_editor_initial (apn_chosen contexts cid) |}.

Definition apn_press (contexts : option (list ApnContextRow)) (s : apn_controls) : ask :=
  apn_submit (an_cid s) (apn_chosen contexts (an_cid s)) (an_editor s).

End Apn.

(** ** The register *)

Record create_modem := { cm_imei : jstring; cm_family : jstring; cm_note : jstring }.

Definition imei_pattern : regex :=
  rseq ([RStart] ++ repeat (RClass is_digit) 15 ++ [REnd]).
Definition create_ready (busy : bool) (s : create_modem) : bool :=
  negb (busy || negb (test imei_pattern (trim (cm_imei s)) && (0 <? length (trim (cm_family s))))).
Definition create_submit (s : create_modem) : ask * create_modem :=
  ((u "create_modem",
    [(u "modem_imei", VStr (trim (cm_imei s))); (u "family", VStr (trim (cm_family s)));
     (u "note", VStr (trim (cm_note s)))]),
   {| cm_imei := []; cm_family := []; cm_note := [] |}).

(** [AdoptionCard]: the draft belongs to the module it was started for. *)
Record adoption := { ad_draft : jstring; ad_editing : option jstring }.
Definition adoption_initial : adoption := {| ad_draft := []; ad_editing := None |}.

Definition adoption_render (modem : option ModemRow) (s : adoption) : adoption :=
  match modem with
  | Some m =>
      if bool_decide (ad_editing s = Some (md_imei m)) then s
      else {| ad_draft := default [] (md_adoptionNote m); ad_editing := Some (md_imei m) |}
  | None => s
  end.
Definition adoption_type (text : jstring) (s : adoption) : adoption :=
  {| ad_draft := text; ad_editing := ad_editing s |}.
(** The form is drawn for a module only. *)
Definition adoption_submit (modem : option ModemRow) (s : adoption) : option ask :=
  (fun m => (u "update_modem", [(u "modem_imei", VStr (md_imei m)); (u "note", VStr (trim (ad_draft s)))]))
    <$> modem.

(** ** The command log *)

Record outcome := { oc_waiting : bool; oc_reason : option jsval; oc_details : option jsval }.

(** [CommandOutcome]: what one row shows under its heading. *)
Definition CommandOutcome (row : jsval) : outcome :=
  let result := prop row (u "result") in
  if negb (truthy result)
  then {| oc_waiting := negb (settled_status row); oc_reason := None; oc_details := None |}
  else
    let reason := nullish (prop result (u "reason")) (prop result (u "reason_code")) in
    let details := prop result (u "details") in
    {| oc_waiting := false;
       oc_reason := if truthy reason then Some reason else None;
       oc_details := match details with VUndef | VNull => None | v => Some v end |}.

(** ** Facts *)

Section PanelFacts.
Context `{ToString}.

(** How a press of [a] with module [imei] selected is met. *)
Definition goes_unasked (imei : jstring) (a : ask) : Prop :=
  exists g, deviceCommandGuard a.1 (guard_payload imei a.2) = Ok g /\ cg_consequence g = None.
Definition is_asked (imei : jstring) (a : ask) : Prop :=
  exists g c, deviceCommandGuard a.1 (guard_payload imei a.2) = Ok g /\ cg_consequence g = Some c.

(** A list of buttons, decided at once. *)
Definition all_known (imei : jstring) (asked : bool) (l : list ask) : bool :=
  forallb (fun a => is_some (field a.1 DEVICE_COMMAND_GUARDS) && negb (jeqb a.1 (u "run_at_command"))
                    && eqb (unasked a.1 (guard_payload imei a.2)) (negb asked)) l.

Lemma all_known_spec imei asked l a :
  all_known imei asked l = true -> a ∈ l -> if asked then is_asked imei a else goes_unasked imei a.
Proof.
  intros Hl Ha. apply (proj1 (forallb_elem _ _) Hl) in Ha.
  apply andb_true_iff in Ha as [[Hk Hn%negb_true_iff]%andb_true_iff He%eqb_prop].
  destruct (guard_known a.1 (guard_payload imei a.2) Hk Hn) as (g & Hg & Hu). rewrite He in Hu.
  destruct asked; cbn in Hu; [|exists g; split; [done|by apply Hu]].
  destruct (cg_consequence g) as [c|] eqn:Ec; [by exists g, c|]. by pose proof (proj1 Hu eq_refl).
Qed.

Lemma one_known_spec imei asked a :
  all_known imei asked [a] = true -> if asked then is_asked imei a else goes_unasked imei a.
Proof. intros Ha. apply (all_known_spec imei asked [a] a Ha). left. Qed.

(** The danger zone.  Whatever module is selected, every button of the
    disruptive row is asked about with the payload it sends, so turning the
    radio or the data off is; turning either back on, and every read-only
    button of the diagnostics tab, goes out at once. *)
Theorem danger_zone_asked imei :
  (forall a, a ∈ danger_asks -> is_asked imei a)
  /\ (forall a, a ∈ recovery_asks ++ diagnostics_asks -> goes_unasked imei a)
  /\ danger_asks.*1 = DISRUPTIVE.
Proof.
  split_and!; [| |by vm_compute].
  - intros a. apply (all_known_spec imei true). by vm_compute.
  - intros a. apply (all_known_spec imei false). by vm_compute.
Qed.

(** The AT box.  A typed command that trips a guard is asked about and
    carries [force], one that trips none goes out at once, and the force
    switch is off again after every send: it never outlives the command it
    was set for. *)
Theorem at_box_guarded imei s :
  let (a, s') := at_submit s in
  (atCommandGuard (ac_command s) = None -> goes_unasked imei a)
  /\ (atCommandGuard (ac_command s) <> None ->
      is_asked imei a /\ field (u "force") a.2 = Some (VBool true))
  /\ s' = {| ac_command := ac_command s; ac_force := false |}.
Proof.
  unfold at_submit. set (force := _ || _).
  destruct (guard_at (guard_payload imei [(u "command", VStr (ac_command s)); (u "force", VBool force)]))
    as (g & Hg & Hc).
  assert (Hp : prop (guard_payload imei [(u "command", VStr (ac_command s)); (u "force", VBool force)])
                 (u "command") = VStr (ac_command s)) by (by vm_compute).
  rewrite Hp in Hc. cbn [nullish] in Hc. rewrite to_string_str in Hc. clear Hp.
  split_and!; [| |done].
  - intros Hn. exists g. rewrite Hc, Hn. by split.
  - intros Hs. destruct (atCommandGuard (ac_command s)) as [t|] eqn:Eg; [|done]. split.
    + by exists g, (ag_consequence t).
    + subst force. rewrite orb_true_r. by vm_compute.
Qed.

(** A reply to a USSD menu leaves the page only while the session of
    the newest exchange is open by the clock of the press, not of the render
    that drew the box; it is asked about; and it is addressed to the module
    that opened the session, in the guard's payload and in the request,
    whatever module is selected above. *)
Theorem ussd_reply_in_session rows clock s a s' imei deviceId :
  ussd_submit_reply rows clock s = Some (Some a, s') ->
  exists x own,
    latestUssdExchange rows = Some x /\ ux_modemImei x = Some own /\ own <> []
    /\ ussd_session rows clock s = UssdOpen
    /\ a = (u "send_ussd", [(u "modem_imei", VStr own); (u "code", VStr (trim (uz_reply s)));
                            (u "stage", VStr (u "continue"))])
    /\ is_asked imei a
    /\ from_option (fun b => prop b (u "modem_imei")) VUndef (cl_body (command_call deviceId imei a.1 a.2))
       = VStr own
    /\ uz_reply s' = [].
Proof.
  unfold ussd_submit_reply. destruct (ussd_session rows (uz_now s) s); [done| |done].
  destruct (ussd_session rows clock s) eqn:Eo; [done| |done]. intros [= Ha <-].
  unfold ussd_send in Ha. apply fmap_Some in Ha as (q & Hq & ->).
  apply ussdContinueRequest_addressed in Hq as (x & own & Hx & Hi & Hn & _ & ->).
  exists x, own. split_and!; try done.
  apply (one_known_spec imei true); by vm_compute.
Qed.

(** The session that has aged out between the render and the press sends
    nothing, and the box is withdrawn. *)
Lemma ussd_reply_late rows clock s :
  ussd_session rows (uz_now s) s = UssdOpen -> ussd_session rows clock s <> UssdOpen ->
  ussd_submit_reply rows clock s = Some (None, uz_with_now clock s)
  /\ ussd_submit_reply rows clock (uz_with_now clock s) = None.
Proof.
  intros Ho Hc. unfold ussd_submit_reply. rewrite Ho. split.
  - by destruct (ussd_session rows clock s).
  - change (ussd_session rows (uz_now (uz_with_now clock s)) (uz_with_now clock s))
      with (ussd_session rows clock s). by destruct (ussd_session rows clock s).
Qed.

(** ** Approving and revoking *)

(** A candidate the agent has identified is adopted at once; one it has
    only looked at, or an approval taken back, is asked about; and the rows
    that offer either are told apart by their state. *)
Theorem candidate_offers imei c rows :
  (from_option (fun i => negb (jeqb i [])) false (ca_imei c) = true ->
     goes_unasked imei (candidate_submit c) /\ (candidate_submit c).1 = u "register_modem")
  /\ (from_option (fun i => negb (jeqb i [])) false (ca_imei c) = false ->
     is_asked imei (candidate_submit c) /\ (candidate_submit c).1 = u "claim_modem_candidate")
  /\ is_asked imei (candidate_revoke c)
  /\ forall r, ~ (r ∈ candidates_pending rows /\ r ∈ candidates_claimed rows).
Proof.
  unfold candidate_submit, candidates_pending, candidates_claimed. split_and!.
  - destruct (ca_imei c) as [i|]; cbn; [|done]. destruct (jeqb i []); [done|]. split; [|done].
    apply (one_known_spec imei false); by vm_compute.
  - destruct (ca_imei c) as [i|]; cbn; [destruct (jeqb i []); [|done]|]; intros _; (split; [|done]);
      (apply (one_known_spec imei true); by vm_compute).
  - apply (one_known_spec imei true); by vm_compute.
  - intros r [[_ H1%jeqb_eq]%elem_of_filter_bool [_ H2%jeqb_eq]%elem_of_filter_bool].
    rewrite H1 in H2. by vm_compute in H2.
Qed.

End PanelFacts.

(** ** Packet data contexts *)

Section ApnFacts.
Context `{NumberText} `{ToNumber}.

Lemma apn_fields cid context e k :
  field k (apn_submit cid context e).2 =
  if jeqb k (u "cid") then Some (VNum (to_number (VStr cid)))
  else if jeqb k (u "apn") then Some (VStr (ae_apn e))
  else if jeqb k (u "pdp_type") then (if jeqb (ae_pdpType e) [] then None else Some (VStr (ae_pdpType e)))
  else if jeqb k (u "auth") then (if jeqb (ae_auth e) [] then None else Some (VStr (ae_auth e)))
  else if jeqb k (u "username") then
    (if jeqb (ae_username e) (default [] (ap_username <$> context)) then None
     else Some (VStr (ae_username e)))
  else if jeqb k (u "password") then
    (if ae_clearPassword e then Some (VStr [])
     else if jeqb (ae_password e) [] then None else Some (VStr (ae_password e)))
  else None.
Proof.
  assert (Happ : forall l l' : fields, field k (l ++ l') = match field k l with Some v => Some v | None => field k l' end).
  { induction l as [|[k' v] l IH]; intros l'; cbn; [done|]. by destruct (jeqb k k'). }
  unfold apn_submit. cbn [snd]. rewrite !Happ.
  destruct (jeqb k (u "cid")) eqn:E1; cbn; rewrite E1; [done|].
  destruct (jeqb k (u "apn")) eqn:E2; [done|].
  destruct (jeqb (ae_pdpType e) []), (jeqb (ae_auth e) []),
    (jeqb (ae_username e) (default [] (ap_username <$> context))), (ae_clearPassword e),
    (jeqb (ae_password e) []); cbn;
    repeat match goal with |- context [jeqb k ?x] => destruct (jeqb k x) eqn:? end; try done;
    repeat match goal with E : jeqb k _ = true |- _ => apply jeqb_eq in E end;
    match goal with E : k = _, E' : k = _ |- _ => rewrite E in E'; by vm_compute in E' end.
Qed.

(** What writing a context sends.  A box nobody touched since the editor
    was opened sends the context's own APN, type and authentication, and no
    user name and no password; a user name travels exactly when it differs
    from the one read, and a password exactly when one is typed or the box
    that clears it is ticked, and then it is empty. *)
Theorem apn_editor_sends cid context e :
  (let sent := (apn_submit cid context (apn_editor_initial context)).2 in
   field (u "apn") sent = Some (VStr (default [] (ap_apn <$> context)))
   /\ field (u "username") sent = None /\ field (u "password") sent = None
   /\ (forall t, context ≫= ap_auth = Some t -> t <> [] -> field (u "auth") sent = Some (VStr t)))
  /\ (let sent := (apn_submit cid context e).2 in
      field (u "cid") sent = Some (VNum (to_number (VStr cid)))
      /\ field (u "username") sent
         = (if bool_decide (ae_username e = default [] (ap_username <$> context)) then None
            else Some (VStr (ae_username e)))
      /\ field (u "password") sent
         = (if ae_clearPassword e then Some (VStr [])
            else if bool_decide (ae_password e = []) then None else Some (VStr (ae_password e)))).
Proof.
  cbn zeta. rewrite !apn_fields. js_names. cbn [apn_editor_initial ae_apn ae_username ae_password ae_clearPassword ae_auth].
  rewrite !jeqb_refl. split_and!; try reflexivity.
  2: { unfold jeqb. by repeat case_bool_decide. }
  intros t Ht Hn. rewrite Ht. cbn. by rewrite (proj2 (jeqb_neq t [])).
Qed.

(** Where the editor departs from that: it is mounted again when the
    identifier changes and not when the module does.  With module A's
    context on screen, selecting module B and pressing the button writes A's
    APN into B, and A's user name as a change, though no box was touched. *)
Theorem apn_editor_keeps_module A B ca cb :
  apn_chosen A (u "1") = Some ca -> apn_chosen B (u "1") = Some cb ->
  ap_username ca <> ap_username cb ->
  let sent := (apn_press B (apn_mount A)).2 in
  field (u "apn") sent = Some (VStr (ap_apn ca))
  /\ field (u "username") sent = Some (VStr (ap_username ca))
  /\ apn_pick B (u "1") (apn_mount A) = apn_mount A.
Proof.
  intros HA HB Hn. unfold apn_press, apn_mount. cbn [an_cid an_editor]. rewrite HA, HB. cbn zeta.
  rewrite !apn_fields. js_names. cbn [apn_editor_initial ae_apn ae_username option_fmap option_map fmap default from_option].
  cbn. rewrite (proj2 (jeqb_neq _ _) Hn). split_and!; [done|done|].
  unfold apn_pick. cbn [an_cid]. by rewrite jeqb_refl.
Qed.

End ApnFacts.

Definition sample_number_text : NumberText := {| number_text _ := u "1" |}.
Definition sample_contexts (apn username : string) : option (list ApnContextRow) :=
  Some [ {| ap_cid := int 1; ap_pdpType := u "IP"; ap_apn := u apn; ap_username := u username;
            ap_auth := None; ap_hasPassword := true; ap_source := None |} ].

Lemma apn_editor_keeps_module_witness :
  field (u "username")
    (@apn_press sample_number_text sample_to_number (sample_contexts "corp.b" "bob")
       (@apn_mount sample_number_text (sample_contexts "corp.a" "alice"))).2
  = Some (VStr (u "alice")).
Proof.
  refine (proj1 (proj2 (@apn_editor_keeps_module sample_number_text sample_to_number
    (sample_contexts "corp.a" "alice") (sample_contexts "corp.b" "bob") _ _ eq_refl eq_refl _))).
  by vm_compute.
Defined.

(** ** The adoption note *)

(** A note started for one module is never saved on another: after
    another module is selected the draft is that module's own note, changed
    only by what is typed from then on, and it is saved under that module's
    IMEI. *)
Theorem adoption_draft_own s a b typed_before typed_after :
  md_imei a <> md_imei b ->
  let s1 := foldl (fun s t => adoption_type t s) (adoption_render (Some a) s) typed_before in
  let s2 := foldl (fun s t => adoption_type t s) (adoption_render (Some b) s1) typed_after in
  adoption_submit (Some b) s2
  = Some (u "update_modem",
          [ (u "modem_imei", VStr (md_imei b));
            (u "note", VStr (trim (default (default [] (md_adoptionNote b)) (last typed_after)))) ]).
Proof.
  intros Hab s1 s2.
  assert (Hty : forall ts s, ad_editing (foldl (fun s t => adoption_type t s) s ts) = ad_editing s
                /\ ad_draft (foldl (fun s t => adoption_type t s) s ts) = default (ad_draft s) (last ts)).
  { induction ts as [|t ts IH] using rev_ind; intros s0; [done|].
    rewrite foldl_app, last_snoc. cbn. by destruct (IH s0) as [-> _]. }
  assert (He : ad_editing s1 = Some (md_imei a)).
  { subst s1. rewrite (proj1 (Hty _ _)). unfold adoption_render. by case_bool_decide. }
  unfold adoption_submit. cbn. do 5 f_equal. subst s2. rewrite (proj2 (Hty _ _)).
  f_equal. unfold adoption_render. rewrite He. case_bool_decide as E; [congruence|done].
Qed.

Definition sample_modem (imei note : string) : list ModemRow :=
  filter_map parseModem
    [VObj [(u "id", VStr (u imei)); (u "imei", VStr (u imei)); (u "adoption_note", VStr (u note))]].

Lemma adoption_draft_own_witness :
  match sample_modem "861" "lab", sample_modem "862" "van" with
  | [a], [b] =>
      adoption_submit (Some b)
        (adoption_render (Some b) (adoption_type (u "half a sentence")
           (adoption_render (Some a) adoption_initial)))
      = Some (u "update_modem", [(u "modem_imei", VStr (u "862")); (u "note", VStr (u "van"))])
  | _, _ => False
  end.
Proof.
  destruct (sample_modem "861" "lab") as [|a [|]] eqn:Ea; [by vm_compute in Ea| |by vm_compute in Ea].
  destruct (sample_modem "862" "van") as [|b [|]] eqn:Eb; [by vm_compute in Eb| |by vm_compute in Eb].
  assert (Ha : md_imei a = u "861") by (vm_compute in Ea; injection Ea as <-; by vm_compute).
  assert (Hb : md_imei b = u "862" /\ md_adoptionNote b = Some (u "van"))
    by (vm_compute in Eb; injection Eb as <-; by vm_compute).
  destruct Hb as [Hb Hn].
  pose proof (adoption_draft_own adoption_initial a b [u "half a sentence"] []) as E.
  cbn zeta in E. cbn [foldl] in E. rewrite E.
  - rewrite Hb, Hn. by vm_compute.
  - rewrite Ha, Hb. by vm_compute.
Defined.

(** ** A session, read and answered *)

Definition sample_ussd_rows : list UssdCommandRow :=
  [ {| uc_id := u "c1"; uc_kind := u "send_ussd"; uc_status := u "succeeded"; uc_issued_at := int 0;
       uc_completed_at := Some (int 5000);
       uc_payload := VObj [(u "modem_imei", VStr (u "861")); (u "stage", VStr (u "start"))];
       uc_result := Some (VObj [(u "stage", VStr (u "needs_reply")); (u "text", VStr (u "1. Balance"))]) |} ].

(** The reply box holds "1 " and the page's clock stands at [now]. *)
Definition sample_ussd (now : Z) : ussd_console :=
  {| uz_code := []; uz_reply := u "1 "; uz_observed := None; uz_now := now |}.

Lemma ussd_reply_in_session_witness :
  exists s', ussd_submit_reply sample_ussd_rows (int 6000) (sample_ussd (int 5500))
    = Some (Some (u "send_ussd", [(u "modem_imei", VStr (u "861")); (u "code", VStr (u "1"));
                                  (u "stage", VStr (u "continue"))]), s')
  /\ uz_reply s' = [].
Proof.
  destruct (ussd_submit_reply sample_ussd_rows (int 6000) (sample_ussd (int 5500)))
    as [[[a|] s']|] eqn:E; [|by vm_compute in E|by vm_compute in E].
  exists s'.
  destruct (@ussd_reply_in_session sample_to_string _ _ _ _ _ (u "862") (u "dev-1") E)
    as (x & own & Hx & Hi & _ & _ & -> & _ & _ & Hr).
  split; [|exact Hr]. vm_compute in Hx. injection Hx as <-. vm_compute in Hi. injection Hi as <-.
  reflexivity.
Defined.
