(* ===== verification/ConsoleView.v ===== *)
(** * What the device page's panels show (components/device-console.tsx: the
      markup of DeviceDiagnostics, DeviceConsole and their cards)

    Every card as the values it is drawn from, every button with the way it
    is drawn, whether it can be pressed and what a press asks for.  Console
    has the relay behind [onRun], ConsolePanels the state of each box.
    Layout and class names are left out. *)

From Stdlib Require Import Lia.
From S2P Require Import Prelude JsString JsValue JsMap JsRegex Gateway Devices Ussd TableQuery Fleet Plmn Guards I18n Settings Navigation Component Console ConsolePanels.

(** ** The parts *)

Inductive variant := VarDefault | VarRisk | VarOutline | VarGhost.
#[export] Instance variant_eq_dec : EqDecision variant.
Proof. solve_decision. Defined.

(** [bt_ask] is what a press hands to [onRun]; a USSD press without an
    address hands it nothing. *)
Record button := {
  bt_text : jstring;
  bt_variant : variant;
  bt_enabled : bool;
  bt_ask : option ask;
}.

Record picker_drawn := {
  pk_value : jstring;
  pk_options : list (jstring * jstring);  (** value and text *)
  pk_enabled : bool;
}.

Record at_drawn := {
  atd_command : jstring;
  atd_force : bool;
  atd_run : button;
  atd_tripped : option (jstring * jstring);  (** the guard's badge and its sentence *)
  atd_guarded : option jstring;              (** or the list of what is guarded *)
}.

Record reply_drawn := { rd_reply : jstring; rd_send : button; rd_modem : jstring }.

Record ussd_result_drawn := {
  ur_hint : bool;                            (** the stage as a hint, not as a line *)
  ur_stage : jstring;
  ur_raw : option jstring;
  ur_text : option jstring;
  ur_reply : option reply_drawn;
  ur_expired : option jstring;
}.

Record ussd_drawn := {
  ud_code : jstring;
  ud_buttons : list button;
  ud_result : option ussd_result_drawn;
}.

Record usbnet_drawn := {
  und_mode : jstring;
  und_options : list jstring;
  und_run : button;
  und_warning : option jstring;
}.
Record operator_drawn := { od_plmn : jstring; od_buttons : list button }.

Record candidate_drawn := { cdd_name : jstring; cdd_about : jstring; cdd_button : button }.
Record candidates_drawn := {
  csd_none : option jstring;
  csd_found : list candidate_drawn;
  csd_claimed : list candidate_drawn;
}.

Record agent_log_drawn := { agd_filter : jstring; agd_read : button; agd_text : jstring }.

Record apn_drawn := {
  apd_cid : jstring;
  apd_options : list (jstring * jstring);
  apd_apn : jstring;
  apd_pdpType : jstring;
  apd_pdpTypes : list (jstring * jstring);
  apd_username : jstring;
  apd_auth : jstring;
  apd_auths : list (jstring * jstring);
  apd_password : jstring;
  apd_passwordEnabled : bool;
  apd_clear : bool;
  apd_run : button;
}.

Record create_drawn := { crd_imei : jstring; crd_family : jstring; crd_note : jstring; crd_submit : button }.
Record adoption_drawn := { add_who : jstring; add_draft : jstring; add_save : button }.
Record danger_drawn := { dgd_buttons : list button; dgd_recovery : list button }.

Record log_row_drawn := {
  lrd_kind : jstring;
  lrd_tone : looked_up BadgeTone;
  lrd_status : jstring;
  lrd_time : jstring;
  lrd_waiting : option jstring;
  lrd_reason : option jsval;
  lrd_details : option jstring;
}.

Record dialog_drawn := {
  dgl_title : jstring;
  dgl_sentence : jstring;
  dgl_question : jstring;
  dgl_proceed : jstring;
  dgl_cancel : jstring;
  dgl_busy : bool;
}.

(** A row of the command log, as the page reads it. *)
Record CommandRow := {
  cr_id : jstring;
  cr_kind : jstring;
  cr_status : jstring;
  cr_issued_at : Z;
  cr_completed_at : option Z;
  cr_payload : jsval;
  cr_result : jsval;
}.

Definition row_json (row : CommandRow) : jsval :=
  VObj [(u "id", VStr (cr_id row)); (u "kind", VStr (cr_kind row)); (u "status", VStr (cr_status row));
        (u "payload", cr_payload row); (u "result", cr_result row)].

(** The fields of it the USSD section of lib/catalog.ts reads. *)
Definition row_ussd (row : CommandRow) : UssdCommandRow :=
  {| uc_id := cr_id row; uc_kind := cr_kind row; uc_status := cr_status row;
     uc_issued_at := cr_issued_at row; uc_completed_at := cr_completed_at row;
     uc_payload := cr_payload row;
     uc_result := match cr_result row with
                  | VUndef | VNull => None
                  | result => Some (prop result (u "details"))
                  end |}.

(** What the boxes of the console hold. *)
Record console_boxes := {
  bx_at : at_console;
  bx_ussd : ussd_console;
  bx_plmn : jstring;
  bx_usbnet : jstring;
  bx_apn : apn_controls;
  bx_contains : jstring;
  bx_create : create_modem;
  bx_adoption : adoption;
}.

Section View.
Context `{ToString} `{NumberText} `{ToNumber} `{CaseMapping}.
Context (inherited_text : jstring -> jstring) (labels : list (jstring * jstring)).
Context (catalogs : Locale -> list (jstring * jstring)) (locale : Locale).
(** [new Date(at).toISOString().replace("T", " ")] of a moment,
    [new Date(text).toLocaleString()] of a text, [.toLocaleTimeString()] of a
    number, and [JSON.stringify(value, null, 2)]. *)
Context (date_text : Z -> jstring) (local_text : jstring -> jstring).
Context (clock_text : num -> jstring) (pretty_json : jsval -> jstring).

Abbreviation label := (Console.label labels).
Definition tk (key : jstring) : jstring := t inherited_text catalogs key locale None.

(** [labels[kind]], of a kind the page knows. *)
Definition kind_label (kind : jstring) : jstring := default [] (field kind labels).

Definition plain_button (text : jstring) (busy : bool) (a : ask) : button :=
  {| bt_text := text; bt_variant := VarOutline; bt_enabled := negb busy; bt_ask := Some a |}.
Definition risk_button (text : jstring) (enabled : bool) (a : ask) : button :=
  {| bt_text := text; bt_variant := VarRisk; bt_enabled := enabled; bt_ask := Some a |}.

(** ** The cards *)

Definition operator_text (o : operator_label) : jstring :=
  match o with Named name => name | Member name => inherited_text name end.

Definition ModemPicker (modems : list ModemRow) (imei : jstring) (busy : bool) : picker_drawn :=
  {| pk_value := imei;
     pk_options := (fun m => (md_imei m, md_imei m ++
                     match md_homePlmn m with
                     | Some plmn => if jeqb plmn [] then [] else u " — " ++ operator_text (operatorName plmn)
                     | None => []
                     end)) <$> modems;
     pk_enabled := negb (busy || (length modems =? 0)) |}.

Definition AtConsole (busy : bool) (s : at_console) : at_drawn :=
  let tripped := atCommandGuard (ac_command s) in
  {| atd_command := ac_command s;
     atd_force := ac_force s;
     atd_run := {| bt_text := label "run";
                   bt_variant := if is_some tripped || ac_force s then VarRisk else VarDefault;
                   bt_enabled := at_ready busy s; bt_ask := Some (at_submit s).1 |};
     atd_tripped := (fun guard => (ag_label guard, tk (ag_consequence guard))) <$> tripped;
     atd_guarded := if is_some tripped then None
                    else Some (label "atGuarded" ++ u ": " ++ join_on (u " · ") (ag_label <$> AT_COMMAND_GUARDS)) |}.

(** [labels[ussdStageLabelKey(stage)]]; no label is named like the text of
    a function. *)
Definition stage_text (stage : jstring) : jstring :=
  match ussdStageLabelKey stage with Own key => kind_label key | _ => [] end.
Definition stage_other (stage : jstring) : bool :=
  match ussdStageLabelKey stage with Own key => jeqb key (u "ussdStageOther") | _ => false end.

(** The reply box; the clock of its press is not the one that drew it. *)
Definition reply_draws (rows : list UssdCommandRow) (busy : bool) (clock : Z) (s : ussd_console)
    : option reply_drawn :=
  (fun pressed : option ask * ussd_console =>
     {| rd_reply := uz_reply s;
        rd_send := {| bt_text := label "ussdContinue"; bt_variant := VarRisk;
                      bt_enabled := negb (busy || jeqb (trim (uz_reply s)) []); bt_ask := pressed.1 |};
        rd_modem := label "ussdSessionModem" ++ u " " ++ default [] (latestUssdExchange rows ≫= ux_modemImei) |})
    <$> ussd_submit_reply rows clock s.

Definition UssdConsole (rows : list UssdCommandRow) (selectedImei : jstring) (busy : bool) (clock : Z)
    (s : ussd_console) : ussd_drawn :=
  {| ud_code := uz_code s;
     ud_buttons :=
       [ {| bt_text := label "send"; bt_variant := VarRisk;
            bt_enabled := negb (busy || jeqb (trim (uz_code s)) []); bt_ask := ussd_submit_code selectedImei s |};
         {| bt_text := label "cancel"; bt_variant := VarOutline; bt_enabled := negb busy;
            bt_ask := ussd_cancel rows selectedImei |} ];
     ud_result := (fun r =>
       {| ur_hint := us_expectsReply r;
          ur_stage := stage_text (us_stage r);
          ur_raw := if negb (us_expectsReply r) && stage_other (us_stage r) then Some (us_stage r) else None;
          ur_text := if jeqb (us_text r) [] then None else Some (us_text r);
          ur_reply := reply_draws rows busy clock s;
          ur_expired := match ussd_session rows (uz_now s) s with
                        | UssdExpired => Some (label "ussdExpired")
                        | _ => None
                        end |}) <$> (latestUssdExchange rows ≫= ux_result) |}.

Definition OperatorControls (busy : bool) (plmn : jstring) : operator_drawn :=
  {| od_plmn := plmn;
     od_buttons := [ risk_button (label "pin") (operator_ready busy plmn) (operator_submit plmn);
                     plain_button (label "automatic") busy operator_automatic ] |}.

Definition UsbnetControls (busy : bool) (mode : jstring) : usbnet_drawn :=
  {| und_mode := mode;
     und_options := USBNET_MODES;
     und_run := risk_button (label "run") (negb busy) (usbnet_submit mode);
     und_warning := if usbnet_warned mode then Some (label "usbnetWarning") else None |}.

(** [candidate.imei ? .. : ..]. *)
Definition identified (c : CandidateRow) : bool :=
  match ca_imei c with Some imei => negb (jeqb imei []) | None => false end.

Definition given (text : option jstring) : option jstring :=
  match text with Some s => if jeqb s [] then None else Some s | None => None end.

Definition candidate_about (c : CandidateRow) : jstring :=
  (if identified c then ca_controlPort c ++ u " · " else [])
  ++ ca_transport c
  ++ (match given (ca_vendorId c), given (ca_productId c) with
      | Some vendor, Some product => u " · " ++ vendor ++ u ":" ++ product
      | _, _ => []
      end)
  ++ from_option (fun usb => u " · " ++ usb) [] (given (ca_usbDevice c)).

Definition candidate_draws (b : button) (c : CandidateRow) : candidate_drawn :=
  {| cdd_name := default (ca_controlPort c) (ca_imei c); cdd_about := candidate_about c; cdd_button := b |}.

Definition found_button (busy : bool) (c : CandidateRow) : button :=
  {| bt_text := label (if identified c then "candidateAdopt" else "candidateClaim");
     bt_variant := if identified c then VarGhost else VarRisk;
     bt_enabled := negb busy; bt_ask := Some (candidate_submit c) |}.
Definition claimed_button (busy : bool) (c : CandidateRow) : button :=
  {| bt_text := label "candidateRevoke"; bt_variant := VarGhost; bt_enabled := negb busy;
     bt_ask := Some (candidate_revoke c) |}.

Definition CandidatesCard (busy : bool) (rows : list CandidateRow) : candidates_drawn :=
  {| csd_none := match candidates_pending rows with [] => Some (label "candidatesNone") | _ => None end;
     csd_found := (fun c => candidate_draws (found_button busy c) c) <$> candidates_pending rows;
     csd_claimed := (fun c => candidate_draws (claimed_button busy c) c) <$> candidates_claimed rows |}.

Definition agent_lines (lines : option (list log_line)) : jstring :=
  match lines with
  | None => label "agentLogNone"
  | Some [] => label "agentLogEmpty"
  | Some lines => join_on [10%N] ((fun l => clock_text (ll_at l) ++ u "  " ++ ll_text l) <$> lines)
  end.

Definition AgentLogCard (busy : bool) (commands : list CommandRow) (contains : jstring) : agent_log_drawn :=
  {| agd_filter := contains;
     agd_read := plain_button (label "agentLogRead") busy (agentLog_submit contains);
     agd_text := agent_lines (agentLogLines
                   (from_option result_details VUndef (agentLog_newest (row_json <$> commands)))) |}.

Definition apn_option (contexts : option (list ApnContextRow)) (cid : Z) : jstring * jstring :=
  let known := contexts ≫= List.find (fun row => (ap_cid row =? cid)%Z) in
  (number_text (Fin cid),
   number_text (Fin cid) ++ from_option (fun apn => u ": " ++ apn) [] (given (ap_apn <$> known))).

(** The options of a select whose empty value leaves the context alone. *)
Definition kept_or (options : list jstring) : list (jstring * jstring) :=
  ([], label "apnKeep") :: ((fun option => (option, option)) <$> options).

Definition ApnControls (busy : bool) (contexts : option (list ApnContextRow)) (s : apn_controls) : apn_drawn :=
  let e := an_editor s in
  {| apd_cid := an_cid s;
     apd_options := apn_option contexts <$> APN_CIDS;
     apd_apn := ae_apn e;
     apd_pdpType := ae_pdpType e;
     apd_pdpTypes := kept_or [u "IP"; u "IPV6"; u "IPV4V6"];
     apd_username := ae_username e;
     apd_auth := ae_auth e;
     apd_auths := kept_or APN_AUTHS;
     apd_password := ae_password e;
     apd_passwordEnabled := negb (ae_clearPassword e);
     apd_clear := ae_clearPassword e;
     apd_run := risk_button (label "run") (negb busy) (apn_press contexts s) |}.

Definition CreateModemCard (busy : bool) (s : create_modem) : create_drawn :=
  {| crd_imei := cm_imei s; crd_family := cm_family s; crd_note := cm_note s;
     crd_submit := {| bt_text := label "createSubmit"; bt_variant := VarOutline;
                      bt_enabled := create_ready busy s; bt_ask := Some (create_submit s).1 |} |}.

(** [None]: no module is selected, and a hint says so. *)
Definition AdoptionCard (busy : bool) (modem : option ModemRow) (s : adoption) : option adoption_drawn :=
  (fun m =>
     {| add_who := default (u "—") (md_adoptedBy m)
                   ++ from_option (fun at_ => u " · " ++ local_text at_) [] (given (md_adoptedAt m));
        add_draft := ad_draft (adoption_render modem s);
        add_save := {| bt_text := label "adoptionSave"; bt_variant := VarOutline; bt_enabled := negb busy;
                       bt_ask := adoption_submit modem (adoption_render modem s) |} |}) <$> modem.

Definition DangerZone (busy : bool) : danger_drawn :=
  {| dgd_buttons := (fun a : ask => risk_button (kind_label a.1) (negb busy) a) <$> danger_asks;
     dgd_recovery := zip_with (fun name a => plain_button (label name) busy a)
                       ["radioOn"; "dataOn"]%string recovery_asks |}.

(** ** The command log *)

(** A member of every object is no text, and is drawn as nothing. *)
Definition kind_text (kind : jstring) : jstring :=
  match table_read labels kind with Own text => text | Inherited => [] | Absent => kind end.

Definition log_row_draws (row : CommandRow) : log_row_drawn :=
  let outcome := CommandOutcome (row_json row) in
  {| lrd_kind := kind_text (cr_kind row);
     lrd_tone := toneForCommandStatus (cr_status row);
     lrd_status := cr_status row;
     lrd_time := take 8 (drop 11 (date_text (cr_issued_at row)));
     lrd_waiting := if oc_waiting outcome then Some (label "waiting") else None;
     lrd_reason := oc_reason outcome;
     lrd_details := pretty_json <$> oc_details outcome |}.

(** On the left: nothing was ever sent. *)
Definition CommandLogCard (commands : list CommandRow) : jstring + list log_row_drawn :=
  match commands with
  | [] => inl (label "noCommands")
  | rows => inr (log_row_draws <$> rows)
  end.

Definition ConfirmDialog_draws (busy : bool) (p : Pending) : dialog_drawn :=
  {| dgl_title := pd_title p; dgl_sentence := tk (pd_consequence p);
     dgl_question := tk (u "confirm.question"); dgl_proceed := tk (u "confirm.proceed");
     dgl_cancel := tk (u "confirm.cancel"); dgl_busy := busy |}.

(** [error ? <FormError>{error}</FormError> : null]. *)
Definition error_draws (s : commands_state) : option jstring := given (hk_error s).

(** ** The two panels *)

Record diagnostics_drawn := {
  dxd_readOnly : option jstring;
  dxd_picker : option picker_drawn;
  dxd_buttons : list button;
  dxd_error : option jstring;
  dxd_log : jstring + list log_row_drawn;
  dxd_dialog : option dialog_drawn;
}.

Definition DeviceDiagnostics (writable : bool) (log : list CommandRow) (s : console) : diagnostics_drawn :=
  let hook := cs_hook s in
  let busy := hk_busy hook in
  {| dxd_readOnly := if writable then None else Some (tk (u "role.readOnlyDevice"));
     dxd_picker := if writable then Some (ModemPicker (cs_modems s) (cs_imei s) busy) else None;
     dxd_buttons := if writable
                    then (fun a : ask => {| bt_text := kind_label a.1; bt_variant := VarOutline;
                                            bt_enabled := diagnostics_enabled busy (cs_modems s) a;
                                            bt_ask := Some a |}) <$> diagnostics_asks
                    else [];
     dxd_error := if writable then error_draws hook else None;
     dxd_log := CommandLogCard log;
     dxd_dialog := ConfirmDialog_draws busy <$> hk_pending hook |}.

Record console_cards := {
  cc_picker : picker_drawn;
  cc_adoption : option adoption_drawn;
  cc_at : at_drawn;
  cc_ussd : ussd_drawn;
  cc_operator : operator_drawn;
  cc_usbnet : usbnet_drawn;
  cc_apn : apn_drawn;
  cc_agentLog : agent_log_drawn;
  cc_danger : danger_drawn;
}.

Record console_drawn := {
  cnd_readOnly : option jstring;
  cnd_noModems : option (jstring * button);   (** and the rescan *)
  cnd_candidates : option candidates_drawn;
  cnd_create : option create_drawn;
  cnd_cards : option console_cards;
  cnd_error : option jstring;
  cnd_log : jstring + list log_row_drawn;
  cnd_dialog : option dialog_drawn;
}.

(** [modems.find((row) => row.imei === imei)]. *)
Definition selected (s : console) : option ModemRow :=
  List.find (fun m => jeqb (md_imei m) (cs_imei s)) (cs_modems s).

Definition cards_draw (log : list CommandRow) (clock : Z) (bx : console_boxes) (s : console) : console_cards :=
  let busy := hk_busy (cs_hook s) in
  {| cc_picker := ModemPicker (cs_modems s) (cs_imei s) busy;
     cc_adoption := AdoptionCard busy (selected s) (bx_adoption bx);
     cc_at := AtConsole busy (bx_at bx);
     cc_ussd := UssdConsole (row_ussd <$> log) (cs_imei s) busy clock (bx_ussd bx);
     cc_operator := OperatorControls busy (bx_plmn bx);
     cc_usbnet := UsbnetControls busy (bx_usbnet bx);
     cc_apn := ApnControls busy (selected s ≫= md_apnContexts) (bx_apn bx);
     cc_agentLog := AgentLogCard busy log (bx_contains bx);
     cc_danger := DangerZone busy |}.

Definition DeviceConsole (writable : bool) (candidates : list CandidateRow) (log : list CommandRow) (clock : Z)
    (bx : console_boxes) (s : console) : console_drawn :=
  let hook := cs_hook s in
  let busy := hk_busy hook in
  if negb writable then
    {| cnd_readOnly := Some (tk (u "role.readOnlyDevice")); cnd_noModems := None; cnd_candidates := None;
       cnd_create := None; cnd_cards := None; cnd_error := None; cnd_log := CommandLogCard log;
       cnd_dialog := None |}
  else
    let bare := length (cs_modems s) =? 0 in
    {| cnd_readOnly := None;
       cnd_noModems := if bare
                       then Some (label "noModems",
                                  plain_button (kind_label (u "refresh_modems")) busy (u "refresh_modems", []))
                       else None;
       cnd_candidates := Some (CandidatesCard busy candidates);
       cnd_create := Some (CreateModemCard busy (bx_create bx));
       cnd_cards := if bare then None else Some (cards_draw log clock bx s);
       cnd_error := error_draws hook;
       cnd_log := CommandLogCard log;
       cnd_dialog := if bare then None else ConfirmDialog_draws busy <$> hk_pending hook |}.
End View.

(** ** Every button *)

Definition reply_buttons (r : option ussd_result_drawn) : list button :=
  option_list (rd_send <$> (r ≫= ur_reply)).
Definition candidates_buttons (d : candidates_drawn) : list button :=
  cdd_button <$> (csd_found d ++ csd_claimed d).
Definition cards_buttons (d : console_cards) : list button :=
  option_list (add_save <$> cc_adoption d) ++ [atd_run (cc_at d)] ++ ud_buttons (cc_ussd d)
  ++ reply_buttons (ud_result (cc_ussd d)) ++ od_buttons (cc_operator d) ++ [und_run (cc_usbnet d)]
  ++ [apd_run (cc_apn d)] ++ [agd_read (cc_agentLog d)]
  ++ dgd_buttons (cc_danger d) ++ dgd_recovery (cc_danger d).
Definition console_buttons (d : console_drawn) : list button :=
  option_list (snd <$> cnd_noModems d) ++ from_option candidates_buttons [] (cnd_candidates d)
  ++ option_list (crd_submit <$> cnd_create d) ++ from_option cards_buttons [] (cnd_cards d).

Section Facts.
Context `{ToString} `{NumberText} `{ToNumber} `{CaseMapping}.
Context (inherited_text : jstring -> jstring) (labels : list (jstring * jstring)).
Context (catalogs : Locale -> list (jstring * jstring)) (locale : Locale).
Context (date_text : Z -> jstring) (local_text : jstring -> jstring).
Context (clock_text : num -> jstring) (pretty_json : jsval -> jstring).

Abbreviation console_of := (DeviceConsole inherited_text labels catalogs locale date_text local_text clock_text pretty_json).
Abbreviation diagnostics_of := (DeviceDiagnostics inherited_text labels catalogs locale date_text pretty_json).

(** A button warns exactly when its press is asked about, with the two
    exceptions of [risk_is_asked]. *)
Definition warns (imei : jstring) (b : button) (a : ask) : Prop :=
  bt_variant b = VarRisk /\ is_asked imei a \/ bt_variant b <> VarRisk /\ goes_unasked imei a.
Definition asked_plainly (imei : jstring) (b : button) (a : ask) : Prop :=
  bt_variant b <> VarRisk /\ is_asked imei a
  /\ (a.1 = u "create_modem" \/ a.1 = u "revoke_modem_candidate").
Definition forced_command (imei : jstring) (b : button) (a : ask) : Prop :=
  bt_variant b = VarRisk /\ goes_unasked imei a
  /\ a.1 = u "run_at_command" /\ field (u "force") a.2 = Some (VBool true).
Definition honest (imei : jstring) (b : button) : Prop :=
  forall a, bt_ask b = Some a -> warns imei b a \/ asked_plainly imei b a \/ forced_command imei b a.

(** ** The warning colour *)

Lemma honest_risk imei b :
  bt_variant b = VarRisk -> (forall a, bt_ask b = Some a -> all_known imei true [a] = true) -> honest imei b.
Proof. intros Hv Ha a E. left. left. split; [done|]. exact (one_known_spec imei true a (Ha a E)). Qed.
Lemma honest_plain imei b :
  bt_variant b <> VarRisk -> (forall a, bt_ask b = Some a -> all_known imei false [a] = true) -> honest imei b.
Proof. intros Hv Ha a E. left. right. split; [done|]. exact (one_known_spec imei false a (Ha a E)). Qed.
Lemma honest_quiet imei b :
  bt_variant b <> VarRisk ->
  (forall a, bt_ask b = Some a -> all_known imei true [a] = true
     /\ (a.1 = u "create_modem" \/ a.1 = u "revoke_modem_candidate")) -> honest imei b.
Proof.
  intros Hv Ha a E. destruct (Ha a E) as [Hk Hn]. right. left.
  split_and!; [done|exact (one_known_spec imei true a Hk)|done].
Qed.

Lemma honest_at imei busy s : honest imei (atd_run (AtConsole inherited_text labels catalogs locale busy s)).
Proof.
  intros a E. assert (Ha : a = (at_submit s).1) by (by injection E). subst a. clear E.
  pose proof (at_box_guarded imei s) as Hb.
  destruct (at_submit s) as [a s'] eqn:Ea. cbn [fst]. destruct Hb as (Hn & Hs & _).
  unfold warns, forced_command. cbn [atd_run AtConsole bt_variant].
  destruct (atCommandGuard (ac_command s)) as [g|] eqn:Eg; cbn [is_some orb].
  - left. left. split; [done|]. by apply Hs.
  - destruct (ac_force s) eqn:Ef; [|left; right; by split; [|apply Hn]].
    right. right. split_and!; [done|by apply Hn| |]; unfold at_submit in Ea; rewrite Ef in Ea;
      injection Ea as <- _; by vm_compute.
Qed.

Lemma ussd_send_ask body a :
  ussd_send body = Some a ->
  exists q, body = Some q
    /\ a = (u "send_ussd", [(u "modem_imei", VStr (uq_modem_imei q)); (u "code", VStr (uq_code q));
                            (u "stage", VStr (uq_stage q))]).
Proof. unfold ussd_send. intros (q & -> & ->)%fmap_Some. by exists q. Qed.

Lemma honest_ussd imei rows sel busy clock s b :
  b ∈ ud_buttons (UssdConsole labels rows sel busy clock s)
      ++ reply_buttons (ud_result (UssdConsole labels rows sel busy clock s)) ->
  honest imei b.
Proof.
  cbn [UssdConsole ud_buttons app ud_result].
  intros [->|[->|Hb]%elem_of_cons]%elem_of_cons.
  - apply honest_risk; [done|]. cbn [bt_ask]. intros a (q & Hq & ->)%ussd_send_ask.
    unfold ussdStartRequest in Hq. destruct (_ || _); [done|]. injection Hq as <-. by vm_compute.
  - apply honest_plain; [done|]. cbn [bt_ask]. intros a (q & Hq & ->)%ussd_send_ask.
    unfold ussdCancelRequest in Hq. cbv zeta in Hq. destruct (jeqb _ _); [done|]. injection Hq as <-. by vm_compute.
  - destruct (latestUssdExchange rows ≫= ux_result) as [r|]; [|by apply not_elem_of_nil in Hb].
    cbn [fmap option_fmap option_map reply_buttons mbind option_bind ur_reply] in Hb.
    unfold reply_draws in Hb. destruct (ussd_submit_reply rows clock s) as [[o s']|] eqn:E;
      [|by apply not_elem_of_nil in Hb].
    apply list_elem_of_singleton in Hb as ->. apply honest_risk; [done|]. cbn [rd_send bt_ask fst]. intros a ->.
    unfold ussd_submit_reply in E. destruct (ussd_session rows (uz_now s) s); [done| |done].
    destruct (ussd_session rows clock s); [done| |done]. injection E as Hs _.
    apply ussd_send_ask in Hs as (q & (x & own & _ & _ & _ & _ & ->)%ussdContinueRequest_addressed & ->).
    by vm_compute.
Qed.

Lemma honest_danger imei busy b :
  b ∈ dgd_buttons (DangerZone labels busy) ++ dgd_recovery (DangerZone labels busy) -> honest imei b.
Proof.
  destruct (danger_zone_asked imei) as (Hd & Hr & _).
  intros [(a & -> & Ha)%list_elem_of_fmap|Hb]%elem_of_app.
  - intros a' [= <-]. left. left. split; [done|by apply Hd].
  - cbn [DangerZone dgd_recovery recovery_asks zip_with] in Hb.
    rewrite !elem_of_cons in Hb. destruct Hb as [->|[->|[]%not_elem_of_nil]];
      intros a' [= <-]; left; right; (split; [done|]); apply Hr, elem_of_app; left; [left|right; left].
Qed.

Lemma honest_candidates imei busy rows b :
  b ∈ candidates_buttons (CandidatesCard labels busy rows) -> honest imei b.
Proof.
  unfold candidates_buttons. rewrite fmap_app, elem_of_app. cbn [CandidatesCard csd_found csd_claimed].
  rewrite <-!list_fmap_compose. intros [(c & -> & _)%list_elem_of_fmap|(c & -> & _)%list_elem_of_fmap];
    destruct (candidate_offers imei c rows) as (Hi & Hn & Hr & _); intros a [= <-].
  - left. unfold warns. cbn [compose cdd_button candidate_draws bt_variant found_button]. unfold identified.
    destruct (ca_imei c) as [i|] eqn:Ei; cbn [from_option] in Hi, Hn.
    + destruct (jeqb i []) eqn:E; cbn [negb] in *; [left; by split; [|apply Hn]|right; by split; [|apply Hi]].
    + left. by split; [|apply Hn].
  - right. left. split_and!; [done|exact Hr|by right].
Qed.

Lemma honest_cards imei log clock bx s b :
  b ∈ cards_buttons (cards_draw inherited_text labels catalogs locale local_text clock_text log clock bx s) ->
  honest imei b.
Proof.
  unfold cards_buttons. rewrite !elem_of_app, !list_elem_of_singleton.
  cbn [cards_draw cc_adoption cc_at cc_ussd cc_operator cc_usbnet cc_apn cc_agentLog cc_danger].
  intros [Hb|[->|[Hb|[Hb|[Hb|[->|[->|[->|Hb]]]]]]]].
  - unfold AdoptionCard in Hb. destruct (selected s) as [m|]; [|by apply not_elem_of_nil in Hb].
    apply list_elem_of_singleton in Hb as ->. apply honest_plain; [done|]. intros a [= <-]. by vm_compute.
  - apply honest_at.
  - eapply honest_ussd. apply elem_of_app. by left.
  - eapply honest_ussd. apply elem_of_app. by right.
  - cbn [OperatorControls od_buttons] in Hb. rewrite !elem_of_cons in Hb.
    destruct Hb as [->|[->|[]%not_elem_of_nil]]; [apply honest_risk|apply honest_plain]; try done;
      intros a [= <-]; by vm_compute.
  - apply honest_risk; [done|]. intros a [= <-]. by vm_compute.
  - apply honest_risk; [done|]. intros a [= <-]. by vm_compute.
  - apply honest_plain; [done|]. intros a [= <-]. by vm_compute.
  - eapply honest_danger, elem_of_app, Hb.
Qed.

(** C23. The warning colour means something.  Whatever the page holds, a
    button of either panel is drawn as a risk exactly when its press, with the
    payload it would send now, is asked about, with two exceptions: taking an
    approval back and writing a module into the register by hand are asked
    about and drawn plainly, and a typed command that trips no guard is drawn
    as a risk while its force box is ticked, and goes out at once. *)
Theorem risk_is_asked writable candidates log clock bx s b a :
  b ∈ console_buttons (console_of writable candidates log clock bx s)
      ++ dxd_buttons (diagnostics_of writable log s) ->
  bt_ask b = Some a ->
  warns (cs_imei s) b a \/ asked_plainly (cs_imei s) b a \/ forced_command (cs_imei s) b a.
Proof.
  intros Hb Ha. refine ((_ : honest (cs_imei s) b) a Ha). clear a Ha. revert Hb.
  rewrite elem_of_app. destruct writable; [|by intros [[]%not_elem_of_nil|[]%not_elem_of_nil]].
  intros [Hb|(a & -> & Ha)%list_elem_of_fmap].
  - unfold console_buttons in Hb. rewrite !elem_of_app in Hb.
    cbn [DeviceConsole negb cnd_noModems cnd_candidates cnd_create cnd_cards from_option] in Hb.
    destruct Hb as [Hb|[Hb|[Hb|Hb]]].
    + destruct (_ =? _); [|by apply not_elem_of_nil in Hb].
      apply list_elem_of_singleton in Hb as ->. apply honest_plain; [done|]. intros a [= <-]. by vm_compute.
    + by eapply honest_candidates.
    + apply list_elem_of_singleton in Hb as ->. apply honest_quiet; [done|]. intros a [= <-].
      split; [by vm_compute|by left].
    + destruct (_ =? _); [by apply not_elem_of_nil in Hb|]. by eapply honest_cards.
  - apply honest_plain; [done|]. intros a' [= <-].
    pose proof (proj1 (forallb_elem _ diagnostics_asks) (eq_refl : all_known (cs_imei s) false diagnostics_asks = true) a Ha) as E.
    cbn [all_known forallb]. by rewrite E.
Qed.

Lemma busy_candidates rows b :
  b ∈ candidates_buttons (CandidatesCard labels true rows) -> bt_enabled b = false.
Proof.
  unfold candidates_buttons. rewrite fmap_app, elem_of_app. cbn [CandidatesCard csd_found csd_claimed].
  rewrite <-!list_fmap_compose. by intros [(c & -> & _)%list_elem_of_fmap|(c & -> & _)%list_elem_of_fmap].
Qed.

Lemma busy_cards log clock bx s b :
  hk_busy (cs_hook s) = true ->
  b ∈ cards_buttons (cards_draw inherited_text labels catalogs locale local_text clock_text log clock bx s) ->
  bt_enabled b = false.
Proof.
  intros Eb. unfold cards_buttons.
  cbn [cards_draw cc_adoption cc_at cc_ussd cc_operator cc_usbnet cc_apn cc_agentLog cc_danger].
  rewrite Eb, !elem_of_app, !list_elem_of_singleton. intros [Hb|[->|[Hb|[Hb|[Hb|[->|[->|[->|Hb]]]]]]]]; try done.
  - unfold AdoptionCard in Hb. destruct (selected s); [|by apply not_elem_of_nil in Hb].
    by apply list_elem_of_singleton in Hb as ->.
  - cbn [UssdConsole ud_buttons] in Hb. rewrite !elem_of_cons in Hb.
    by destruct Hb as [->|[->|[]%not_elem_of_nil]].
  - cbn in Hb. destruct (latestUssdExchange _ ≫= ux_result); [|by apply not_elem_of_nil in Hb].
    cbn in Hb. unfold reply_draws in Hb. destruct (ussd_submit_reply _ _ _); [|by apply not_elem_of_nil in Hb].
    by apply list_elem_of_singleton in Hb as ->.
  - cbn [OperatorControls od_buttons] in Hb. rewrite !elem_of_cons in Hb.
    by destruct Hb as [->|[->|[]%not_elem_of_nil]].
  - cbn [DangerZone dgd_buttons dgd_recovery] in Hb. destruct Hb as [(a & -> & _)%list_elem_of_fmap|Hb]; [done|].
    cbn [recovery_asks zip_with] in Hb. rewrite !elem_of_cons in Hb.
    by destruct Hb as [->|[->|[]%not_elem_of_nil]].
Qed.

(** ** The relay and the drawing *)

(** The dialog is on screen exactly when the relay says it is open, and no
    button of either panel can be pressed unless the account may write and no
    command is on its way: what Console's [controls] and [dialog_open] allow
    is what is drawn. *)
Theorem drawn_as_relayed writable candidates log clock bx s :
  let console := console_of writable candidates log clock bx s in
  let diagnostics := diagnostics_of writable log s in
  is_some (cnd_dialog console) = dialog_open writable ConsolePanel s
  /\ is_some (dxd_dialog diagnostics) = dialog_open writable DiagnosticsPanel s
  /\ (forall b, b ∈ console_buttons console ++ dxd_buttons diagnostics -> bt_enabled b = true ->
       writable = true /\ hk_busy (cs_hook s) = false).
Proof.
  cbv zeta. split_and!.
  - unfold dialog_open, draws_dialog. destruct writable; [|done].
    cbn [DeviceConsole negb cnd_dialog andb]. destruct (length (cs_modems s) =? 0); [done|].
    by destruct (hk_pending (cs_hook s)).
  - cbn. unfold dialog_open. by destruct (hk_pending (cs_hook s)).
  - intros b Hb He. destruct writable; [|by apply elem_of_app in Hb as [[]%not_elem_of_nil|[]%not_elem_of_nil]].
    split; [done|]. destruct (hk_busy (cs_hook s)) eqn:Eb; [|done]. exfalso.
    assert (Hf : bt_enabled b = false); [|congruence]. clear He. apply elem_of_app in Hb as [Hb|Hb].
    + unfold console_buttons in Hb. rewrite !elem_of_app in Hb.
      cbn [DeviceConsole negb cnd_noModems cnd_candidates cnd_create cnd_cards from_option] in Hb.
      rewrite Eb in Hb. destruct Hb as [Hb|[Hb|[->%list_elem_of_singleton|Hb]]]; [| |done|].
      * destruct (_ =? _); [|by apply not_elem_of_nil in Hb]. by apply list_elem_of_singleton in Hb as ->.
      * by eapply busy_candidates.
      * destruct (_ =? _); [by apply not_elem_of_nil in Hb|]. by eapply busy_cards.
    + apply list_elem_of_fmap in Hb as (a & -> & _). cbn. by rewrite Eb.
Qed.

(** The picker and the relay.  A module that leaves the register (by
    unregistering the one selected, after which the server draws the page
    again) stays selected: the picker then has no option for its value, so the
    browser shows another module, and what is pressed next goes to the one
    that left. *)
Theorem unregistered_stays_addressed deviceId p modems rest s kind extra g :
  cs_modems s = modems -> cs_imei s ∉ md_imei <$> rest -> rest <> [] -> live s = true ->
  hk_pending (cs_hook s) = None -> hk_busy (cs_hook s) = false ->
  deviceCommandGuard kind (guard_payload (cs_imei s) extra) = Ok g -> cg_consequence g = None ->
  exists s1 s2 picker,
    console_step inherited_text deviceId labels true p s (Redraw rest) = Some (s1, [])
    /\ picker = ModemPicker inherited_text (cs_modems s1) (cs_imei s1) (hk_busy (cs_hook s1))
    /\ pk_enabled picker = true /\ pk_value picker ∉ (pk_options picker).*1
    /\ console_step inherited_text deviceId labels true p s1 (Ask kind extra)
       = Some (s2, [Fetch (command_call deviceId (cs_imei s) kind extra)]).
Proof.
  intros Em Hni Hne Hl Hp Hb Hg Hc. eexists _, _, _. split; [cbn; by rewrite Hl|]. split; [done|].
  cbn [ModemPicker pk_enabled pk_value pk_options cs_modems cs_imei cs_hook]. rewrite Hb. split_and!.
  - by destruct rest.
  - rewrite <-list_fmap_compose. exact Hni.
  - unfold console_step, controls, dialog_open, request, runNow.
    cbn [cs_hook cs_imei cs_modems]. rewrite Hp, andb_false_r, Hb. cbn [live cs_hook] in *.
    unfold live in Hl |- *. cbn [cs_hook]. rewrite Hl. cbn [andb negb].
    by rewrite Hg, Hc.
Qed.

End Facts.

Definition sample_boxes : console_boxes :=
  {| bx_at := {| ac_command := u "AT+CSQ"; ac_force := true |}; bx_ussd := ussd_initial (int 0);
     bx_plmn := u "460-01"; bx_usbnet := u "rmnet";
     bx_apn := {| an_cid := u "1"; an_editor := apn_editor_initial None |}; bx_contains := [];
     bx_create := {| cm_imei := []; cm_family := []; cm_note := [] |}; bx_adoption := adoption_initial |}.

Definition two_modems : list ModemRow := sample_modem "861" "lab" ++ sample_modem "862" "van".
Definition sample_log : list CommandRow := [].

Definition sample_console (s : console) : console_drawn :=
  @DeviceConsole sample_number_text sample_to_number lower_reference (fun _ => []) []
    (fun _ => []) zh (fun _ => []) (fun _ => []) (fun _ => []) (fun _ => []) true [] sample_log (int 0)
    sample_boxes s.

Lemma risk_is_asked_witness :
  exists b a,
    b ∈ console_buttons (sample_console (mount (u "dev-1") two_modems).1)
    /\ bt_ask b = Some a /\ bt_variant b = VarRisk /\ a = (u "restart_modem", [])
    /\ @is_asked sample_to_string (u "861") a.
Proof.
  set (s := (mount (u "dev-1") two_modems).1).
  set (b := risk_button (kind_label [] (u "restart_modem")) true (u "restart_modem", [])).
  assert (Hb : b ∈ console_buttons (sample_console s)) by (apply (list_elem_of_lookup_2 _ 10); by vm_compute).
  exists b, (u "restart_modem", []). split_and!; try done.
  assert (Hi : cs_imei s = u "861") by (by vm_compute). rewrite <-Hi.
  destruct (@risk_is_asked sample_to_string sample_number_text sample_to_number lower_reference
    (fun _ => []) [] (fun _ => []) zh (fun _ => []) (fun _ => []) (fun _ => []) (fun _ => []) true [] sample_log
    (int 0) sample_boxes s b (u "restart_modem", [])) as [[[_ Ha]|[Hv _]]|[[Hv _]|(_ & _ & Hk & _)]].
  - apply elem_of_app. by left.
  - done.
  - exact Ha.
  - by destruct Hv.
  - by destruct Hv.
  - by vm_compute in Hk.
Defined.

(** The operator unregisters the module selected and confirms; the gateway
    takes it, the server draws the page again without it, and the next
    diagnostic report goes to the module that is gone. *)
Definition unregister_run : list console_event :=
  [ Arrive 0 (log_answer []); Ask (u "unregister_modem") []; Proceed; Arrive 0 (Answer 202 (Some []) None);
    Arrive 0 (log_answer [u "succeeded"]) ].

Lemma unregistered_stays_addressed_witness :
  exists s out s1 s2,
    exec sample_step (mount (u "dev-1") two_modems).1 unregister_run = Some (s, out) /\ RouterRefresh ∈ out
    /\ sample_step s (Redraw (sample_modem "862" "van")) = Some (s1, [])
    /\ sample_step s1 (Ask (u "modem_report") [])
       = Some (s2, [Fetch (command_call (u "dev-1") (u "861") (u "modem_report") [])]).
Proof.
  destruct (exec sample_step (mount (u "dev-1") two_modems).1 unregister_run) as [[s out]|] eqn:E;
    [|by vm_compute in E].
  assert (Hs : RouterRefresh ∈ out /\ cs_imei s = u "861" /\ live s = true
               /\ hk_pending (cs_hook s) = None /\ hk_busy (cs_hook s) = false).
  { vm_compute in E. injection E as <- <-. split_and!; try reflexivity.
    apply (bool_decide_eq_true_1 _). by vm_compute. }
  destruct Hs as (Ho & Hi & Hl & Hp & Hb). exists s, out.
  destruct (@deviceCommandGuard sample_to_string (u "modem_report") (guard_payload (cs_imei s) [])) as [g|] eqn:Eg;
    [|rewrite Hi in Eg; by vm_compute in Eg].
  destruct (@unregistered_stays_addressed sample_to_string (fun _ => [])
    [(u "failed", u "The command failed."); (u "restart_modem", u "Restart")] (u "dev-1") ConsolePanel
    (cs_modems s) (sample_modem "862" "van") s (u "modem_report") [] g) as (s1 & s2 & picker & H1 & _ & _ & _ & H2);
    try done.
  - rewrite Hi. apply (bool_decide_eq_true_1 _). by vm_compute.
  - rewrite Hi in Eg. vm_compute in Eg. by injection Eg as <-.
  - exists s1, s2. rewrite Hi in H2. by split_and!.
Defined.
