(* ===== verification/EsimLog.v ===== *)
(** * What the eSIM panel reads off the command log (components/esim-panel.tsx)

    The panel's own tables, beside those of lib/catalog.ts: the last
    authentication and the last download of each chip, the failure worth a
    banner, the last notification retrieved, the profiles grouped by chip,
    and the rows each section draws. *)

From Stdlib Require Import Lia.
From S2P Require Import Prelude JsString JsValue JsSort JsMap Gateway EsimData Esim TableQuery I18n.

(** [value.toLocaleString("en-US")]. *)
Class LocaleNumber := { to_locale_string : num -> jstring }.

(** ** The last exchange of each chip *)

Record auth_entry := { au_authentication : EsimAuthentication; au_completedAt : option Z }.
Record download_entry := { dl_download : EsimDownload; dl_completedAt : option Z }.

Definition succeeded (kind : string) (row : EsimCommandRow) : bool :=
  jeqb (cm_kind row) (u kind) && jeqb (cm_status row) (u "succeeded").

Definition auth_offer (row : EsimCommandRow) : option (jstring * auth_entry) :=
  if negb (succeeded "initiate_esim_authentication" row) then None else
  (fun a => (ea_eid a, {| au_authentication := a; au_completedAt := cm_completed_at row |}))
    <$> parseEsimAuthentication (details_of row).

Definition auth_at (e : auth_entry) : Z := at_of (au_completedAt e).
Definition auth_stays (existing e : auth_entry) : bool := (auth_at e <=? auth_at existing)%Z.

Definition latestAuthentications `{Collation} (commands : list EsimCommandRow) : list auth_entry :=
  sort (cmp_on (fun e => ea_eid (au_authentication e)) localeCompare)
    (map_values (put_all auth_stays (filter_map auth_offer commands) [])).

Definition download_offer (row : EsimCommandRow) : option (jstring * download_entry) :=
  if negb (succeeded "download_esim_profile" row) then None else
  (fun d => (ed_eid d, {| dl_download := d; dl_completedAt := cm_completed_at row |}))
    <$> parseEsimDownload (details_of row).

Definition download_at (e : download_entry) : Z := at_of (dl_completedAt e).
(** [if (!existing || at(row) >= at(existing)) set]: a tie goes to the later row. *)
Definition download_stays (existing e : download_entry) : bool :=
  negb (download_at existing <=? download_at e)%Z.

Definition latestDownloads (commands : list EsimCommandRow) : list download_entry :=
  map_values (put_all download_stays (filter_map download_offer commands) []).

(** ** The failure worth a banner *)

Record failure_scan_state := { nf_failure : option EsimCommandRow; nf_success : Z }.

Definition row_at (row : EsimCommandRow) : Z := at_of (cm_completed_at row).

Definition newest_failure_row (kind : jstring) (s : failure_scan_state) (row : EsimCommandRow)
    : failure_scan_state :=
  if negb (jeqb (cm_kind row) kind) then s else
  let at_ := row_at row in
  {| nf_failure :=
       if jeqb (cm_status row) (u "failed")
          && match nf_failure s with None => true | Some f => (row_at f <? at_)%Z end
       then Some row else nf_failure s;
     nf_success :=
       if jeqb (cm_status row) (u "succeeded") && (nf_success s <? at_)%Z then at_ else nf_success s |}.

Definition newestFailureAfterSuccess (commands : list EsimCommandRow) (kind : jstring)
    : option EsimCommandRow :=
  let s := fold_left (newest_failure_row kind) commands {| nf_failure := None; nf_success := int (-1) |} in
  match nf_failure s with
  | None => None
  | Some f => if (nf_success s <? row_at f)%Z then Some f else None
  end.

(** ** The rest *)

Definition isEsimRead (kind : jstring) : bool :=
  jeqb kind (u "read_esim_info") || jeqb kind (u "retrieve_esim_notification").

Record retrieval := { rt_row : EsimCommandRow; rt_value : RetrievedNotification }.

Definition latest_retrieval_row (best : option retrieval) (row : EsimCommandRow) : option retrieval :=
  if negb (succeeded "retrieve_esim_notification" row) then best else
  match parseRetrievedNotification (details_of row) with
  | None => best
  | Some value =>
      match best with
      | Some b => if (row_at row <=? row_at (rt_row b))%Z then best
                  else Some {| rt_row := row; rt_value := value |}
      | None => Some {| rt_row := row; rt_value := value |}
      end
  end.

Definition latestRetrieval (commands : list EsimCommandRow) : option RetrievedNotification :=
  rt_value <$> fold_left latest_retrieval_row commands None.

(** [byEid.set(eid, [...(byEid.get(eid) ?? []), profile])]. *)
Definition group_row (m : list (jstring * list EsimProfileRow)) (profile : EsimProfileRow)
    : list (jstring * list EsimProfileRow) :=
  map_set (pr_eid profile) (default [] (map_get (pr_eid profile) m) ++ [profile]) m.
Definition byEid (inventory : list EsimProfileRow) : list (jstring * list EsimProfileRow) :=
  fold_left group_row inventory [].

(** ** The rows drawn *)

Section Rows.
Context `{NumberText} `{LocaleNumber}.
(** [`${Object.prototype[name]}`], what [interpolate] is a function of. *)
Context (inherited_text : jstring -> jstring).
Context (catalogs : Locale -> list (jstring * jstring)) (locale : Locale).

Definition tr (key : string) : jstring := t inherited_text catalogs (u key) locale None.
Definition trv (key : string) (vars : list (jstring * option jstring)) : jstring :=
  t inherited_text catalogs (u key) locale (Some vars).

Definition numberOrNull (value : option Z) : option jstring :=
  (fun z => number_text (Fin z)) <$> value.
Definition bytesOrNull (value : option Z) : option jstring :=
  (fun z => trv "esim.bytes" [(u "count", Some (to_locale_string (Fin z)))]) <$> value.
Definition listOrNull (values : list jstring) : option jstring :=
  match values with [] => None | _ => Some (join_on (u ", ") values) end.

(** [rows.map(([field, value]) => [field, value ?? "—"])]. *)
Definition drawn (rows : list (jstring * option jstring)) : list (jstring * jstring) :=
  (fun r => (r.1, default (u "—") r.2)) <$> rows.

Definition chipFields (info : EsimInfoResult) : list (jstring * jstring) :=
  let chip := ei_chip info in
  drawn
    [ (tr "esim.fProfileVersion", ci_profileVersion chip);
      (tr "esim.fSgp22", ci_sgp22Version chip);
      (tr "esim.fFirmware", ci_firmwareVersion chip);
      (tr "esim.fInstalledApps", numberOrNull (ci_installedApplications chip));
      (tr "esim.fFreeNvm", bytesOrNull (ci_freeNonVolatileMemory chip));
      (tr "esim.fFreeVolatile", bytesOrNull (ci_freeVolatileMemory chip));
      (tr "esim.fGp", ci_globalPlatformVersion chip);
      (tr "esim.fTs102241", ci_ts102241Version chip);
      (tr "esim.fCategory", numberOrNull (ci_category chip));
      (tr "esim.fPpVersion", ci_ppVersion chip);
      (tr "esim.fSas", ci_sasAccreditationNumber chip);
      (tr "esim.fRsp", listOrNull (ci_rspCapabilities chip));
      (tr "esim.fUicc", listOrNull (ci_uiccCapabilities chip));
      (tr "esim.fCiVerify", listOrNull (ci_ciKeyIdsForVerification chip));
      (tr "esim.fCiSign", listOrNull (ci_ciKeyIdsForSigning chip));
      (tr "esim.fForbiddenPpr", listOrNull (ci_forbiddenProfilePolicyRules chip));
      (tr "esim.fDecoded", Some (number_text (Fin (ci_decodedFields chip)))) ].

Definition authentication_source (source : jstring) : jstring :=
  if jeqb source (u "request") then tr "esim.aSourceRequest"
  else if jeqb source (u "euicc_configured_addresses") then tr "esim.aSourceConfigured"
  else if jeqb source (u "pending_notification") then tr "esim.aSourceNotification"
  else source.

Definition authenticationFields (a : EsimAuthentication) : list (jstring * jstring) :=
  drawn
    [ (tr "esim.aSmdp", Some (ea_smdpAddress a));
      (tr "esim.aSmdpSource", Some (authentication_source (ea_smdpAddressSource a)));
      (tr "esim.aTransaction", Some (ea_transactionId a));
      (tr "esim.aChallenge", Some (ea_euiccChallenge a));
      (tr "esim.aEchoed", Some (ea_echoedEuiccChallenge a));
      (tr "esim.aServerChallenge", Some (ea_serverChallenge a));
      (tr "esim.aCiChosen", Some (ea_euiccCiPkidToBeUsed a));
      (tr "esim.aCertKey", Some (ea_certificateKeyId a));
      (tr "esim.aCertAuthority", Some (ea_certificateAuthorityKeyId a));
      (tr "esim.aCertSha", Some (ea_certificateSha256 a));
      (tr "esim.aCertExpiry", Some (ea_certificateNotAfter a));
      (tr "esim.aAnchorUsed", Some (ea_trustAnchorLabel a));
      (tr "esim.aTrustDir", Some (ea_trustDirectory a));
      (tr "esim.aTls", ea_negotiatedTls a);
      (tr "esim.aAdminProtocol", ea_adminProtocol a);
      (tr "esim.aElapsed",
       Some (trv "esim.aMs" [(u "count", Some (number_text (Fin (ea_elapsedMs a))))])) ].

Definition authentication_checks (a : EsimAuthentication) : list (jstring * bool) :=
  [ (tr "esim.checkCert", ea_certificateSignedByCi a);
    (tr "esim.checkSignature", ea_serverSignatureValid a);
    (tr "esim.checkChallenge", ea_challengeEchoed a);
    (tr "esim.checkCiKey", ea_ciKeyAcceptedByChip a) ].

Definition download_rows (d : EsimDownload) : list (jstring * jstring) :=
  drawn
    [ (tr "esim.dlProfile", ed_profileName d);
      (tr "esim.dlProvider", ed_serviceProviderName d);
      (tr "esim.dlIccid", or_else (ed_installationIccid d) (ed_profileIccid d));
      (tr "esim.dlPolicy",
       Some (match ed_policyRules d with
             | [] => tr "esim.dlNoPolicy"
             | rules => join_on (u ", ") rules
             end));
      (tr "esim.dlFreeBefore", bytesOrNull (sn_freeNonVolatileMemory (ed_before d)));
      (tr "esim.dlFreeAfter", bytesOrNull (ed_after d ≫= sn_freeNonVolatileMemory));
      (tr "esim.dlConsumed", bytesOrNull (ed_freeMemoryConsumed d));
      (tr "esim.dlBppBytes", bytesOrNull (Some (ed_boundProfilePackageBytes d)));
      (tr "esim.dlBppBlocks",
       Some (number_text (Fin (ed_boundProfilePackageBlocks d)) ++ u " ("
             ++ number_text (Fin (int (Z.of_nat (length (ed_boundProfilePackageSegments d))))) ++ u " "
             ++ tr "esim.dlSegments" ++ u ")"));
      (tr "esim.dlAuthBlocks", numberOrNull (Some (ed_authenticateServerBlocks d)));
      (tr "esim.dlPrepareBlocks", numberOrNull (Some (ed_prepareDownloadBlocks d)));
      (tr "esim.dlNotifSeq", numberOrNull (ed_notificationSequenceNumber d));
      (tr "esim.dlNotifPending",
       match ed_after d with
       | None => None
       | Some _ => Some (number_text (Fin (ed_notificationsPendingBefore d)) ++ u " → "
                         ++ default (u "?") (numberOrNull (ed_notificationsPendingAfter d)))
       end);
      (tr "esim.aTransaction", Some (ed_transactionId d));
      (tr "esim.aSmdp", Some (ed_smdpAddress d));
      (tr "esim.aTls", ed_negotiatedTls d) ].

Definition download_checks (d : EsimDownload) : list (jstring * bool) :=
  [ (tr "esim.dlInstalled", ed_installed d);
    (tr "esim.dlNotEnabled", negb (ed_enabled d));
    (tr "esim.dlNotifDelivered", ed_notificationDelivered d);
    (tr "esim.dlNotifRemoved", bool_decide (ed_notificationRemovedCode d = Some 0%Z));
    (tr "esim.checkCert", ed_certificateSignedByCi d);
    (tr "esim.checkCiKey", ed_ciKeyAcceptedByChip d) ].
End Rows.

(** ** Facts *)

#[export] Instance auth_stays_ranked : Ranked auth_stays.
Proof. apply (ranked_ge auth_at). Qed.
#[export] Instance download_stays_ranked : Ranked download_stays.
Proof.
  assert (E : forall x y, download_stays x y = (download_at y <? download_at x)%Z).
  { intros x y. unfold download_stays. by rewrite Z.leb_antisym, negb_involutive. }
  split; intros x y z; rewrite !E, ?Z.ltb_lt, ?Z.ltb_ge; lia.
Qed.

Lemma offer_key {V} (parse : EsimCommandRow -> option (jstring * V)) (key : V -> jstring) rows k v :
  (forall row k v, parse row = Some (k, v) -> key v = k) ->
  (k, v) ∈ filter_map parse rows -> key v = k.
Proof. intros Hk (row & _ & Hr)%elem_of_filter_map. by eapply Hk. Qed.

Lemma auth_offer_key row k v : auth_offer row = Some (k, v) -> ea_eid (au_authentication v) = k.
Proof. unfold auth_offer. case_match; [done|]. destruct (parseEsimAuthentication _); by intros [= <- <-]. Qed.
Lemma download_offer_key row k v : download_offer row = Some (k, v) -> ed_eid (dl_download v) = k.
Proof. unfold download_offer. case_match; [done|]. destruct (parseEsimDownload _); by intros [= <- <-]. Qed.

(** The panel's evidence.  There is one authentication and one download
    per chip, for every chip a successful command names; each is the newest
    of its chip; and between two of the same time the authentication shown
    is the first of the log and the download shown is the last. *)
Theorem latest_exchanges `{Collation} commands :
  (NoDup ((fun e => ea_eid (au_authentication e)) <$> latestAuthentications commands)
   /\ forall e, e ∈ latestAuthentications commands <->
        exists l1 l2, offers (ea_eid (au_authentication e)) (filter_map auth_offer commands) = l1 ++ e :: l2
          /\ (forall x, x ∈ l1 -> auth_at x < auth_at e)%Z /\ (forall y, y ∈ l2 -> auth_at y <= auth_at e)%Z)
  /\ (NoDup ((fun e => ed_eid (dl_download e)) <$> latestDownloads commands)
      /\ forall e, e ∈ latestDownloads commands <->
           exists l1 l2, offers (ed_eid (dl_download e)) (filter_map download_offer commands) = l1 ++ e :: l2
             /\ (forall x, x ∈ l1 -> download_at x <= download_at e)%Z
             /\ (forall y, y ∈ l2 -> download_at y < download_at e)%Z).
Proof.
  split.
  - destruct (table_spec auth_stays (cmp_on (fun e => ea_eid (au_authentication e)) localeCompare)
      (fun e => ea_eid (au_authentication e)) (filter_map auth_offer commands)) as (Hd & _ & _ & Hw).
    { intros k v. exact (offer_key auth_offer (fun e => ea_eid (au_authentication e)) _ k v auth_offer_key). }
    split; [exact Hd|]. intros e. etransitivity; [apply Hw|]. unfold winner, auth_stays.
    by setoid_rewrite Z.leb_gt; setoid_rewrite Z.leb_le.
  - assert (Hk : forall k v, (k, v) ∈ filter_map download_offer commands -> ed_eid (dl_download v) = k)
      by (intros k v; exact (offer_key download_offer (fun e => ed_eid (dl_download e)) _ k v download_offer_key)).
    split; [by apply (put_all_NoDup_by download_stays)|]. intros e. unfold latestDownloads.
    rewrite put_all_values by apply _. transitivity (winner download_stays
      (offers (ed_eid (dl_download e)) (filter_map download_offer commands)) e).
    + split; [|by eexists]. intros [k Hw]. rewrite (Hk k e); [done|].
      by apply elem_of_offers, (winner_elem download_stays).
    + unfold winner, download_stays. setoid_rewrite negb_false_iff. setoid_rewrite negb_true_iff.
      by setoid_rewrite Z.leb_le; setoid_rewrite Z.leb_gt.
Qed.

(** [failed] rows of one kind, and the times its successes completed. *)
Definition failed_of (kind : jstring) (row : EsimCommandRow) : bool :=
  jeqb (cm_kind row) kind && jeqb (cm_status row) (u "failed").

Definition succeeded_of (kind : jstring) (row : EsimCommandRow) : Prop :=
  cm_kind row = kind /\ cm_status row = u "succeeded".

Lemma newest_failure_step kind s row :
  let s' := newest_failure_row kind s row in
  nf_failure s' = keep_best (failed_of kind) row_at (nf_failure s) row
  /\ (nf_success s <= nf_success s')%Z
  /\ (succeeded_of kind row -> (row_at row <= nf_success s')%Z)
  /\ (nf_success s' = nf_success s \/ succeeded_of kind row /\ row_at row = nf_success s').
Proof.
  unfold newest_failure_row, keep_best, failed_of, succeeded_of.
  destruct (jeqb (cm_kind row) kind) eqn:Ek; cbn [negb andb].
  - apply jeqb_eq in Ek. cbn zeta. cbn [nf_failure nf_success]. split.
    { destruct (jeqb (cm_status row) (u "failed")); cbn [negb andb]; [|done].
      destruct (nf_failure s); [|done]. by case_match. }
    destruct (jeqb (cm_status row) (u "succeeded")) eqn:Es; cbn [andb].
    + apply jeqb_eq in Es. destruct (Z.ltb_spec (nf_success s) (row_at row)).
      * split_and!; [lia|done|]. right. done.
      * split_and!; [lia|done|]. by left.
    + apply jeqb_neq in Es. split_and!; [lia|naive_solver|by left].
  - apply jeqb_neq in Ek. split_and!; [done|lia|naive_solver|by left].
Qed.

Lemma newest_failure_scan kind commands s :
  let s' := fold_left (newest_failure_row kind) commands s in
  nf_failure s' = fold_left (keep_best (failed_of kind) row_at) commands (nf_failure s)
  /\ (nf_success s <= nf_success s')%Z
  /\ (forall row, row ∈ commands -> succeeded_of kind row -> (row_at row <= nf_success s')%Z)
  /\ (nf_success s' = nf_success s
      \/ exists row, row ∈ commands /\ succeeded_of kind row /\ row_at row = nf_success s').
Proof.
  revert s. induction commands as [|row rows IH]; intros s; cbn zeta.
  - cbn. split_and!; [done|lia|by intros ? []%not_elem_of_nil|by left].
  - cbn [fold_left]. destruct (newest_failure_step kind s row) as (H1 & H2 & H3 & H4).
    destruct (IH (newest_failure_row kind s row)) as (I1 & I2 & I3 & I4). cbn zeta in *.
    rewrite I1, H1. split_and!; [done|lia| |].
    + intros r [->|Hr]%elem_of_cons Hs; [|by apply I3]. specialize (H3 Hs). lia.
    + destruct I4 as [I4|(r & Hr & Hs & Ht)]; [|right; exists r; rewrite elem_of_cons; auto].
      rewrite I4. destruct H4 as [H4|[Hs Ht]]; [by left|].
      right. exists row. rewrite elem_of_cons. auto.
Qed.

(** The banner says the chip's exchange is broken exactly when it is:
    the row shown is the newest failure of its kind, the first of the log
    among equals, and no success completed at its time or later; and with no
    banner either nothing of the kind failed or a success came at the time
    of the newest failure or later. *)
Theorem newestFailure_current commands kind :
  (forall row, row ∈ commands -> (int (-1) < row_at row)%Z) ->
  match newestFailureAfterSuccess commands kind with
  | Some f =>
      best_of (failed_of kind) row_at commands f
      /\ forall row, row ∈ commands -> succeeded_of kind row -> (row_at row < row_at f)%Z
  | None =>
      (forall row, row ∈ commands -> failed_of kind row = false)
      \/ exists f row, best_of (failed_of kind) row_at commands f /\ row ∈ commands
           /\ succeeded_of kind row /\ (row_at f <= row_at row)%Z
  end.
Proof.
  intros Hpos. unfold newestFailureAfterSuccess.
  destruct (newest_failure_scan kind commands {| nf_failure := None; nf_success := int (-1) |})
    as (H1 & _ & H3 & H4). cbn zeta in *. cbn [nf_failure nf_success] in *. rewrite H1.
  destruct (fold_left (keep_best (failed_of kind) row_at) commands None) as [f|] eqn:Ef;
    [|left; by apply (keep_best_none _ row_at)].
  apply keep_best_some in Ef. destruct (Z.ltb_spec (nf_success (fold_left (newest_failure_row kind)
    commands {| nf_failure := None; nf_success := int (-1) |})) (row_at f)) as [Hl|Hl].
  - split; [done|]. intros row Hin Hs. specialize (H3 row Hin Hs). lia.
  - right. destruct H4 as [H4|(row & Hin & Hs & Ht)].
    + apply best_of_greatest in Ef as (Hin & _). specialize (Hpos f Hin). lia.
    + exists f, row. split_and!; [done..|]. lia.
Qed.

(** ** Grouping *)

Lemma group_get inventory m eid :
  map_get eid (fold_left group_row inventory m)
  = match map_get eid m, List.filter (fun r => jeqb (pr_eid r) eid) inventory with
    | None, [] => None
    | got, rows => Some (default [] got ++ rows)
    end.
Proof.
  revert m. induction inventory as [|r rows IH]; intros m; cbn [fold_left List.filter].
  - destruct (map_get eid m); cbn; [by rewrite app_nil_r|done].
  - rewrite IH. unfold group_row. destruct (jeqb (pr_eid r) eid) eqn:E.
    + apply jeqb_eq in E as ->. rewrite map_get_set_eq.
      destruct (map_get eid m) as [g|]; cbn; by rewrite <-?app_assoc.
    + apply jeqb_neq in E. by rewrite map_get_set_ne.
Qed.

Lemma group_NoDup inventory m : NoDup m.*1 -> NoDup (fold_left group_row inventory m).*1.
Proof.
  revert m. induction inventory as [|r rows IH]; intros m Hm; [done|]. cbn. apply IH.
  by apply map_set_NoDup.
Qed.

(** Grouping by chip loses and duplicates no profile: every chip of the
    inventory has one group, and it holds that chip's profiles, all of them,
    in the inventory's order. *)
Theorem byEid_partition inventory :
  NoDup (byEid inventory).*1
  /\ (forall eid, eid ∈ (byEid inventory).*1 <-> exists r, r ∈ inventory /\ pr_eid r = eid)
  /\ forall eid rows, (eid, rows) ∈ byEid inventory ->
       rows = List.filter (fun r => jeqb (pr_eid r) eid) inventory /\ rows <> [].
Proof.
  assert (Hd : NoDup (byEid inventory).*1) by (apply group_NoDup; constructor).
  assert (Hg : forall eid rows, (eid, rows) ∈ byEid inventory <->
    rows = List.filter (fun r => jeqb (pr_eid r) eid) inventory /\ rows <> []).
  { intros eid rows. rewrite <-map_get_elem by done. unfold byEid. rewrite group_get. cbn.
    destruct (List.filter _ inventory); naive_solver. }
  split_and!; [done| |by intros; apply Hg]. intros eid. split.
  - intros ([k rows] & -> & Hin)%list_elem_of_fmap. apply Hg in Hin as [Hr Hn].
    destruct rows as [|r rows]; [done|]. exists r.
    assert (Hin : r ∈ List.filter (fun r => jeqb (pr_eid r) k) inventory) by (rewrite <-Hr; left).
    by apply elem_of_filter_bool in Hin as [? ?%jeqb_eq].
  - intros (r & Hin & <-). apply list_elem_of_fmap.
    exists (pr_eid r, List.filter (fun r' => jeqb (pr_eid r') (pr_eid r)) inventory).
    split; [done|]. apply Hg. split; [done|]. intros Hn.
    assert (Hr : r ∈ List.filter (fun r' => jeqb (pr_eid r') (pr_eid r)) inventory)
      by (apply elem_of_filter_bool; split; [done|apply jeqb_refl]).
    rewrite Hn in Hr. by apply not_elem_of_nil in Hr.
Qed.

Definition sample_log : list EsimCommandRow :=
  [ {| cm_kind := u "download_esim_profile"; cm_status := u "failed"; cm_completed_at := Some (int 10);
       cm_payload := VNull; cm_result := None |};
    {| cm_kind := u "download_esim_profile"; cm_status := u "succeeded"; cm_completed_at := Some (int 5);
       cm_payload := VNull; cm_result := None |} ].

Lemma newestFailure_current_witness :
  exists f, newestFailureAfterSuccess sample_log (u "download_esim_profile") = Some f
    /\ row_at f = int 10
    /\ forall row, row ∈ sample_log -> succeeded_of (u "download_esim_profile") row ->
         (row_at row < row_at f)%Z.
Proof.
  assert (Hpos : forall row, row ∈ sample_log -> (int (-1) < row_at row)%Z).
  { intros row [->|[->|[]%not_elem_of_nil]%elem_of_cons]%elem_of_cons; by apply int_lt. }
  pose proof (newestFailure_current sample_log (u "download_esim_profile") Hpos) as H.
  destruct (newestFailureAfterSuccess sample_log (u "download_esim_profile")) as [f|] eqn:E;
    [|by vm_compute in E].
  exists f. split; [done|]. split; [|exact (proj2 H)].
  vm_compute in E. injection E as <-. by vm_compute.
Defined.
