(* ===== verification/EsimPanel.v ===== *)
(** * The eSIM panel (components/esim-panel.tsx: EsimPanel)

    The panel's own relay, beside the one of the device console: it reads the
    command log through three queries, polls while some of its commands are
    outstanding, asks before a guarded command, and holds a one-time
    activation code for as long as nobody has pressed the button.  A log row
    is the JSON value as it came; its id is taken to be text. *)

From Stdlib Require Import Lia.
From S2P Require Import Prelude JsString JsValue JsMap Fetch Gateway Messages EsimData Esim EsimLog Guards Confirm Component Console.

Record EsimPending := {
  ep_consequence : jstring;
  ep_title : jstring;
  ep_confirmLabel : jstring;
  ep_kind : jstring;                    (** what [run] captured *)
  ep_extra : list (jstring * jsval);
}.
#[export] Instance EsimPending_eq_dec : EqDecision EsimPending.
Proof. solve_decision. Defined.

(** [after_run]: [runNow] awaits this [refresh()] and then has the server
    draw the page. *)
Inductive esim_flight :=
  | EPost
  | EList (after_run : bool)
  | EKinds (after_run : bool) (unfiltered : list jsval) (batches : list (option (list jsval))).

Record esim_panel := {
  es_imei : jstring;
  es_busy : bool;
  es_error : option jstring;
  es_commands : list jsval;
  es_pending : option EsimPending;
  es_activationCode : jstring;
  es_confirmationCode : jstring;
  es_flights : list esim_flight;
}.

Inductive esim_event :=
  | EAsk (kind : jstring) (extra : list (jstring * jsval)) (title confirmLabel : jstring)
  | EDownload (title confirmLabel : jstring)
  | ETypeCode (text : jstring)
  | ETypeConfirmation (text : jstring)
  | EProceed
  | ECancel
  | ESelect (imei : jstring)
  | ETick
  | EArrive (flight batch : nat) (a : answer).

(** [row.kind === kind && !TERMINAL.has(row.status)]. *)
Definition row_text (row : jsval) (name : string) : jstring :=
  match prop row (u name) with VStr s => s | _ => [] end.
Definition esim_pending_row (p : jstring -> bool) (row : jsval) : bool :=
  p (row_text row "kind") && negb (settled_status row).

Definition reading (commands : list jsval) : bool := existsb (esim_pending_row isEsimRead) commands.
Definition authPending (commands : list jsval) : bool :=
  existsb (esim_pending_row (fun k => jeqb k (u "initiate_esim_authentication"))) commands.
Definition downloadPending (commands : list jsval) : bool :=
  existsb (esim_pending_row (fun k => jeqb k (u "download_esim_profile"))) commands.

Section EsimPanel.
Context `{ToString}.
Context (deviceId failed : jstring) (writable : bool) (modems : list jstring).

(** ** [refresh] *)

Definition unfiltered_call : call :=
  call_get (u "/v1/commands?" ++ URLSearchParams [(u "device_id", deviceId); (u "limit", u "60")]).
Definition kind_call (kind : jstring) : call :=
  call_get (u "/v1/commands?"
            ++ URLSearchParams [(u "device_id", deviceId); (u "kind", kind); (u "limit", u "60")]).

(** [resp.ok ? (await resp.json()).commands ?? [] : []]; the contract sends
    an array or nothing. *)
Definition batch_rows (a : answer) : res (list jsval) :=
  match a with
  | NoAnswer => Throw NetworkError
  | Answer status _ json =>
      if negb (ok_status status) then Ok [] else
      body ← body_json json;
      rows ← get body (u "commands");
      match nullish rows (VArr []) with
      | VArr rows => Ok rows
      | _ => Throw TypeError
      end
  end.

Definition with_flights (fs : list esim_flight) (s : esim_panel) : esim_panel :=
  {| es_imei := es_imei s; es_busy := es_busy s; es_error := es_error s;
     es_commands := es_commands s; es_pending := es_pending s;
     es_activationCode := es_activationCode s; es_confirmationCode := es_confirmationCode s;
     es_flights := fs |}.
Definition with_run (busy : bool) (error : option jstring) (s : esim_panel) : esim_panel :=
  {| es_imei := es_imei s; es_busy := busy; es_error := error;
     es_commands := es_commands s; es_pending := es_pending s;
     es_activationCode := es_activationCode s; es_confirmationCode := es_confirmationCode s;
     es_flights := es_flights s |}.
Definition with_pending (p : option EsimPending) (s : esim_panel) : esim_panel :=
  {| es_imei := es_imei s; es_busy := es_busy s; es_error := es_error s;
     es_commands := es_commands s; es_pending := p;
     es_activationCode := es_activationCode s; es_confirmationCode := es_confirmationCode s;
     es_flights := es_flights s |}.
Definition with_codes (code confirmation : jstring) (s : esim_panel) : esim_panel :=
  {| es_imei := es_imei s; es_busy := es_busy s; es_error := es_error s;
     es_commands := es_commands s; es_pending := es_pending s;
     es_activationCode := code; es_confirmationCode := confirmation;
     es_flights := es_flights s |}.
Definition with_commands (rows : list jsval) (s : esim_panel) : esim_panel :=
  {| es_imei := es_imei s; es_busy := es_busy s; es_error := es_error s;
     es_commands := rows; es_pending := es_pending s;
     es_activationCode := es_activationCode s; es_confirmationCode := es_confirmationCode s;
     es_flights := es_flights s |}.

Definition esim_refresh (after_run : bool) (s : esim_panel) : esim_panel * list effect :=
  (with_flights (es_flights s ++ [EList after_run]) s, [Fetch unfiltered_call]).

(** ** [runNow], [request], [proceed] *)

Definition esim_call (kind : jstring) (extra : list (jstring * jsval)) : call :=
  call_post (u "/v1/commands")
    (VObj (spread [(u "device_id", VStr deviceId); (u "kind", VStr kind)] extra)).

Definition esim_runNow (kind : jstring) (extra : list (jstring * jsval)) (s : esim_panel)
    : esim_panel * list effect :=
  if negb writable then (s, []) else
  (with_flights (es_flights s ++ [EPost]) (with_run true None s), [Fetch (esim_call kind extra)]).

Definition esim_request (kind : jstring) (extra : list (jstring * jsval)) (title confirmLabel : jstring)
    (s : esim_panel) : esim_panel * list effect :=
  if negb writable then (s, []) else
  match deviceCommandGuard kind (VObj extra) with
  | Throw _ => (s, [])
  | Ok guard =>
      match cg_consequence guard with
      | None => esim_runNow kind extra s
      | Some consequence =>
          (with_pending (Some {| ep_consequence := consequence; ep_title := title;
                                 ep_confirmLabel := confirmLabel; ep_kind := kind;
                                 ep_extra := extra |}) s, [])
      end
  end.

Definition esim_proceed (s : esim_panel) : esim_panel * list effect :=
  match es_pending s with
  | None => (s, [])
  | Some p => esim_runNow (ep_kind p) (ep_extra p) (with_pending None s)
  end.

(** ** The download form *)

Definition download_ready (s : esim_panel) : bool :=
  negb (es_busy s || jeqb (es_imei s) [] || jeqb (trim (es_activationCode s)) []).

Definition download_payload (s : esim_panel) : list (jstring * jsval) :=
  let confirmation := trim (es_confirmationCode s) in
  [(u "modem_imei", VStr (es_imei s)); (u "activation_code", VStr (trim (es_activationCode s)))]
  ++ (if jeqb confirmation [] then [] else [(u "confirmation_code", VStr confirmation)]).

(** ** Answers *)

Definition esim_arrive (i j : nat) (a : answer) (s : esim_panel)
    : option (esim_panel * list effect) :=
  match es_flights s !! i with
  | None => None
  | Some f =>
      let landed := with_flights (delete i (es_flights s)) s in
      match f with
      | EPost =>
          match a with
          | NoAnswer => Some (landed, [])
          | Answer status text _ =>
              let released := with_run false (es_error landed) landed in
              if negb (ok_status status) then
                match text with
                | None => Some (released, [])
                | Some t =>
                    Some (with_run false (Some (if jeqb (trim t) [] then failed else trim t)) landed, [])
                end
              else Some (esim_refresh true released)
          end
      | EList after_run =>
          match batch_rows a with
          | Throw _ => Some (landed, [])
          | Ok rows =>
              Some (with_flights
                      (<[i := EKinds after_run rows (replicate (length ESIM_CHIP_COMMANDS) None)]>
                         (es_flights s)) s,
                    (fun kind => Fetch (kind_call kind)) <$> ESIM_CHIP_COMMANDS)
          end
      | EKinds after_run unfiltered batches =>
          match batches !! j with
          | Some None =>
              match batch_rows a with
              | Throw _ => Some (landed, [])
              | Ok rows =>
                  let batches' := <[j := Some rows]> batches in
                  if forallb is_some batches' then
                    let merged := mergeCommandBatches (fun row => row_text row "id")
                                    (unfiltered :: omap id batches') in
                    Some (with_commands merged landed, if after_run then [RouterRefresh] else [])
                  else
                    Some (with_flights (<[i := EKinds after_run unfiltered batches']> (es_flights s)) s, [])
              end
          | _ => None
          end
      end
  end.

(** ** The panel *)

Definition esim_mount : esim_panel * list effect :=
  esim_refresh false
    {| es_imei := default [] (head modems); es_busy := false; es_error := None; es_commands := [];
       es_pending := None; es_activationCode := []; es_confirmationCode := []; es_flights := [] |}.

Definition esim_dialog (s : esim_panel) : bool := writable && is_some (es_pending s).
Definition esim_controls (s : esim_panel) : bool :=
  writable && negb (es_busy s) && negb (esim_dialog s).

Definition esim_step (s : esim_panel) (e : esim_event) : option (esim_panel * list effect) :=
  match e with
  | EAsk kind extra title confirmLabel =>
      if esim_controls s then Some (esim_request kind extra title confirmLabel s) else None
  | EDownload title confirmLabel =>
      if esim_controls s && download_ready s
      then Some (esim_request (u "download_esim_profile") (download_payload s) title confirmLabel
                   (with_codes [] [] s))
      else None
  | ETypeCode text =>
      if writable && negb (esim_dialog s)
      then Some (with_codes text (es_confirmationCode s) s, []) else None
  | ETypeConfirmation text =>
      if writable && negb (esim_dialog s)
      then Some (with_codes (es_activationCode s) text s, []) else None
  | EProceed => if esim_dialog s && negb (es_busy s) then Some (esim_proceed s) else None
  | ECancel => if esim_dialog s then Some (with_pending None s, []) else None
  | ESelect imei =>
      if esim_controls s && existsb (jeqb imei) modems
      then Some ({| es_imei := imei; es_busy := es_busy s; es_error := es_error s;
                    es_commands := es_commands s; es_pending := es_pending s;
                    es_activationCode := es_activationCode s;
                    es_confirmationCode := es_confirmationCode s; es_flights := es_flights s |}, [])
      else None
  | ETick =>
      if reading (es_commands s) || authPending (es_commands s) || downloadPending (es_commands s)
      then Some (esim_refresh false s) else None
  | EArrive i j a => esim_arrive i j a s
  end.
End EsimPanel.

(** ** What a row offers *)

(** The buttons of one profile's row, in order. *)
Definition row_actions (profile : EsimProfileRow) : list (jstring * list (jstring * jsval)) :=
  match pr_modemImei profile with
  | None => []
  | Some imei =>
      if jeqb imei [] then [] else
      (if jeqb (pr_state profile) (u "disabled") then
         [(u "switch_esim_profile",
           [(u "modem_imei", VStr imei); (u "target_iccid", VStr (pr_iccid profile))])] else [])
      ++ (if jeqb (pr_state profile) (u "enabled") then
            [(u "disable_esim_profile",
              [(u "modem_imei", VStr imei); (u "iccid", VStr (pr_iccid profile))])] else [])
      ++ (if jeqb (pr_state profile) (u "disabled") then
            [(u "delete_esim_profile",
              [(u "modem_imei", VStr imei); (u "iccid", VStr (pr_iccid profile))])] else [])
  end.

(** The buttons of a notification and of the cards' headings. *)
Definition retrieve_action (info : EsimInfoResult) (n : EsimNotificationRow)
    : jstring * list (jstring * jsval) :=
  (u "retrieve_esim_notification",
   [(u "modem_imei", VStr (ei_imei info)); (u "sequence_number", VNum (Fin (en_sequenceNumber n)))]).
Definition heading_actions (imei : jstring) : list (jstring * list (jstring * jsval)) :=
  (fun kind => (kind, [(u "modem_imei", VStr imei)]))
    <$> [u "list_esim_profiles"; u "read_esim_info"; u "initiate_esim_authentication"].

(** The rename form: the rows it lists are the server's. *)
Definition rename_submit (profiles : list EsimProfileRow) (iccid nickname : jstring)
    : option (jstring * list (jstring * jsval)) :=
  match List.find (fun p => jeqb (pr_iccid p) iccid
                            && from_option (fun i => negb (jeqb i [])) false (pr_modemImei p)) profiles with
  | Some chosen =>
      (fun imei => (u "rename_esim_profile",
         [(u "modem_imei", VStr imei); (u "iccid", VStr (pr_iccid chosen)); (u "nickname", VStr nickname)]))
        <$> pr_modemImei chosen
  | None => None
  end.

(** The tone of the verdict's badge. *)
Definition verdict_tone (state : EsimSwitchState) : jstring :=
  match state with confirmed => u "ok" | contradicted => u "bad" | unverified => u "warn" end.

(** ** Invariants *)

Section EsimFacts.
Context `{ToString}.
Context (deviceId failed : jstring) (writable : bool) (modems : list jstring).
Abbreviation step := (esim_step deviceId failed writable modems).
Abbreviation start := (esim_mount deviceId modems).1.

Definition is_epost (f : esim_flight) : bool := match f with EPost => true | _ => false end.
Definition posts (s : esim_panel) : nat := tally is_epost (es_flights s).

Definition esim_asked (p : EsimPending) : Prop :=
  exists g, deviceCommandGuard (ep_kind p) (VObj (ep_extra p)) = Ok g
            /\ cg_consequence g = Some (ep_consequence p).

Record esim_inv (s : esim_panel) : Prop := {
  ev_posts : posts s <= if es_busy s then 1 else 0;
  ev_asked p : es_pending s = Some p -> esim_asked p;
}.

Lemma runNow_posts kind extra s :
  posts s = 0 -> posts (esim_runNow deviceId writable kind extra s).1
                 <= if es_busy (esim_runNow deviceId writable kind extra s).1 then 1 else 0.
Proof.
  intros Hp. unfold esim_runNow. destruct writable; cbn; [|destruct (es_busy s); lia].
  unfold posts in *. cbn. rewrite tally_snoc. cbn. lia.
Qed.

Lemma request_keeps kind extra title label s :
  posts s = 0 -> (forall p, es_pending s = Some p -> esim_asked p) ->
  esim_inv (esim_request deviceId writable kind extra title label s).1.
Proof.
  intros Hp Ha. unfold esim_request. destruct (negb writable);
    [constructor; [cbn; destruct (es_busy s); lia|done]|].
  destruct (deviceCommandGuard kind (VObj extra)) as [g|] eqn:Eg;
    [|constructor; [cbn; destruct (es_busy s); lia|done]].
  destruct (cg_consequence g) as [c|] eqn:Ec.
  - constructor; cbn; [unfold posts in *; cbn; destruct (es_busy s); lia|].
    intros p [= <-]. by exists g.
  - constructor; [by apply runNow_posts|]. unfold esim_runNow. by destruct (negb writable).
Qed.

Lemma esim_arrive_keeps i j a s s' out :
  esim_arrive deviceId failed i j a s = Some (s', out) ->
  es_pending s' = es_pending s
  /\ (posts s <= (if es_busy s then 1 else 0) -> posts s' <= if es_busy s' then 1 else 0)
  /\ (posts s = 0 -> posts s' = 0 /\ es_busy s' = es_busy s).
Proof.
  unfold esim_arrive. destruct (es_flights s !! i) as [f|] eqn:Ef; [|done].
  assert (Hd := tally_delete is_epost _ _ _ Ef). unfold posts in *.
  destruct f as [|ar|ar un bs]; cbn in Hd.
  - destruct a as [|status text json].
    + intros [= <- <-]. cbn. split_and!; [done|lia|lia].
    + destruct (negb (ok_status status)); [destruct text|]; intros [= <- <-]; cbn;
        rewrite ?tally_snoc; cbn; (split_and!; [done| |lia]); destruct (es_busy s); lia.
  - destruct (batch_rows a); intros [= <- <-]; cbn.
    + rewrite (tally_insert is_epost _ _ _ _ Ef) by done. auto.
    + rewrite <-Hd. auto.
  - destruct (bs !! j) as [[|]|]; [done| |done]. destruct (batch_rows a) as [rows|].
    + destruct (forallb is_some _); intros [= <- <-]; cbn.
      * rewrite <-Hd. auto.
      * rewrite (tally_insert is_epost _ _ _ _ Ef) by done. auto.
    + intros [= <- <-]. cbn. rewrite <-Hd. auto.
Qed.

Lemma esim_step_inv s e s' out : esim_inv s -> step s e = Some (s', out) -> esim_inv s'.
Proof.
  intros [Hp Ha]. unfold esim_step, esim_controls.
  destruct e as [kind extra title label|title label|text|text| | |imei| |i j a].
  - destruct (_ && _) eqn:Ec; [|done]. intros [-> ->]%some_pair. bool_solve.
    apply request_keeps; [|done]. destruct (es_busy s); [done|lia].
  - destruct (_ && _) eqn:Ec; [|done]. intros [-> ->]%some_pair. bool_solve.
    apply request_keeps; [|done]. unfold posts in *. cbn. destruct (es_busy s); [done|lia].
  - destruct (_ && _); [|done]. by intros [-> ->]%some_pair.
  - destruct (_ && _); [|done]. by intros [-> ->]%some_pair.
  - destruct (_ && _) eqn:Ec; [|done]. intros [-> ->]%some_pair. apply andb_true_iff in Ec as [_ Hb%negb_true_iff].
    rewrite Hb in Hp. unfold esim_proceed. destruct (es_pending s) as [p|] eqn:Ep.
    + constructor; [apply runNow_posts; unfold posts in *; cbn; lia|].
      unfold esim_runNow. by destruct (negb writable).
    + constructor; cbn [fst]; [by rewrite Hb|]. by rewrite Ep.
  - destruct (esim_dialog writable s); [|done]. by intros [-> ->]%some_pair.
  - destruct (_ && _); [|done]. by intros [-> ->]%some_pair.
  - destruct (_ || _); [|done]. intros [-> ->]%some_pair. constructor; [|done].
    unfold posts in *. cbn. rewrite tally_snoc. cbn. lia.
  - intros (E1 & E2 & _)%esim_arrive_keeps. constructor; [auto|]. by rewrite E1.
Qed.

Lemma esim_reachable_inv tr s : run step start tr s -> esim_inv s.
Proof. apply run_invariant; [intros ????; apply esim_step_inv|]. by constructor. Qed.

(** ** What is sent *)

Lemma esim_runNow_out kind extra s x :
  x ∈ (esim_runNow deviceId writable kind extra s).2 ->
  writable = true /\ x = Fetch (esim_call deviceId kind extra).
Proof.
  unfold esim_runNow. destruct writable; cbn; [|by intros []%not_elem_of_nil].
  intros ->%list_elem_of_singleton. done.
Qed.

Lemma esim_request_out kind extra title label s x :
  x ∈ (esim_request deviceId writable kind extra title label s).2 ->
  writable = true /\ x = Fetch (esim_call deviceId kind extra)
  /\ exists g, deviceCommandGuard kind (VObj extra) = Ok g /\ cg_consequence g = None.
Proof.
  unfold esim_request. destruct (negb writable) eqn:Ew; [by intros []%not_elem_of_nil|].
  destruct (deviceCommandGuard kind (VObj extra)) as [g|] eqn:Eg; [|by intros []%not_elem_of_nil].
  destruct (cg_consequence g) eqn:Ec; [by intros []%not_elem_of_nil|].
  intros [? ->]%esim_runNow_out. split_and!; [done|done|]. by exists g.
Qed.

Lemma esim_arrive_out i j a s s' out x :
  esim_arrive deviceId failed i j a s = Some (s', out) -> x ∈ out -> is_post x = false.
Proof.
  unfold esim_arrive. destruct (es_flights s !! i) as [[|ar|ar un bs]|]; [| | |done].
  - destruct a as [|status text json]; [intros [= _ <-]; by intros []%not_elem_of_nil|].
    destruct (negb (ok_status status)); [destruct text|]; intros [= _ <-];
      [by intros []%not_elem_of_nil..|]. by intros ->%list_elem_of_singleton.
  - destruct (batch_rows a); intros [= _ <-]; [|by intros []%not_elem_of_nil].
    intros Hx. apply elem_of_cons in Hx as [Hx|Hx]; [by subst|]. apply list_elem_of_singleton in Hx. by subst.
  - destruct (bs !! j) as [[|]|]; [done| |done]. destruct (batch_rows a);
      [|intros [= _ <-]; by intros []%not_elem_of_nil].
    destruct (forallb is_some _); intros [= _ <-]; [|by intros []%not_elem_of_nil].
    destruct ar; [by intros ->%list_elem_of_singleton|by intros []%not_elem_of_nil].
Qed.

(** C8. Only an account that may write sends anything, and only what it was
    asked about: a command leaves the panel when its control is pressed and
    the guard asks nothing about it, or when the open dialog is answered; and
    then it is the command and the payload the dialog was opened for, module
    included, whatever is selected by now. *)
Theorem esim_asks_first tr s e s' out x :
  run step start tr s -> step s e = Some (s', out) -> x ∈ out -> is_post x = true ->
  writable = true
  /\ exists kind extra g, x = Fetch (esim_call deviceId kind extra)
       /\ deviceCommandGuard kind (VObj extra) = Ok g
       /\ match cg_consequence g with
          | None => (exists title label, e = EAsk kind extra title label)
                    \/ (exists title label, e = EDownload title label) \/ e = EProceed
          | Some c => e = EProceed /\ exists p, es_pending s = Some p
                        /\ ep_kind p = kind /\ ep_extra p = extra /\ ep_consequence p = c
          end.
Proof.
  intros Hr Hs Hx Hp. apply esim_reachable_inv in Hr as [_ Ha]. unfold esim_step in Hs.
  destruct e as [kind extra title label|title label|text|text| | |imei| |i j a].
  - destruct (esim_controls writable s); [|done]. apply some_pair in Hs as [_ ->].
    apply esim_request_out in Hx as (Hw & -> & g & Hg & Hc). split; [done|].
    exists kind, extra, g. rewrite Hc. split_and!; [done|done|]. left. by eexists _, _.
  - destruct (_ && _); [|done]. apply some_pair in Hs as [_ ->].
    apply esim_request_out in Hx as (Hw & -> & g & Hg & Hc). split; [done|].
    eexists _, _, g. rewrite Hc. split_and!; [done|done|]. right. left. by eexists _, _.
  - destruct (_ && _); [|done]. apply some_pair in Hs as [_ ->]. by apply not_elem_of_nil in Hx.
  - destruct (_ && _); [|done]. apply some_pair in Hs as [_ ->]. by apply not_elem_of_nil in Hx.
  - destruct (_ && _); [|done]. apply some_pair in Hs as [_ ->]. unfold esim_proceed in Hx.
    destruct (es_pending s) as [p|] eqn:Ep; [|by apply not_elem_of_nil in Hx].
    apply esim_runNow_out in Hx as [Hw ->]. split; [done|].
    destruct (Ha p eq_refl) as (g & Hg & Hc). exists (ep_kind p), (ep_extra p), g. rewrite Hc.
    split_and!; [done..|]. by exists p.
  - destruct (esim_dialog writable s); [|done]. apply some_pair in Hs as [_ ->]. by apply not_elem_of_nil in Hx.
  - destruct (_ && _); [|done]. apply some_pair in Hs as [_ ->]. by apply not_elem_of_nil in Hx.
  - destruct (_ || _); [|done]. apply some_pair in Hs as [_ ->]. by apply list_elem_of_singleton in Hx as ->.
  - by rewrite (esim_arrive_out _ _ _ _ _ _ _ Hs Hx) in Hp.
Qed.

(** ** A rejected request *)

Definition frozen (s : esim_panel) : Prop := es_busy s = true /\ posts s = 0.

Lemma frozen_step s e s' out :
  frozen s -> step s e = Some (s', out) -> frozen s' /\ Forall (fun x => is_post x = false) out.
Proof.
  intros [Hb Hp]. unfold esim_step, esim_controls. rewrite Hb. cbn [negb].
  rewrite !andb_false_r. cbn [andb].
  destruct e as [kind extra title label|title label|text|text| | |imei| |i j a]; try done.
  - destruct (_ && _); [|done]. intros [-> ->]%some_pair. by split.
  - destruct (_ && _); [|done]. intros [-> ->]%some_pair. by split.
  - destruct (esim_dialog writable s); [|done]. intros [-> ->]%some_pair. by split.
  - destruct (_ || _); [|done]. intros [-> ->]%some_pair. split; [|by repeat constructor].
    split; [done|]. unfold posts in *. cbn. by rewrite tally_snoc, Hp.
  - intros Hs. destruct (esim_arrive_keeps _ _ _ _ _ _ Hs) as (_ & _ & Hk).
    destruct (Hk Hp) as [Hp' Hb']. split; [by split; [congruence|]|].
    apply Forall_forall. intros x Hx. by apply (esim_arrive_out _ _ _ _ _ _ _ Hs).
Qed.

(** Where the panel departs from the console: [runNow] has no [catch].
    When the request of a command rejects, the controls are disabled for
    good: whatever happens afterwards no command leaves the panel and it
    never stops being busy. *)
Theorem rejected_post_freezes tr s i j :
  run step start tr s -> es_flights s !! i = Some EPost ->
  exists s1, step s (EArrive i j NoAnswer) = Some (s1, [])
    /\ forall tr' s2, run step s1 tr' s2 ->
         es_busy s2 = true /\ esim_controls writable s2 = false
         /\ Forall (fun x => is_post x = false) (effects tr').
Proof.
  intros Hr Hi. apply esim_reachable_inv in Hr as [Hp _].
  pose proof (tally_delete is_epost _ _ _ Hi) as Hd. cbn in Hd.
  assert (Hb : es_busy s = true) by (unfold posts in Hp; destruct (es_busy s); [done|lia]).
  unfold esim_step, esim_arrive. rewrite Hi. eexists. split; [done|]. intros tr' s2 Hr.
  assert (Hf : frozen (with_flights (delete i (es_flights s)) s)).
  { split; [done|]. unfold posts in *. cbn. rewrite Hb in Hp. lia. }
  assert (Hend : frozen s2 /\ Forall (fun x => is_post x = false) (effects tr')).
  { revert Hf. induction Hr as [s0|s0 e s1 out tr1 s3 Hst Hr IH]; intros Hf; [by split; [|constructor]|].
    destruct (frozen_step _ _ _ _ Hf Hst) as [Hf1 Ho]. destruct (IH Hf1) as [? ?]. split; [done|].
    unfold effects in *. cbn. by apply Forall_app. }
  destruct Hend as [[Hb2 _] ?]. split_and!; [done| |done].
  unfold esim_controls. by rewrite Hb2, andb_false_r.
Qed.

(** ** Polling *)

Definition polled_kind (k : jstring) : bool :=
  isEsimRead k || jeqb k (u "initiate_esim_authentication") || jeqb k (u "download_esim_profile").

Lemma existsb_orb {A} (p q : A -> bool) l : existsb p l || existsb q l = existsb (fun x => p x || q x) l.
Proof.
  induction l as [|x l IH]; cbn; [done|]. rewrite <-IH.
  by destruct (p x), (q x), (existsb p l), (existsb q l).
Qed.
Lemma existsb_ext {A} (p q : A -> bool) l : (forall x, p x = q x) -> existsb p l = existsb q l.
Proof. intros H'. induction l as [|x l IH]; cbn; [done|]. by rewrite H', IH. Qed.

Definition polled_kinds : list jstring :=
  [ u "read_esim_info"; u "retrieve_esim_notification"; u "initiate_esim_authentication";
    u "download_esim_profile" ].

(** The timer runs exactly while the log holds an outstanding read,
    retrieval, authentication or download; an outstanding listing, switch,
    disabling, deletion or renaming does not keep it going, so the answer to
    those buttons is not looked for. *)
Theorem esim_polling s :
  (exists s' out, step s ETick = Some (s', out)) <->
  exists row, row ∈ es_commands s /\ row_text row "kind" ∈ polled_kinds /\ settled_status row = false.
Proof.
  assert (Hk : forall k, k ∈ polled_kinds <-> polled_kind k = true).
  { intros k. unfold polled_kinds, polled_kind, isEsimRead. rewrite !orb_true_iff, !jeqb_eq, !elem_of_cons, elem_of_nil.
    generalize (k = u "read_esim_info") (k = u "retrieve_esim_notification")
      (k = u "initiate_esim_authentication") (k = u "download_esim_profile"). tauto. }
  unfold esim_step, reading, authPending, downloadPending.
  rewrite !existsb_orb. transitivity (existsb (esim_pending_row polled_kind) (es_commands s) = true).
  { rewrite (existsb_ext _ (esim_pending_row polled_kind)).
    - destruct (existsb _ _); [split; [done|]; intros _; by eexists _, _|split; [by intros (? & ? & ?)|done]].
    - intros row. unfold esim_pending_row, polled_kind. by destruct (settled_status row); rewrite ?andb_true_r, ?andb_false_r. }
  rewrite existsb_elem. unfold esim_pending_row. setoid_rewrite andb_true_iff.
  setoid_rewrite negb_true_iff. by setoid_rewrite Hk.
Qed.

(** ** The activation code *)

(** An activation code is used once.  Pressing the button sends or asks
    about exactly the code in the box, trimmed, with the module selected;
    both boxes are empty from then on and the button is disabled; and
    cancelling the dialog leaves no copy of the code in the panel. *)
Theorem download_code_once s title label s' out :
  step s (EDownload title label) = Some (s', out) ->
  es_activationCode s' = [] /\ es_confirmationCode s' = [] /\ out = []
  /\ step s' (EDownload title label) = None
  /\ (exists c, es_pending s' = Some {| ep_consequence := c; ep_title := title; ep_confirmLabel := label;
                                        ep_kind := u "download_esim_profile";
                                        ep_extra := download_payload s |})
  /\ prop (VObj (download_payload s)) (u "activation_code") = VStr (trim (es_activationCode s))
  /\ (forall s'' out', step s' ECancel = Some (s'', out') ->
        es_pending s'' = None /\ es_activationCode s'' = [] /\ out' = []).
Proof.
  unfold esim_step. destruct (esim_controls writable s && download_ready s) eqn:Ec; [|done].
  intros [-> ->]%some_pair. apply andb_true_iff in Ec as [Ec _]. unfold esim_controls in Ec.
  apply andb_true_iff in Ec as [[Hw _]%andb_true_iff _]. unfold esim_request. rewrite Hw. cbn [negb].
  destruct (guard_known (u "download_esim_profile") (VObj (download_payload s)))
    as (g & -> & Hu); [by vm_compute..|].
  assert (Hn : unasked (u "download_esim_profile") (VObj (download_payload s)) = false)
    by (unfold unasked, unasked_kinds; cbn [existsb]; by js_names).
  rewrite Hn in Hu. destruct (cg_consequence g) as [c|]; [|by pose proof (proj1 Hu eq_refl)].
  cbn [fst snd]. split_and!; try done.
  - unfold esim_controls, esim_dialog. cbn. by rewrite andb_false_r.
  - by exists c.
  - unfold esim_dialog. cbn. intros s'' out' [-> ->]%some_pair. done.
Qed.
End EsimFacts.

(** ** The buttons of a row *)

(** What a profile's row offers.  Every button is addressed to the
    row's own module and profile and is asked about; a profile is switched
    to or deleted only while disabled and disabled only while enabled, so
    the running profile is never offered for deletion; and a row without a
    module, or a profile deleted already, offers nothing. *)
Theorem row_actions_guarded `{ToString} profile kind extra :
  (kind, extra) ∈ row_actions profile ->
  (exists g c, deviceCommandGuard kind (VObj extra) = Ok g /\ cg_consequence g = Some c)
  /\ (exists imei, pr_modemImei profile = Some imei /\ imei <> []
        /\ prop (VObj extra) (u "modem_imei") = VStr imei)
  /\ (kind = u "disable_esim_profile" /\ pr_state profile = u "enabled"
        /\ prop (VObj extra) (u "iccid") = VStr (pr_iccid profile)
      \/ kind = u "switch_esim_profile" /\ pr_state profile = u "disabled"
        /\ prop (VObj extra) (u "target_iccid") = VStr (pr_iccid profile)
      \/ kind = u "delete_esim_profile" /\ pr_state profile = u "disabled"
        /\ prop (VObj extra) (u "iccid") = VStr (pr_iccid profile)).
Proof.
  unfold row_actions. destruct (pr_modemImei profile) as [imei|]; [|by intros []%not_elem_of_nil].
  destruct (jeqb imei []) eqn:Ei; [by intros []%not_elem_of_nil|]. apply jeqb_neq in Ei.
  assert (Hask : forall extra, kind ∈ [u "switch_esim_profile"; u "disable_esim_profile"; u "delete_esim_profile"] ->
    exists g c, deviceCommandGuard kind (VObj extra) = Ok g /\ cg_consequence g = Some c).
  { intros x Hk. assert (Hx : is_some (field kind DEVICE_COMMAND_GUARDS) = true
      /\ jeqb kind (u "run_at_command") = false /\ unasked kind (VObj x) = false).
    { repeat (apply elem_of_cons in Hk as [->|Hk]; [split_and!; [by vm_compute..|];
        unfold unasked, unasked_kinds; cbn [existsb]; by js_names|]). by apply not_elem_of_nil in Hk. }
    destruct Hx as (H1 & H2 & H3). destruct (guard_known kind (VObj x) H1 H2) as (g & Hg & Hu).
    rewrite H3 in Hu. destruct (cg_consequence g) as [c|] eqn:Ec; [by exists g, c|].
    by pose proof (proj1 Hu eq_refl). }
  destruct (jeqb (pr_state profile) (u "disabled")) eqn:Ed.
  - apply jeqb_eq in Ed. rewrite Ed. js_names. cbn [app].
    intros Hin. apply elem_of_cons in Hin as [Hin|Hin].
    + injection Hin as -> ->. split; [apply Hask; left|]. split; [by exists imei|].
      right. left. split_and!; reflexivity.
    + apply list_elem_of_singleton in Hin. injection Hin as -> ->.
      split; [apply Hask; do 2 right; left|]. split; [by exists imei|].
      right. right. split_and!; reflexivity.
  - destruct (jeqb (pr_state profile) (u "enabled")) eqn:Ee; cbn [app]; [|by intros []%not_elem_of_nil].
    apply jeqb_eq in Ee. intros Hin. apply list_elem_of_singleton in Hin. injection Hin as -> ->.
    split; [apply Hask; right; left|]. split; [by exists imei|]. left. split_and!; [reflexivity|done|reflexivity].
Qed.

(** Where renaming departs from what the page shows: it searches the
    inventory the server keeps, which nothing writes yet, and not the table
    it stands under; with no inventory no profile can be renamed, whatever
    the chip was read to hold. *)
Theorem rename_needs_inventory iccid nickname profiles :
  (forall p, p ∈ profiles -> pr_modemImei p = None \/ pr_modemImei p = Some []) ->
  rename_submit profiles iccid nickname = None.
Proof.
  intros Hn. unfold rename_submit. destruct (List.find _ profiles) as [p|] eqn:Ef; [|done].
  apply find_first in Ef as (l1 & l2 & -> & Hp & _). apply andb_true_iff in Hp as [_ Hp].
  destruct (Hn p) as [E|E]; [set_solver|by rewrite E|by rewrite E in Hp].
Qed.

(** ** Concrete runs *)

Definition sample_esim := @esim_step sample_to_string (u "dev-1") (u "failed") true [u "861"].
Definition sample_esim_start : esim_panel := (esim_mount (u "dev-1") [u "861"]).1.
Definition list_ask : esim_event :=
  EAsk (u "list_esim_profiles") [(u "modem_imei", VStr (u "861"))] (u "Refresh") (u "Refresh").
Definition list_call : call := esim_call (u "dev-1") (u "list_esim_profiles") [(u "modem_imei", VStr (u "861"))].

Lemma esim_asks_first_witness :
  exists s', sample_esim sample_esim_start list_ask = Some (s', [Fetch list_call])
    /\ exists kind extra g, Fetch list_call = Fetch (esim_call (u "dev-1") kind extra)
       /\ @deviceCommandGuard sample_to_string kind (VObj extra) = Ok g.
Proof.
  destruct (sample_esim sample_esim_start list_ask) as [[s' out]|] eqn:E; [|by vm_compute in E].
  assert (Eo : out = [Fetch list_call]) by (vm_compute in E; injection E as <- <-; by vm_compute).
  subst out. exists s'. split; [reflexivity|].
  destruct (@esim_asks_first sample_to_string (u "dev-1") (u "failed") true [u "861"] [] sample_esim_start
    list_ask s' [Fetch list_call] (Fetch list_call) (run_nil _ _) E)
    as (_ & kind & extra & g & Hx & Hg & _); [left|by vm_compute|].
  exists kind, extra, g. split; [exact Hx|exact Hg].
Defined.

Lemma rejected_post_freezes_witness :
  exists s s1, exec sample_esim sample_esim_start [list_ask] = Some (s, [Fetch list_call])
    /\ sample_esim s (EArrive 1 0 NoAnswer) = Some (s1, [])
    /\ esim_controls true s1 = false.
Proof.
  destruct (exec sample_esim sample_esim_start [list_ask]) as [[s out]|] eqn:E; [|by vm_compute in E].
  assert (Eo : out = [Fetch list_call] /\ es_flights s !! 1 = Some EPost)
    by (vm_compute in E; injection E as <- <-; by vm_compute).
  destruct Eo as [-> Hi]. destruct (exec_run _ _ _ _ _ E) as (tr & Hr & _).
  destruct (@rejected_post_freezes sample_to_string (u "dev-1") (u "failed") true [u "861"] tr s 1 0 Hr Hi)
    as (s1 & Hs1 & Hf).
  exists s, s1. split_and!; [reflexivity|exact Hs1|].
  exact (proj1 (proj2 (Hf [] s1 (run_nil _ _)))).
Defined.

Lemma download_code_once_witness :
  exists s s', exec sample_esim sample_esim_start [ETypeCode (u "LPA:1$smdp$ID ")] = Some (s, [])
    /\ sample_esim s (EDownload (u "Download") (u "Download")) = Some (s', [])
    /\ es_activationCode s' = []
    /\ sample_esim s' (EDownload (u "Download") (u "Download")) = None.
Proof.
  destruct (exec sample_esim sample_esim_start [ETypeCode (u "LPA:1$smdp$ID ")]) as [[s out]|] eqn:E;
    [|by vm_compute in E].
  destruct (sample_esim s (EDownload (u "Download") (u "Download"))) as [[s' out']|] eqn:E';
    [|vm_compute in E; injection E as <- <-; by vm_compute in E'].
  assert (Eo : out = []) by (vm_compute in E; by injection E as _ <-). subst out.
  destruct (@download_code_once sample_to_string (u "dev-1") (u "failed") true [u "861"] s
    (u "Download") (u "Download") s' out' E') as (H1 & _ & -> & H2 & _).
  exists s, s'. split_and!; [reflexivity|exact E'|exact H1|exact H2].
Defined.

Definition sample_profile : EsimProfileRow :=
  {| pr_eid := u "8904"; pr_iccid := u "8986"; pr_state := u "disabled"; pr_nickname := None;
     pr_modemImei := Some (u "861"); pr_collectedAt := int 0; pr_source := read |}.

Lemma row_actions_guarded_witness :
  (u "delete_esim_profile", [(u "modem_imei", VStr (u "861")); (u "iccid", VStr (u "8986"))])
    ∈ row_actions sample_profile
  /\ exists g c, @deviceCommandGuard sample_to_string (u "delete_esim_profile")
       (VObj [(u "modem_imei", VStr (u "861")); (u "iccid", VStr (u "8986"))]) = Ok g
     /\ cg_consequence g = Some c.
Proof.
  assert (Hin : (u "delete_esim_profile", [(u "modem_imei", VStr (u "861")); (u "iccid", VStr (u "8986"))])
    ∈ row_actions sample_profile) by (right; left).
  split; [exact Hin|]. exact (proj1 (@row_actions_guarded sample_to_string _ _ _ Hin)).
Defined.
