(* ===== verification/EsimView.v ===== *)
(** * What the eSIM panel shows (components/esim-panel.tsx: the markup of
      EsimPanel, SwitchVerdict, AuthenticationSection, DownloadSection)

    Every card of the panel as the values it is drawn from, with the controls
    that stand in it.  Layout and class names are left out. *)

From Stdlib Require Import Lia.
From S2P Require Import Prelude JsString JsValue JsSort JsMap Gateway EsimData Esim TableQuery I18n Navigation Confirm EsimLog Guards Component EsimPanel.

(** A control: the kind it asks for, and the payload it asks with. *)
Abbreviation control := (jstring * list (jstring * jsval))%type.

Record verdict_drawn := {
  vd_tone : jstring;
  vd_asked : jstring;
  vd_readAt : option jstring;
  vd_sentence : jstring;
  vd_problem : bool;                   (** drawn as an error *)
}.

Record profile_drawn := {
  pd_iccid : jstring;
  pd_nickname : jstring;
  pd_tone : looked_up BadgeTone;
  pd_state : jstring;
  pd_collected : jstring;
  pd_source : jstring;
  pd_controls : list control;
}.

Record notification_drawn := {
  nd_sequence : jstring;
  nd_operations : jstring;
  nd_address : jstring;
  nd_iccid : jstring;
  nd_controls : list control;
}.

Record chip_drawn := {
  hd_eid : jstring;
  hd_fields : list (jstring * jstring);
  hd_error : option jstring;
  hd_notifications : list notification_drawn;
}.

Record check_drawn := { kd_label : jstring; kd_passed : bool; kd_word : jstring }.

Record authentication_drawn := {
  ad_heading : jstring;
  ad_fields : list (jstring * jstring);
  ad_checks : list check_drawn;
  ad_anchors : list (jstring * jstring * jstring);
  ad_stopped : option jstring;
}.

Record download_drawn := {
  dd_heading : jstring;
  dd_errors : list jstring;
  dd_fields : list (jstring * jstring);
  dd_checks : list check_drawn;
  dd_profiles : list (jstring * jstring * jstring);
  dd_stopped : option jstring;
}.

Record esim_view := {
  vw_picker : option (list jstring);
  vw_error : option jstring;
  vw_headings : list control;          (** the buttons beside the titles *)
  vw_verdict : option verdict_drawn;
  vw_notices : list (jstring * jstring);
  vw_failures : list (jstring * jstring);
  vw_listingErrors : list (jstring * jstring);
  vw_inventory : list (jstring * list profile_drawn);
  vw_rename : option (list (jstring * jstring));
  vw_reading : bool;
  vw_chips : list chip_drawn;
  vw_retrieved : option (jstring * option jstring);
  vw_authPending : bool;
  vw_authFailed : option jstring;
  vw_authentications : list authentication_drawn;
  vw_downloadNote : option jstring;   (** of the box a code goes into *)
  vw_downloadForm : bool;
  vw_downloadPending : bool;
  vw_downloadFailed : option jstring;
  vw_downloads : list download_drawn;
  vw_dialog : bool;
}.

Section View.
Context `{ToString} `{NumberText} `{LocaleNumber} `{Collation} `{CaseMapping}.
Context (inherited_text : jstring -> jstring).
Context (catalogs : Locale -> list (jstring * jstring)) (locale : Locale).
(** [new Date(at).toISOString().replace("T", " ")], of a moment a date can have. *)
Context (date_text : Z -> jstring).

Abbreviation tr := (tr inherited_text catalogs locale).
Abbreviation trv := (trv inherited_text catalogs locale).

(** [completedAt ? <date> : "—"]. *)
Definition completed_text (completedAt : option Z) : jstring :=
  match completedAt with
  | Some at_ => if (at_ =? 0)%Z then u "—" else take 19 (date_text at_)
  | None => u "—"
  end.

(** ** SwitchVerdict *)

Definition SwitchVerdict (verdict : EsimSwitchVerdict) : verdict_drawn :=
  {| vd_tone := verdict_tone (ev_state verdict);
     vd_asked := trv "esim.switchAsked" [(u "iccid", Some (ev_targetIccid verdict))];
     vd_readAt := (fun at_ => take 19 (date_text at_)) <$> ev_readAt verdict;
     vd_sentence := match ev_state verdict with
                    | confirmed => tr "esim.switchConfirmed"
                    | contradicted =>
                        trv "esim.switchContradicted" [(u "state", Some (default [] (ev_observed verdict)))]
                    | unverified => tr "esim.switchUnverified"
                    end;
     vd_problem := match ev_state verdict with confirmed => false | _ => true end |}.

(** ** The inventory *)

Definition profile_draws (writable : bool) (profile : EsimProfileRow) : profile_drawn :=
  {| pd_iccid := pr_iccid profile;
     pd_nickname := default (u "—") (pr_nickname profile);
     pd_tone := toneForProfileState (pr_state profile);
     pd_state := pr_state profile;
     pd_collected := take 16 (date_text (pr_collectedAt profile));
     pd_source := tr (match pr_source profile with
                      | inventory => "esim.sourceInventory" | read => "esim.sourceRead" end);
     pd_controls := if writable then row_actions profile else [] |}.

(** The options of the rename form, value and text, after the empty one. *)
Definition rename_options (profiles : list EsimProfileRow) : list (jstring * jstring) :=
  omap (fun profile =>
    match pr_modemImei profile with
    | Some imei =>
        if jeqb imei [] then None
        else Some (pr_iccid profile,
                   match pr_nickname profile with
                   | Some nickname => if jeqb nickname [] then [] else nickname ++ u " · "
                   | None => []
                   end ++ pr_iccid profile)
    | None => None
    end) profiles.

(** ** The chips *)

Definition notification_draws (writable : bool) (info : EsimInfoResult) (n : EsimNotificationRow)
    : notification_drawn :=
  {| nd_sequence := number_text (Fin (en_sequenceNumber n));
     nd_operations := match en_operations n with [] => u "—" | ops =>
                        if jeqb (join_on (u ", ") ops) [] then u "—" else join_on (u ", ") ops end;
     nd_address := en_address n;
     nd_iccid := default (u "—") (en_iccid n);
     nd_controls := if writable then [retrieve_action info n] else [] |}.

Definition chip_draws (writable : bool) (reading : EsimChipReading) : chip_drawn :=
  let info := cr_info reading in
  {| hd_eid := ei_eid info;
     hd_fields := chipFields inherited_text catalogs locale info
                  ++ [(tr "esim.readAt", completed_text (cr_completedAt reading))];
     hd_error := match ei_notificationsError info with
                 | Some e => if jeqb e [] then None else Some e
                 | None => None
                 end;
     hd_notifications := notification_draws writable info <$> ei_notifications info |}.

Definition retrieved_draws (retrieved : RetrievedNotification) : jstring * option jstring :=
  (trv "esim.retrieved"
     [(u "seq", Some (number_text (Fin (rn_sequenceNumber retrieved))));
      (u "bytes", Some (number_text (Fin (rn_payloadBytes retrieved))));
      (u "address", Some (rn_address retrieved))],
   if rn_delivered retrieved then None
   else Some (trv "esim.notDelivered" [(u "why", Some (default [] (rn_deliveryBlockedBy retrieved)))])).

(** ** The exchanges *)

Definition check_draws (check : jstring * bool) : check_drawn :=
  {| kd_label := check.1; kd_passed := check.2;
     kd_word := tr (if check.2 then "esim.checkYes" else "esim.checkNo") |}.

Definition AuthenticationSection (entry : auth_entry) : authentication_drawn :=
  let a := au_authentication entry in
  {| ad_heading := tr "esim.aSmdp" ++ u " " ++ ea_smdpAddress a ++ u " · " ++ ea_eid a;
     ad_fields := authenticationFields inherited_text catalogs locale a
                  ++ [(tr "esim.authAt", completed_text (au_completedAt entry))];
     ad_checks := check_draws <$> authentication_checks inherited_text catalogs locale a;
     ad_anchors := (fun anchor => (ta_label anchor, ta_keyId anchor, ta_notAfter anchor)) <$> ea_trustAnchors a;
     ad_stopped := if ea_profileDownloaded a then None
                   else Some (trv "esim.authStopped" [(u "why", Some (default [] (ea_stoppedAfter a)))]) |}.

(** A text that is given and not empty. *)
Definition said (text : option jstring) : option jstring :=
  match text with Some s => if jeqb s [] then None else Some s | None => None end.

Definition download_errors (d : EsimDownload) : list jstring :=
  (match ed_refusedPolicyRules d with
   | [] => []
   | rules => [trv "esim.dlRefused" [(u "rules", Some (join_on (u ", ") rules))]]
   end)
  ++ (match said (ed_installationError d) with
      | Some e => [tr "esim.dlError" ++ u ": " ++ e
                   ++ from_option (fun command => u " (" ++ command ++ u ")") [] (said (ed_failedBppCommand d))]
      | None => []
      end)
  ++ option_list (said (ed_notificationDeliveryError d)).

Definition DownloadSection (entry : download_entry) : download_drawn :=
  let d := dl_download entry in
  {| dd_heading := ed_eid d ++ u " · " ++ ed_imei d;
     dd_errors := download_errors d;
     dd_fields := download_rows inherited_text catalogs locale d
                  ++ [(tr "esim.authAt", completed_text (dl_completedAt entry))];
     dd_checks := check_draws <$> download_checks inherited_text catalogs locale d;
     dd_profiles := (fun profile => (dp_iccid profile, dp_label profile,
                                     if dp_enabled profile then u "enabled" else u "disabled"))
                    <$> match ed_after d with Some after => sn_profiles after | None => [] end;
     dd_stopped := (fun why => trv "esim.dlStopped" [(u "why", Some why)]) <$> said (ed_stoppedAfter d) |}.

(** ** The panel *)

Definition switch_command (row : EsimCommandRow) : SwitchCommand :=
  {| sc_kind := cm_kind row; sc_status := cm_status row; sc_completed_at := cm_completed_at row;
     sc_payload := Some (cm_payload row) |}.
Definition observed_profile (row : EsimProfileRow) : ObservedProfile :=
  {| ob_iccid := pr_iccid row; ob_state := pr_state row; ob_collectedAt := pr_collectedAt row |}.

Definition failure_text (row : EsimCommandRow) : jstring :=
  default [] (cm_result row ≫= rs_reason).

Definition failure_line (key : string) (failure : EsimReadFailure) : jstring * jstring :=
  (trv key [(u "imei", Some (rf_modemImei failure))], rf_reason failure).

Definition no_chip (failure : EsimReadFailure) : bool :=
  match rf_cause failure with no_euicc => true | read_failed => false end.

(** The listings whose own notes say the profiles could not be read. *)
Definition listing_error (listing : EsimProfileListing) : option (jstring * jstring) :=
  match said (li_profilesError listing) with
  | Some e => Some (trv "esim.profilesError" [(u "imei", Some (li_modemImei listing))], e)
  | None => None
  end.

(** The chip's profiles under its EID. *)
Definition section_draws (writable : bool) (chip : jstring * list EsimProfileRow)
    : jstring * list profile_drawn :=
  (chip.1, profile_draws writable <$> chip.2).

Definition failed_exchange (key : string) (row : EsimCommandRow) : jstring :=
  tr key ++ u ": " ++ failure_text row.

(** What the panel draws: [s] is its state, [log] the rows of the log it
    holds, [profiles] and [modems] what the page gave it. *)
Definition EsimPanel (writable : bool) (profiles : list EsimProfileRow) (modems : list jstring)
    (log : list EsimCommandRow) (s : esim_panel) : esim_view :=
  let inventory := mergeEsimProfiles profiles (esimProfileRowsFromReads log) in
  let readFailures := esimReadFailures log profiles in
  {| vw_picker := if writable then Some modems else None;
     vw_error := said (es_error s);
     vw_headings := if writable then heading_actions (es_imei s) else [];
     vw_verdict := SwitchVerdict <$> esimSwitchVerdict (switch_command <$> log) (observed_profile <$> inventory);
     vw_notices := failure_line "esim.notEuicc" <$> List.filter no_chip readFailures;
     vw_failures := failure_line "esim.chipReadFailed" <$> List.filter (fun failure => negb (no_chip failure)) readFailures;
     vw_listingErrors := omap listing_error (latestEsimProfileListings log);
     vw_inventory := section_draws writable <$> byEid inventory;
     vw_rename := if writable then Some (rename_options profiles) else None;
     vw_reading := reading (es_commands s);
     vw_chips := chip_draws writable <$> latestEsimChipReads log;
     vw_retrieved := retrieved_draws <$> latestRetrieval log;
     vw_authPending := authPending (es_commands s);
     vw_authFailed := failed_exchange "esim.authFailed"
                      <$> newestFailureAfterSuccess log (u "initiate_esim_authentication");
     vw_authentications := AuthenticationSection <$> latestAuthentications log;
     vw_downloadNote := if writable then Some (tr "esim.dlSecret") else None;
     vw_downloadForm := writable;
     vw_downloadPending := downloadPending (es_commands s);
     vw_downloadFailed := failed_exchange "esim.dlFailed"
                          <$> newestFailureAfterSuccess log (u "download_esim_profile");
     vw_downloads := DownloadSection <$> latestDownloads log;
     vw_dialog := esim_dialog writable s |}.

(** ** Properties *)

(** Every button with a request behind it. *)
Definition view_controls (v : esim_view) : list control :=
  vw_headings v ++ concat (pd_controls <$> concat (vw_inventory v).*2)
  ++ concat (nd_controls <$> concat (hd_notifications <$> vw_chips v)).

(** The view with its controls taken out. *)
Definition bare_profile (p : profile_drawn) : profile_drawn :=
  {| pd_iccid := pd_iccid p; pd_nickname := pd_nickname p; pd_tone := pd_tone p; pd_state := pd_state p;
     pd_collected := pd_collected p; pd_source := pd_source p; pd_controls := [] |}.
Definition bare_section (section : jstring * list profile_drawn) : jstring * list profile_drawn :=
  (section.1, bare_profile <$> section.2).
Definition bare_notification (n : notification_drawn) : notification_drawn :=
  {| nd_sequence := nd_sequence n; nd_operations := nd_operations n; nd_address := nd_address n;
     nd_iccid := nd_iccid n; nd_controls := [] |}.
Definition bare_chip (c : chip_drawn) : chip_drawn :=
  {| hd_eid := hd_eid c; hd_fields := hd_fields c; hd_error := hd_error c;
     hd_notifications := bare_notification <$> hd_notifications c |}.

Definition without_controls (v : esim_view) : esim_view :=
  {| vw_picker := None; vw_error := vw_error v; vw_headings := []; vw_verdict := vw_verdict v;
     vw_notices := vw_notices v; vw_failures := vw_failures v; vw_listingErrors := vw_listingErrors v;
     vw_inventory := bare_section <$> vw_inventory v; vw_rename := None;
     vw_reading := vw_reading v; vw_chips := bare_chip <$> vw_chips v; vw_retrieved := vw_retrieved v;
     vw_authPending := vw_authPending v; vw_authFailed := vw_authFailed v;
     vw_authentications := vw_authentications v; vw_downloadNote := None; vw_downloadForm := false;
     vw_downloadPending := vw_downloadPending v; vw_downloadFailed := vw_downloadFailed v;
     vw_downloads := vw_downloads v; vw_dialog := false |}.

Lemma concat_nils {A B} (f : A -> list B) l : (forall x, x ∈ l -> f x = []) -> concat (f <$> l) = [].
Proof.
  induction l as [|x l IH]; intros Hf; [done|]. cbn. rewrite (Hf x) by left. apply IH. intros y Hy.
  apply Hf. by right.
Qed.

(** C17. Read-only is not "cannot see".  An account that may only read is
    shown everything the other is (the chips, their profiles, the verdict on
    a switch, every failure and every exchange) and is offered nothing:
    no button with a request behind it, no picker, no form (nor the note on
    where a download's code goes) and no dialog. *)
Theorem read_only_sees_all profiles modems log s :
  let all := EsimPanel true profiles modems log s in
  let seen := EsimPanel false profiles modems log s in
  seen = without_controls all
  /\ view_controls seen = [] /\ vw_picker seen = None /\ vw_rename seen = None
  /\ vw_downloadForm seen = false /\ vw_dialog seen = false.
Proof.
  cbv zeta. split_and!; try done.
  - unfold without_controls, EsimPanel.
    cbn [vw_error vw_verdict vw_notices vw_failures vw_listingErrors vw_inventory vw_reading vw_chips vw_retrieved
         vw_authPending vw_authFailed vw_authentications vw_downloadPending vw_downloadFailed vw_downloads].
    f_equal; rewrite <-list_fmap_compose; apply list_fmap_ext; intros _ x _.
    + unfold compose, bare_section, section_draws. cbn [fst snd]. f_equal.
      rewrite <-list_fmap_compose. by apply list_fmap_ext.
    + unfold compose, bare_chip, chip_draws. cbn [hd_eid hd_fields hd_error hd_notifications]. f_equal.
      rewrite <-list_fmap_compose. by apply list_fmap_ext.
  - unfold view_controls. cbn [vw_headings vw_inventory vw_chips EsimPanel app].
    rewrite !concat_nils; [done| |].
    + intros n (ns & Hn & (c & -> & (reading & -> & _)%list_elem_of_fmap)%list_elem_of_fmap)%elem_of_concat.
      by apply list_elem_of_fmap in Hn as (? & -> & _).
    + intros p (ps & Hp & (c & -> & (chip & -> & _)%list_elem_of_fmap)%list_elem_of_fmap)%elem_of_concat.
      by apply list_elem_of_fmap in Hp as (? & -> & _).
Qed.

Lemma filter_fmap_bool {A B} (f : A -> B) (p : B -> bool) l :
  List.filter p (f <$> l) = f <$> List.filter (fun x => p (f x)) l.
Proof. induction l as [|x l IH]; [done|]. cbn. destruct (p (f x)); cbn; by rewrite IH. Qed.

Lemma filter_sublist_bool {A} (p : A -> bool) l : List.filter p l `sublist_of` l.
Proof. induction l as [|x l IH]; [constructor|]. cbn. destruct (p x); by constructor. Qed.

Lemma filter_split {A} (p : A -> bool) l :
  List.filter p l ++ List.filter (fun x => negb (p x)) l ≡ₚ l.
Proof.
  induction l as [|x l IH]; [done|]. cbn. destruct (p x); cbn; [by rewrite IH|].
  by rewrite <-Permutation_middle, IH.
Qed.

Lemma filter_unique {A} (key : A -> jstring) (p : A -> bool) x l :
  NoDup (key <$> l) -> x ∈ l -> p x = true -> (forall y, y ∈ l -> p y = true -> key y = key x) ->
  List.filter p l = [x].
Proof.
  induction l as [|y l IH]; intros Hd Hx Hp Hk; [by apply not_elem_of_nil in Hx|].
  apply NoDup_cons in Hd as [Hy Hd]. cbn.
  assert (Hin : forall z, z ∈ l -> key y <> key z).
  { intros z Hz E. apply Hy. rewrite E. by apply list_elem_of_fmap_2. }
  destruct (p y) eqn:E.
  - apply elem_of_cons in Hx as [->|Hx]; [|by destruct (Hin x Hx); apply Hk; [left|]]. f_equal.
    destruct (List.filter p l) as [|z r] eqn:Ef; [done|]. exfalso.
    assert (Hz : z ∈ List.filter p l) by (rewrite Ef; left). apply elem_of_filter_bool in Hz as [Hz Hpz].
    destruct (Hin z Hz). symmetry. apply Hk; [by right|done].
  - apply elem_of_cons in Hx as [->|Hx]; [congruence|]. apply IH; [done..|]. intros z Hz. apply Hk. by right.
Qed.

Lemma inventory_keys inv reads : NoDup (profile_key <$> mergeEsimProfiles inv reads).
Proof.
  pose proof profile_order_consistent. unfold mergeEsimProfiles.
  assert (Hk : forall k r, (k, r) ∈ filter_map keyed_profile (inv ++ reads) -> profile_key r = k).
  { by intros k r (row & _ & (-> & -> & _)%keyed_profile_some)%elem_of_filter_map. }
  exact (proj1 (table_spec profile_stays profile_order profile_key _ Hk)).
Qed.

(** C19. Nothing the panel knows of is left out, and nothing is said twice.
    Each chip has one section; each profile of the merged inventory has
    exactly one row, in the section of its chip; a section is never empty and
    shows no profile that is not of its chip; and every read that failed is
    said once, a modem without a chip as a notice and any other as a failure. *)
Theorem panel_shows_each_once writable profiles modems log s :
  let v := EsimPanel writable profiles modems log s in
  let rows := mergeEsimProfiles profiles (esimProfileRowsFromReads log) in
  NoDup (vw_inventory v).*1
  /\ (forall r, r ∈ rows -> exists drawn, (pr_eid r, drawn) ∈ vw_inventory v
        /\ List.filter (fun d => jeqb (pd_iccid d) (pr_iccid r)) drawn = [profile_draws writable r])
  /\ (forall eid drawn, (eid, drawn) ∈ vw_inventory v -> drawn <> []
        /\ forall d, d ∈ drawn -> exists r, r ∈ rows /\ pr_eid r = eid /\ d = profile_draws writable r)
  /\ (vw_notices v).*2 ++ (vw_failures v).*2 ≡ₚ rf_reason <$> esimReadFailures log profiles.
Proof.
  cbv zeta. cbn [EsimPanel vw_inventory vw_notices vw_failures].
  pose proof (inventory_keys profiles (esimProfileRowsFromReads log)) as Hk.
  set (rows := mergeEsimProfiles _ _) in *.
  destruct (byEid_partition rows) as (Hd & Hc & Hg). split_and!.
  - rewrite <-list_fmap_compose. exact Hd.
  - intros r Hr. assert (He : pr_eid r ∈ (byEid rows).*1) by (apply Hc; by exists r).
    apply list_elem_of_fmap in He as ([k g] & Ek & Hin).
    cbn in Ek. subst k. exists (profile_draws writable <$> g). split.
    { apply list_elem_of_fmap. by exists (pr_eid r, g). }
    destruct (Hg _ _ Hin) as [-> _]. rewrite filter_fmap_bool.
    rewrite (filter_unique profile_key _ r); [done|..].
    + eapply sublist_NoDup; [exact Hk|]. apply fmap_sublist, filter_sublist_bool.
    + apply elem_of_filter_bool. split; [done|apply jeqb_refl].
    + apply jeqb_refl.
    + intros y [_ Hy%jeqb_eq]%elem_of_filter_bool Hy'%jeqb_eq. cbn in Hy'. unfold profile_key. congruence.
  - intros eid drawn ([k g] & E & Hin)%list_elem_of_fmap. injection E as -> ->.
    destruct (Hg _ _ Hin) as [Eg Hne]. split; [by destruct g|].
    intros d (r & -> & Hr)%list_elem_of_fmap. exists r. rewrite Eg in Hr.
    apply elem_of_filter_bool in Hr as [Hr E%jeqb_eq]. by split_and!.
  - rewrite <-!list_fmap_compose, <-fmap_app.
    rewrite <-(filter_split no_chip (esimReadFailures log profiles)) at 3. done.
Qed.
End View.
