(* ===== verification/EsimControls.v ===== *)
(** * The controls of the eSIM panel as they are drawn
      (components/esim-panel.tsx: the buttons, pickers and forms of EsimPanel)

    Every button with its word, its colour, whether it can be pressed and what
    a press of it is to the panel's relay (EsimPanel).  EsimView has the rest
    of the markup. *)

From Stdlib Require Import Lia.
From S2P Require Import Prelude JsString JsValue JsSort JsMap Gateway EsimData Esim I18n Confirm EsimLog Guards Component EsimPanel EsimView.

(** [eb_event]: [None] for a press that does nothing. *)
Record esim_button := {
  eb_label : jstring;
  eb_risk : bool;
  eb_enabled : bool;
  eb_event : option esim_event;
}.

(** [renameIccid] and [renameNickname]. *)
Record rename_form := { rn_iccid : jstring; rn_nickname : jstring }.

Record rename_drawn := {
  rd_options : list (jstring * jstring);
  rd_value : jstring;
  rd_nickname : jstring;
  rd_button : esim_button;
}.

Record download_form_drawn := {
  df_code : jstring;
  df_confirmation : jstring;
  df_button : esim_button;
}.

Record picker_drawn := { pk_value : jstring; pk_options : list jstring; pk_enabled : bool }.

Record esim_controls_drawn := {
  ec_picker : option picker_drawn;                  (** or the read-only notice *)
  ec_headings : list esim_button;                   (** of the inventory, the chips and the exchanges *)
  ec_rows : list (list esim_button);                (** by profile, chip by chip *)
  ec_rename : option rename_drawn;
  ec_notifications : list (list esim_button);
  ec_download : option download_form_drawn;
  ec_dialog : option (jstring * jstring * jstring);
}.

Section Controls.
Context `{ToString} `{Collation}.
Context (inherited_text : jstring -> jstring).
Context (catalogs : Locale -> list (jstring * jstring)) (locale : Locale).
Context (deviceId failed : jstring) (writable : bool) (modems : list jstring).

Abbreviation tr := (tr inherited_text catalogs locale).
Abbreviation step := (esim_step deviceId failed writable modems).

(** [request(kind, extra, title, confirmLabel)] as the press of a button whose
    title names what it is about, where it does. *)
Definition asking (label : string) (risk enabled : bool) (a : control) (subject : option jstring) : esim_button :=
  {| eb_label := tr label; eb_risk := risk; eb_enabled := enabled;
     eb_event := Some (EAsk a.1 a.2 (tr label ++ from_option (fun s => u " — " ++ s) [] subject) (tr label)) |}.

Section Drawn.
Context (s : esim_panel).
Let busy := es_busy s.

Definition heading_buttons : list esim_button :=
  if negb writable then [] else
  (fun x => asking x.1 false (negb (busy || jeqb (es_imei s) [])) (u x.2, [(u "modem_imei", VStr (es_imei s))]) None)
    <$> [("esim.refresh", "list_esim_profiles"); ("esim.readChip", "read_esim_info");
         ("esim.authStart", "initiate_esim_authentication")].

Definition profile_button (label kind field : string) (imei iccid : jstring) : esim_button :=
  asking label true (negb busy) (u kind, [(u "modem_imei", VStr imei); (u field, VStr iccid)]) (Some iccid).
Definition profile_buttons (profile : EsimProfileRow) : list esim_button :=
  if negb writable then [] else
  match pr_modemImei profile with
  | None => []
  | Some imei =>
      let in_state state := jeqb (pr_state profile) (u state) && negb (jeqb imei []) in
      let iccid := pr_iccid profile in
      (if in_state "disabled" then [profile_button "esim.switch" "switch_esim_profile" "target_iccid" imei iccid] else [])
      ++ (if in_state "enabled" then [profile_button "esim.disable" "disable_esim_profile" "iccid" imei iccid] else [])
      ++ (if in_state "disabled" then [profile_button "esim.delete" "delete_esim_profile" "iccid" imei iccid] else [])
  end.

Definition retrieve_button (info : EsimInfoResult) (n : EsimNotificationRow) : list esim_button :=
  if negb writable then [] else [asking "esim.retrieve" false (negb busy) (retrieve_action info n) None].

Definition rename_draws (profiles : list EsimProfileRow) (form : rename_form) : option rename_drawn :=
  if negb writable then None else
  Some {| rd_options := ([], u "—") :: rename_options profiles;
          rd_value := rn_iccid form; rd_nickname := rn_nickname form;
          rd_button :=
            {| eb_label := tr "esim.rename"; eb_risk := false;
               eb_enabled := negb (busy || jeqb (rn_iccid form) []);
               eb_event := (fun a => EAsk a.1 a.2 (tr "esim.rename" ++ u " — " ++ rn_iccid form) (tr "esim.rename"))
                             <$> rename_submit profiles (rn_iccid form) (rn_nickname form) |} |}.

Definition download_draws : option download_form_drawn :=
  if negb writable then None else
  Some {| df_code := es_activationCode s; df_confirmation := es_confirmationCode s;
          df_button :=
            {| eb_label := tr "esim.dlStart"; eb_risk := true; eb_enabled := download_ready s;
               eb_event := Some (EDownload (tr "esim.dlStart" ++ u " — " ++ es_imei s) (tr "esim.dlStart")) |} |}.

Definition picker_draws : option picker_drawn :=
  if negb writable then None else
  Some {| pk_value := es_imei s; pk_options := modems; pk_enabled := negb (busy || (length modems =? 0)%nat) |}.
Definition dialog_draws : option (jstring * jstring * jstring) :=
  if negb writable then None else
  (fun p => (ep_title p, ep_consequence p, ep_confirmLabel p)) <$> es_pending s.

Definition controls_drawn (profiles : list EsimProfileRow) (log : list EsimCommandRow) (form : rename_form)
    : esim_controls_drawn :=
  {| ec_picker := picker_draws;
     ec_headings := heading_buttons;
     ec_rows := profile_buttons <$> concat (byEid (mergeEsimProfiles profiles (esimProfileRowsFromReads log))).*2;
     ec_rename := rename_draws profiles form;
     ec_notifications := (fun reading => concat (retrieve_button (cr_info reading) <$> ei_notifications (cr_info reading)))
                           <$> latestEsimChipReads log;
     ec_download := download_draws;
     ec_dialog := dialog_draws |}.
End Drawn.

Definition buttons_of (c : esim_controls_drawn) : list esim_button :=
  ec_headings c ++ concat (ec_rows c) ++ option_list (rd_button <$> ec_rename c)
  ++ concat (ec_notifications c) ++ option_list (df_button <$> ec_download c).

(** ** Facts *)

(** What a press asks for: a kind of the table, and whether it is asked about. *)
Definition answered (kind : jstring) (extra : list (jstring * jsval)) (asked : bool) : Prop :=
  exists g, deviceCommandGuard kind (VObj extra) = Ok g /\ is_some (cg_consequence g) = asked.

Lemma guard_answers kind extra asked :
  is_some (field kind DEVICE_COMMAND_GUARDS) = true -> jeqb kind (u "run_at_command") = false ->
  unasked kind (VObj extra) = negb asked -> answered kind extra asked.
Proof.
  intros Hk Hn Hu. destruct (guard_known kind (VObj extra) Hk Hn) as (g & Hg & Hc). exists g. split; [done|].
  rewrite Hu in Hc. destruct (cg_consequence g), asked; cbn [is_some negb] in *; try done; destruct Hc as [H1 H2];
    [by specialize (H2 eq_refl)|by specialize (H1 eq_refl)].
Qed.

(** What a press of an enabled button comes to. *)
Definition does (b : esim_button) (s : esim_panel) (e : esim_event) : Prop :=
  exists s' out, step s e = Some (s', out)
  /\ if eb_risk b
     then out = [] /\ exists p, es_pending s' = Some p
            /\ match e with
               | EAsk kind extra title label =>
                   ep_kind p = kind /\ ep_extra p = extra /\ ep_title p = title /\ ep_confirmLabel p = label
               | EDownload title label =>
                   ep_kind p = u "download_esim_profile" /\ ep_extra p = download_payload s /\ ep_title p = title
                   /\ ep_confirmLabel p = label /\ es_activationCode s' = [] /\ es_confirmationCode s' = []
               | _ => False
               end
     else es_pending s' = None /\ exists kind extra title label, e = EAsk kind extra title label
            /\ out = [Fetch (esim_call deviceId kind extra)].

Lemma asked_does b s kind extra title label :
  writable = true -> es_busy s = false -> es_pending s = None -> answered kind extra (eb_risk b) ->
  does b s (EAsk kind extra title label).
Proof.
  intros Hw Hb Hp (g & Hg & Hc). unfold does, esim_step, esim_controls, esim_dialog, esim_request, esim_runNow.
  rewrite Hw, Hb, Hp, Hg. cbn [is_some andb negb].
  destruct (cg_consequence g) as [c|], (eb_risk b); try done.
  - eexists _, _. split; [reflexivity|]. split; [done|]. eexists. split; [reflexivity|]. by split_and!.
  - eexists _, _. split; [reflexivity|]. cbn. split; [done|]. by eexists _, _, _, _.
Qed.

Ltac known := apply guard_answers; [by vm_compute..|unfold unasked, unasked_kinds; cbn [existsb]; by js_names].

Definition red_asks (s : esim_panel) (b : esim_button) : Prop :=
  forall e, eb_event b = Some e ->
  writable = true /\ (eb_enabled b = true -> es_pending s = None -> does b s e).

Lemma asking_red s label risk a subject enabled :
  writable = true -> (enabled = true -> es_busy s = false) -> answered a.1 a.2 risk ->
  red_asks s (asking label risk enabled a subject).
Proof.
  intros Hw Hb Ha e [= <-]. split; [done|]. intros Hen Hp. by apply asked_does; [|apply Hb| |].
Qed.
Lemma free_of b : negb b = true -> b = false.
Proof. by destruct b. Qed.
Lemma free_of_or b c : negb (b || c) = true -> b = false.
Proof. by destruct b. Qed.

Lemma headings_red s : Forall (red_asks s) (heading_buttons s).
Proof.
  unfold heading_buttons. destruct (negb writable) eqn:Hw; [by apply Forall_nil|]. apply negb_false_iff in Hw.
  repeat apply Forall_cons_2; [..|by apply Forall_nil];
    apply asking_red; [exact Hw|apply free_of_or|known|exact Hw|apply free_of_or|known|exact Hw|apply free_of_or|known].
Qed.

Lemma rows_red s profile : Forall (red_asks s) (profile_buttons s profile).
Proof.
  unfold profile_buttons. destruct (negb writable) eqn:Hw; [by apply Forall_nil|]. apply negb_false_iff in Hw.
  destruct (pr_modemImei profile) as [imei|]; [|by apply Forall_nil].
  rewrite !Forall_app. split_and!; destruct (_ && _); try (by apply Forall_nil);
    (apply Forall_cons_2; [|by apply Forall_nil]); (apply asking_red; [exact Hw|apply free_of|known]).
Qed.

Lemma retrieve_red s info n : Forall (red_asks s) (retrieve_button s info n).
Proof.
  unfold retrieve_button. destruct (negb writable) eqn:Hw; [by apply Forall_nil|]. apply negb_false_iff in Hw.
  apply Forall_cons_2; [|by apply Forall_nil]. apply asking_red; [exact Hw|apply free_of|known].
Qed.

Lemma rename_red s profiles form : Forall (red_asks s) (option_list (rd_button <$> rename_draws s profiles form)).
Proof.
  unfold rename_draws. destruct (negb writable) eqn:Hw; [by apply Forall_nil|]. apply negb_false_iff in Hw.
  apply Forall_cons_2; [|by apply Forall_nil]. intros e. cbn [rd_button eb_event eb_enabled].
  unfold rename_submit. destruct (List.find _ profiles) as [chosen|]; [|done].
  destruct (pr_modemImei chosen) as [imei|]; [|done]. intros [= <-]. split; [done|].
  intros Hen%free_of_or Hp. apply asked_does; [done..|known].
Qed.

Lemma download_red s : Forall (red_asks s) (option_list (df_button <$> download_draws s)).
Proof.
  unfold download_draws. destruct (negb writable) eqn:Hw; [by apply Forall_nil|]. apply negb_false_iff in Hw.
  apply Forall_cons_2; [|by apply Forall_nil]. intros e [= <-]. split; [done|]. cbn [df_button eb_enabled].
  intros Hen Hp.
  assert (Ha : answered (u "download_esim_profile") (download_payload s) true) by known.
  destruct Ha as (g & Hg & Hc). destruct (cg_consequence g) as [c|] eqn:Ec; [|done].
  pose proof Hen as Hb%free_of_or%orb_false_iff. destruct Hb as [Hb _].
  unfold does, esim_step, esim_controls, esim_dialog, esim_request. rewrite Hw, Hb, Hp, Hen, Hg, Ec.
  cbn [is_some andb negb]. eexists _, _. split; [reflexivity|]. split; [done|]. by eexists.
Qed.

(** A press that comes to nothing. *)
Definition idle (profiles : list EsimProfileRow) (form : rename_form) (s : esim_panel) (b : esim_button) : Prop :=
  eb_event b = None ->
  rd_button <$> rename_draws s profiles form = Some b /\ rename_submit profiles (rn_iccid form) (rn_nickname form) = None.

Lemma asking_idle profiles form s label risk enabled a subject : idle profiles form s (asking label risk enabled a subject).
Proof. done. Qed.

Lemma buttons_idle profiles log form s : Forall (idle profiles form s) (buttons_of (controls_drawn s profiles log form)).
Proof.
  unfold buttons_of, controls_drawn. cbn [ec_headings ec_rows ec_rename ec_notifications ec_download].
  rewrite !Forall_app. split_and!.
  - unfold heading_buttons. destruct (negb writable); [by apply Forall_nil|]. by repeat apply Forall_cons_2.
  - apply Forall_concat, Forall_fmap, Forall_true. intros profile. cbn. unfold profile_buttons.
    destruct (negb writable), (pr_modemImei profile); try by apply Forall_nil.
    rewrite !Forall_app. split_and!; destruct (_ && _); by repeat constructor.
  - unfold idle, rename_draws. destruct (negb writable); [by apply Forall_nil|].
    apply Forall_cons_2; [|by apply Forall_nil]. cbn [rd_button eb_event]. intros He. split; [done|].
    by destruct (rename_submit _ _ _).
  - apply Forall_concat, Forall_fmap, Forall_true. intros reading.
    apply Forall_concat, Forall_fmap, Forall_true. intros n. unfold retrieve_button. cbn.
    destruct (negb writable); by repeat constructor.
  - unfold download_draws. destruct (negb writable); by repeat constructor.
Qed.

(** C12. The panel's red buttons ask and the others act, the dialog's own
    apart.  Whatever the panel holds, a button of its headings, rows,
    notifications and forms that is drawn where it can be pressed, with no
    dialog open, does something; a red one opens the dialog with its own
    kind, payload and words and sends nothing yet (and the download's clears
    its two boxes), any other sends its request at once; and an account that
    may only read is drawn none of them.  Alone a Rename whose profile is no
    longer listed with a module does nothing. *)
Theorem esim_red_asks profiles log form s :
  Forall (fun b =>
      (forall e, eb_event b = Some e ->
         writable = true /\ (eb_enabled b = true -> es_pending s = None -> does b s e))
      /\ (eb_event b = None ->
            rd_button <$> rename_draws s profiles form = Some b
            /\ rename_submit profiles (rn_iccid form) (rn_nickname form) = None))
    (buttons_of (controls_drawn s profiles log form)).
Proof.
  apply Forall_and. split; [|apply buttons_idle].
  unfold buttons_of, controls_drawn. cbn [ec_headings ec_rows ec_rename ec_notifications ec_download].
  rewrite !Forall_app. split_and!; [apply headings_red| |apply rename_red| |apply download_red].
  - apply Forall_concat, Forall_fmap, Forall_true. apply rows_red.
  - apply Forall_concat, Forall_fmap, Forall_true. intros reading.
    apply Forall_concat, Forall_fmap, Forall_true. intros n. apply retrieve_red.
Qed.
End Controls.
