(* ===== verification/SendSms.v ===== *)
(** * The send form of the inbox (components/send-sms.tsx: SendSmsForm)

    The one control of the console that spends money.  The form is drawn from
    props the server may replace while it stands (LiveReload); submitting it
    takes a draft, the dialog asks about that draft, confirming posts it.
    Confirming also closes the dialog, so [onCancel] runs after
    [onConfirm]. *)

From Stdlib Require Import Lia.
From S2P Require Import Prelude JsString JsValue SmsSafety I18n Component.

(** ** Props *)

Record BlockedModule := {
  bm_imei : jstring;
  bm_why : jstring;
  bm_cost : jstring;
}.

Record SendModem := {
  sm_imei : jstring;
  sm_msisdn : option jstring;
  sm_msisdnPending : bool;
  sm_observed : bool;
}.

Record SendDevice := {
  sd_id : jstring;
  sd_name : jstring;
  sd_blocked : list BlockedModule;
  sd_modems : list SendModem;
}.

(** What [sendHold] is given: the same module, as its own type. *)
Definition as_sms_blocked (module : BlockedModule) : SmsBlockedModule :=
  {| sb_imei := bm_imei module; sb_why := Some (bm_why module); sb_cost := Some (bm_cost module) |}.

Record Draft := {
  dr_device_id : jstring;
  dr_modem_imei : jstring;
  dr_to : jstring;
  dr_body : jstring;
}.
#[export] Instance Draft_eq_dec : EqDecision Draft.
Proof. solve_decision. Defined.

Record send_labels := {
  sl_queued : jstring;
  sl_failed : jstring;
  sl_noModem : jstring;
  sl_msisdnPending : jstring;
  sl_msisdnNone : jstring;
  sl_neverSeen : jstring;
  sl_blockedBadge : jstring;
  sl_confirmTitle : jstring;
  sl_confirmConsequence : jstring;
}.

(** ** State *)

Record send_form := {
  sf_devices : list SendDevice;
  sf_modemsUnknown : bool;
  sf_status : option (bool * jstring);
  sf_pending : option Draft;
  sf_busy : bool;
  sf_deviceId : jstring;
  sf_modemImei : jstring;
  sf_flights : list Draft;          (** posts not answered yet *)
}.

Inductive send_event :=
  | SubmitForm (to body : jstring)
  | ConfirmSend
  | CancelSend
  | PickDevice (id : jstring)
  | PickModem (imei : jstring)
  | SendAnswer (flight : nat) (a : answer)
  | RedrawForm (devices : list SendDevice) (modemsUnknown : bool).

(** ** What a render computes *)

Definition chosen_device (devices : list SendDevice) (deviceId : jstring) : option SendDevice :=
  match List.find (fun device => jeqb (sd_id device) deviceId) devices with
  | Some device => Some device
  | None => head devices
  end.

Section Render.
Variable s : send_form.

Definition chosen : option SendDevice := chosen_device (sf_devices s) (sf_deviceId s).
Definition chosen_blocked : list BlockedModule := from_option sd_blocked [] chosen.
Definition blockedImeis : list jstring := bm_imei <$> chosen_blocked.
Definition allowed : list SendModem :=
  List.filter (fun modem => negb (existsb (jeqb (sm_imei modem)) blockedImeis))
    (from_option sd_modems [] chosen).
Definition sendable : list SendModem := List.filter sm_observed allowed.
Definition unseen : list SendModem := List.filter (fun modem => negb (sm_observed modem)) allowed.
Definition activeImei : jstring :=
  if existsb (fun modem => jeqb (sm_imei modem) (sf_modemImei s)) sendable
  then sf_modemImei s else from_option sm_imei [] (head sendable).
Definition hold : option SendHold :=
  sendHold (negb (sf_modemsUnknown s)) (as_sms_blocked <$> chosen_blocked).
End Render.

(** The rows of the two pickers. *)
Definition device_option (labels : send_labels) (device : SendDevice) : jstring :=
  sd_name device ++ u " (" ++ sd_id device ++ u ")"
  ++ (if (0 <? length (sd_blocked device))%nat then u " — " ++ sl_blockedBadge labels else []).
Definition sendable_option (labels : send_labels) (modem : SendModem) : jstring :=
  sm_imei modem ++ u " · "
  ++ default_to (if sm_msisdnPending modem then sl_msisdnPending labels else sl_msisdnNone labels)
       (sm_msisdn modem).
Definition unseen_option (labels : send_labels) (modem : SendModem) : jstring :=
  sm_imei modem ++ u " · " ++ sl_neverSeen labels.

(** Each row of the module picker: its value, its text and whether it can be
    chosen. *)
Definition modem_options (labels : send_labels) (s : send_form) : list (jstring * jstring * bool) :=
  (match sendable s with
   | [] => [([], sl_noModem labels, true)]
   | modems => (fun modem => (sm_imei modem, sendable_option labels modem, true)) <$> modems
   end)
  ++ ((fun modem => (sm_imei modem, unseen_option labels modem, false)) <$> unseen s).

Section Dialog.
Variable inherited_text : jstring -> jstring.

Definition confirm_title (labels : send_labels) (s : send_form) : jstring :=
  interpolate inherited_text (sl_confirmTitle labels)
    (Some [(u "to", Some (from_option dr_to [] (sf_pending s)))]).
Definition confirm_consequence (labels : send_labels) (s : send_form) : jstring :=
  interpolate inherited_text (sl_confirmConsequence labels)
    (Some [(u "to", Some (from_option dr_to [] (sf_pending s)));
           (u "device", Some (match chosen s with
                              | Some device => sd_name device ++ u " (" ++ sd_id device ++ u ")"
                              | None => from_option dr_device_id [] (sf_pending s)
                              end))]).
End Dialog.

(** ** The handlers *)

Definition set_form (status : option (bool * jstring)) (pending : option Draft) (busy : bool)
    (flights : list Draft) (s : send_form) : send_form :=
  {| sf_devices := sf_devices s; sf_modemsUnknown := sf_modemsUnknown s; sf_status := status;
     sf_pending := pending; sf_busy := busy; sf_deviceId := sf_deviceId s;
     sf_modemImei := sf_modemImei s; sf_flights := flights |}.

(** [new FormData(event.currentTarget)]: the device picker shows the chosen
    device; a disabled picker is left out, and [String(null ?? "")] is
    empty. *)
Definition form_draft (to body : jstring) (s : send_form) : Draft :=
  {| dr_device_id := from_option sd_id [] (chosen s);
     dr_modem_imei := if (length (sendable s) =? 0)%nat then [] else activeImei s;
     dr_to := to; dr_body := body |}.

Definition onSubmit (to body : jstring) (s : send_form) : send_form :=
  match hold s with
  | Some _ => s
  | None => set_form (sf_status s) (Some (form_draft to body s)) (sf_busy s) (sf_flights s) s
  end.

Definition send_call (draft : Draft) : call :=
  call_post (u "/v1/commands")
    (VObj [(u "device_id", VStr (dr_device_id draft)); (u "modem_imei", VStr (dr_modem_imei draft));
           (u "to", VStr (dr_to draft)); (u "body", VStr (dr_body draft))]).

(** [sendMessage(draft)] up to its [await], and what follows the answer; a
    rejected [fetch] leaves it there, with nothing to catch it. *)
Definition sendMessage (draft : Draft) (s : send_form) : send_form * list effect :=
  (set_form (sf_status s) (sf_pending s) true (sf_flights s ++ [draft]) s, [Fetch (send_call draft)]).

Definition send_answered (labels : send_labels) (i : nat) (a : answer) (s : send_form)
    : option (send_form * list effect) :=
  match sf_flights s !! i with
  | None => None
  | Some _ =>
      let flights := delete i (sf_flights s) in
      match a with
      | NoAnswer => Some (set_form (sf_status s) (sf_pending s) (sf_busy s) flights s, [])
      | Answer status _ _ =>
          let ok := ok_status status in
          Some (set_form (Some (ok, if ok then sl_queued labels else sl_failed labels))
                  None false flights s, [])
      end
  end.

Definition onCancel (s : send_form) : send_form :=
  set_form (sf_status s) None (sf_busy s) (sf_flights s) s.

(** ** The form *)

Definition send_mount (devices : list SendDevice) (modemsUnknown : bool) : send_form :=
  {| sf_devices := devices; sf_modemsUnknown := modemsUnknown; sf_status := None;
     sf_pending := None; sf_busy := false; sf_deviceId := from_option sd_id [] (head devices);
     sf_modemImei := []; sf_flights := [] |}.

(** Without devices nothing is drawn; behind an open dialog nothing is
    reached. *)
Definition drawn (s : send_form) : bool := negb (length (sf_devices s) =? 0)%nat.
Definition send_dialog (s : send_form) : bool := drawn s && is_some (sf_pending s).
Definition send_controls (s : send_form) : bool := drawn s && negb (send_dialog s).

Definition send_step (labels : send_labels) (s : send_form) (e : send_event)
    : option (send_form * list effect) :=
  match e with
  | SubmitForm to body =>
      if send_controls s && negb (sf_busy s || is_some (hold s))
         && negb (jeqb to []) && negb (jeqb body [])
      then Some (onSubmit to body s, []) else None
  | ConfirmSend =>
      match sf_pending s with
      | Some draft =>
          if send_dialog s && negb (sf_busy s) then
            let sent := sendMessage draft s in Some (onCancel sent.1, sent.2)
          else None
      | None => None
      end
  | CancelSend => if send_dialog s then Some (onCancel s, []) else None
  | PickDevice id =>
      if send_controls s && existsb (fun device => jeqb (sd_id device) id) (sf_devices s)
      then Some ({| sf_devices := sf_devices s; sf_modemsUnknown := sf_modemsUnknown s;
                    sf_status := sf_status s; sf_pending := sf_pending s; sf_busy := sf_busy s;
                    sf_deviceId := id; sf_modemImei := sf_modemImei s;
                    sf_flights := sf_flights s |}, [])
      else None
  | PickModem imei =>
      if send_controls s && existsb (fun modem => jeqb (sm_imei modem) imei) (sendable s)
      then Some ({| sf_devices := sf_devices s; sf_modemsUnknown := sf_modemsUnknown s;
                    sf_status := sf_status s; sf_pending := sf_pending s; sf_busy := sf_busy s;
                    sf_deviceId := sf_deviceId s; sf_modemImei := imei;
                    sf_flights := sf_flights s |}, [])
      else None
  | SendAnswer i a => send_answered labels i a s
  | RedrawForm devices modemsUnknown =>
      Some ({| sf_devices := devices; sf_modemsUnknown := modemsUnknown;
               sf_status := sf_status s; sf_pending := sf_pending s; sf_busy := sf_busy s;
               sf_deviceId := sf_deviceId s; sf_modemImei := sf_modemImei s;
               sf_flights := sf_flights s |}, [])
  end.

(** ** What may be sent *)

(** What the server drew says the draft may be sent: the module list was
    read, its device is listed and holds no barred module, and its module is
    one of that device's the fleet has seen; the only draft without a module
    is of a device with none to choose. *)
Definition draft_allowed (props : list SendDevice * bool) (d : Draft) : Prop :=
  props.2 = false /\ exists device, device ∈ props.1 /\ sd_id device = dr_device_id d
  /\ sd_blocked device = []
  /\ (List.filter sm_observed (sd_modems device) = [] /\ dr_modem_imei d = []
      \/ exists modem, modem ∈ sd_modems device /\ sm_observed modem = true
           /\ sm_imei modem = dr_modem_imei d).

Lemma chosen_device_in devices id device :
  chosen_device devices id = Some device -> device ∈ devices.
Proof.
  unfold chosen_device. destruct (List.find _ devices) as [d|] eqn:Ef.
  - intros [= <-]. apply find_some in Ef as [Hin _]. by apply list_elem_of_In.
  - destruct devices as [|d devices]; [done|]. intros [= <-]. left.
Qed.

Lemma hold_none s :
  hold s = None -> sf_modemsUnknown s = false /\ chosen_blocked s = [].
Proof.
  unfold hold, sendHold. destruct (chosen_blocked s) as [|b l]; cbn; [|done].
  by destruct (sf_modemsUnknown s).
Qed.

Lemma allowed_unblocked s :
  chosen_blocked s = [] -> allowed s = from_option sd_modems [] (chosen s).
Proof.
  unfold allowed, blockedImeis. intros ->. cbn. generalize (from_option sd_modems [] (chosen s)).
  induction l as [|m l IH]; cbn; [done|]. by rewrite IH.
Qed.

Lemma activeImei_sendable s :
  sendable s <> [] -> exists modem, modem ∈ sendable s /\ sm_imei modem = activeImei s.
Proof.
  unfold activeImei. intros Hn. destruct (existsb _ _) eqn:E.
  - apply existsb_elem in E as (m & Hm & E). apply jeqb_eq in E. eauto.
  - destruct (sendable s) as [|m l]; [done|]. exists m. split; [left|done].
Qed.

Lemma form_draft_allowed to body s :
  drawn s = true -> hold s = None ->
  draft_allowed (sf_devices s, sf_modemsUnknown s) (form_draft to body s).
Proof.
  intros Hd [Hu Hb]%hold_none. split; [done|].
  assert (exists device, chosen s = Some device) as [device Hc].
  { unfold chosen, chosen_device. destruct (List.find _ _); [by eexists|].
    unfold drawn in Hd. destruct (sf_devices s); [done|]. by eexists. }
  exists device. cbn. rewrite Hc. cbn. split_and!; [by eapply chosen_device_in|done| |].
  { unfold chosen_blocked in Hb. by rewrite Hc in Hb. }
  pose proof (allowed_unblocked s Hb) as Ha. rewrite Hc in Ha. cbn in Ha.
  assert (Hs : sendable s = List.filter sm_observed (sd_modems device)) by (unfold sendable; by rewrite Ha).
  destruct (sendable s) as [|m l] eqn:E; cbn [length Nat.eqb].
  - left. by rewrite <-Hs.
  - right. destruct (activeImei_sendable s) as (modem & Hm & Hi); [by rewrite E|].
    rewrite E, Hs in Hm. apply elem_of_filter_bool in Hm as [Hm Ho]. by exists modem.
Qed.

(** ** Runs *)

(** The props the server drew the form with, newest first. *)
Fixpoint props_seen (first : list SendDevice * bool) (es : list send_event)
    : list (list SendDevice * bool) :=
  match es with
  | [] => [first]
  | RedrawForm devices unknown :: es => first :: props_seen (devices, unknown) es
  | _ :: es => props_seen first es
  end.

Definition is_submit (e : send_event) : bool :=
  match e with SubmitForm _ _ => true | _ => false end.
Definition waiting (s : send_form) : nat := if is_some (sf_pending s) then 1 else 0.

Section Runs.
Context (labels : send_labels).
Abbreviation step := (send_step labels).

Definition current (s : send_form) : list SendDevice * bool := (sf_devices s, sf_modemsUnknown s).

(** One step: what becomes of the props and the draft, and what is sent. *)
Lemma send_step_cases s e s' out :
  step s e = Some (s', out) ->
  current s' = (match e with RedrawForm devices unknown => (devices, unknown) | _ => current s end)
  /\ (out = [] /\ (sf_pending s' = None \/ sf_pending s' = sf_pending s)
      \/ out = [] /\ is_submit e = true /\ sf_pending s = None
         /\ (exists d, sf_pending s' = Some d /\ draft_allowed (current s) d)
      \/ e = ConfirmSend /\ sf_pending s' = None
         /\ exists d, sf_pending s = Some d /\ out = [Fetch (send_call d)]).
Proof.
  unfold send_step. destruct e as [to body| | |id|imei|i a|devices unknown].
  - destruct (send_controls s) eqn:Ec; [|done]. destruct (hold s) as [h|] eqn:Eh;
      [by rewrite orb_true_r|]. cbn [is_some]. rewrite orb_false_r.
    destruct (sf_busy s); [done|]. destruct (_ && _); [|done].
    unfold onSubmit. rewrite Eh. intros [-> ->]%some_pair. split; [done|].
    unfold send_controls, send_dialog in Ec. apply andb_true_iff in Ec as [Hd Hp].
    rewrite Hd in Hp. destruct (sf_pending s) eqn:Ep; [done|].
    right. left. split_and!; [done..|]. eexists. split; [done|]. by apply form_draft_allowed.
  - destruct (sf_pending s) as [d|] eqn:Ep; [|done]. destruct (_ && _); [|done].
    intros [-> ->]%some_pair. split; [done|]. right. right. split_and!; [done..|]. by exists d.
  - destruct (send_dialog s); [|done]. intros [-> ->]%some_pair. split; [done|]. left. split; [done|]. by left.
  - destruct (_ && _); [|done]. intros [-> ->]%some_pair. split; [done|]. left. split; [done|]. by right.
  - destruct (_ && _); [|done]. intros [-> ->]%some_pair. split; [done|]. left. split; [done|]. by right.
  - unfold send_answered. destruct (sf_flights s !! i); [|done].
    destruct a; intros [-> ->]%some_pair; (split; [done|]); left; (split; [done|]); [by right|by left].
  - intros [-> ->]%some_pair. split; [done|]. left. split; [done|]. by right.
Qed.

(** A submit takes the draft of the form as it stands. *)
Lemma send_step_submit s to body s' out :
  step s (SubmitForm to body) = Some (s', out) ->
  sf_pending s' = Some (form_draft to body s) /\ draft_allowed (current s) (form_draft to body s) /\ out = [].
Proof.
  unfold send_step. destruct (send_controls s) eqn:Ec; [|done]. destruct (hold s) as [h|] eqn:Eh;
    [by rewrite orb_true_r|]. cbn [is_some]. destruct (_ && _); [|done].
  unfold onSubmit. rewrite Eh. intros [-> ->]%some_pair. split_and!; [done| |done].
  apply andb_true_iff in Ec as [Hd _]. by apply form_draft_allowed.
Qed.

Lemma props_seen_first p es : p ∈ props_seen p es.
Proof. revert p. induction es as [|e es IH]; intros p; cbn; [left|]. destruct e; auto; left. Qed.

Lemma props_seen_step olds s e s' out es :
  step s e = Some (s', out) ->
  forall p, p ∈ (olds ++ [current s]) ++ props_seen (current s') es ->
            p ∈ olds ++ props_seen (current s) (e :: es).
Proof.
  intros [-> _]%send_step_cases p. rewrite !elem_of_app. intros [[?|Hin]|Hin]; [by left|right..].
  - apply list_elem_of_singleton in Hin as ->. apply props_seen_first.
  - destruct e; cbn; auto. by right.
Qed.

(** What is posted was pending, and what is pending was allowed when it was
    taken. *)
Lemma sends_were_allowed s tr s2 : run step s tr s2 -> forall olds,
  (forall d, sf_pending s = Some d -> exists props, props ∈ olds /\ draft_allowed props d) ->
  forall e out x, (e, out) ∈ tr -> x ∈ out ->
    e = ConfirmSend /\ exists d props, x = Fetch (send_call d)
      /\ props ∈ olds ++ props_seen (current s) tr.*1 /\ draft_allowed props d.
Proof.
  induction 1 as [s|s e s1 out tr s2 Hst Hr IH]; intros olds Hp e' out' x;
    [by intros ?%not_elem_of_nil|].
  destruct (send_step_cases _ _ _ _ Hst) as [_ Hk].
  intros [[= -> ->]|Hin]%elem_of_cons Hx.
  - destruct Hk as [(-> & _)|[(-> & _)|(-> & _ & d & Hd & ->)]];
      [by apply not_elem_of_nil in Hx..|]. split; [done|].
    apply list_elem_of_singleton in Hx as ->. destruct (Hp d Hd) as (props & Hin & Ha).
    exists d, props. split_and!; [done| |done]. apply elem_of_app. by left.
  - destruct (IH (olds ++ [current s])) with (2 := Hin) (3 := Hx) as [-> (d & props & -> & Hin' & Ha)].
    { intros d Hd. destruct Hk as [(_ & [Hn|Hs])|[(_ & _ & _ & d' & Hd' & Ha)|(_ & Hn & _)]];
        [congruence| | |congruence].
      - rewrite Hs in Hd. destruct (Hp d Hd) as (props & Hin' & Ha). exists props.
        split; [apply elem_of_app; by left|done].
      - exists (current s). assert (d = d') as -> by congruence.
        split; [apply elem_of_app; right; left|done]. }
    split; [done|]. exists d, props. split_and!; [done| |done]. by eapply props_seen_step.
Qed.

Lemma sends_counted s tr s2 : run step s tr s2 ->
  length (effects tr) + waiting s2 <= waiting s + tally is_submit tr.*1.
Proof.
  induction 1 as [s|s e s1 out tr s2 Hst Hr IH]; [cbn; lia|].
  destruct (send_step_cases _ _ _ _ Hst) as [_ Hk].
  unfold effects, waiting in *. cbn [fmap list_fmap snd fst concat]. rewrite length_app, tally_cons.
  destruct Hk as [(-> & [Hn|Hs])|[(-> & He & Hn & d & Hd & _)|(-> & Hn & d & Hd & ->)]].
  - rewrite Hn in IH. cbn [length is_some] in *. destruct (is_submit e); lia.
  - rewrite Hs in IH. cbn [length is_some] in *. destruct (is_submit e); lia.
  - rewrite Hd in IH. rewrite Hn, He. cbn [length is_some] in *. lia.
  - rewrite Hn in IH. rewrite Hd. cbn [length is_some is_submit] in *. lia.
Qed.

(** What the inbox spends.  Every message that leaves the form was
    confirmed, is addressed to a device and module the server drew as
    sendable while the form stood (module list read, no barred module on the
    device, the module one the fleet has seen), and each pressing of Send
    costs one message at most, however often the dialog is confirmed or the
    page redrawn. *)
Theorem sends_asked_once devices unknown tr s :
  run step (send_mount devices unknown) tr s ->
  (forall e out x, (e, out) ∈ tr -> x ∈ out ->
     e = ConfirmSend /\ exists d props, x = Fetch (send_call d)
       /\ props ∈ props_seen (devices, unknown) tr.*1 /\ draft_allowed props d)
  /\ length (effects tr) + waiting s <= tally is_submit tr.*1.
Proof.
  intros Hr. split; [|exact (sends_counted _ _ _ Hr)].
  apply (sends_were_allowed _ _ _ Hr []). by intros d [=].
Qed.

(** ** A request that is not answered *)

(** One post at a time, and no draft waits while it is out. *)
Record send_inv (s : send_form) : Prop := {
  si_one : length (sf_flights s) <= if sf_busy s then 1 else 0;
  si_wait : sf_busy s = true -> sf_pending s = None;
}.

Lemma send_inv_step s e s' out : send_inv s -> step s e = Some (s', out) -> send_inv s'.
Proof.
  intros [Hf Hp]. unfold send_step. destruct e as [to body| | |id|imei|i a|devs unk].
  - destruct (sf_busy s) eqn:Eb; [by rewrite !andb_false_r|]. cbn [orb].
    destruct (_ && _); [|done]. intros [-> ->]%some_pair. unfold onSubmit.
    destruct (hold s); constructor; cbn; rewrite ?Eb; done.
  - destruct (sf_pending s) as [d|] eqn:Ep; [|done].
    destruct (sf_busy s); [by rewrite andb_false_r|]. destruct (_ && _); [|done].
    intros [-> ->]%some_pair. constructor; cbn; [|done]. rewrite length_app. cbn. lia.
  - destruct (send_dialog s); [|done]. intros [-> ->]%some_pair. by constructor.
  - destruct (_ && _); [|done]. intros [-> ->]%some_pair. by constructor.
  - destruct (_ && _); [|done]. intros [-> ->]%some_pair. by constructor.
  - unfold send_answered. destruct (sf_flights s !! i) as [f|] eqn:Ei; [|done].
    pose proof (length_delete (sf_flights s) i ltac:(by rewrite Ei)) as Hl.
    destruct a; intros [-> ->]%some_pair; constructor; cbn; auto; destruct (sf_busy s); lia.
  - intros [-> ->]%some_pair. by constructor.
Qed.

Lemma send_reachable_inv devices unknown tr s :
  run step (send_mount devices unknown) tr s -> send_inv s.
Proof.
  intros Hr. apply (run_invariant step send_inv (send_mount devices unknown) tr); [|by constructor|exact Hr].
  exact send_inv_step.
Qed.

(** Busy with nothing in flight: no answer will ever free the form. *)
Definition send_stuck (s : send_form) : Prop :=
  sf_busy s = true /\ sf_flights s = [] /\ sf_pending s = None.

Lemma send_stuck_step s e s' out :
  send_stuck s -> step s e = Some (s', out) -> send_stuck s' /\ out = [] /\ is_submit e = false.
Proof.
  intros (Hb & Hf & Hn). unfold send_step. destruct e as [to body| | |id|imei|i a|devs unk].
  - by rewrite Hb, andb_false_r.
  - by rewrite Hn.
  - unfold send_dialog. by rewrite Hn, andb_false_r.
  - destruct (_ && _); [|done]. by intros [-> ->]%some_pair.
  - destruct (_ && _); [|done]. by intros [-> ->]%some_pair.
  - unfold send_answered. by rewrite Hf.
  - by intros [-> ->]%some_pair.
Qed.

(** Where the form departs from what it means to say: [sendMessage] has
    no [catch].  When the request rejects, no status is shown and the form
    stays busy, so nothing can be sent again until the page is left,
    whatever the server draws. *)
Theorem send_rejected_freezes devices unknown tr s i :
  run step (send_mount devices unknown) tr s -> sf_flights s !! i <> None ->
  exists s1, step s (SendAnswer i NoAnswer) = Some (s1, []) /\ sf_status s1 = sf_status s
    /\ forall tr' s2, run step s1 tr' s2 ->
         sf_busy s2 = true /\ effects tr' = [] /\ tally is_submit tr'.*1 = 0.
Proof.
  intros Hr Hi. apply send_reachable_inv in Hr as [Hf Hp].
  destruct (sf_flights s !! i) as [f|] eqn:Ei; [|done].
  pose proof (length_delete (sf_flights s) i ltac:(by rewrite Ei)) as Hl.
  pose proof (lookup_lt_Some _ _ _ Ei) as Hlt.
  assert (Hb : sf_busy s = true) by (destruct (sf_busy s); [done|lia]).
  unfold send_step at 1, send_answered. rewrite Ei. eexists. split; [done|]. split; [done|].
  intros tr' s2 Hr2.
  eapply (run_all step send_stuck (fun e out => out = [] /\ is_submit e = false)) in Hr2
    as [(Hb2 & _) Hall]; [|exact send_stuck_step|].
  2:{ split_and!; [done| |by apply Hp]. cbn. apply length_zero_iff_nil. rewrite Hb in Hf. lia. }
  split_and!; [done| |].
  - apply effects_nil. eapply Forall_impl; [exact Hall|]. by intros eo [? _].
  - apply tally_none, Forall_fmap. eapply Forall_impl; [exact Hall|]. by intros eo [_ ?].
Qed.
End Runs.

(** ** Concrete runs *)

Definition sample_send_labels : send_labels :=
  {| sl_queued := u "Queued"; sl_failed := u "Failed"; sl_noModem := u "No module";
     sl_msisdnPending := u "number pending"; sl_msisdnNone := u "no number";
     sl_neverSeen := u "never seen"; sl_blockedBadge := u "do not send";
     sl_confirmTitle := u "Send to {to}?"; sl_confirmConsequence := u "Billed; leaves from {device}." |}.
Definition sample_modem (imei : string) (observed : bool) : SendModem :=
  {| sm_imei := u imei; sm_msisdn := None; sm_msisdnPending := false; sm_observed := observed |}.
Definition sample_device (id : string) (modems : list SendModem) : SendDevice :=
  {| sd_id := u id; sd_name := u "Edge"; sd_blocked := []; sd_modems := modems |}.
Definition sample_send_step := send_step sample_send_labels.
Definition sample_draft : Draft :=
  {| dr_device_id := u "d1"; dr_modem_imei := u "861"; dr_to := u "+49"; dr_body := u "hi" |}.
Definition sample_send_start : send_form :=
  send_mount [sample_device "d1" [sample_modem "860" false; sample_modem "861" true]] false.

Lemma sends_asked_once_witness :
  exists s, exec sample_send_step sample_send_start
      [SubmitForm (u "+49") (u "hi"); ConfirmSend] = Some (s, [Fetch (send_call sample_draft)])
    /\ exists tr, effects tr = [Fetch (send_call sample_draft)]
         /\ 1 + waiting s <= tally is_submit tr.*1.
Proof.
  destruct (exec sample_send_step sample_send_start [SubmitForm (u "+49") (u "hi"); ConfirmSend])
    as [[s out]|] eqn:E; [|by vm_compute in E].
  assert (Eo : out = [Fetch (send_call sample_draft)]) by (vm_compute in E; injection E as _ <-; by vm_compute).
  subst out. exists s. split; [reflexivity|].
  destruct (exec_run _ _ _ _ _ E) as (tr & Hr & _ & Ht). exists tr. split; [exact Ht|].
  destruct (sends_asked_once sample_send_labels _ _ _ _ Hr) as [_ Hn]. rewrite Ht in Hn. exact Hn.
Defined.

Lemma send_rejected_freezes_witness :
  exists s s1, exec sample_send_step sample_send_start
      [SubmitForm (u "+49") (u "hi"); ConfirmSend] = Some (s, [Fetch (send_call sample_draft)])
    /\ sample_send_step s (SendAnswer 0 NoAnswer) = Some (s1, []) /\ sf_status s1 = sf_status s
    /\ sf_busy s1 = true.
Proof.
  destruct (exec sample_send_step sample_send_start [SubmitForm (u "+49") (u "hi"); ConfirmSend])
    as [[s out]|] eqn:E; [|by vm_compute in E].
  assert (Eo : out = [Fetch (send_call sample_draft)] /\ sf_flights s !! 0 <> None)
    by (vm_compute in E; injection E as <- <-; by vm_compute).
  destruct Eo as [-> Hi]. destruct (exec_run _ _ _ _ _ E) as (tr & Hr & _).
  destruct (send_rejected_freezes sample_send_labels _ _ _ _ 0 Hr Hi) as (s1 & Hs1 & Hst & Hf).
  exists s, s1. split_and!; [reflexivity|exact Hs1|exact Hst|].
  exact (proj1 (Hf [] s1 (run_nil _ _))).
Defined.

(** A device with no module to choose still sends: the button is disabled
    only while busy or held, and the draft goes out without a module, which
    the gateway is documented to refuse. *)
Theorem no_module_still_sends :
  exists s, exec sample_send_step
      (send_mount [sample_device "d1" [sample_modem "860" false]] false)
      [SubmitForm (u "+49") (u "hi"); ConfirmSend]
    = Some (s, [Fetch (send_call {| dr_device_id := u "d1"; dr_modem_imei := [];
                                    dr_to := u "+49"; dr_body := u "hi" |})]).
Proof. eexists. vm_compute. reflexivity. Qed.

(** Choosing another device does not clear the module chosen, whatever the
    comment on the state says: it is only not used while it is not on the
    chosen device. *)
Theorem device_change_keeps_choice :
  exists s, exec sample_send_step
      (send_mount [sample_device "d1" [sample_modem "861" true; sample_modem "862" true];
                   sample_device "d2" [sample_modem "863" true]] false)
      [PickModem (u "862"); PickDevice (u "d2"); PickDevice (u "d1")] = Some (s, [])
    /\ activeImei s = u "862".
Proof. eexists. split; [vm_compute; reflexivity|]. by vm_compute. Qed.

(** The dialog names the number and the device. *)
Example sample_dialog :
  exists s, exec sample_send_step sample_send_start [SubmitForm (u "+49") (u "hi")] = Some (s, [])
    /\ confirm_title (fun _ => []) sample_send_labels s = u "Send to +49?"
    /\ confirm_consequence (fun _ => []) sample_send_labels s = u "Billed; leaves from Edge (d1).".
Proof. eexists. split; [vm_compute; reflexivity|]. by vm_compute. Qed.
