(* ===== verification/CommandPath.v ===== *)
(** * From a button of the console to a command of the contract

    The bodies the console posts (components/device-console.tsx, esim-panel.tsx,
    send-sms.tsx, with ConsolePanels, EsimPanel and SendSms) put through the
    gateway's handler (Commands) and held against the contract (Contract).
    Between the two is the text of a JSON body, which carries strings, booleans
    and finite numbers over as they are. *)

From Stdlib Require Import Lia.
From S2P Require Import Prelude JsString JsValue JsMap JsRegex RegexCount Contract Commands Gateway Devices Ussd TableQuery Fleet Guards Settings Component Console ConsolePanels EsimData Esim EsimPanel SendSms.

#[local] Open Scope string_scope.
#[local] Open Scope list_scope.
#[local] Open Scope Z_scope.

(** What the gateway makes of a request of the console to /v1/commands. *)
Definition posted (c : call) : command_answer := enqueueCommand (default VUndef (cl_body c)).


(** ** Text without surrogates crosses as it is *)

Definition plain_char (c : N) : bool := negb (high_surrogate c) && negb (low_surrogate c).
Definition plain_text (s : jstring) : bool := forallb plain_char s.
Lemma plain_well_formed s : plain_text s = true -> well_formed s = s.
Proof.
  induction s as [|c s IH]; [done|]. cbn [plain_text forallb]. intros [Hc Hs]%andb_true_iff. unfold plain_char in Hc.
  apply andb_true_iff in Hc as [Hh%negb_true_iff Hl%negb_true_iff]. cbn. rewrite Hh, Hl. f_equal. by apply IH.
Qed.
Lemma plain_runes s : plain_text s = true -> runes s = s.
Proof. intros Hs. rewrite <-(app_nil_r s) at 1. rewrite runes_app by done. by rewrite app_nil_r. Qed.

Lemma digit_plain c : is_digit c = true -> plain_char c = true.
Proof.
  unfold is_digit, plain_char, high_surrogate, low_surrogate. intros [_ Hd%N.leb_le]%andb_true_iff.
  apply andb_true_iff. split; apply negb_true_iff, andb_false_iff; left; apply N.leb_gt; lia.
Qed.
Lemma digits_plain s : forallb is_digit s = true -> plain_text s = true.
Proof. unfold plain_text. rewrite !forallb_forall. intros Hd c Hc. by apply digit_plain, Hd. Qed.

Lemma well_formed_nonempty s : s <> [] -> well_formed s <> [].
Proof. destruct s as [|c [|d s]]; [done| |]; intros _; cbn; repeat case_match; done. Qed.

(** Fifteen digits, as an IMEI has them; nineteen or twenty, as a card has. *)
Definition digits (lo hi : nat) (s : jstring) : bool :=
  ((lo <=? length s) && (length s <=? hi))%nat && forallb is_digit s.

Lemma digits_match lo hi s :
  (lo <= hi)%nat -> digits lo hi s = true -> Commands.matches (rdigits_between lo hi) (well_formed s) = true /\ well_formed s = s.
Proof.
  intros Hle Hd. unfold digits in Hd. apply andb_true_iff in Hd as [Hl Hd]. pose proof (digits_plain s Hd) as Hp.
  rewrite (plain_well_formed s Hp). split; [|done]. unfold Commands.matches, rdigits_between.
  rewrite (plain_runes s Hp), test_between by done. by rewrite Hl, Hd.
Qed.


Lemma find_key {A} (p : A -> bool) (f : A -> jstring) (l : list A) x :
  (forall y, In y l -> p y = jeqb (f x) (f y)) -> NoDup (f <$> l) -> In x l -> List.find p l = Some x.
Proof.
  induction l as [|y l IH]; [done|]. intros Hp Hn Hin. cbn [fmap list_fmap] in Hn. apply NoDup_cons in Hn as [Hy Hn].
  cbn [List.find]. rewrite (Hp y) by (by left). destruct Hin as [->|Hin]; [by rewrite jeqb_refl|].
  destruct (jeqb (f x) (f y)) eqn:E.
  - apply jeqb_eq in E. exfalso. apply Hy. rewrite <-E. by apply list_elem_of_fmap_2, list_elem_of_In.
  - apply IH; [|done|done]. intros z Hz. apply Hp. by right.
Qed.

Lemma kinds_distinct : NoDup ((fun s => u (sp_Kind s)) <$> catalogue).
Proof. by apply (bool_decide_unpack _); vm_compute. Qed.

Lemma Lookup_in s : In s catalogue -> Lookup (u (sp_Kind s)) = Some s.
Proof. intros Hin. unfold Lookup. apply (find_key _ (fun s => u (sp_Kind s))); [done|apply kinds_distinct|done]. Qed.

(** A request that decodes is queued when the checks of [BuildPayload] pass. *)
Lemma posted_queued c r s payload :
  DecodeRequest (default VUndef (cl_body c)) = Some r -> In s catalogue ->
  Kind r = u (sp_Kind s) -> jeqb (Kind r) [] = false ->
  DeviceID r <> [] -> (sp_NeedsModem s = true -> Commands.matches imeiPattern (ModemIMEI r) = true) ->
  sp_Build s r = Payload payload -> posted c = Queued s payload.
Proof.
  intros Hr Hs Hk Hn Hd%jeqb_neq Hm Hb. unfold posted, enqueueCommand, BuildPayload.
  rewrite Hr, Hn, Hk, (Lookup_in s Hs), Hd. destruct (sp_NeedsModem s); cbn [andb]; [rewrite Hm by done; cbn [negb]|]; by rewrite Hb.
Qed.


(** ** The buttons of the console *)

Section Console.
Context (deviceId imei : jstring).
Hypothesis deviceId_given : deviceId <> [].
Hypothesis imei_digits : digits 15 15 imei = true.


Lemma imei_match : Commands.matches imeiPattern (well_formed imei) = true.
Proof. exact (proj1 (digits_match 15 15 imei ltac:(lia) imei_digits)). Qed.





End Console.

(** ** The buttons with a text of the operator's in them *)





Section Typed.
Context `{NumberText} `{ToNumber}.

End Typed.

(** ** Each of them against the schema *)






Section Texts.
Context (deviceId imei : jstring).
Hypothesis deviceId_given : deviceId <> [].










End Texts.




Section Numbers.
Context (deviceId imei : jstring).
Hypothesis deviceId_given : deviceId <> [].








End Numbers.

Section Posts.
Context `{NumberText} `{ToNumber}.




End Posts.


(** What a request is turned into, with the entry that builds it. *)
Lemma ussd_cancel_posted deviceId imei selected :
  deviceId <> [] -> digits 15 15 imei = true ->
  exists payload,
    posted (command_call deviceId selected (u "send_ussd")
      [(u "modem_imei", VStr imei); (u "code", VStr []); (u "stage", VStr (u "cancel"))])
    = Queued (spec "send_ussd" "SendUssd" true true send_ussd) payload
    /\ prop (VObj payload) (u "code") = VStr [] /\ inhabits SendUssd_schema (VObj payload) = false.
Proof.
  intros Hd%well_formed_nonempty Hi. pose proof (imei_match imei Hi) as Hm. set (c := command_call _ _ _ _).
  assert (Hr : exists r, DecodeRequest (default VUndef (cl_body c)) = Some r /\ Commands.Kind r = u "send_ussd"
    /\ DeviceID r = well_formed deviceId /\ ModemIMEI r = well_formed imei /\ Code r = [] /\ Stage r = u "cancel").
  { subst c. unfold DecodeRequest, Commands.text, Commands.decode_string. remember well_formed as g eqn:Hg.
    eexists. split; [lazy; reflexivity|]. subst g. by split_and!. }
  destruct Hr as (r & Hr & Hk & Hdev & Himei & Hcode & Hstage).
  assert (Hb : send_ussd r = Payload (plain "SendUssd" r ++ [Commands.str "code" []; Commands.str "stage" (u "cancel")])).
  { unfold send_ussd, ussd_stage. rewrite Hstage, Hcode. reflexivity. }
  pose proof (posted_queued c r (spec "send_ussd" "SendUssd" true true send_ussd) _ Hr
    ltac:(unfold catalogue; cbn [In]; tauto) Hk ltac:(by rewrite Hk) ltac:(by rewrite Hdev)
    ltac:(by rewrite Himei; intros _) Hb) as Hq.
  eexists. split; [exact Hq|]. split; [reflexivity|].
  destruct (queued_facts _ _ _ Hq) as (r' & schema & Hr' & _ & _ & Hs & Hv). rewrite Hr in Hr'. injection Hr' as <-.
  injection Hs as <-. rewrite Hv. cbn [sp_ContractKind spec]. unfold unchecked. cbn [String.eqb Ascii.eqb Bool.eqb].
  by rewrite Hcode.
Qed.

(** C38. Where a USSD cancel leaves the contract: it carries an empty code,
    as the gateway means it to (the field is required), the gateway queues
    it, and the schema asks for at least one character. *)
Theorem ussd_cancel_off_contract deviceId rows selected a :
  deviceId <> [] -> ussd_cancel rows selected = Some a ->
  let imei := default_to selected (latestUssdExchange rows ≫= ux_modemImei) in
  digits 15 15 imei = true ->
  exists s payload,
    posted (command_call deviceId selected a.1 a.2) = Queued s payload
    /\ prop (VObj payload) (u "code") = VStr [] /\ inhabits SendUssd_schema (VObj payload) = false.
Proof.
  intros Hd Ha imei Hi. unfold ussd_cancel, ussdCancelRequest in Ha. fold imei in Ha.
  destruct (jeqb imei []); [done|]. injection Ha as <-. cbn [fst snd uq_modem_imei uq_code uq_stage].
  destruct (ussd_cancel_posted deviceId imei selected Hd Hi) as (payload & Hq & Hv). by eexists _, payload.
Qed.

(** ** Two tables about the same commands *)

(** The kinds the gateway calls mutating that the console sends without a
    question: notes on the register, and the way back from a guarded half. *)
Definition quiet_change `{ToString} (kind : jstring) (payload : jsval) : bool :=
  one_of kind ["rename_esim_profile"; "register_modem"; "update_modem"; "reconfirm_modem"]
  || one_of kind ["set_radio"; "set_data_network"] && negb (bool_decide (prop payload (u "enabled") = VBool false))
  || one_of kind ["select_operator"] && negb (bool_decide (prop payload (u "mode") = VStr (u "manual")))
  || one_of kind ["send_ussd"] && bool_decide (prop payload (u "stage") = VStr (u "cancel"))
  || one_of kind ["run_at_command"]
     && bool_decide (ag_id <$> atCommandGuard (to_string (nullish (prop payload (u "command")) (VStr []))) = None).

(** The kinds the gateway takes and the console's table does not list. *)
Definition unlisted : list string := ["send_sms"; "self_update"].

Lemma unasked_split `{ToString} payload :
  Forall (fun s => one_of (u (sp_Kind s)) unlisted = false ->
    unasked (u (sp_Kind s)) payload = negb (sp_Mutating s) || quiet_change (u (sp_Kind s)) payload) catalogue.
Proof.
  unfold catalogue. repeat apply Forall_cons_2; [..|by apply Forall_nil].
  all: cbn [sp_Kind sp_Mutating bare spec]; unfold unasked, quiet_change, unlisted, unasked_kinds, one_of;
    cbn [existsb]; js_names; cbn [andb orb negb]; rewrite ?orb_false_r; done.
Qed.

Lemma listed_kinds :
  forallb (fun s => eqb (is_some (field (u (sp_Kind s)) DEVICE_COMMAND_GUARDS))
                        (negb (one_of (u (sp_Kind s)) unlisted))) catalogue = true
  /\ forallb (fun kv : jstring * list CommandGuardVariant => existsb (fun s => jeqb kv.1 (u (sp_Kind s)) && negb (one_of kv.1 unlisted)) catalogue)
       DEVICE_COMMAND_GUARDS = true.
Proof. by vm_compute. Qed.

Lemma unlisted_guard `{ToString} kind payload :
  one_of (u kind) unlisted = true ->
  exists g, deviceCommandGuard (u kind) payload = Ok g /\ cg_consequence g = Some UNKNOWN_COMMAND.
Proof.
  unfold one_of, unlisted. cbn [existsb].
  intros [->%jeqb_eq|[->%jeqb_eq|[=]]%orb_true_iff]%orb_true_iff; unfold deviceCommandGuard, table_read;
    js_names; by eexists.
Qed.

Lemma listed_guard `{ToString} kind payload :
  is_some (field kind DEVICE_COMMAND_GUARDS) = true ->
  exists g, deviceCommandGuard kind payload = Ok g /\ (cg_consequence g = None <-> unasked kind payload = true).
Proof.
  intros Hk. destruct (jeqb kind (u "run_at_command")) eqn:Er; [|by apply guard_known].
  apply jeqb_eq in Er as ->. destruct (guard_at payload) as (g & Hg & Hc). exists g. split; [done|].
  rewrite Hc. unfold unasked, unasked_kinds. cbn [existsb]. js_names. cbn [andb orb].
  rewrite bool_decide_eq_true. by destruct (atCommandGuard _).
Qed.

(** C9. The console asks about what the gateway says mutates.  The two tables
    name the same commands but for two: the message, which has a form and a
    dialog of its own (it is posted without a kind, and the gateway reads that
    as send_sms), and the agent's update, for which the console has no
    button.  The guard of those two asks about an unknown command.  Of the
    rest every kind the gateway calls read-only goes out unasked, and a
    mutating one goes unasked only as a note on the register, as the way back
    from a guarded half, as a USSD cancel, or as an AT command that trips no
    entry. *)
Theorem guards_follow_catalogue `{ToString} payload :
  Forall (fun s =>
    exists g, deviceCommandGuard (u (sp_Kind s)) payload = Ok g
      /\ if one_of (u (sp_Kind s)) unlisted then cg_consequence g = Some UNKNOWN_COMMAND
         else cg_consequence g = None <-> sp_Mutating s = false \/ quiet_change (u (sp_Kind s)) payload = true) catalogue
  /\ forall kind, is_some (field kind DEVICE_COMMAND_GUARDS) = true <->
       exists s, In s catalogue /\ kind = u (sp_Kind s) /\ one_of kind unlisted = false.
Proof.
  destruct listed_kinds as [Hl Hg]. pose proof (proj1 (forallb_forall _ _) Hl) as Hin. split.
  - apply Forall_forall. intros s Hs%list_elem_of_In. specialize (Hin s Hs). apply eqb_prop in Hin.
    destruct (one_of (u (sp_Kind s)) unlisted) eqn:Eo; [by apply unlisted_guard|].
    destruct (listed_guard (u (sp_Kind s)) payload Hin) as (g & Hr & Hu). exists g. split; [done|].
    rewrite Hu, (proj1 (Forall_forall _ _) (unasked_split payload) s (proj2 (list_elem_of_In _ _) Hs) Eo).
    by rewrite orb_true_iff, negb_true_iff.
  - intros kind. split.
    + intros Hk. destruct (field kind DEVICE_COMMAND_GUARDS) as [vs|] eqn:Ef; [|done]. apply map_get_elem in Ef;
        [|by apply (bool_decide_unpack _); vm_compute].
      apply list_elem_of_In in Ef. pose proof (proj1 (forallb_forall _ _) Hg _ Ef) as (s & Hs & [He Ho]%andb_true_iff)%existsb_exists.
      cbn [fst] in He, Ho. exists s. split_and!; [done|by apply jeqb_eq|by apply negb_true_iff].
    + intros (s & Hs & -> & Eo). specialize (Hin s Hs). apply eqb_prop in Hin. by rewrite Hin, Eo.
Qed.

(** ** Instances *)

#[local] Existing Instances sample_number_text sample_to_number.


Lemma ussd_cancel_off_contract_witness :
  exists a, ussd_cancel [] (u "861234567890123") = Some a
  /\ exists s payload, posted (command_call (u "dev-1") (u "861234567890123") a.1 a.2) = Queued s payload
       /\ inhabits SendUssd_schema (VObj payload) = false.
Proof.
  eexists. split; [vm_compute; reflexivity|].
  destruct (ussd_cancel_off_contract (u "dev-1") [] (u "861234567890123") _ ltac:(done) eq_refl ltac:(by vm_compute))
    as (s & payload & Hq & _ & Hv).
  exists s, payload. split; [exact Hq|exact Hv].
Defined.
