(* ===== verification/Inbox.v ===== *)
(** * The inbox pages (app/inbox/page.tsx, app/inbox/[peer]/page.tsx)

    What the server reads for the inbox, in which order and with which
    failures kept apart, and what it hands to the send form; the conversation
    list with its search and order; one conversation's page.  The last
    section joins the page, the form and the gateway. *)

From Stdlib Require Import Lia.
From S2P Require Import Prelude JsString JsValue JsSort Fetch Session Gateway Devices Messages TableQuery SmsSafety I18n Component SendSms.

(** ** app/inbox/page.tsx: what is read *)

Record inbox_read := {
  ib_writable : bool;
  ib_threads : list ThreadRow;
  ib_contacts : list ContactRow;
  ib_devices : list (jstring * jstring);     (** id and name *)
  ib_loadError : bool;
  ib_modems : list ModemRow;
  ib_modemsUnknown : bool;
}.

Section Read.
Variable env : environment.
Variable fetchImpl : fetch_fn.
Variables (host : jstring) (token : option jstring).

(** The first [try]: what was assigned before the failure stays. *)
Definition inbox_lists : list ThreadRow * list ContactRow * list (jstring * jstring) * bool :=
  match fetchThreads env fetchImpl host token with
  | Throw _ => ([], [], [], true)
  | Ok threads =>
      match fetchContacts env fetchImpl host token with
      | Throw _ => (threads, [], [], true)
      | Ok contacts =>
          match fetchDevices env fetchImpl host token with
          | Throw _ => (threads, contacts, [], true)
          | Ok devices => (threads, contacts, (fun d => (dv_id d, dv_name d)) <$> devices, false)
          end
      end
  end.

Definition InboxPage_read : inbox_read :=
  let '(threads, contacts, devices, loadError) := inbox_lists in
  let modems := fetchModems env fetchImpl host token in
  {| ib_writable := mayWrite (fetchConsoleRole env fetchImpl host token);
     ib_threads := threads; ib_contacts := contacts; ib_devices := devices;
     ib_loadError := loadError;
     ib_modems := match modems with Ok rows => rows | Throw _ => [] end;
     ib_modemsUnknown := negb (is_ok modems) |}.
End Read.

(** ** What the send form is drawn with *)

Section Props.
Variable inherited_text : jstring -> jstring.
Variable catalogs : Locale -> list (jstring * jstring).
Variable locale : Locale.

Definition send_modem (modem : ModemRow) : SendModem :=
  {| sm_imei := md_imei modem; sm_msisdn := md_msisdn modem;
     sm_msisdnPending := md_msisdnPending modem; sm_observed := md_observed modem |}.

(** A key that is [undefined] is looked up under that name. *)
Definition key_text (key : option jstring) : jstring := default_to (u "undefined") key.

Definition blocked_line (module : SmsBlockedModule) : BlockedModule :=
  {| bm_imei := sb_imei module;
     bm_why := t inherited_text catalogs (key_text (sb_why module)) locale
                 (Some [(u "imei", Some (sb_imei module))]);
     bm_cost := t inherited_text catalogs (key_text (sb_cost module)) locale None |}.

Definition sendDevices (page : inbox_read) : list SendDevice :=
  (fun device =>
     {| sd_id := device.1; sd_name := device.2;
        sd_modems := send_modem <$> List.filter (fun modem => jeqb (md_deviceId modem) device.1)
                                      (ib_modems page);
        sd_blocked := blocked_line <$> blockedSendModules (ib_modems page) device.1 |})
    <$> ib_devices page.

(** The props of the form, for an account that may write; a paragraph stands
    in its place otherwise. *)
Definition send_props (page : inbox_read) : option (list SendDevice * bool) :=
  if ib_writable page then Some (sendDevices page, ib_modemsUnknown page) else None.
End Props.

(** ** The conversation list *)

Definition SORTS : list jstring := [u "last"; u "unread"; u "peer"].

Section Threads.
Context `{CaseMapping} `{NumberText} `{Collation}.

Definition thread_fields (thread : ThreadRow) : list table_field :=
  [FText (th_peer thread); FText (th_name thread); FText (th_lastBody thread);
   FText (th_deviceId thread)].

Definition thread_order (order : jstring) : comparator ThreadRow :=
  by_ [ (fun left right => if jeqb order (u "last")
           then biggestFirst (Some (th_lastAt left)) (Some (th_lastAt right)) else 0%Z);
        (fun left right => if jeqb order (u "unread")
           then biggestFirst (Some (th_unread left)) (Some (th_unread right)) else 0%Z);
        cmp_on th_peer alphabetical ].

(** The query string: [?q] and [?sort]. *)
Definition shownThreads (q sort_by : option jstring) (page : inbox_read) : list ThreadRow :=
  let needle := needleOf q in
  sort (thread_order (pickSort sort_by SORTS (u "last")))
    (List.filter (fun thread => matches needle (thread_fields thread)) (ib_threads page)).

Definition inbox_unread (page : inbox_read) : Z :=
  fold_left (fun total thread => total + th_unread thread)%Z (ib_threads page) 0%Z.

Definition threadsEmpty (q sort_by : option jstring) (page : inbox_read) : option EmptyKind :=
  emptyKind (length (ib_threads page)) (length (shownThreads q sort_by page)) (needleOf q).

(** Beside a contact: how much of its conversation is unread. *)
Definition contact_unread (page : inbox_read) (contact : ContactRow) : option Z :=
  match List.find (fun row => jeqb (th_peer row) (co_peer contact)) (ib_threads page) with
  | Some thread => if (0 <? th_unread thread)%Z then Some (th_unread thread) else None
  | None => None
  end.

Definition thread_link (peer : jstring) : res jstring :=
  e ← encodeURIComponent peer; Ok (u "/inbox/" ++ e).

(** ** app/inbox/[peer]/page.tsx *)

Record thread_page := {
  tp_peer : jstring;
  tp_writable : bool;
  tp_messages : list ThreadMessage;
  tp_name : jstring;
  tp_loadError : bool;
}.

Definition ThreadPage (env : environment) (fetchImpl : fetch_fn) (host : jstring)
    (token : option jstring) (encoded : jstring) : res thread_page :=
  peer ← decodeURIComponent encoded;
  let writable := mayWrite (fetchConsoleRole env fetchImpl host token) in
  let page messages name loadError :=
    {| tp_peer := peer; tp_writable := writable; tp_messages := messages; tp_name := name;
       tp_loadError := loadError |} in
  Ok match fetchThread env fetchImpl host token peer with
     | Throw _ => page [] [] true
     | Ok messages =>
         match fetchThreads env fetchImpl host token with
         | Throw _ => page messages [] true
         | Ok threads =>
             page messages
               (from_option th_name [] (List.find (fun thread => jeqb (th_peer thread) peer) threads))
               false
         end
     end.

(** ** The list is the tenant's *)

Lemma thread_order_consistent order : Consistent (thread_order order).
Proof.
  apply by_consistent. repeat (apply Forall_cons; split); [| |apply _|constructor].
  - destruct (jeqb order (u "last")); [apply (_ : Consistent (cmp_on (fun th => Some (th_lastAt th)) biggestFirst))|].
    split; intros; lia.
  - destruct (jeqb order (u "unread")); [apply (_ : Consistent (cmp_on (fun th => Some (th_unread th)) biggestFirst))|].
    split; intros; lia.
Qed.

(** Searching and sorting the inbox.  The list shown is exactly the
    conversations that match, in the order asked for (the newest first when
    nothing or nonsense is asked for); neither the search nor the order
    changes the unread total; and a search without a result is not an empty
    inbox. *)
Theorem inbox_list q sort_by page :
  (forall thread, thread ∈ shownThreads q sort_by page <->
     thread ∈ ib_threads page /\ matches (needleOf q) (thread_fields thread) = true)
  /\ StronglySorted (cmp_le (thread_order (pickSort sort_by SORTS (u "last")))) (shownThreads q sort_by page)
  /\ shownThreads q sort_by page ≡ₚ
     List.filter (fun thread => matches (needleOf q) (thread_fields thread)) (ib_threads page)
  /\ match threadsEmpty q sort_by page with
     | Some EmptyNone => ib_threads page = []
     | Some EmptyNoMatch => ib_threads page <> [] /\ needleOf q <> []
     | None => shownThreads q sort_by page <> []
     end.
Proof.
  unfold shownThreads. split_and!.
  - intros thread. rewrite elem_of_sort, elem_of_filter_bool. done.
  - apply sort_sorted, thread_order_consistent.
  - apply sort_perm.
  - pose proof (emptyKind_honest thread_fields (ib_threads page) (needleOf q)) as Hk.
    unfold threadsEmpty, shownThreads. rewrite sort_length. cbn zeta in Hk.
    destruct (emptyKind _ _ _) as [[]|]; [done|by destruct Hk as (? & ? & _)|].
    by rewrite sort_nil.
Qed.

(** ** A link of the list *)

(** Opening a conversation.  The link beside a conversation is one path
    segment, and the page it opens is that conversation: it reads back the
    number whatever it is written with, and the messages it shows without an
    error are the gateway's for that number. *)
Theorem thread_link_roundtrip env fetchImpl host token peer link :
  units16 peer -> thread_link peer = Ok link ->
  exists encoded, link = u "/inbox/" ++ encoded /\ 47%N ∉ encoded /\ 63%N ∉ encoded
    /\ exists page, ThreadPage env fetchImpl host token encoded = Ok page /\ tp_peer page = peer
    /\ (tp_loadError page = false -> fetchThread env fetchImpl host token peer = Ok (tp_messages page)).
Proof.
  intros Hu. unfold thread_link. destruct (encodeURIComponent peer) as [e|] eqn:Ee; cbn; [|done].
  intros [= <-]. exists e. split_and!; [done|by eapply encode_no_char|by eapply encode_no_char|].
  unfold ThreadPage. rewrite (decode_encode _ _ Hu Ee). cbn. eexists. split; [done|].
  destruct (fetchThread env fetchImpl host token peer) as [messages|]; [|done].
  by destruct (fetchThreads env fetchImpl host token).
Qed.
End Threads.

(** ** The page, the form and the gateway together *)

Section EndToEnd.
Variable inherited_text : jstring -> jstring.
Variable catalogs : Locale -> list (jstring * jstring).
Variable locale : Locale.
Variables (env : environment) (host : jstring) (token : option jstring).

Definition page_props (fetchImpl : fetch_fn) : option (list SendDevice * bool) :=
  send_props inherited_text catalogs locale (InboxPage_read env fetchImpl host token).

(** The page with the form in it.  A drawing asks the gateway, and puts the
    form there, gives the one that stands its new props, or takes it away. *)
Inductive inbox_event :=
  | InForm (e : send_event)
  | DrawPage (gateway : fetch_fn).

Definition inbox_step (labels : send_labels) (s : option send_form) (e : inbox_event)
    : option (option send_form * list effect) :=
  let in_form form e := match send_step labels form e with Some (form, out) => Some (Some form, out) | None => None end in
  match e with
  | DrawPage gateway =>
      match page_props gateway, s with
      | None, _ => Some (None, [])
      | Some (devices, unknown), None => Some (Some (send_mount devices unknown), [])
      | Some (devices, unknown), Some form => in_form form (RedrawForm devices unknown)
      end
  | InForm (RedrawForm _ _) => None
  | InForm e => match s with Some form => in_form form e | None => None end
  end.

(** The gateway the page was last drawn with. *)
Definition drawn_with (es : list inbox_event) : option fetch_fn :=
  last (omap (fun e => match e with DrawPage gateway => Some gateway | _ => None end) es).
Definition submits (e : inbox_event) : bool := match e with InForm e => is_submit e | DrawPage _ => false end.

(** What the gateway said when the page offered a draft. *)
Definition gateway_allows (fetchImpl : fetch_fn) (d : Draft) : Prop :=
  fetchConsoleRole env fetchImpl host token = admin
  /\ exists modems, fetchModems env fetchImpl host token = Ok modems
  /\ (forall modem, modem ∈ modems -> md_deviceId modem = dr_device_id d ->
        md_imei modem <> u "867018069509705" /\ md_imei modem ∉ object_prototype)
  /\ (dr_modem_imei d = []
         /\ (forall modem, modem ∈ modems -> md_deviceId modem = dr_device_id d -> md_observed modem = false)
       \/ exists modem, modem ∈ modems /\ md_deviceId modem = dr_device_id d
            /\ md_imei modem = dr_modem_imei d /\ md_observed modem = true).

Lemma page_allows fetchImpl props d :
  page_props fetchImpl = Some props -> draft_allowed props d -> gateway_allows fetchImpl d.
Proof.
  unfold page_props, send_props, InboxPage_read.
  destruct (inbox_lists _ _ _ _) as [[[threads contacts] devices] loadError]. cbn [ib_writable ib_modemsUnknown].
  destruct (mayWrite _) eqn:Ew; [|done]. intros [= <-] (Hu & device & Hin & Hid & Hb & Hm).
  cbn [fst snd] in *. unfold gateway_allows.
  split; [by apply bool_decide_eq_true in Ew|].
  destruct (fetchModems env fetchImpl host token) as [modems|]; [|done]. exists modems. split; [done|].
  unfold sendDevices in Hin. cbn [ib_devices ib_modems] in Hin.
  apply list_elem_of_fmap in Hin as ([id name] & -> & _). cbn in Hid, Hb, Hm. subst id.
  apply fmap_nil_inv in Hb. split.
  - intros modem Hmo Hd. apply (blocked_module_none (dr_device_id d) modem); [|done].
    by apply (proj1 (blockedSendModules_nil modems _) Hb).
  - destruct Hm as [[Hno ->]|(modem & Hmo & Ho & Hi)].
    + left. split; [done|]. intros modem Hmo Hd. apply not_true_iff_false. intros Ho.
      assert (Hx : send_modem modem ∈ List.filter sm_observed (send_modem <$>
                     List.filter (fun modem => jeqb (md_deviceId modem) (dr_device_id d)) modems)).
      { apply elem_of_filter_bool. split; [|done]. apply list_elem_of_fmap. exists modem. split; [done|].
        apply elem_of_filter_bool. split; [done|]. by apply jeqb_eq. }
      rewrite Hno in Hx. by apply not_elem_of_nil in Hx.
    + right. apply list_elem_of_fmap in Hmo as (m & -> & [Hmo Hd]%elem_of_filter_bool).
      apply jeqb_eq in Hd. exists m. by split_and!.
Qed.

(** The draft a run left to be confirmed: of the last submit, with what was
    typed there, and allowed by the gateway of the drawing it was made on. *)
Definition taken (es : list inbox_event) (d : Draft) : Prop :=
  exists before to body after gateway,
    es = before ++ InForm (SubmitForm to body) :: after /\ Forall (fun e => submits e = false) after
    /\ drawn_with before = Some gateway /\ gateway_allows gateway d /\ dr_to d = to /\ dr_body d = body.

Definition inbox_inv (es : list inbox_event) (s : option send_form) : Prop :=
  match s with
  | None => True
  | Some form =>
      (exists gateway, drawn_with es = Some gateway /\ page_props gateway = Some (current form))
      /\ forall d, sf_pending form = Some d -> taken es d
  end.

Lemma drawn_with_form es e : drawn_with (es ++ [InForm e]) = drawn_with es.
Proof. unfold drawn_with. by rewrite omap_app, app_nil_r. Qed.
Lemma drawn_with_page es gateway : drawn_with (es ++ [DrawPage gateway]) = Some gateway.
Proof. unfold drawn_with. rewrite omap_app. apply last_snoc. Qed.
Lemma taken_snoc es d e : taken es d -> submits e = false -> taken (es ++ [e]) d.
Proof.
  intros (before & to & body & after & gateway & -> & Ha & ?) He. exists before, to, body, (after ++ [e]), gateway.
  split; [by rewrite <-app_assoc|]. split; [|done]. apply Forall_app. by repeat constructor.
Qed.

Section InboxRuns.
Context (labels : send_labels).

(** One event of the form. *)
Lemma form_step_inv es form e form' out :
  (forall devices unknown, e <> RedrawForm devices unknown) ->
  inbox_inv es (Some form) -> send_step labels form e = Some (form', out) ->
  inbox_inv (es ++ [InForm e]) (Some form')
  /\ forall x, x ∈ out -> e = ConfirmSend /\ exists d, x = Fetch (send_call d) /\ taken es d.
Proof.
  intros Hne [(gateway & Hg & Hprops) Ht] Hst.
  destruct (send_step_cases labels _ _ _ _ Hst) as [Hc Hk].
  assert (Hcur : current form' = current form) by (rewrite Hc; destruct e; try done; by destruct (Hne devices modemsUnknown)).
  split.
  - split; [exists gateway; by rewrite drawn_with_form, Hcur|]. intros d Hd.
    destruct (is_submit e) eqn:Es.
    + destruct e as [to body| | | | | |]; try done. apply send_step_submit in Hst as (Hp & Ha & _).
      rewrite Hp in Hd. injection Hd as <-. exists es, to, body, [], gateway.
      split_and!; [done|by constructor|done| |done|done]. by eapply page_allows.
    + apply taken_snoc; [|done]. destruct Hk as [(_ & [Hn|Hs])|[(_ & Hs & _)|(_ & Hn & _)]]; try congruence.
      apply Ht. congruence.
  - intros x Hx. destruct Hk as [(-> & _)|[(-> & _)|(-> & _ & d & Hd & ->)]]; [by apply not_elem_of_nil in Hx..|].
    apply list_elem_of_singleton in Hx as ->. split; [done|]. exists d. split; [done|]. by apply Ht.
Qed.

Lemma inbox_step_inv es s e s' out :
  inbox_inv es s -> inbox_step labels s e = Some (s', out) ->
  inbox_inv (es ++ [e]) s'
  /\ forall x, x ∈ out -> e = InForm ConfirmSend /\ exists d, x = Fetch (send_call d) /\ taken es d.
Proof.
  intros Hi Hst. destruct e as [e|gateway].
  - assert (Hf : (forall devices unknown, e <> RedrawForm devices unknown)
      /\ exists form form', s = Some form /\ send_step labels form e = Some (form', out) /\ s' = Some form').
    { unfold inbox_step in Hst. destruct e, s as [form|]; try done;
        (destruct (send_step labels form _) as [[form' out']|] eqn:Ef; [|done]); injection Hst as <- <-;
        (split; [done|]; by exists form, form'). }
    destruct Hf as (Hne & form & form' & -> & Hf & ->). destruct (form_step_inv _ _ _ _ _ Hne Hi Hf) as [Hi' Hx].
    split; [done|]. intros x Hin. by destruct (Hx x Hin) as [-> ?].
  - cbn [inbox_step] in Hst. destruct (page_props gateway) as [[devices unknown]|] eqn:Ep.
    2: { injection Hst as <- <-. split; [done|]. by intros x ?%not_elem_of_nil. }
    destruct s as [form|].
    + destruct (send_step labels form (RedrawForm devices unknown)) as [[form' out']|] eqn:Ef; [|done].
      injection Hst as <- <-. destruct (send_step_cases labels _ _ _ _ Ef) as [Hc Hk].
      assert (Hout : out' = [] /\ (sf_pending form' = None \/ sf_pending form' = sf_pending form))
        by (by destruct Hk as [?|[(_ & ? & _)|(? & _)]]).
      destruct Hout as [-> Hp]. split; [|by intros x ?%not_elem_of_nil].
      split; [exists gateway; by rewrite drawn_with_page, Hc|]. intros d Hd. apply taken_snoc; [|done].
      apply Hi. destruct Hp; congruence.
    + injection Hst as <- <-. split; [|by intros x ?%not_elem_of_nil].
      split; [exists gateway; by rewrite drawn_with_page|done].
Qed.

Lemma inbox_run_inv s tr s' : run (inbox_step labels) s tr s' -> forall es, inbox_inv es s ->
  forall before e out after x, tr = before ++ (e, out) :: after -> x ∈ out ->
  e = InForm ConfirmSend /\ exists d, x = Fetch (send_call d) /\ taken (es ++ before.*1) d.
Proof.
  induction 1 as [s|s e s1 out tr s2 Hst Hr IH]; intros es Hi before e' out' after x Heq Hx;
    [by destruct before|].
  destruct (inbox_step_inv _ _ _ _ _ Hi Hst) as [Hi' Ho]. destruct before as [|eo before]; injection Heq as <- Heq.
  - subst tr out'. rewrite app_nil_r. by apply Ho.
  - destruct (IH _ Hi' _ _ _ _ _ Heq Hx) as [-> (d & -> & Hd)]. split; [done|]. exists d. split; [done|].
    by rewrite <-app_assoc in Hd.
Qed.

(** C2. The inbox end to end.  Whatever the gateway answers to each drawing
    of the page, and however the form on it is used, what leaves it is the
    draft of the last submit, with the number and the text typed there, and
    leaves by confirming its dialog; and the gateway of the drawing that draft
    was made on said that the session is [admin]'s, that its list of modules
    could be read, that no module of the device is barred, and that the module
    is one of that device it has seen; without a module a message goes only
    for a device with none to choose. *)
Theorem inbox_message_allowed tr s before e out after x :
  run (inbox_step labels) None tr s -> tr = before ++ (e, out) :: after -> x ∈ out ->
  e = InForm ConfirmSend /\ exists d, x = Fetch (send_call d) /\ taken before.*1 d.
Proof. intros Hr Heq Hx. exact (inbox_run_inv _ _ _ Hr [] I _ _ _ _ _ Heq Hx). Qed.
End InboxRuns.
End EndToEnd.

(** ** Concrete runs *)

(** A gateway with one device and one module, for a session that may
    write. *)
Definition sample_gateway : fetch_fn := fun rq =>
  let answer fields := Response 200 (Some (VObj fields)) in
  if endsWith (rq_url rq) (u "/v1/auth/session") then answer [(u "role", VStr (u "admin"))]
  else if endsWith (rq_url rq) (u "/v1/devices")
  then answer [(u "devices", VArr [VObj [(u "id", VStr (u "d1")); (u "name", VStr (u "Edge"))]])]
  else if endsWith (rq_url rq) (u "/v1/modems")
  then answer [(u "modems", VArr [VObj [(u "id", VStr (u "m1")); (u "imei", VStr (u "861"));
         (u "device_id", VStr (u "d1")); (u "observed", VBool true)]])]
  else answer [].
Definition sample_env : environment := fun _ => None.

Definition sample_inbox_step :=
  inbox_step (fun _ => []) (fun _ => []) zh sample_env (u "a.test") None sample_send_labels.

Lemma inbox_message_allowed_witness :
  exists s, exec sample_inbox_step None
      [DrawPage sample_gateway; InForm (SubmitForm (u "+49") (u "hi")); InForm ConfirmSend]
    = Some (s, [Fetch (send_call sample_draft)])
  /\ exists d, Fetch (send_call sample_draft) = Fetch (send_call d)
       /\ taken sample_env (u "a.test") None [DrawPage sample_gateway; InForm (SubmitForm (u "+49") (u "hi"))] d.
Proof.
  set (step := sample_inbox_step).
  assert (E1 : exists s1, step None (DrawPage sample_gateway) = Some (s1, [])
    /\ exists s2, step s1 (InForm (SubmitForm (u "+49") (u "hi"))) = Some (s2, [])
    /\ exists s3, step s2 (InForm ConfirmSend) = Some (s3, [Fetch (send_call sample_draft)])).
  { eexists. split; [vm_compute; reflexivity|]. eexists. split; [vm_compute; reflexivity|].
    eexists. vm_compute. reflexivity. }
  destruct E1 as (s1 & E1 & s2 & E2 & s3 & E3). exists s3. split.
  - cbn [exec]. rewrite E1, E2, E3. reflexivity.
  - refine (proj2 (inbox_message_allowed (fun _ => []) (fun _ => []) zh sample_env (u "a.test") None sample_send_labels
      _ s3 [(DrawPage sample_gateway, []); (InForm (SubmitForm (u "+49") (u "hi")), [])]
      (InForm ConfirmSend) _ [] _ _ eq_refl _)).
    + eapply run_cons; [exact E1|]. eapply run_cons; [exact E2|]. eapply run_cons; [exact E3|]. apply run_nil.
    + left.
Defined.

Lemma thread_link_roundtrip_witness :
  thread_link (u "+49 170/1") = Ok (u "/inbox/%2B49%20170%2F1")
  /\ exists encoded, u "/inbox/%2B49%20170%2F1" = u "/inbox/" ++ encoded /\ 47%N ∉ encoded
    /\ 63%N ∉ encoded
    /\ exists page, ThreadPage sample_env sample_gateway (u "a.test") None encoded = Ok page
         /\ tp_peer page = u "+49 170/1".
Proof.
  assert (E : thread_link (u "+49 170/1") = Ok (u "/inbox/%2B49%20170%2F1")) by reflexivity.
  split; [exact E|].
  destruct (thread_link_roundtrip sample_env sample_gateway (u "a.test") None (u "+49 170/1") _
    ltac:(apply (bool_decide_eq_true_1 _); reflexivity) E)
    as (encoded & E1 & E2 & E3 & page & E4 & E5 & _).
  exists encoded. split_and!; [exact E1|exact E2|exact E3|]. exists page. split; [exact E4|exact E5].
Defined.
