(* ===== verification/Conversation.v ===== *)
(** * One conversation (components/conversation.tsx: Conversation,
      ContactName)

    Marking read, deleting the thread or a message, naming the number.  The
    [busy] flag is shared by the two components; the role stands for as long
    as the page does.  A dialog's confirming button also closes it. *)

From Stdlib Require Import Lia.
From S2P Require Import Prelude JsString JsValue Messages Component.

Inductive deletion :=
  | DeleteThread
  | DeleteMessage (id : jstring).
#[export] Instance deletion_eq_dec : EqDecision deletion.
Proof. solve_decision. Defined.

(** A request whose answer is awaited. *)
Inductive write := MarkRead | RemoveThread | RemoveMessage | ForgetContact | Rename.

Record conversation := {
  cv_name : jstring;                      (** props *)
  cv_messages : list ThreadMessage;
  cv_busy : bool;
  cv_error : option jstring;
  cv_pending : option deletion;
  cv_marked : bool;                       (** the [marked] ref *)
  cn_editing : bool;                      (** ContactName *)
  cn_draft : jstring;
  cn_asking : bool;
  cn_error : option jstring;
  cv_flights : list write;
}.

Inductive conv_event :=
  | AskDelete (d : deletion)
  | ConfirmDelete
  | CancelDelete
  | EditName
  | TypeName (text : jstring)
  | SaveName
  | CancelName
  | ConfirmForget
  | CancelForget
  | ConvAnswer (flight : nat) (a : answer)
  | RedrawThread (name : jstring) (messages : list ThreadMessage).

(** [messages.some((message) => message.direction === "inbound" && message.readAt == null)]. *)
Definition thread_unread (messages : list ThreadMessage) : bool :=
  existsb (fun message => jeqb (tm_direction message) (u "inbound") && negb (is_some (tm_readAt message)))
    messages.

Section Conversation.
Context (peer writeFailed : jstring) (writable : bool).

(** ** The requests *)

Definition peer_body : jsval := VObj [(u "peer", VStr peer)].
Definition mark_call : call := call_post (u "/v1/messages/thread/read") peer_body.
Definition thread_delete : call :=
  {| cl_method := u "DELETE"; cl_url := u "/v1/messages/thread"; cl_body := Some peer_body |}.
Definition message_delete (id : jstring) : call :=
  {| cl_method := u "DELETE"; cl_url := u "/v1/messages/" ++ id; cl_body := None |}.
Definition contact_delete : call :=
  {| cl_method := u "DELETE"; cl_url := u "/v1/messages/contact"; cl_body := Some peer_body |}.
Definition contact_put (name : jstring) : call :=
  {| cl_method := u "PUT"; cl_url := u "/v1/messages/contact";
     cl_body := Some (VObj [(u "peer", VStr peer); (u "name", VStr name)]) |}.

(** ** Setters *)

Definition set_thread (busy : bool) (error : option jstring) (pending : option deletion)
    (s : conversation) : conversation :=
  {| cv_name := cv_name s; cv_messages := cv_messages s; cv_busy := busy; cv_error := error;
     cv_pending := pending; cv_marked := cv_marked s; cn_editing := cn_editing s;
     cn_draft := cn_draft s; cn_asking := cn_asking s; cn_error := cn_error s;
     cv_flights := cv_flights s |}.
Definition set_contact (busy editing : bool) (draft : jstring) (asking : bool)
    (error : option jstring) (s : conversation) : conversation :=
  {| cv_name := cv_name s; cv_messages := cv_messages s; cv_busy := busy; cv_error := cv_error s;
     cv_pending := cv_pending s; cv_marked := cv_marked s; cn_editing := editing;
     cn_draft := draft; cn_asking := asking; cn_error := error; cv_flights := cv_flights s |}.
Definition set_waiting (marked : bool) (flights : list write) (s : conversation) : conversation :=
  {| cv_name := cv_name s; cv_messages := cv_messages s; cv_busy := cv_busy s;
     cv_error := cv_error s; cv_pending := cv_pending s; cv_marked := marked;
     cn_editing := cn_editing s; cn_draft := cn_draft s; cn_asking := cn_asking s;
     cn_error := cn_error s; cv_flights := flights |}.

(** [fetch(..)], awaited. *)
Definition post (w : write) (c : call) (s : conversation) : conversation * list effect :=
  (set_waiting (cv_marked s) (cv_flights s ++ [w]) s, [Fetch c]).

(** ** The handlers, up to their [await] *)

(** The effect that marks the thread read, after every render. *)
Definition mark_effect (s : conversation) : conversation * list effect :=
  if negb writable || negb (thread_unread (cv_messages s)) || cv_marked s then (s, [])
  else post MarkRead mark_call (set_waiting true (cv_flights s) s).

Definition removeThread (s : conversation) : conversation * list effect :=
  if negb writable then (s, [])
  else post RemoveThread thread_delete (set_thread true None (cv_pending s) s).

Definition removeMessage (id : jstring) (s : conversation) : conversation * list effect :=
  if negb writable then (s, [])
  else post RemoveMessage (message_delete id) (set_thread true None (cv_pending s) s).

Definition forgetContact (s : conversation) : conversation * list effect :=
  if negb writable then (s, [])
  else post ForgetContact contact_delete
         (set_contact true (cn_editing s) (cn_draft s) (cn_asking s) None s).

Definition rename (trimmed : jstring) (s : conversation) : conversation * list effect :=
  if negb writable then (s, [])
  else post Rename (contact_put trimmed)
         (set_contact true (cn_editing s) (cn_draft s) (cn_asking s) None s).

Definition save (s : conversation) : conversation * list effect :=
  let trimmed := trim (cn_draft s) in
  if jeqb trimmed []
  then (set_contact (cv_busy s) (cn_editing s) (cn_draft s) true (cn_error s) s, [])
  else rename trimmed s.

(** ** After the answer *)

(** [(await response.text()).trim() || labels.writeFailed]. *)
Definition failure_text (text : jstring) : jstring :=
  if jeqb (trim text) [] then writeFailed else trim text.

(** What runs before the answer is looked at: the flag is lowered and the
    dialog closed. *)
Definition settle_write (w : write) (s : conversation) : conversation :=
  match w with
  | MarkRead => s
  | RemoveThread | RemoveMessage => set_thread false (cv_error s) None s
  | ForgetContact => set_contact false (cn_editing s) (cn_draft s) false (cn_error s) s
  | Rename => set_contact false (cn_editing s) (cn_draft s) (cn_asking s) (cn_error s) s
  end.

Definition write_refused (w : write) (text : jstring) (s : conversation) : conversation :=
  match w with
  | MarkRead => s
  | RemoveThread | RemoveMessage => set_thread (cv_busy s) (Some (failure_text text)) (cv_pending s) s
  | ForgetContact | Rename =>
      set_contact (cv_busy s) (cn_editing s) (cn_draft s) (cn_asking s) (Some (failure_text text)) s
  end.

Definition write_done (w : write) (s : conversation) : conversation * list effect :=
  match w with
  | MarkRead | RemoveMessage => (s, [RouterRefresh])
  | RemoveThread => (s, [Navigate (u "/inbox"); RouterRefresh])
  | ForgetContact | Rename =>
      (set_contact (cv_busy s) false (cn_draft s) (cn_asking s) (cn_error s) s, [RouterRefresh])
  end.

Definition conv_answered (i : nat) (a : answer) (s : conversation)
    : option (conversation * list effect) :=
  match cv_flights s !! i with
  | None => None
  | Some w =>
      let landed := set_waiting (cv_marked s) (delete i (cv_flights s)) s in
      match a with
      | NoAnswer => Some (landed, [])
      | Answer status text _ =>
          let settled := settle_write w landed in
          if ok_status status then Some (write_done w settled) else
          match text with
          | None => Some (settled, [])
          | Some text => Some (write_refused w text settled, [])
          end
      end
  end.

(** ** The component *)

Definition conv_mount (name : jstring) (messages : list ThreadMessage) : conversation * list effect :=
  mark_effect
    {| cv_name := name; cv_messages := messages; cv_busy := false; cv_error := None;
       cv_pending := None; cv_marked := false; cn_editing := false; cn_draft := name;
       cn_asking := false; cn_error := None; cv_flights := [] |}.

Definition forget_dialog (s : conversation) : bool := writable && cn_editing s && cn_asking s.
Definition conv_dialog (s : conversation) : bool := is_some (cv_pending s) || forget_dialog s.
Definition conv_controls (s : conversation) : bool :=
  writable && negb (cv_busy s) && negb (conv_dialog s).

(** Is what the button deletes on the page? *)
Definition deletable (s : conversation) (d : deletion) : bool :=
  match d with
  | DeleteThread => true
  | DeleteMessage id => existsb (fun message => jeqb (tm_id message) id) (cv_messages s)
  end.

Definition with_props (name : jstring) (messages : list ThreadMessage) (s : conversation) : conversation :=
  {| cv_name := name; cv_messages := messages; cv_busy := cv_busy s; cv_error := cv_error s;
     cv_pending := cv_pending s; cv_marked := cv_marked s; cn_editing := cn_editing s;
     cn_draft := cn_draft s; cn_asking := cn_asking s; cn_error := cn_error s;
     cv_flights := cv_flights s |}.

Definition conv_step (s : conversation) (e : conv_event) : option (conversation * list effect) :=
  match e with
  | AskDelete d =>
      if conv_controls s && deletable s d
      then Some (set_thread (cv_busy s) (cv_error s) (Some d) s, []) else None
  | ConfirmDelete =>
      match cv_pending s with
      | Some d =>
          if cv_busy s then None else
          let sent := match d with
            | DeleteThread => removeThread s
            | DeleteMessage id => removeMessage id s
            end in
          Some (set_thread (cv_busy sent.1) (cv_error sent.1) None sent.1, sent.2)
      | None => None
      end
  | CancelDelete =>
      if is_some (cv_pending s) then Some (set_thread (cv_busy s) (cv_error s) None s, []) else None
  | EditName =>
      if conv_controls s && negb (cn_editing s)
      then Some (set_contact (cv_busy s) true (cn_draft s) (cn_asking s) (cn_error s) s, []) else None
  | TypeName text =>
      if writable && cn_editing s && negb (conv_dialog s)
      then Some (set_contact (cv_busy s) true text (cn_asking s) (cn_error s) s, []) else None
  | SaveName => if conv_controls s && cn_editing s then Some (save s) else None
  | CancelName =>
      if conv_controls s && cn_editing s
      then Some (set_contact (cv_busy s) false (cv_name s) (cn_asking s) (cn_error s) s, []) else None
  | ConfirmForget =>
      if forget_dialog s && negb (cv_busy s) then
        let sent := forgetContact s in
        Some (set_contact (cv_busy sent.1) (cn_editing sent.1) (cn_draft sent.1) false (cn_error sent.1)
                sent.1, sent.2)
      else None
  | CancelForget =>
      if forget_dialog s
      then Some (set_contact (cv_busy s) (cn_editing s) (cn_draft s) false (cn_error s) s, []) else None
  | ConvAnswer i a => conv_answered i a s
  | RedrawThread name messages => Some (mark_effect (with_props name messages s))
  end.

(** ** What is written, and on whose word *)

Lemma mark_effect_out s x :
  x ∈ (mark_effect s).2 ->
  writable = true /\ x = Fetch mark_call /\ thread_unread (cv_messages s) = true /\ cv_marked s = false.
Proof.
  unfold mark_effect, post. destruct writable, (thread_unread _), (cv_marked s); cbn;
    try by intros ?%not_elem_of_nil. by intros ->%list_elem_of_singleton.
Qed.

(** C30. Who may change a conversation, and when.  Nothing is written for a
    read-only session.  A deletion leaves the page only when its dialog is
    confirmed and is the one the dialog was opened for; a name is stored
    only by Save, trimmed and never blank; the thread is marked read only
    when an unread message is drawn; and the page moves or refreshes only on
    an answer that says the write was done. *)
Theorem conversation_writes s e s' out x :
  conv_step s e = Some (s', out) -> x ∈ out ->
  match x with
  | Fetch c => writable = true /\
      (e = ConfirmDelete /\ cv_busy s = false
         /\ (cv_pending s = Some DeleteThread /\ c = thread_delete
             \/ exists id, cv_pending s = Some (DeleteMessage id) /\ c = message_delete id)
       \/ e = ConfirmForget /\ cn_asking s = true /\ cv_busy s = false /\ c = contact_delete
       \/ e = SaveName /\ cv_busy s = false /\ trim (cn_draft s) <> [] /\ c = contact_put (trim (cn_draft s))
       \/ exists name messages, e = RedrawThread name messages /\ c = mark_call
            /\ thread_unread messages = true /\ cv_marked s = false)
  | RouterRefresh | Navigate _ =>
      exists i status text json w, e = ConvAnswer i (Answer status text json)
        /\ ok_status status = true /\ cv_flights s !! i = Some w
        /\ (x <> RouterRefresh -> w = RemoveThread /\ x = Navigate (u "/inbox"))
  end.
Proof.
  unfold conv_step. destruct e as [d| | | |text| | | | |i a|name messages].
  - destruct (_ && _); [|done]. by intros [-> ->]%some_pair ?%not_elem_of_nil.
  - destruct (cv_pending s) as [d|] eqn:Ep; [|done]. destruct (cv_busy s) eqn:Eb; [done|].
    intros [-> ->]%some_pair. cbn. unfold removeThread, removeMessage, post.
    destruct writable, d as [|id]; cbn; try by intros ?%not_elem_of_nil.
    + intros ->%list_elem_of_singleton. split; [done|]. left. split_and!; [done..|]. by left.
    + intros ->%list_elem_of_singleton. split; [done|]. left. split_and!; [done..|]. right. by exists id.
  - destruct (is_some _); [|done]. by intros [-> ->]%some_pair ?%not_elem_of_nil.
  - destruct (_ && _); [|done]. by intros [-> ->]%some_pair ?%not_elem_of_nil.
  - destruct (_ && _); [|done]. by intros [-> ->]%some_pair ?%not_elem_of_nil.
  - destruct (conv_controls s && cn_editing s) eqn:Ec; [|done]. intros [-> ->]%some_pair.
    unfold conv_controls in Ec. unfold save, rename, post.
    destruct (jeqb (trim (cn_draft s)) []) eqn:Et; [by intros ?%not_elem_of_nil|].
    destruct writable; [|done]. cbn. intros ->%list_elem_of_singleton. split; [done|].
    right. right. left. apply jeqb_neq in Et. split_and!; try done. by destruct (cv_busy s).
  - destruct (_ && _); [|done]. by intros [-> ->]%some_pair ?%not_elem_of_nil.
  - destruct (forget_dialog s && _) eqn:Ec; [|done]. intros [-> ->]%some_pair.
    unfold forget_dialog in Ec. unfold forgetContact, post. cbn.
    destruct writable; [|done]. cbn. intros ->%list_elem_of_singleton. split; [done|].
    right. left. cbn in Ec. destruct (cn_editing s), (cn_asking s), (cv_busy s); done.
  - destruct (forget_dialog s); [|done]. by intros [-> ->]%some_pair ?%not_elem_of_nil.
  - unfold conv_answered. destruct (cv_flights s !! i) as [w|] eqn:Ei; [|done].
    destruct a as [|status text json]; [by intros [-> ->]%some_pair ?%not_elem_of_nil|].
    destruct (ok_status status) eqn:Eo; [|destruct text; by intros [-> ->]%some_pair ?%not_elem_of_nil].
    intros [-> ->]%some_pair Hx.
    assert (Hw : x = RouterRefresh \/ w = RemoveThread /\ x = Navigate (u "/inbox")).
    { destruct w; cbn in Hx; try (apply list_elem_of_singleton in Hx; by left).
      apply elem_of_cons in Hx as [->|Hx]; [by right|]. apply list_elem_of_singleton in Hx. by left. }
    destruct Hw as [->|[-> ->]]; exists i, status, text, json, w || exists i, status, text, json, RemoveThread;
      split_and!; done.
  - intros [-> ->]%some_pair (Hw & -> & Hu & Hm)%mark_effect_out. split; [done|].
    right. right. right. by exists name, messages.
Qed.

(** ** How a write ends *)

(** Which of the two places shows a failure. *)
Definition shown_error (w : write) (s : conversation) : option jstring :=
  match w with
  | ForgetContact | Rename => cn_error s
  | _ => cv_error s
  end.

(** A refused write never looks like a done one.  For every write the
    operator asked for and every answer of the gateway: a 2xx refreshes the
    page and shows no new error; anything else changes nothing the page
    shows as stored, leaves an error on the screen (the gateway's words, or
    the page's own when it gave none) and keeps the editor open with what
    was typed; and either way the controls are free again. *)
Theorem refused_write_shown s i w status text json s' out :
  cv_flights s !! i = Some w -> w <> MarkRead ->
  conv_step s (ConvAnswer i (Answer status (Some text) json)) = Some (s', out) ->
  cv_busy s' = false
  /\ (ok_status status = true -> RouterRefresh ∈ out /\ shown_error w s' = shown_error w s)
  /\ (ok_status status = false -> out = []
      /\ shown_error w s' = Some (failure_text text)
      /\ cn_editing s' = cn_editing s /\ cn_draft s' = cn_draft s
      /\ cv_messages s' = cv_messages s /\ cv_name s' = cv_name s).
Proof.
  intros Hi Hw. unfold conv_step, conv_answered. rewrite Hi.
  destruct (ok_status status) eqn:Eo; intros [-> ->]%some_pair.
  - split_and!; [by destruct w| |done]. intros _. destruct w; try done; (split; [|done]); cbn.
    + right. left.
    + left.
    + left.
    + left.
  - split_and!; [by destruct w|done|]. intros _. by destruct w.
Qed.

(** ** Marked once *)

Definition is_mark (x : effect) : bool := bool_decide (x = Fetch mark_call).

Lemma mark_effect_marks s :
  tally is_mark (mark_effect s).2 + (if cv_marked s then 1 else 0)
    = (if cv_marked (mark_effect s).1 then 1 else 0)
  /\ cv_marked (mark_effect s).1 = writable && thread_unread (cv_messages s) || cv_marked s.
Proof.
  unfold mark_effect. destruct writable, (thread_unread _), (cv_marked s) eqn:Em; cbn; rewrite ?Em; try done.
  split; [|done]. rewrite tally_cons. unfold is_mark. by rewrite bool_decide_eq_true_2.
Qed.

Lemma mark_effect_messages s : cv_messages (mark_effect s).1 = cv_messages s.
Proof. unfold mark_effect. by destruct (_ || _). Qed.

Lemma post_marks w c s :
  is_mark (Fetch c) = false ->
  tally is_mark (post w c s).2 + (if cv_marked s then 1 else 0) = if cv_marked (post w c s).1 then 1 else 0.
Proof. intros Hc. unfold post. cbn [fst snd cv_marked set_waiting]. by rewrite tally_cons, Hc. Qed.

(** What a step does to the ref, and how often it marks. *)
Lemma step_marks s e s' out :
  conv_step s e = Some (s', out) ->
  tally is_mark out + (if cv_marked s then 1 else 0) = (if cv_marked s' then 1 else 0)
  /\ cv_marked s' = cv_marked s || match e with
                                   | RedrawThread _ messages => writable && thread_unread messages
                                   | _ => false
                                   end.
Proof.
  rewrite (orb_comm (cv_marked s)).
  unfold conv_step. destruct e as [d| | | |text| | | | |i a|name messages]; cbn [orb].
  - destruct (_ && _); [|done]. by intros [-> ->]%some_pair.
  - destruct (cv_pending s) as [d|]; [|done]. destruct (cv_busy s); [done|].
    intros [-> ->]%some_pair. cbn [fst snd cv_marked set_thread].
    destruct d as [|id]; [unfold removeThread|unfold removeMessage]; (destruct (negb writable); [done|]);
      (split; [|done]).
    + by apply (post_marks RemoveThread thread_delete (set_thread true None (cv_pending s) s)), bool_decide_eq_false.
    + by apply (post_marks RemoveMessage (message_delete id) (set_thread true None (cv_pending s) s)), bool_decide_eq_false.
  - destruct (is_some _); [|done]. by intros [-> ->]%some_pair.
  - destruct (_ && _); [|done]. by intros [-> ->]%some_pair.
  - destruct (_ && _); [|done]. by intros [-> ->]%some_pair.
  - destruct (_ && _); [|done]. intros [-> ->]%some_pair. unfold save. destruct (jeqb _ _); [done|].
    unfold rename. destruct (negb writable); [done|]. split; [|done].
    by apply (post_marks Rename (contact_put _) (set_contact true _ _ _ None s)), bool_decide_eq_false.
  - destruct (_ && _); [|done]. by intros [-> ->]%some_pair.
  - destruct (_ && _); [|done]. intros [-> ->]%some_pair. cbn [fst snd cv_marked set_contact].
    unfold forgetContact. destruct (negb writable); [done|]. split; [|done].
    by apply (post_marks ForgetContact contact_delete (set_contact true _ _ _ None s)), bool_decide_eq_false.
  - destruct (forget_dialog s); [|done]. by intros [-> ->]%some_pair.
  - unfold conv_answered. destruct (cv_flights s !! i) as [w|]; [|done].
    destruct a as [|status text json]; [by intros [-> ->]%some_pair|].
    destruct (ok_status status); [|destruct text; intros [-> ->]%some_pair; by destruct w].
    intros [-> ->]%some_pair. by destruct w.
  - intros [-> ->]%some_pair. apply (mark_effect_marks (with_props name messages s)).
Qed.

(** The messages of every drawing of the page. *)
Fixpoint drawn_unread (first : list ThreadMessage) (es : list conv_event) : bool :=
  match es with
  | [] => thread_unread first
  | RedrawThread _ messages :: es => thread_unread first || drawn_unread messages es
  | _ :: es => drawn_unread first es
  end.

Lemma drawn_unread_first first es : thread_unread first = true -> drawn_unread first es = true.
Proof.
  intros Hf. induction es as [|e es IH]; [done|]. destruct e; cbn; try done. by rewrite Hf.
Qed.

Lemma step_messages s e s' out :
  conv_step s e = Some (s', out) ->
  cv_messages s' = match e with RedrawThread _ messages => messages | _ => cv_messages s end.
Proof.
  unfold conv_step. destruct e as [d| | | |text| | | | |i a|name messages].
  - destruct (_ && _); [|done]. by intros [-> _]%some_pair.
  - destruct (cv_pending s) as [d|]; [|done]. destruct (cv_busy s); [done|]. intros [-> _]%some_pair.
    destruct d; cbn; unfold removeThread, removeMessage; by destruct (negb writable).
  - destruct (is_some _); [|done]. by intros [-> _]%some_pair.
  - destruct (_ && _); [|done]. by intros [-> _]%some_pair.
  - destruct (_ && _); [|done]. by intros [-> _]%some_pair.
  - destruct (_ && _); [|done]. intros [-> _]%some_pair. unfold save, rename.
    destruct (jeqb _ _); [done|]. by destruct (negb writable).
  - destruct (_ && _); [|done]. by intros [-> _]%some_pair.
  - destruct (_ && _); [|done]. intros [-> _]%some_pair. cbn. unfold forgetContact. by destruct (negb writable).
  - destruct (forget_dialog s); [|done]. by intros [-> _]%some_pair.
  - unfold conv_answered. destruct (cv_flights s !! i) as [w|]; [|done].
    destruct a as [|status text json]; [by intros [-> _]%some_pair|].
    destruct (ok_status status); [|destruct text; intros [-> _]%some_pair; by destruct w].
    intros [-> _]%some_pair. by destruct w.
  - intros [-> _]%some_pair. apply mark_effect_messages.
Qed.

(** The ref is up exactly when some drawing so far was worth marking. *)
Lemma run_marks s tr s' : run conv_step s tr s' ->
  (writable && thread_unread (cv_messages s) = true -> cv_marked s = true) ->
  tally is_mark (effects tr) + (if cv_marked s then 1 else 0) = (if cv_marked s' then 1 else 0)
  /\ cv_marked s' = cv_marked s || writable && drawn_unread (cv_messages s) tr.*1.
Proof.
  induction 1 as [s|s e s1 out tr s2 Hst Hr IH]; intros Hj.
  - split; [done|]. cbn. destruct (writable && _); [by rewrite Hj|by rewrite orb_false_r].
  - destruct (step_marks _ _ _ _ Hst) as [H1 H2]. pose proof (step_messages _ _ _ _ Hst) as Hm.
    destruct IH as [IH1 IH2].
    { destruct e; rewrite Hm, H2, ?orb_false_r; try exact Hj. intros ->. by rewrite orb_true_r. }
    split.
    + unfold effects in *. cbn [fmap list_fmap snd concat]. rewrite tally_app. lia.
    + rewrite IH2, H2, Hm. clear IH1 IH2 H1 H2 Hm. destruct e as [| | | | | | | | | |name messages]; cbn;
        rewrite ?orb_false_r; try done.
      destruct (cv_marked s); [done|]. cbn.
      assert (Hn : writable && thread_unread (cv_messages s) = false)
        by (apply not_true_iff_false; intros Ht; by discriminate (Hj Ht)).
      destruct writable; [|done]. cbn in Hn |- *. rewrite Hn. cbn.
      destruct (thread_unread messages) eqn:Et; [|done]. by rewrite (drawn_unread_first messages).
Qed.

(** A conversation is marked read once.  Over the whole life of the page
    one request at most says so, and it is sent exactly when the session may
    write and some drawing of the page held an unread inbound message. *)
Theorem read_marked_once name messages tr s :
  run conv_step (conv_mount name messages).1 tr s ->
  tally is_mark ((conv_mount name messages).2 ++ effects tr)
  = if writable && drawn_unread messages tr.*1 then 1 else 0.
Proof.
  intros Hr. set (s0 := {| cv_name := name; cv_messages := messages; cv_busy := false; cv_error := None;
    cv_pending := None; cv_marked := false; cn_editing := false; cn_draft := name; cn_asking := false;
    cn_error := None; cv_flights := [] |}).
  change (conv_mount name messages) with (mark_effect s0) in *.
  destruct (mark_effect_marks s0) as [H1 H2]. cbn [cv_messages cv_marked s0] in H1, H2.
  assert (Hm : cv_messages (mark_effect s0).1 = messages) by apply (mark_effect_messages s0).
  destruct (run_marks _ _ _ Hr) as [H3 H4]; [rewrite Hm, H2, orb_false_r; done|].
  rewrite tally_app, Hm, H2, orb_false_r in *.
  assert (E : cv_marked s = writable && drawn_unread messages tr.*1).
  { rewrite H4. destruct writable; [|done]. cbn. destruct (thread_unread messages) eqn:Et; [|done].
    by rewrite drawn_unread_first. }
  rewrite <-E. lia.
Qed.
End Conversation.

(** ** Concrete runs *)

Definition sample_message (id : string) : ThreadMessage :=
  {| tm_id := u id; tm_deviceId := u "d1"; tm_direction := u "inbound"; tm_peer := u "+49";
     tm_body := u "hello"; tm_bearer := []; tm_encoding := u "7bit"; tm_iccid := None;
     tm_status := u "received"; tm_receivedAt := 0; tm_deliveredAt := None; tm_readAt := None;
     tm_failureReason := None |}.
Definition sample_conv := conv_step (u "+49") (u "write failed") true.
Definition sample_conv_mount := conv_mount (u "+49") true (u "Ana") [sample_message "m1"].

Lemma conversation_writes_witness :
  exists s s', exec sample_conv sample_conv_mount.1 [AskDelete (DeleteMessage (u "m1"))] = Some (s, [])
    /\ sample_conv s ConfirmDelete = Some (s', [Fetch (message_delete (u "m1"))])
    /\ exists id, cv_pending s = Some (DeleteMessage id)
         /\ message_delete (u "m1") = message_delete id.
Proof.
  destruct (exec sample_conv sample_conv_mount.1 [AskDelete (DeleteMessage (u "m1"))])
    as [[s out]|] eqn:E; [|by vm_compute in E].
  destruct (sample_conv s ConfirmDelete) as [[s' out']|] eqn:E';
    [|vm_compute in E; injection E as <- <-; by vm_compute in E'].
  assert (Eo : out = [] /\ out' = [Fetch (message_delete (u "m1"))]).
  { vm_compute in E. injection E as <- <-. vm_compute in E'. injection E' as _ <-. by vm_compute. }
  destruct Eo as [-> ->]. exists s, s'. split_and!; [reflexivity|exact E'|].
  pose proof (conversation_writes (u "+49") (u "write failed") true s ConfirmDelete s'
    [Fetch (message_delete (u "m1"))] (Fetch (message_delete (u "m1"))) E' ltac:(left)) as [_ Hc].
  destruct Hc as [(_ & _ & [[_ Hc]|(id & Hp & Hc)])|[(Hc & _)|[(Hc & _)|(? & ? & Hc & _)]]];
    try discriminate Hc.
  exists id. split; [exact Hp|exact Hc].
Defined.

Lemma refused_write_shown_witness :
  exists s s', exec sample_conv sample_conv_mount.1
      [AskDelete DeleteThread; ConfirmDelete] = Some (s, [Fetch (thread_delete (u "+49"))])
    /\ sample_conv s (ConvAnswer 1 (Answer 403 (Some (u " read-only ")) None)) = Some (s', [])
    /\ cv_error s' = Some (failure_text (u "write failed") (u " read-only ")).
Proof.
  destruct (exec sample_conv sample_conv_mount.1 [AskDelete DeleteThread; ConfirmDelete])
    as [[s out]|] eqn:E; [|by vm_compute in E].
  assert (Eo : out = [Fetch (thread_delete (u "+49"))] /\ cv_flights s !! 1 = Some RemoveThread)
    by (vm_compute in E; injection E as <- <-; by vm_compute).
  destruct Eo as [-> Hi].
  destruct (sample_conv s (ConvAnswer 1 (Answer 403 (Some (u " read-only ")) None)))
    as [[s' out]|] eqn:E'; [|vm_compute in E; injection E as <-; by vm_compute in E'].
  destruct (refused_write_shown (u "+49") (u "write failed") true s 1 RemoveThread 403
    (u " read-only ") None s' out Hi ltac:(discriminate) E') as (_ & _ & Hr).
  destruct (Hr ltac:(reflexivity)) as (-> & He & _).
  exists s, s'. split_and!; [reflexivity|exact E'|exact He].
Defined.

Lemma read_marked_once_witness :
  exists s, exec sample_conv sample_conv_mount.1
      [ConvAnswer 0 (Answer 200 None None); RedrawThread [] [sample_message "m1"; sample_message "m2"]]
    = Some (s, [RouterRefresh])
    /\ tally (is_mark (u "+49")) (sample_conv_mount.2 ++ [RouterRefresh]) = 1.
Proof.
  destruct (exec sample_conv sample_conv_mount.1
      [ConvAnswer 0 (Answer 200 None None); RedrawThread [] [sample_message "m1"; sample_message "m2"]])
    as [[s out]|] eqn:E; [|by vm_compute in E].
  assert (Eo : out = [RouterRefresh]) by (vm_compute in E; injection E as _ <-; by vm_compute).
  subst out. exists s. split; [reflexivity|].
  destruct (exec_run _ _ _ _ _ E) as (tr & Hr & Ht & Ho).
  pose proof (read_marked_once (u "+49") (u "write failed") true (u "Ana") [sample_message "m1"] tr s Hr) as H.
  rewrite Ho, Ht in H. exact H.
Defined.

(** Where the component departs from what its comments promise ("a failed
    delete and a completed delete" must not look the same): the requests have
    no [catch], so one that rejects shows no error, and the page stays
    busy. *)
Theorem rejected_delete_silent :
  exists s, exec sample_conv sample_conv_mount.1
      [AskDelete DeleteThread; ConfirmDelete; ConvAnswer 1 NoAnswer]
    = Some (s, [Fetch (thread_delete (u "+49"))])
    /\ cv_error s = None /\ cv_pending s = None /\ cv_busy s = true
    /\ sample_conv s (AskDelete DeleteThread) = None /\ sample_conv s EditName = None.
Proof. eexists. split; [vm_compute; reflexivity|]. by vm_compute. Qed.

(** The editor opens with the draft of its first drawing: a name changed
    elsewhere meanwhile is overwritten by pressing Edit and Save. *)
Theorem stale_name_saved :
  exists s, exec sample_conv sample_conv_mount.1
      [RedrawThread (u "Ana Maria") []; EditName; SaveName]
    = Some (s, [Fetch (contact_put (u "+49") (u "Ana"))]) /\ cv_name s = u "Ana Maria".
Proof. eexists. split; [vm_compute; reflexivity|]. by vm_compute. Qed.
