(* ===== verification/ThreadView.v ===== *)
(** * What the inbox and a conversation show (components/conversation.tsx:
      the markup of Conversation, ContactName, DeliveryBadge; app/inbox)

    The rows of the two lists of the inbox, the page a row opens, and a
    conversation as the values it is drawn from, with the buttons that stand
    in it.  Layout and class names are left out. *)

From Stdlib Require Import Lia.
From S2P Require Import Prelude JsString JsValue JsSort JsMap Fetch Session Gateway Devices Messages TableQuery I18n Navigation Component Conversation SmsSafety SendSms Inbox.

(** ** The labels of the conversation (app/inbox/[peer]/page.tsx) *)

Definition CONVERSATION_LABELS : list (jstring * jstring) :=
  [ (u "remove", u "inbox.remove"); (u "writeFailed", u "inbox.writeFailed");
    (u "deleteThread", u "inbox.deleteThread"); (u "confirmDeleteThread", u "inbox.confirmDeleteThread");
    (u "confirmDeleteMessageTitle", u "inbox.confirmDeleteMessageTitle");
    (u "confirmDeleteMessage", u "inbox.confirmDeleteMessage");
    (u "confirmForgetContactTitle", u "inbox.confirmForgetContactTitle");
    (u "confirmForgetContact", u "inbox.confirmForgetContact"); (u "nameContact", u "inbox.nameContact");
    (u "renameContact", u "inbox.renameContact"); (u "contactName", u "inbox.contactName");
    (u "save", u "inbox.save"); (u "cancel", u "inbox.cancel");
    (u "status.queued", u "inbox.statusQueued"); (u "status.sent", u "inbox.statusSent");
    (u "status.delivered", u "inbox.statusDelivered"); (u "status.undelivered", u "inbox.statusUndelivered");
    (u "status.failed", u "inbox.statusFailed"); (u "status.received", u "inbox.statusReceived");
    (u "encoding.8bit", u "inbox.encoding8bit"); (u "card", u "inbox.messageCard");
    (u "cardTitle", u "inbox.messageCardTitle"); (u "readOnly", u "role.readOnlyInbox") ].

Record delivery_drawn := {
  dy_tone : looked_up BadgeTone;
  dy_word : jstring;
  dy_at : option jstring;
  dy_reason : option jstring;
}.

Record message_drawn := {
  mg_id : jstring;
  mg_left : bool;                      (** on the side of what was received *)
  mg_body : jstring;
  mg_hex : option jstring;             (** the note under a binary body *)
  mg_at : jstring;
  mg_delivery : option delivery_drawn;
  mg_card : option (jstring * jstring);  (** text and title *)
  mg_remove : option jstring;          (** the button *)
}.

Record dialog_words := { dg_title : jstring; dg_consequence : jstring; dg_confirm : jstring }.

Inductive contact_drawn :=
  | NameButton (text : jstring)
  | NameEditor (draft : jstring) (error : option jstring) (dialog : option dialog_words).

Record conversation_drawn := {
  vc_contact : option contact_drawn;
  vc_deleteThread : option jstring;
  vc_readOnly : option jstring;
  vc_error : option jstring;
  vc_messages : list message_drawn;
  vc_dialog : option dialog_words;
}.

(** A text that is not empty. *)
Definition non_empty (text : jstring) : option jstring := if jeqb text [] then None else Some text.

Section View.
Context `{CaseMapping}.
Context (inherited_text : jstring -> jstring).
Context (catalogs : Locale -> list (jstring * jstring)) (locale : Locale).
(** [new Date(at).toISOString().replace("T", " ")], of a moment a date can have. *)
Context (date_text : Z -> jstring).

Definition conversation_labels : list (jstring * jstring) :=
  (fun entry => (entry.1, t inherited_text catalogs entry.2 locale None)) <$> CONVERSATION_LABELS.
Definition thread_label (key : string) : jstring := default [] (field (u key) conversation_labels).

(** [.slice(5, 16)]. *)
Definition short_time (at_ : Z) : jstring := take 11 (drop 5 (date_text at_)).

Definition DeliveryBadge (message : ThreadMessage) : delivery_drawn :=
  {| dy_tone := toneForDeliveryStatus (tm_status message);
     dy_word := default (tm_status message) (field (u "status." ++ tm_status message) conversation_labels);
     dy_at := if jeqb (tm_status message) (u "delivered")
              then match tm_deliveredAt message with
                   | Some at_ => if (at_ =? 0)%Z then None else Some (short_time at_)
                   | None => None
                   end
              else None;
     dy_reason := tm_failureReason message ≫= non_empty |}.

Definition card_tail (iccid : jstring) : jstring := drop (length iccid - 8) iccid.

Definition message_draws (writable : bool) (message : ThreadMessage) : message_drawn :=
  let inbound := jeqb (tm_direction message) (u "inbound") in
  {| mg_id := tm_id message;
     mg_left := inbound;
     mg_body := tm_body message;
     mg_hex := if jeqb (tm_encoding message) (u "8bit") then Some (thread_label "encoding.8bit") else None;
     mg_at := short_time (tm_receivedAt message);
     mg_delivery := if jeqb (tm_direction message) (u "outbound") then Some (DeliveryBadge message) else None;
     mg_card := if inbound
                then match tm_iccid message ≫= non_empty with
                     | Some iccid => Some (thread_label "card" ++ u " …" ++ card_tail iccid,
                                           thread_label "cardTitle" ++ u " " ++ iccid)
                     | None => None
                     end
                else None;
     mg_remove := if writable then Some (thread_label "remove") else None |}.

(** [asked], while a question stands. *)
Definition asked (peer : jstring) (d : deletion) : dialog_words :=
  match d with
  | DeleteThread =>
      {| dg_title := thread_label "deleteThread";
         dg_consequence := interpolate inherited_text (thread_label "confirmDeleteThread")
                             (Some [(u "peer", Some peer)]);
         dg_confirm := thread_label "remove" |}
  | DeleteMessage _ =>
      {| dg_title := thread_label "confirmDeleteMessageTitle";
         dg_consequence := thread_label "confirmDeleteMessage";
         dg_confirm := thread_label "remove" |}
  end.

Definition forget_words (peer : jstring) : dialog_words :=
  let fill key := interpolate inherited_text (thread_label key) (Some [(u "peer", Some peer)]) in
  {| dg_title := fill "confirmForgetContactTitle"; dg_consequence := fill "confirmForgetContact";
     dg_confirm := thread_label "remove" |}.

Definition ContactName (writable : bool) (peer : jstring) (s : conversation) : option contact_drawn :=
  if negb writable then None
  else if negb (cn_editing s) then
    Some (NameButton (thread_label (if jeqb (cv_name s) [] then "nameContact" else "renameContact")))
  else Some (NameEditor (cn_draft s) (cn_error s ≫= non_empty)
               (if cn_asking s then Some (forget_words peer) else None)).

Definition Conversation (writable : bool) (peer : jstring) (s : conversation) : conversation_drawn :=
  {| vc_contact := ContactName writable peer s;
     vc_deleteThread := if writable then Some (thread_label "deleteThread") else None;
     vc_readOnly := if writable then None else Some (thread_label "readOnly");
     vc_error := cv_error s ≫= non_empty;
     vc_messages := message_draws writable <$> cv_messages s;
     vc_dialog := asked peer <$> cv_pending s |}.

(** ** The head of the page *)

(** The heading, and the number under it when the heading is a name. *)
Definition thread_heading (page : thread_page) : jstring * option jstring :=
  if jeqb (tp_name page) [] then (tp_peer page, None) else (tp_name page, Some (tp_peer page)).

(** ** The rows of the inbox (app/inbox/page.tsx) *)

Record thread_row := {
  tr_link : res jstring;
  tr_title : jstring;
  tr_number : option jstring;
  tr_arrow : jstring;
  tr_body : jstring;
  tr_strong : bool;
  tr_messages : Z;
  tr_unread : option Z;
  tr_unsent : option Z;
  tr_at : jstring;
}.

Definition positive (n : Z) : option Z := if (0 <? n)%Z then Some n else None.

Definition thread_row_draws (thread : ThreadRow) : thread_row :=
  {| tr_link := thread_link (th_peer thread);
     tr_title := if jeqb (th_name thread) [] then th_peer thread else th_name thread;
     tr_number := if jeqb (th_name thread) [] then None else Some (th_peer thread);
     tr_arrow := if th_lastInbound thread then u "← " else u "→ ";
     tr_body := th_lastBody thread;
     tr_strong := (0 <? th_unread thread)%Z;
     tr_messages := th_messages thread;
     tr_unread := positive (th_unread thread);
     tr_unsent := positive (th_unsent thread);
     tr_at := take 19 (date_text (th_lastAt thread)) |}.

Record contact_row := { cw_link : res jstring; cw_name : jstring; cw_peer : jstring; cw_unread : option Z }.

Definition contact_row_draws (page : inbox_read) (contact : ContactRow) : contact_row :=
  {| cw_link := thread_link (co_peer contact); cw_name := co_name contact; cw_peer := co_peer contact;
     cw_unread := contact_unread page contact |}.

Inductive threads_body :=
  | ThreadsNoMatch
  | ThreadsEmpty
  | ThreadsRows (rows : list thread_row).

Record inbox_drawn := {
  id_unread : option Z;                (** the badge beside the title *)
  id_readOnly : bool;
  id_loadError : bool;
  id_form : bool;                      (** the form to send, or the sentence in its place *)
  id_contacts : list contact_row;
  id_filter : bool;
  id_threads : threads_body;
}.

Definition InboxPage `{NumberText} `{Collation} (q sort_by : option jstring) (page : inbox_read) : inbox_drawn :=
  {| id_unread := positive (inbox_unread page);
     id_readOnly := negb (ib_writable page);
     id_loadError := ib_loadError page;
     id_form := is_some (send_props inherited_text catalogs locale page);
     id_contacts := contact_row_draws page <$> ib_contacts page;
     id_filter := match ib_threads page with [] => false | _ => true end;
     id_threads := match threadsEmpty q sort_by page with
                   | Some EmptyNoMatch => ThreadsNoMatch
                   | Some EmptyNone => ThreadsEmpty
                   | None => ThreadsRows (thread_row_draws <$> shownThreads q sort_by page)
                   end |}.

(** ** Properties *)

(** The colour of a delivery word, as a table of its lower case. *)
Lemma delivery_tone status :
  (toneForDeliveryStatus status = Own ToneOk <-> toLowerCase status = u "delivered" \/ toLowerCase status = u "sent")
  /\ (toneForDeliveryStatus status = Own ToneBad
      <-> toLowerCase status = u "failed" \/ toLowerCase status = u "undelivered").
Proof.
  unfold toneForDeliveryStatus, tone_in, table_read. generalize (toLowerCase status) as w. intros w.
  unfold TONE_BY_DELIVERY. cbn [field].
  destruct (jeqb w (u "delivered")) eqn:E1; [apply jeqb_eq in E1; subst; vm_compute; naive_solver|].
  destruct (jeqb w (u "sent")) eqn:E2; [apply jeqb_eq in E2; subst; vm_compute; naive_solver|].
  destruct (jeqb w (u "failed")) eqn:E3; [apply jeqb_eq in E3; subst; vm_compute; naive_solver|].
  destruct (jeqb w (u "undelivered")) eqn:E4; [apply jeqb_eq in E4; subst; vm_compute; naive_solver|].
  apply jeqb_neq in E1, E2, E3, E4. destruct (existsb (jeqb w) object_prototype); split; split; try done; tauto.
Qed.

Lemma field_values {A B} (f : A -> B) k (l : list (jstring * A)) :
  field k ((fun entry => (entry.1, f entry.2)) <$> l) = f <$> field k l.
Proof. induction l as [|[k' v] l IH]; [done|]. cbn. by destruct (jeqb k k'). Qed.

(** Looking up a name with a prefix is looking up the rest of it. *)
Definition after_prefix {A} (p : jstring) (entry : jstring * A) : option (jstring * A) :=
  if startsWith entry.1 p then Some (drop (length p) entry.1, entry.2) else None.

Lemma field_prefix {A} (p w : jstring) (l : list (jstring * A)) :
  field (p ++ w) l = field w (omap (after_prefix p) l).
Proof.
  induction l as [|[k a] l IH]; [done|]. cbn [field omap list_omap]. unfold after_prefix at 1. cbn [fst snd].
  destruct (startsWith k p) eqn:E.
  - apply startsWith_spec in E as [r ->]. cbn [field]. rewrite drop_app_length, IH.
    replace (jeqb (p ++ w) (p ++ r)) with (jeqb w r); [done|].
    apply eq_bool_prop_intro. rewrite !Is_true_true, !jeqb_eq. split; [by intros ->|apply app_inv_head].
  - rewrite IH. destruct (jeqb (p ++ w) k) eqn:Ek; [|done]. apply jeqb_eq in Ek as <-.
    exfalso. apply not_true_iff_false in E. apply E, startsWith_spec. by exists w.
Qed.

Definition DELIVERY_WORDS : list (jstring * jstring) :=
  [ (u "queued", u "inbox.statusQueued"); (u "sent", u "inbox.statusSent");
    (u "delivered", u "inbox.statusDelivered"); (u "undelivered", u "inbox.statusUndelivered");
    (u "failed", u "inbox.statusFailed"); (u "received", u "inbox.statusReceived") ].

Lemma delivery_word message :
  dy_word (DeliveryBadge message)
  = match field (tm_status message) DELIVERY_WORDS with
    | Some key => t inherited_text catalogs key locale None
    | None => tm_status message
    end.
Proof.
  unfold DeliveryBadge. cbn [dy_word]. unfold conversation_labels.
  rewrite (field_values (fun key => t inherited_text catalogs key locale None)).
  replace (field (u "status." ++ tm_status message) CONVERSATION_LABELS)
    with (field (tm_status message) DELIVERY_WORDS); [by destruct (field _ DELIVERY_WORDS)|].
  rewrite field_prefix. assert (omap (after_prefix (u "status.")) CONVERSATION_LABELS = DELIVERY_WORDS) as ->; [|done].
  by vm_compute.
Qed.

(** A message is shown as what is known of it.  The conversation shows
    the messages the gateway sent, one for one and in their order, with a
    button on each exactly for an account that may write.  What happened to a
    message is said of the sent ones alone: in green only when the module or
    the network took it, in red only when one of them refused it, in the
    catalogue's word for its status or in the status itself, and with the
    time of a delivery only for one delivered.  The card is named only on
    what it received, by the end of its number. *)
Theorem thread_shown writable peer s :
  Forall2 (fun message drawn =>
      mg_id drawn = tm_id message /\ mg_body drawn = tm_body message
      /\ is_some (mg_remove drawn) = writable
      /\ (is_some (mg_delivery drawn) = true <-> tm_direction message = u "outbound")
      /\ (forall d, mg_delivery drawn = Some d ->
           (dy_tone d = Own ToneOk
              <-> toLowerCase (tm_status message) = u "delivered" \/ toLowerCase (tm_status message) = u "sent")
           /\ (dy_tone d = Own ToneBad
              <-> toLowerCase (tm_status message) = u "failed" \/ toLowerCase (tm_status message) = u "undelivered")
           /\ dy_word d = match field (tm_status message) DELIVERY_WORDS with
                          | Some key => t inherited_text catalogs key locale None
                          | None => tm_status message
                          end
           /\ (is_some (dy_at d) = true -> tm_status message = u "delivered"))
      /\ (forall text title, mg_card drawn = Some (text, title) ->
           tm_direction message = u "inbound"
           /\ exists iccid before shown, tm_iccid message = Some iccid /\ iccid = before ++ shown
                /\ length shown <= 8 /\ text = thread_label "card" ++ u " …" ++ shown
                /\ title = thread_label "cardTitle" ++ u " " ++ iccid))
    (cv_messages s) (vc_messages (Conversation writable peer s)).
Proof.
  cbn [Conversation vc_messages]. apply Forall2_fmap_r, Forall_Forall2_diag, Forall_forall.
  intros message _. unfold message_draws. cbv zeta. cbn [mg_id mg_body mg_remove mg_delivery mg_card]. split_and!; [done|done|..].
  - by destruct writable.
  - destruct (jeqb (tm_direction message) (u "outbound")) eqn:E; cbn [is_some].
    + apply jeqb_eq in E. split; [intros _; exact E|reflexivity].
    + apply jeqb_neq in E. split; [discriminate|intros E'; destruct (E E')].
  - intros d. destruct (jeqb (tm_direction message) (u "outbound")); [|done]. intros [= <-].
    destruct (delivery_tone (tm_status message)) as [Hok Hbad].
    split_and!; [done|done|apply delivery_word|].
    cbn [DeliveryBadge dy_at]. by destruct (jeqb (tm_status message) (u "delivered")) eqn:E; [apply jeqb_eq in E|].
  - intros text title. destruct (jeqb (tm_direction message) (u "inbound")) eqn:E; [|done]. apply jeqb_eq in E.
    destruct (tm_iccid message) as [iccid|]; cbn [mbind option_bind]; [|done]. unfold non_empty.
    destruct (jeqb iccid []); [done|]. intros [= <- <-]. split; [done|].
    exists iccid, (take (length iccid - 8) iccid), (card_tail iccid). unfold card_tail.
    split_and!; try done.
    + by rewrite take_drop.
    + rewrite length_drop. lia.
Qed.

(** What a read-only account is left with. *)
Definition bare_message (m : message_drawn) : message_drawn :=
  {| mg_id := mg_id m; mg_left := mg_left m; mg_body := mg_body m; mg_hex := mg_hex m; mg_at := mg_at m;
     mg_delivery := mg_delivery m; mg_card := mg_card m; mg_remove := None |}.

Lemma read_only_idle peer failed s e s' out :
  cv_pending s = None -> conv_step peer failed false s e = Some (s', out) -> cv_pending s' = None.
Proof.
  intros Hp. unfold conv_step. unfold conv_controls, forget_dialog.
  destruct e as [d| | | |text| | | | |i a|name messages]; cbn [andb]; rewrite ?Hp; try discriminate.
  - unfold conv_answered. destruct (cv_flights s !! i) as [w|]; [|done].
    destruct a as [|status text json]; [by intros [= <- _]|].
    destruct (ok_status status); [|destruct text as [text|]]; destruct w; cbn; intros [= <- _]; done.
  - unfold mark_effect. cbn [negb orb]. by intros [= <- _].
Qed.

(** A conversation can be read by an account that may only read, and no
    more.  Whatever happens on the page, it is shown every message as the
    other account is, with the sentence that says why nothing can be done,
    and no button, no editor and no dialog. *)
Theorem thread_read_only peer failed name messages tr s :
  run (conv_step peer failed false) (conv_mount peer false name messages).1 tr s ->
  let seen := Conversation false peer s in
  vc_messages seen = bare_message <$> vc_messages (Conversation true peer s)
  /\ Forall (fun m => mg_remove m = None) (vc_messages seen)
  /\ vc_contact seen = None /\ vc_deleteThread seen = None /\ vc_dialog seen = None
  /\ vc_readOnly seen = Some (thread_label "readOnly").
Proof.
  intros Hr. cbv zeta. cbn [Conversation vc_messages vc_contact vc_deleteThread vc_dialog vc_readOnly].
  assert (Hp : cv_pending s = None).
  { revert Hr. apply (run_invariant _ (fun s => cv_pending s = None)); [intros; by eapply read_only_idle|done]. }
  rewrite Hp. split_and!; try done.
  - rewrite <-list_fmap_compose. by apply list_fmap_ext.
  - apply Forall_fmap, Forall_forall. done.
Qed.

Lemma find_peer thread threads :
  thread ∈ threads -> NoDup (th_peer <$> threads) ->
  List.find (fun row => jeqb (th_peer row) (th_peer thread)) threads = Some thread.
Proof.
  intros Hin Hd. induction threads as [|x l IH]; [by apply not_elem_of_nil in Hin|].
  apply NoDup_cons in Hd as [Hx Hd]. cbn. apply elem_of_cons in Hin as [->|Hin]; [by rewrite jeqb_refl|].
  destruct (jeqb (th_peer x) (th_peer thread)) eqn:E; [|by apply IH]. apply jeqb_eq in E.
  destruct Hx. rewrite E. by apply list_elem_of_fmap_2.
Qed.

(** A row of the inbox says what the page it opens says.  The link beside
    a conversation opens the page of that number, and where both pages could
    be read the page's heading, and the number under it, are the row's. *)
Theorem row_opens_its_heading env fetchImpl host token thread link :
  let inbox := InboxPage_read env fetchImpl host token in
  let row := thread_row_draws thread in
  thread ∈ ib_threads inbox -> NoDup (th_peer <$> ib_threads inbox) -> units16 (th_peer thread) ->
  tr_link row = Ok link ->
  exists encoded page, link = u "/inbox/" ++ encoded /\ 47%N ∉ encoded
    /\ ThreadPage env fetchImpl host token encoded = Ok page
    /\ tp_writable page = ib_writable inbox
    /\ (tp_loadError page = false -> thread_heading page = (tr_title row, tr_number row)).
Proof.
  cbv zeta. cbn [thread_row_draws tr_link tr_title tr_number]. unfold thread_link. intros Hin Hd Hu Hl.
  destruct (encodeURIComponent (th_peer thread)) as [e|] eqn:Ee; cbn in Hl; [|done]. injection Hl as <-.
  assert (Hthreads : exists threads, fetchThreads env fetchImpl host token = Ok threads
                       /\ ib_threads (InboxPage_read env fetchImpl host token) = threads).
  { revert Hin. unfold InboxPage_read, inbox_lists.
    destruct (fetchThreads env fetchImpl host token) as [threads|]; [|by intros ?%not_elem_of_nil].
    intros _. exists threads. split; [done|].
    destruct (fetchContacts env fetchImpl host token); [|done]. by destruct (fetchDevices env fetchImpl host token). }
  destruct Hthreads as (threads & Ht & Hi). rewrite Hi in Hin, Hd.
  exists e. eexists. split; [done|]. split; [by eapply encode_no_char|]. split.
  { unfold ThreadPage. rewrite (decode_encode _ _ Hu Ee), Ht. cbn [mbind res_bind]. reflexivity. }
  split.
  - unfold InboxPage_read. destruct (inbox_lists env fetchImpl host token) as [[[??]?]?].
    by destruct (fetchThread env fetchImpl host token (th_peer thread)).
  - destruct (fetchThread env fetchImpl host token (th_peer thread)) as [messages|]; [|done].
    intros _. unfold thread_heading. cbn [tp_name tp_peer].
    rewrite (find_peer thread threads) by done.
    cbn [from_option]. by destruct (jeqb (th_name thread) []).
Qed.

Lemma fold_sum (f : ThreadRow -> Z) l z :
  fold_left (fun total x => total + f x)%Z l z = (z + foldr (fun x n => f x + n) 0 l)%Z.
Proof. revert z. induction l as [|x l IH]; intros z; cbn; [lia|]. rewrite IH. lia. Qed.

Lemma sum_perm (f : ThreadRow -> Z) l l' :
  l ≡ₚ l' -> foldr (fun x n => f x + n)%Z 0%Z l = foldr (fun x n => f x + n)%Z 0%Z l'.
Proof. induction 1; cbn; lia. Qed.

Lemma matches_empty `{NumberText} fields : matches [] fields = true.
Proof. done. Qed.

(** One unread count.  The badge beside the title is the sum of the
    badges in the list of conversations when nothing is searched for, and is
    missing exactly when no conversation has one; and the phone book shows
    beside a contact what the list shows beside its conversation, and
    nothing beside a contact without one. *)
Theorem inbox_badges_agree `{NumberText} `{Collation} sort_by page :
  Forall (fun thread => 0 <= th_unread thread)%Z (ib_threads page) -> NoDup (th_peer <$> ib_threads page) ->
  let drawn := InboxPage None sort_by page in
  default 0%Z (id_unread drawn)
  = match id_threads drawn with
    | ThreadsRows rows => foldr (fun row n => default 0 (tr_unread row) + n)%Z 0%Z rows
    | _ => 0%Z
    end
  /\ (id_unread drawn = None <-> forall thread, thread ∈ ib_threads page -> tr_unread (thread_row_draws thread) = None)
  /\ forall contact,
       (forall thread, thread ∈ ib_threads page -> th_peer thread = co_peer contact ->
          cw_unread (contact_row_draws page contact) = tr_unread (thread_row_draws thread))
       /\ ((forall thread, thread ∈ ib_threads page -> th_peer thread <> co_peer contact) ->
          cw_unread (contact_row_draws page contact) = None).
Proof.
  intros Hpos Hd. cbv zeta. cbn [InboxPage id_unread id_threads].
  set (sum := foldr (fun x n => th_unread x + n)%Z 0%Z (ib_threads page)).
  assert (Hsum : inbox_unread page = sum) by (unfold inbox_unread; by rewrite fold_sum).
  assert (Hp : forall n, (0 <= n)%Z -> default 0%Z (positive n) = n).
  { intros n Hn. unfold positive. destruct (Z.ltb_spec 0 n); cbn; lia. }
  assert (Hnn : (0 <= sum)%Z /\ (sum = 0%Z <-> forall thread, thread ∈ ib_threads page -> th_unread thread = 0%Z)).
  { unfold sum. clear -Hpos. induction Hpos as [|x l Hx Hl [IH1 IH2]]; cbn.
    - split; [lia|]. split; [|done]. by intros _ x ?%not_elem_of_nil.
    - split; [lia|]. split.
      + intros E y [->|Hy]%elem_of_cons; [lia|]. apply IH2; [lia|done].
      + intros E. rewrite (E x) by left. rewrite (proj2 IH2); [done|]. intros y Hy. apply E. by right. }
  destruct Hnn as [Hnn Hz]. rewrite Hsum. split_and!.
  - rewrite Hp by done.
    assert (Hshown : shownThreads None sort_by page ≡ₚ ib_threads page).
    { unfold shownThreads. rewrite sort_perm. replace (List.filter _ (ib_threads page)) with (ib_threads page); [done|].
      symmetry. rewrite needleOf_none. apply forallb_filter_id, forallb_forall. intros. by apply matches_empty. }
    unfold threadsEmpty. rewrite (Permutation_length Hshown).
    destruct (length (ib_threads page)) as [|n] eqn:El.
    { apply nil_length_inv in El. unfold sum, emptyKind. by rewrite needleOf_none, El. }
    unfold emptyKind. cbn [Nat.eqb]. unfold sum. rewrite <-(sum_perm _ _ _ Hshown).
    assert (Hq : Forall (fun thread => 0 <= th_unread thread)%Z (shownThreads None sort_by page))
      by (by rewrite Hshown).
    clear -Hq Hp. induction Hq as [|y r Hy Hr IH]; [done|]. cbn. rewrite <-IH. by rewrite Hp.
  - unfold positive at 1. cbn [thread_row_draws tr_unread]. destruct (Z.ltb_spec 0 sum) as [Hs|Hs].
    + split; [done|]. intros E. exfalso. assert (sum = 0%Z); [|lia]. apply Hz. intros thread Ht.
      specialize (E thread Ht). rewrite Forall_forall in Hpos. specialize (Hpos thread Ht). cbn in Hpos.
      unfold positive in E. destruct (Z.ltb_spec 0 (th_unread thread)); [done|lia].
    + split; [|done]. intros _ thread Ht. unfold positive. assert (E : sum = 0%Z) by lia.
      rewrite (proj1 Hz E thread Ht). done.
  - intros contact. cbn [contact_row_draws cw_unread thread_row_draws tr_unread]. unfold contact_unread. split.
    + intros thread Ht E. rewrite <-E.
      assert (List.find (fun row => jeqb (th_peer row) (th_peer thread)) (ib_threads page) = Some thread) as ->; [|done].
      by apply find_peer.
    + intros Hn. destruct (List.find _ (ib_threads page)) as [thread|] eqn:E; [|done].
      apply find_some in E as [Hin E%jeqb_eq]. destruct (Hn thread); [by apply list_elem_of_In|done].
Qed.
End View.

(** ** A concrete inbox *)

Definition sample_thread : jsval :=
  VObj [(u "peer", VStr (u "+49")); (u "name", VStr (u "Ana")); (u "unread", VNum (Fin (int 2)))].
Definition thread_gateway : fetch_fn := fun rq =>
  if endsWith (rq_url rq) (u "/v1/messages/threads") then Response 200 (Some (VObj [(u "threads", VArr [sample_thread])]))
  else Response 200 (Some (VObj [])).
Definition sample_thread_row : ThreadRow :=
  {| th_peer := u "+49"; th_name := u "Ana"; th_deviceId := []; th_messages := 0; th_unsent := 0;
     th_unread := int 2; th_lastBody := []; th_lastAt := 0; th_lastInbound := false |}.

Lemma row_opens_its_heading_witness :
  let inbox := InboxPage_read sample_env thread_gateway (u "a.test") None in
  ib_threads inbox = [sample_thread_row]
  /\ exists encoded page, ThreadPage sample_env thread_gateway (u "a.test") None encoded = Ok page
       /\ (tp_loadError page = false -> thread_heading page = (u "Ana", Some (u "+49"))).
Proof.
  cbv zeta. assert (E : ib_threads (InboxPage_read sample_env thread_gateway (u "a.test") None) = [sample_thread_row])
    by (vm_compute; reflexivity).
  split; [exact E|].
  destruct (row_opens_its_heading (fun _ => []) sample_env thread_gateway (u "a.test") None sample_thread_row
    (u "/inbox/%2B49")) as (encoded & page & _ & _ & Hp & _ & Hh).
  - rewrite E. left.
  - rewrite E. apply (bool_decide_unpack _). vm_compute. exact I.
  - apply (bool_decide_unpack _). vm_compute. exact I.
  - vm_compute. reflexivity.
  - exists encoded, page. split; [exact Hp|exact Hh].
Defined.

Definition sample_message_in : ThreadMessage :=
  {| tm_id := u "m1"; tm_deviceId := u "d1"; tm_direction := u "inbound"; tm_peer := u "+49"; tm_body := u "hi";
     tm_bearer := []; tm_encoding := u "7bit"; tm_iccid := None; tm_status := u "received"; tm_receivedAt := 0;
     tm_deliveredAt := None; tm_readAt := None; tm_failureReason := None |}.

Lemma thread_read_only_witness :
  let s := (conv_mount (u "+49") false (u "Ana") [sample_message_in]).1 in
  exists s', conv_step (u "+49") (u "failed") false s (RedrawThread (u "Ana") []) = Some (s', [])
    /\ vc_dialog (@Conversation lower_reference (fun _ => []) (fun _ => []) zh (fun _ => []) false (u "+49") s') = None.
Proof.
  cbv zeta. eexists. split; [vm_compute; reflexivity|].
  refine (proj1 (proj2 (proj2 (proj2 (proj2 (@thread_read_only lower_reference (fun _ => []) (fun _ => []) zh (fun _ => [])
    (u "+49") (u "failed") (u "Ana") [sample_message_in] [(RedrawThread (u "Ana") [], [])] _ _)))))).
  eapply run_cons; [vm_compute; reflexivity|apply run_nil].
Defined.

Lemma inbox_badges_agree_witness :
  let page := InboxPage_read sample_env thread_gateway (u "a.test") None in
  ib_threads page = [sample_thread_row]
  /\ default 0%Z (id_unread (@InboxPage lower_reference (fun _ => []) (fun _ => []) zh (fun _ => [])
                               {| number_text _ := [] |} collation_reference None None page)) = int 2.
Proof.
  cbv zeta. assert (E : ib_threads (InboxPage_read sample_env thread_gateway (u "a.test") None) = [sample_thread_row])
    by (vm_compute; reflexivity).
  split; [exact E|].
  pose proof (proj1 (@inbox_badges_agree lower_reference (fun _ => []) (fun _ => []) zh (fun _ => [])
    {| number_text _ := [] |} collation_reference None
    (InboxPage_read sample_env thread_gateway (u "a.test") None)
    ltac:(rewrite E; constructor; [vm_compute; discriminate|constructor])
    ltac:(rewrite E; apply (bool_decide_unpack _); vm_compute; exact I))) as Hs.
  etransitivity; [exact Hs|]. vm_compute. reflexivity.
Defined.
