(* ===== verification/SettingsForm.v ===== *)
(** * The settings form (components/settings-form.tsx: SettingsForm,
      TestButton, PasswordForm)

    What a press of Save or of a channel's Test does.  Both ask first; a
    waiting question holds the closure it will run, and the closure holds the
    values of the render it was made in.  A button of the form that declares
    no type is a submit button: after its own handler the browser submits the
    form, unless the form is invalid. *)

From Stdlib Require Import Lia.
From S2P Require Import Prelude JsString JsValue JsMap Guards Settings Component.

Record ChannelTest := {
  ct_channel : jstring;
  ct_label : jstring;
  ct_title : jstring;
  ct_consequence : jstring;
}.

(** [run], by what it runs. *)
Inductive settings_run :=
  | RunSave (values : list (jstring * jsval))
  | RunTest (test : nat).
#[export] Instance settings_run_eq_dec : EqDecision settings_run.
Proof. solve_decision. Defined.

Record settings_pending := {
  sp_title : jstring;
  sp_consequence : jstring;
  sp_confirmLabel : jstring;
  sp_run : settings_run;
}.

Inductive save_status := StIdle | StSaving | StSaved | StError.
#[export] Instance save_status_eq_dec : EqDecision save_status.
Proof. solve_decision. Defined.

Inductive test_state := TestIdle | TestSending | TestOk | TestFailed.
#[export] Instance test_state_eq_dec : EqDecision test_state.
Proof. solve_decision. Defined.

Inductive settings_flight := SavePut | TestPost (test : nat).

Record settings_form := {
  fm_values : list (jstring * jsval);
  fm_status : save_status;
  fm_message : option jstring;
  fm_pending : option settings_pending;
  fm_tests : list (test_state * option jstring);    (** each TestButton's state and detail *)
  fm_flights : list settings_flight;
}.

(** [valid]: the browser's own check of the boxes when the form is
    submitted (a number box may hold what is no number). *)
Inductive settings_event :=
  | ChangeBox (path : jstring) (value : jsval)
  | PressSave (valid : bool)
  | PressTest (test : nat) (valid : bool)
  | ConfirmAsked
  | CancelAsked
  | SettingsAnswer (flight : nat) (a : answer).

Record settings_labels := {
  lb_save : jstring;
  lb_saved : jstring;
  lb_saveFailed : jstring;
  lb_test : jstring;
  lb_testFailed : jstring;
}.

Section SettingsForm.
Context `{ToString} `{ToNumber}.
Context (section : jstring) (initial : jsval) (fields : list SettingsField)
        (labels : settings_labels) (saveTitle saveConsequence : jstring)
        (testable : list ChannelTest).

(** ** The requests *)

Definition save_call (values : list (jstring * jsval)) : call :=
  {| cl_method := u "PUT"; cl_url := u "/v1/settings/" ++ section;
     cl_body := Some (VObj (settingsDocument fields values)) |}.
Definition test_call (test : ChannelTest) : call :=
  {| cl_method := u "POST"; cl_url := u "/v1/settings/notifications/" ++ ct_channel test ++ u "/test";
     cl_body := None |}.

(** ** State *)

Definition set_asked (p : option settings_pending) (s : settings_form) : settings_form :=
  {| fm_values := fm_values s; fm_status := fm_status s; fm_message := fm_message s;
     fm_pending := p; fm_tests := fm_tests s; fm_flights := fm_flights s |}.
Definition set_save (status : save_status) (message : option jstring) (s : settings_form)
    : settings_form :=
  {| fm_values := fm_values s; fm_status := status; fm_message := message;
     fm_pending := fm_pending s; fm_tests := fm_tests s; fm_flights := fm_flights s |}.
Definition set_test (test : nat) (state : test_state * option jstring) (s : settings_form)
    : settings_form :=
  {| fm_values := fm_values s; fm_status := fm_status s; fm_message := fm_message s;
     fm_pending := fm_pending s; fm_tests := <[test := state]> (fm_tests s);
     fm_flights := fm_flights s |}.
Definition set_sent (flights : list settings_flight) (s : settings_form) : settings_form :=
  {| fm_values := fm_values s; fm_status := fm_status s; fm_message := fm_message s;
     fm_pending := fm_pending s; fm_tests := fm_tests s; fm_flights := flights |}.

(** The panels that start open. *)
Definition openAtFirst : list (option jstring) :=
  sg_name <$> List.filter (fun group => settingsGroupIsOn group (settingsFormValues initial fields))
                (groupSettingsFields fields).

Definition settings_mount : settings_form :=
  {| fm_values := settingsFormValues initial fields; fm_status := StIdle; fm_message := None;
     fm_pending := None; fm_tests := replicate (length testable) (TestIdle, None);
     fm_flights := [] |}.

(** ** The handlers *)

Definition saveSettings (values : list (jstring * jsval)) (s : settings_form)
    : settings_form * list effect :=
  (set_sent (fm_flights s ++ [SavePut]) (set_save StSaving None s), [Fetch (save_call values)]).

Definition askSave (s : settings_form) : settings_form :=
  set_asked (Some {| sp_title := saveTitle; sp_consequence := saveConsequence;
                     sp_confirmLabel := lb_save labels; sp_run := RunSave (fm_values s) |}) s.

Definition sendTest (i : nat) (s : settings_form) : settings_form * list effect :=
  match testable !! i with
  | None => (s, [])
  | Some test =>
      (set_sent (fm_flights s ++ [TestPost i]) (set_test i (TestSending, None) s),
       [Fetch (test_call test)])
  end.

Definition askTest (i : nat) (test : ChannelTest) (s : settings_form) : settings_form :=
  set_asked (Some {| sp_title := ct_title test; sp_consequence := ct_consequence test;
                     sp_confirmLabel := lb_test labels; sp_run := RunTest i |}) s.

Definition run_asked (r : settings_run) (s : settings_form) : settings_form * list effect :=
  match r with
  | RunSave values => saveSettings values s
  | RunTest i => sendTest i s
  end.

(** [(await response.text()).trim() || fallback]; [None] when the body
    cannot be read, which leaves the message as it was cleared. *)
Definition answer_text (fallback : jstring) (text : option jstring) : option jstring :=
  (fun t => if jeqb (trim t) [] then fallback else trim t) <$> text.

Definition settings_answered (i : nat) (a : answer) (s : settings_form)
    : option (settings_form * list effect) :=
  match fm_flights s !! i with
  | None => None
  | Some f =>
      let landed := set_sent (delete i (fm_flights s)) s in
      match f, a with
      | _, NoAnswer => Some (landed, [])
      | SavePut, Answer status text _ =>
          Some (if ok_status status then set_save StSaved (Some (lb_saved labels)) landed
                else set_save StError (answer_text (lb_saveFailed labels) text) landed, [])
      | TestPost t, Answer status text _ =>
          Some (if ok_status status then set_test t (TestOk, None) landed
                else set_test t (TestFailed, answer_text (lb_testFailed labels) text) landed, [])
      end
  end.

(** ** The form *)

Definition settings_dialog (s : settings_form) : bool := is_some (fm_pending s).

Definition settings_step (s : settings_form) (e : settings_event)
    : option (settings_form * list effect) :=
  match e with
  | ChangeBox path value =>
      if negb (settings_dialog s) && existsb (fun f => jeqb (sf_path f) path) fields
      then Some ({| fm_values := map_set path value (fm_values s); fm_status := fm_status s;
                    fm_message := fm_message s; fm_pending := fm_pending s;
                    fm_tests := fm_tests s; fm_flights := fm_flights s |}, [])
      else None
  | PressSave valid =>
      if negb (settings_dialog s) && negb (bool_decide (fm_status s = StSaving)) && valid
      then Some (askSave s, []) else None
  | PressTest i valid =>
      match testable !! i, fm_tests s !! i with
      | Some test, Some state =>
          if negb (settings_dialog s) && negb (bool_decide (state.1 = TestSending)) then
            let asked := askTest i test s in
            Some (if valid then askSave asked else asked, [])
          else None
      | _, _ => None
      end
  | ConfirmAsked =>
      match fm_pending s with
      | Some p => let ran := run_asked (sp_run p) s in Some (set_asked None ran.1, ran.2)
      | None => None
      end
  | CancelAsked => if settings_dialog s then Some (set_asked None s, []) else None
  | SettingsAnswer i a => settings_answered i a s
  end.

(** ** What is saved *)

(** The question on the screen is about the boxes as they stand. *)
Definition asked_about_boxes (s : settings_form) : Prop :=
  forall p, fm_pending s = Some p ->
  match sp_run p with
  | RunSave values => values = fm_values s /\ sp_title p = saveTitle /\ sp_consequence p = saveConsequence
  | RunTest i => exists test, testable !! i = Some test /\ sp_title p = ct_title test
                   /\ sp_consequence p = ct_consequence test
  end.

Lemma settings_answered_keeps i a s s' out :
  settings_answered i a s = Some (s', out) ->
  fm_pending s' = fm_pending s /\ fm_values s' = fm_values s /\ out = [].
Proof.
  unfold settings_answered. destruct (fm_flights s !! i) as [f|]; [|done].
  destruct f, a as [|status text json]; try (intros [-> ->]%some_pair; done);
    destruct (ok_status status); by intros [-> ->]%some_pair.
Qed.

Lemma settings_step_keeps s e s' out :
  asked_about_boxes s -> settings_step s e = Some (s', out) -> asked_about_boxes s'.
Proof.
  intros Ha. unfold settings_step, asked_about_boxes. destruct e as [path value|valid|i valid| | |i a].
  - destruct (settings_dialog s) eqn:Ed; [done|]. destruct (_ && _); [|done]. intros [-> _]%some_pair p.
    unfold settings_dialog in Ed. cbn. intros Hp. by rewrite Hp in Ed.
  - destruct (_ && _); [|done]. intros [-> _]%some_pair p [= <-]. by cbn.
  - destruct (testable !! i) as [test|] eqn:Et; [|done]. destruct (fm_tests s !! i) as [state|]; [|done].
    destruct (_ && _); [|done]. intros [-> _]%some_pair p. destruct valid; intros [= <-]; cbn; [done|by exists test].
  - destruct (fm_pending s); [|done]. intros [-> _]%some_pair q. done.
  - destruct (settings_dialog s); [|done]. intros [-> _]%some_pair q. done.
  - intros (Hp & Hv & _)%settings_answered_keeps p. rewrite Hp, Hv. apply Ha.
Qed.

Lemma settings_reachable tr s : run settings_step settings_mount tr s -> asked_about_boxes s.
Proof. apply run_invariant; [exact settings_step_keeps|]. by intros p. Qed.

(** What leaves the settings page.  A request is sent only by the answer
    to the question on the screen; the save asked about sends the document of
    exactly the boxes that stand behind the dialog, and the test asked about
    goes to its own channel, under the title the dialog shows. *)
Theorem settings_sends_what_it_asked tr s e s' out x :
  run settings_step settings_mount tr s -> settings_step s e = Some (s', out) -> x ∈ out ->
  e = ConfirmAsked /\ exists p, fm_pending s = Some p /\ fm_pending s' = None
  /\ (x = Fetch (save_call (fm_values s)) /\ sp_title p = saveTitle
        /\ sp_consequence p = saveConsequence /\ fm_status s' = StSaving
      \/ exists test, test ∈ testable /\ x = Fetch (test_call test) /\ sp_title p = ct_title test
           /\ sp_consequence p = ct_consequence test).
Proof.
  intros Hr Hs Hx. apply settings_reachable in Hr. unfold settings_step in Hs.
  destruct e as [path value|valid|i valid| | |i a].
  - destruct (_ && _); [|done]. apply some_pair in Hs as [_ ->]. by apply not_elem_of_nil in Hx.
  - destruct (_ && _); [|done]. apply some_pair in Hs as [_ ->]. by apply not_elem_of_nil in Hx.
  - destruct (testable !! i); [|done]. destruct (fm_tests s !! i); [|done]. destruct (_ && _); [|done].
    apply some_pair in Hs as [_ ->]. by apply not_elem_of_nil in Hx.
  - destruct (fm_pending s) as [p|] eqn:Ep; [|done]. apply some_pair in Hs as [-> ->]. split; [done|].
    exists p. split_and!; [done..|]. specialize (Hr p Ep). destruct (sp_run p) as [values|i].
    + destruct Hr as (-> & Ht & Hc). left. apply list_elem_of_singleton in Hx as ->. by split_and!.
    + destruct Hr as (test & Hi & Ht & Hc). right. exists test. cbn in Hx. unfold sendTest in Hx.
      rewrite Hi in Hx. apply list_elem_of_singleton in Hx as ->.
      split_and!; [by eapply list_elem_of_lookup_2|done..].
  - destruct (settings_dialog s); [|done]. apply some_pair in Hs as [_ ->]. by apply not_elem_of_nil in Hx.
  - apply settings_answered_keeps in Hs as (_ & _ & ->). by apply not_elem_of_nil in Hx.
Qed.

(** ** The test buttons *)

Definition press_valid (e : settings_event) : bool :=
  match e with PressTest _ valid => valid | _ => true end.

Definition asks_save (s : settings_form) : Prop :=
  forall p, fm_pending s = Some p -> exists values, sp_run p = RunSave values.

Lemma asks_save_step s e s' out :
  asks_save s -> press_valid e = true -> settings_step s e = Some (s', out) ->
  asks_save s' /\ (forall x, x ∈ out -> exists values, x = Fetch (save_call values)).
Proof.
  intros Ha Hv. unfold settings_step, asks_save. destruct e as [path value|valid|i valid| | |i a].
  - destruct (_ && _); [|done]. intros [-> ->]%some_pair. split; [done|]. by intros x ?%not_elem_of_nil.
  - destruct (_ && _); [|done]. intros [-> ->]%some_pair. split; [|by intros x ?%not_elem_of_nil].
    intros q [= <-]. by eexists.
  - destruct (testable !! i); [|done]. destruct (fm_tests s !! i); [|done]. destruct (_ && _); [|done].
    cbn in Hv. rewrite Hv. intros [-> ->]%some_pair. split; [|by intros x ?%not_elem_of_nil].
    intros q [= <-]. by eexists.
  - destruct (fm_pending s) as [r|] eqn:Ep; [|done]. intros [-> ->]%some_pair. split; [done|].
    destruct (Ha r Ep) as (values & ->). intros x ->%list_elem_of_singleton. by eexists.
  - destruct (settings_dialog s); [|done]. intros [-> ->]%some_pair. split; [done|]. by intros x ?%not_elem_of_nil.
  - intros (Hp & _ & ->)%settings_answered_keeps. rewrite Hp. split; [done|]. by intros x ?%not_elem_of_nil.
Qed.

(** Where the form departs from what it means to do.  The Test button
    declares no type and stands in the form, so pressing it submits the form
    after asking about the test: on a valid form the question that stays is
    always the one about saving, and in no run does a test of a channel leave
    the page. *)
Theorem test_never_sent tr s :
  run settings_step settings_mount tr s -> Forall (fun eo => press_valid eo.1 = true) tr ->
  (forall p, fm_pending s = Some p -> exists values, sp_run p = RunSave values)
  /\ (forall test, Fetch (test_call test) ∉ effects tr)
  /\ (forall i test s' out, settings_step s (PressTest i true) = Some (s', out) ->
        testable !! i = Some test ->
        exists p, fm_pending s' = Some p /\ sp_title p = saveTitle /\ sp_run p = RunSave (fm_values s)).
Proof.
  intros Hr Hv.
  assert (H1 : asks_save s /\ forall x, x ∈ effects tr -> exists values, x = Fetch (save_call values)).
  { assert (Hm : asks_save settings_mount) by (intros p; done). revert Hm Hv.
    induction Hr as [s|s e s1 out tr s2 Hst Hr IH]; intros Hm Hv.
    - split; [done|]. by intros x ?%not_elem_of_nil.
    - apply Forall_cons in Hv as [He Hv]. destruct (asks_save_step _ _ _ _ Hm He Hst) as [H1 Ho].
      destruct (IH H1 Hv) as [H2 Hx]. split; [done|]. intros x. unfold effects. cbn.
      intros [?|?]%elem_of_app; auto. }
  destruct H1 as [Ha Hx]. split_and!; [exact Ha| |].
  - intros test (values & E)%Hx. injection E. discriminate.
  - intros i test s' out Hs Ht. unfold settings_step in Hs. rewrite Ht in Hs.
    destruct (fm_tests s !! i); [|done]. destruct (_ && _); [|done].
    apply some_pair in Hs as [-> _]. by eexists.
Qed.
End SettingsForm.

(** ** Changing a password *)

Record password_form := {
  pf_current : jstring;
  pf_next : jstring;
  pf_status : option jstring;
  pf_failed : bool;
}.

Definition password_call (s : password_form) : call :=
  call_post (u "/v1/auth/password")
    (VObj [(u "current_password", VStr (pf_current s)); (u "new_password", VStr (pf_next s))]).

(** React's [event.currentTarget]: the form while its handler runs, null once
    the handler has awaited. *)
Definition currentTarget_after_await : option unit := None.

(** [form.reset()]. *)
Definition reset_form (form : option unit) (s : password_form) : res password_form :=
  match form with
  | Some _ => Ok {| pf_current := []; pf_next := []; pf_status := pf_status s; pf_failed := pf_failed s |}
  | None => Throw TypeError
  end.

(** [submit] after its request is answered: the state it leaves, and whether
    it returned. *)
Definition password_answered (passwordChanged : jstring) (a : answer) (s : password_form)
    : password_form * bool :=
  match a with
  | NoAnswer => (s, false)
  | Answer status text _ =>
      let ok := ok_status status in
      let marked st := {| pf_current := pf_current s; pf_next := pf_next s; pf_status := st;
                          pf_failed := negb ok |} in
      if ok then
        let shown := marked (Some passwordChanged) in
        match reset_form currentTarget_after_await shown with
        | Ok cleared => (cleared, true)
        | Throw _ => (shown, false)
        end
      else match text with
           | Some t => (marked (Some (trim t)), true)
           | None => (marked (pf_status s), false)
           end
  end.

(** The password form says changed exactly on the gateway's 2xx, and on a
    refusal shows the gateway's words; and (where it departs from its own
    last line) it never clears the boxes: after the change both passwords
    are still in them, because the event has no form any more. *)
Theorem password_answer changed status text json s :
  let s' := (password_answered changed (Answer status (Some text) json) s).1 in
  (pf_failed s' = negb (ok_status status))
  /\ pf_status s' = Some (if ok_status status then changed else trim text)
  /\ pf_current s' = pf_current s /\ pf_next s' = pf_next s
  /\ ((password_answered changed (Answer status (Some text) json) s).2 = false <-> ok_status status = true).
Proof. unfold password_answered. by destruct (ok_status status). Qed.

(** ** Concrete runs *)

Definition sample_settings_labels : settings_labels :=
  {| lb_save := u "Save"; lb_saved := u "Saved"; lb_saveFailed := u "Not saved";
     lb_test := u "Test"; lb_testFailed := u "Test failed" |}.
Definition sample_tests : list ChannelTest :=
  [{| ct_channel := u "email"; ct_label := u "E-mail"; ct_title := u "Send a test e-mail";
      ct_consequence := u "A real message leaves." |}].
Definition sample_fields : list SettingsField := [setting "email.smtp_host" KText].
Definition sample_settings :=
  @settings_step sample_to_string sample_to_number (u "notifications") sample_fields
    sample_settings_labels (u "Save settings") (u "Writes every field.") sample_tests.
Definition sample_settings_start : settings_form :=
  @settings_mount sample_to_string (VObj []) sample_fields sample_tests.
Definition sample_save : call :=
  @save_call sample_to_string sample_to_number (u "notifications") sample_fields
    [(u "email.smtp_host", VStr (u "mx"))].

Lemma settings_sends_what_it_asked_witness :
  exists s s', exec sample_settings sample_settings_start
      [ChangeBox (u "email.smtp_host") (VStr (u "mx")); PressSave true] = Some (s, [])
    /\ sample_settings s ConfirmAsked = Some (s', [Fetch sample_save])
    /\ exists p, fm_pending s = Some p /\ fm_pending s' = None.
Proof.
  destruct (exec sample_settings sample_settings_start
      [ChangeBox (u "email.smtp_host") (VStr (u "mx")); PressSave true]) as [[s out]|] eqn:E;
    [|by vm_compute in E].
  destruct (sample_settings s ConfirmAsked) as [[s' out']|] eqn:E';
    [|vm_compute in E; injection E as <- <-; by vm_compute in E'].
  assert (Eo : out = [] /\ out' = [Fetch sample_save]).
  { vm_compute in E. injection E as <- <-. vm_compute in E'. injection E' as _ <-. by vm_compute. }
  destruct Eo as [-> ->]. exists s, s'. split_and!; [reflexivity|exact E'|].
  destruct (exec_run _ _ _ _ _ E) as (tr & Hr & _).
  destruct (@settings_sends_what_it_asked sample_to_string sample_to_number (u "notifications")
    (VObj []) sample_fields sample_settings_labels (u "Save settings") (u "Writes every field.")
    sample_tests tr s ConfirmAsked s' [Fetch sample_save] (Fetch sample_save) Hr E' ltac:(left))
    as (_ & p & Hp & Hn & _).
  exists p. split; [exact Hp|exact Hn].
Defined.

Lemma test_never_sent_witness :
  exists s, exec sample_settings sample_settings_start [PressTest 0 true; ConfirmAsked]
      = Some (s, [Fetch (@save_call sample_to_string sample_to_number (u "notifications")
                    sample_fields (fm_values s))])
    /\ exists tr, tr.*1 = [PressTest 0 true; ConfirmAsked]
         /\ forall test, Fetch (test_call test) ∉ effects tr.
Proof.
  destruct (exec sample_settings sample_settings_start [PressTest 0 true; ConfirmAsked])
    as [[s out]|] eqn:E; [|by vm_compute in E].
  assert (Eo : out = [Fetch (@save_call sample_to_string sample_to_number (u "notifications")
                    sample_fields (fm_values s))])
    by (vm_compute in E; injection E as <- <-; by vm_compute).
  subst out. exists s. split; [reflexivity|].
  destruct (exec_run _ _ _ _ _ E) as (tr & Hr & Ht & _). exists tr. split; [exact Ht|].
  refine (proj1 (proj2 (@test_never_sent sample_to_string sample_to_number (u "notifications")
    (VObj []) sample_fields sample_settings_labels (u "Save settings") (u "Writes every field.")
    sample_tests tr s Hr _))).
  apply (Forall_fmap fst (fun e => press_valid e = true)). rewrite Ht. by repeat constructor.
Defined.

(** On an invalid form the browser does not submit, and the test is asked
    about after all. *)
Example test_on_invalid_form :
  snd <$> exec sample_settings sample_settings_start [PressTest 0 false; ConfirmAsked]
  = Some (Fetch <$> (test_call <$> sample_tests)).
Proof. vm_compute. reflexivity. Qed.

(** A save whose request rejects leaves the button disabled. *)
Theorem rejected_save_freezes :
  exists s, exec sample_settings sample_settings_start
      [PressSave true; ConfirmAsked; SettingsAnswer 0 NoAnswer]
    = Some (s, [Fetch (@save_call sample_to_string sample_to_number (u "notifications")
                  sample_fields [(u "email.smtp_host", VUndef)])])
    /\ fm_status s = StSaving /\ fm_message s = None /\ fm_flights s = []
    /\ sample_settings s (PressSave true) = None.
Proof. eexists. split; [vm_compute; reflexivity|]. by vm_compute. Qed.
