(* ===== verification/ProxyManager.v ===== *)
(** * The proxy configuration (components/proxy-manager.tsx: ProxyManager,
      UpstreamList, InstanceList, CountryRuleList)

    Upstreams, listeners and country rules, each a table of rows with their
    actions and a form that adds one.  Every request goes through [call],
    which raises [busy] and lowers it however the request ends; an action
    that interrupts traffic or removes a row is held in [pending] until its
    dialog is confirmed. *)

From Stdlib Require Import Lia.
From S2P Require Import Prelude JsString JsValue Guards Settings Network TableQuery I18n Component.

(** ** Actions *)

Inductive proxy_action :=
  | RemoveUpstream (row : UpstreamRow)
  | StopInstance (row : ProxyInstanceRow)
  | RestartInstance (row : ProxyInstanceRow)
  | RemoveInstance (row : ProxyInstanceRow)
  | RemoveRule (row : CountryRuleRow).

Inductive proxy_button :=
  | ButtonRemoveUpstream | ButtonStop | ButtonRestart | ButtonRemoveInstance | ButtonRemoveRule.

Record ProxyPending := {
  pp_title : jstring;
  pp_consequence : jstring;
  pp_confirmLabel : jstring;
  pp_run : proxy_action;
}.

Record upstream_draft := {
  ud_name : jstring; ud_address : jstring; ud_username : jstring; ud_password : jstring;
}.
#[export] Instance upstream_draft_eq_dec : EqDecision upstream_draft.
Proof. solve_decision. Defined.

Record instance_draft := {
  id_name : jstring; id_device_id : jstring; id_modem_imei : jstring;
  id_listen_port : jstring; id_upstream_id : jstring;
}.
#[export] Instance instance_draft_eq_dec : EqDecision instance_draft.
Proof. solve_decision. Defined.

Definition empty_upstream : upstream_draft :=
  {| ud_name := []; ud_address := []; ud_username := []; ud_password := [] |}.

(** What [.then(..)] does with a success. *)
Inductive after_call :=
  | Nothing
  | ClearUpstream
  | ClearInstance (draft : instance_draft)     (** the draft its closure captured *)
  | ClearCode.

Record proxy_props := {
  px_upstreams : list UpstreamRow;
  px_instances : list ProxyInstanceRow;
  px_countryRules : list CountryRuleRow;
  px_devices : list (jstring * jstring);       (** id and name *)
}.

Record proxy_manager := {
  pm_props : proxy_props;
  pm_busy : bool;
  pm_error : option jstring;
  pm_pending : option ProxyPending;
  pm_upstream : upstream_draft;
  pm_instance : instance_draft;
  pm_code : jstring;
  pm_ruleUpstream : jstring;
  pm_flights : list after_call;
}.

Inductive proxy_event :=
  | AskProxy (b : proxy_button) (row : nat)
  | ProbeFrom (row device : nat)               (** the device picker of an upstream's row *)
  | StartRow (row : nat)
  | TypeUpstream (draft : upstream_draft)
  | TypeInstance (draft : instance_draft)
  | TypeCode (text : jstring)
  | PickRuleUpstream (id : jstring)
  | AddUpstream
  | AddInstance
  | AddRule
  | ProceedProxy
  | CancelProxy
  | ProxyAnswer (flight : nat) (a : answer)
  | RedrawProxy (props : proxy_props).

(** ** Words *)

(** [toUpperCase]: a letter of ASCII is its capital, and nothing is said of
    the others. *)
Class UpperCase := {
  toUpperCase : jstring -> jstring;
  toUpperCase_ascii s : Forall (fun c => c < 128)%N s ->
    toUpperCase s = (fun c => if (97 <=? c)%N && (c <=? 122)%N then (c - 32)%N else c) <$> s;
}.

Definition is_letter (c : N) : bool :=
  ((65 <=? c) && (c <=? 90) || (97 <=? c) && (c <=? 122))%N.

Section ProxyManager.
Context `{ToNumber} `{NumberText} `{UpperCase}.
Context (inherited_text : jstring -> jstring) (labels : string -> jstring).

Definition upstreamName (upstreams : list UpstreamRow) (upstreamId : jstring) : jstring :=
  match List.find (fun upstream => jeqb (up_id upstream) upstreamId) upstreams with
  | Some upstream => up_name upstream
  | None => labels "direct"
  end.

Definition listenAddress (instance : ProxyInstanceRow) : jstring :=
  pi_listenAddr instance ++ u ":" ++ number_text (Fin (pi_listenPort instance)).

Definition fill_label (key : string) (vars : list (jstring * jstring)) : jstring :=
  interpolate inherited_text (labels key) (Some ((fun kv => (kv.1, Some kv.2)) <$> vars)).

(** How many listeners chain through an upstream. *)
Definition chained (upstreamId : jstring) (instances : list ProxyInstanceRow) : nat :=
  length (List.filter (fun instance => jeqb (pi_upstreamId instance) upstreamId) instances).

Definition pending_of (props : proxy_props) (a : proxy_action) : ProxyPending :=
  let named instance := [(u "name", pi_name instance); (u "listen", listenAddress instance)] in
  match a with
  | RemoveUpstream row =>
      {| pp_title := fill_label "confirmRemoveUpstreamTitle" [(u "name", up_name row)];
         pp_consequence := fill_label "confirmRemoveUpstream"
           [(u "name", up_name row); (u "address", up_address row);
            (u "count", number_text (Fin (int (Z.of_nat (chained (up_id row) (px_instances props))))))];
         pp_confirmLabel := labels "remove"; pp_run := a |}
  | StopInstance row =>
      {| pp_title := fill_label "confirmStopTitle" [(u "name", pi_name row)];
         pp_consequence := fill_label "confirmStop" (named row);
         pp_confirmLabel := labels "stop"; pp_run := a |}
  | RestartInstance row =>
      {| pp_title := fill_label "confirmRestartTitle" [(u "name", pi_name row)];
         pp_consequence := fill_label "confirmRestart" (named row);
         pp_confirmLabel := labels "restart"; pp_run := a |}
  | RemoveInstance row =>
      {| pp_title := fill_label "confirmRemoveInstanceTitle" [(u "name", pi_name row)];
         pp_consequence := fill_label "confirmRemoveInstance" (named row);
         pp_confirmLabel := labels "remove"; pp_run := a |}
  | RemoveRule row =>
      {| pp_title := fill_label "confirmRemoveRuleTitle" [(u "code", cr_countryCode row)];
         pp_consequence := fill_label "confirmRemoveRule"
           [(u "code", cr_countryCode row);
            (u "upstream", upstreamName (px_upstreams props) (cr_upstreamId row))];
         pp_confirmLabel := labels "remove"; pp_run := a |}
  end.

(** ** The requests *)

Definition delete_call (url : jstring) : call :=
  {| cl_method := u "DELETE"; cl_url := url; cl_body := None |}.
Definition bare_post (url : jstring) : call :=
  {| cl_method := u "POST"; cl_url := url; cl_body := None |}.
Definition instance_url (row : ProxyInstanceRow) : jstring := u "/v1/proxy/instances/" ++ pi_id row.

Definition action_call (a : proxy_action) : call :=
  match a with
  | RemoveUpstream row => delete_call (u "/v1/proxy/upstreams/" ++ up_id row)
  | StopInstance row => bare_post (instance_url row ++ u "/stop")
  | RestartInstance row => bare_post (instance_url row ++ u "/restart")
  | RemoveInstance row => delete_call (instance_url row)
  | RemoveRule row => delete_call (u "/v1/proxy/country-rules/" ++ cr_countryCode row)
  end.

Definition probe_call (row : UpstreamRow) (deviceId : jstring) : call :=
  call_post (u "/v1/proxy/upstreams/" ++ up_id row ++ u "/probe") (VObj [(u "device_id", VStr deviceId)]).
Definition start_instance_call (row : ProxyInstanceRow) : call :=
  bare_post (instance_url row ++ u "/start").

Definition upstream_call (draft : upstream_draft) : call :=
  call_post (u "/v1/proxy/upstreams")
    (VObj [(u "name", VStr (ud_name draft)); (u "address", VStr (ud_address draft));
           (u "username", VStr (ud_username draft)); (u "password", VStr (ud_password draft));
           (u "protocol", VStr (u "socks5")); (u "enabled", VBool true)]).

(** [{ ...draft, listen_port: Number(draft.listen_port), .. }]. *)
Definition instance_call (draft : instance_draft) : call :=
  call_post (u "/v1/proxy/instances")
    (VObj [(u "name", VStr (id_name draft)); (u "device_id", VStr (id_device_id draft));
           (u "modem_imei", VStr (id_modem_imei draft));
           (u "listen_port", VNum (to_number (VStr (id_listen_port draft))));
           (u "upstream_id", VStr (id_upstream_id draft));
           (u "protocol", VStr (u "socks5")); (u "enabled", VBool true)]).

Definition rule_call (code upstreamId : jstring) : call :=
  {| cl_method := u "PUT"; cl_url := u "/v1/proxy/country-rules/" ++ toUpperCase code;
     cl_body := Some (VObj [(u "upstream_id", VStr upstreamId)]) |}.

(** ** State *)

Definition set_call (busy : bool) (error : option jstring) (flights : list after_call)
    (s : proxy_manager) : proxy_manager :=
  {| pm_props := pm_props s; pm_busy := busy; pm_error := error; pm_pending := pm_pending s;
     pm_upstream := pm_upstream s; pm_instance := pm_instance s; pm_code := pm_code s;
     pm_ruleUpstream := pm_ruleUpstream s; pm_flights := flights |}.
Definition set_ask (p : option ProxyPending) (s : proxy_manager) : proxy_manager :=
  {| pm_props := pm_props s; pm_busy := pm_busy s; pm_error := pm_error s; pm_pending := p;
     pm_upstream := pm_upstream s; pm_instance := pm_instance s; pm_code := pm_code s;
     pm_ruleUpstream := pm_ruleUpstream s; pm_flights := pm_flights s |}.
Definition set_boxes (upstream : upstream_draft) (instance : instance_draft)
    (code ruleUpstream : jstring) (s : proxy_manager) : proxy_manager :=
  {| pm_props := pm_props s; pm_busy := pm_busy s; pm_error := pm_error s;
     pm_pending := pm_pending s; pm_upstream := upstream; pm_instance := instance;
     pm_code := code; pm_ruleUpstream := ruleUpstream; pm_flights := pm_flights s |}.

(** [call(path, init)] up to its [await], and what follows it. *)
Definition start_call (c : call) (k : after_call) (s : proxy_manager) : proxy_manager * list effect :=
  (set_call true None (pm_flights s ++ [k]) s, [Fetch c]).

Definition after_success (k : after_call) (s : proxy_manager) : proxy_manager :=
  match k with
  | Nothing => s
  | ClearUpstream => set_boxes empty_upstream (pm_instance s) (pm_code s) (pm_ruleUpstream s) s
  | ClearInstance draft =>
      set_boxes (pm_upstream s)
        {| id_name := []; id_device_id := id_device_id draft; id_modem_imei := [];
           id_listen_port := id_listen_port draft; id_upstream_id := id_upstream_id draft |}
        (pm_code s) (pm_ruleUpstream s) s
  | ClearCode => set_boxes (pm_upstream s) (pm_instance s) [] (pm_ruleUpstream s) s
  end.

Definition call_answered (i : nat) (a : answer) (s : proxy_manager)
    : option (proxy_manager * list effect) :=
  match pm_flights s !! i with
  | None => None
  | Some k =>
      let ended error := set_call false error (delete i (pm_flights s)) s in
      Some match a with
           | NoAnswer => (ended (Some (labels "failed")), [])
           | Answer status text _ =>
               if ok_status status then (after_success k (ended (pm_error s)), [RouterRefresh])
               else match text with
                    | None => (ended (Some (labels "failed")), [])
                    | Some t =>
                        (ended (Some (if jeqb (trim t) [] then labels "failed" else trim t)), [])
                    end
           end
  end.

(** ** The component *)

Definition proxy_mount (props : proxy_props) : proxy_manager :=
  {| pm_props := props; pm_busy := false; pm_error := None; pm_pending := None;
     pm_upstream := empty_upstream;
     pm_instance := {| id_name := []; id_device_id := from_option fst [] (head (px_devices props));
                       id_modem_imei := []; id_listen_port := u "1080"; id_upstream_id := [] |};
     pm_code := []; pm_ruleUpstream := []; pm_flights := [] |}.

Definition proxy_dialog (s : proxy_manager) : bool := is_some (pm_pending s).
Definition proxy_controls (s : proxy_manager) : bool := negb (pm_busy s) && negb (proxy_dialog s).

(** The boxes the browser checks when a form is submitted. *)
Definition upstream_valid (d : upstream_draft) : bool :=
  negb (jeqb (ud_name d) []) && negb (jeqb (ud_address d) []).
Definition instance_valid (d : instance_draft) : bool :=
  negb (jeqb (id_name d) []) && negb (jeqb (id_modem_imei d) [])
  && negb (jeqb (id_listen_port d) [])
  && match to_number (VStr (id_listen_port d)) with
     | Fin m => (int 1024 <=? m)%Z && (m <=? int 65535)%Z
     | _ => false
     end.
Definition code_valid (code : jstring) : bool := (length code =? 2)%nat && forallb is_letter code.

(** The buttons of the tables' rows, by row. *)
Definition button_action (props : proxy_props) (b : proxy_button) (i : nat) : option proxy_action :=
  match b with
  | ButtonRemoveUpstream => RemoveUpstream <$> px_upstreams props !! i
  | ButtonStop => StopInstance <$> px_instances props !! i
  | ButtonRestart => RestartInstance <$> px_instances props !! i
  | ButtonRemoveInstance => RemoveInstance <$> px_instances props !! i
  | ButtonRemoveRule => RemoveRule <$> px_countryRules props !! i
  end.

Definition proxy_step (s : proxy_manager) (e : proxy_event) : option (proxy_manager * list effect) :=
  match e with
  | AskProxy b i =>
      a ← button_action (pm_props s) b i;
      if proxy_controls s then Some (set_ask (Some (pending_of (pm_props s) a)) s, []) else None
  | ProbeFrom i j =>
      row ← px_upstreams (pm_props s) !! i;
      device ← px_devices (pm_props s) !! j;
      if proxy_controls s && negb (jeqb device.1 [])
      then Some (start_call (probe_call row device.1) Nothing s) else None
  | StartRow i =>
      row ← px_instances (pm_props s) !! i;
      if proxy_controls s then Some (start_call (start_instance_call row) Nothing s) else None
  | TypeUpstream draft =>
      if proxy_dialog s then None
      else Some (set_boxes draft (pm_instance s) (pm_code s) (pm_ruleUpstream s) s, [])
  | TypeInstance draft =>
      if proxy_dialog s then None
      else Some (set_boxes (pm_upstream s) draft (pm_code s) (pm_ruleUpstream s) s, [])
  | TypeCode text =>
      if proxy_dialog s then None
      else Some (set_boxes (pm_upstream s) (pm_instance s) (toUpperCase text) (pm_ruleUpstream s) s, [])
  | PickRuleUpstream id =>
      if proxy_dialog s then None
      else Some (set_boxes (pm_upstream s) (pm_instance s) (pm_code s) id s, [])
  | AddUpstream =>
      if proxy_controls s && upstream_valid (pm_upstream s)
      then Some (start_call (upstream_call (pm_upstream s)) ClearUpstream s) else None
  | AddInstance =>
      if proxy_controls s && negb (length (px_devices (pm_props s)) =? 0)%nat
         && instance_valid (pm_instance s)
      then Some (start_call (instance_call (pm_instance s)) (ClearInstance (pm_instance s)) s) else None
  | AddRule =>
      if proxy_controls s && (length (pm_code s) =? 2)%nat && code_valid (pm_code s)
      then Some (start_call (rule_call (pm_code s) (pm_ruleUpstream s)) ClearCode s) else None
  | ProceedProxy =>
      if negb (pm_busy s) then
        match pm_pending s with
        | Some p => Some (start_call (action_call (pp_run p)) Nothing (set_ask None s))
        | None => None
        end
      else None
  | CancelProxy => if proxy_dialog s then Some (set_ask None s, []) else None
  | ProxyAnswer i a => call_answered i a s
  | RedrawProxy props =>
      Some ({| pm_props := props; pm_busy := pm_busy s; pm_error := pm_error s;
               pm_pending := pm_pending s; pm_upstream := pm_upstream s;
               pm_instance := pm_instance s; pm_code := pm_code s;
               pm_ruleUpstream := pm_ruleUpstream s; pm_flights := pm_flights s |}, [])
  end.


(** ** What is asked first *)

(** Takes a row away or drops the connections running through it. *)
Definition destructive (c : call) : bool :=
  jeqb (cl_method c) (u "DELETE")
  || endsWith (cl_url c) (u "/stop") || endsWith (cl_url c) (u "/restart").

Lemma endsWith_last s c p : endsWith (s ++ [c]) p = true -> last p = Some c \/ p = [].
Proof.
  intros [t E]%endsWith_spec. destruct p as [|x p _] using rev_ind; [by right|]. left.
  rewrite app_assoc in E. apply app_inj_tail in E as [_ ->]. by rewrite last_snoc.
Qed.

Lemma endsWith_app s p : endsWith (s ++ p) p = true.
Proof. apply endsWith_spec. by exists s. Qed.

Lemma action_call_destructive a : destructive (action_call a) = true.
Proof.
  destruct a; unfold destructive, action_call, delete_call, bare_post; cbn [cl_method cl_url];
    rewrite ?endsWith_app, ?orb_true_r; reflexivity.
Qed.

Lemma start_harmless row : destructive (start_instance_call row) = false.
Proof.
  unfold destructive. cbn [cl_method start_instance_call bare_post cl_url]. unfold endsWith.
  rewrite rev_app_distr. by vm_compute.
Qed.
Lemma probe_harmless row deviceId : destructive (probe_call row deviceId) = false.
Proof.
  unfold destructive. cbn [cl_method probe_call call_post cl_url]. unfold endsWith.
  rewrite app_assoc, rev_app_distr. by vm_compute.
Qed.
Lemma upstream_harmless draft : destructive (upstream_call draft) = false.
Proof. by vm_compute. Qed.
Lemma instance_harmless draft : destructive (instance_call draft) = false.
Proof. by vm_compute. Qed.

Lemma upper_letter c :
  is_letter c = true ->
  (65 <= (if (97 <=? c)%N && (c <=? 122)%N then c - 32 else c) <= 90)%N.
Proof.
  unfold is_letter. destruct (N.leb_spec 65 c), (N.leb_spec c 90), (N.leb_spec 97 c), (N.leb_spec c 122);
    cbn; try done; lia.
Qed.

(** A country code the form lets through is two capitals in the request. *)
Lemma rule_code code :
  code_valid code = true ->
  exists x y, toUpperCase code = [x; y] /\ (65 <= x <= 90)%N /\ (65 <= y <= 90)%N.
Proof.
  unfold code_valid. destruct code as [|x [|y [|z code]]]; try done. cbn [length Nat.eqb forallb andb].
  rewrite andb_true_r. intros [Hx Hy]%andb_true_iff.
  assert (Ha : forall c, is_letter c = true -> (c < 128)%N).
  { intros c Hc%upper_letter. destruct (N.leb_spec 97 c), (N.leb_spec c 122); cbn in Hc; lia. }
  rewrite toUpperCase_ascii by (repeat constructor; auto). cbn.
  eexists _, _. split; [done|]. by split; apply upper_letter.
Qed.

Lemma rule_call_harmless code upstreamId :
  code_valid code = true -> destructive (rule_call code upstreamId) = false.
Proof.
  intros (x & y & E & _ & Hy)%rule_code. unfold destructive, rule_call. cbn [cl_method cl_url]. rewrite E.
  change (u "/v1/proxy/country-rules/" ++ [x; y]) with ((u "/v1/proxy/country-rules/" ++ [x]) ++ [y]).
  destruct (endsWith _ (u "/stop")) eqn:E1; [|destruct (endsWith _ (u "/restart")) eqn:E2; [|by vm_compute]].
  - apply endsWith_last in E1 as [E1|E1]; [|done]. vm_compute in E1. injection E1 as <-. lia.
  - apply endsWith_last in E2 as [E2|E2]; [|done]. vm_compute in E2. injection E2 as <-. lia.
Qed.

(** ** Invariants *)

Abbreviation step := proxy_step.

Record proxy_inv (s : proxy_manager) : Prop := {
  pv_one : length (pm_flights s) = if pm_busy s then 1 else 0;
  pv_asked p : pm_pending s = Some p -> exists props, p = pending_of props (pp_run p);
  pv_clear : pm_busy s = true -> pm_error s = None;
}.

Lemma start_call_inv c k s :
  pm_busy s = false -> proxy_inv s -> proxy_inv (start_call c k s).1.
Proof.
  intros Hb [Hl Ha _]. rewrite Hb in Hl. constructor; cbn; [|done..]. rewrite length_app, Hl. done.
Qed.

Lemma after_success_keeps k s :
  pm_flights (after_success k s) = pm_flights s /\ pm_busy (after_success k s) = pm_busy s
  /\ pm_pending (after_success k s) = pm_pending s.
Proof. by destruct k. Qed.

Lemma proxy_step_inv s e s' out : proxy_inv s -> step s e = Some (s', out) -> proxy_inv s'.
Proof.
  intros Hi. pose proof Hi as [Hl Ha Hc]. unfold proxy_step, proxy_controls.
  destruct e as [b i|i j|i|draft|draft|text|id| | | | | |i a|props].
  - destruct (button_action _ _ _) as [a|] eqn:Eb; cbn; [|done]. destruct (_ && _); [|done].
    intros [-> _]%some_pair. constructor; cbn; [done| |done]. intros p [= <-]. exists (pm_props s).
    by destruct a.
  - destruct (px_upstreams _ !! i); cbn; [|done]. destruct (px_devices _ !! j); cbn; [|done].
    destruct (pm_busy s) eqn:Eb; [done|]. destruct (_ && _); [|done].
    intros [-> _]%some_pair. by apply start_call_inv.
  - destruct (px_instances _ !! i); cbn; [|done]. destruct (pm_busy s) eqn:Eb; [done|].
    destruct (_ && _); [|done]. intros [-> _]%some_pair. by apply start_call_inv.
  - destruct (proxy_dialog s); [done|]. by intros [-> _]%some_pair.
  - destruct (proxy_dialog s); [done|]. by intros [-> _]%some_pair.
  - destruct (proxy_dialog s); [done|]. by intros [-> _]%some_pair.
  - destruct (proxy_dialog s); [done|]. by intros [-> _]%some_pair.
  - destruct (pm_busy s) eqn:Eb; [done|]. destruct (_ && _); [|done].
    intros [-> _]%some_pair. by apply start_call_inv.
  - destruct (pm_busy s) eqn:Eb; [done|]. destruct (_ && _); [|done].
    intros [-> _]%some_pair. by apply start_call_inv.
  - destruct (pm_busy s) eqn:Eb; [done|]. destruct (_ && _); [|done].
    intros [-> _]%some_pair. by apply start_call_inv.
  - destruct (pm_busy s) eqn:Eb; [done|]. destruct (pm_pending s) as [p|]; [|done].
    intros [-> _]%some_pair. apply start_call_inv; [done|]. constructor; cbn; [by rewrite Eb|done|by rewrite Eb].
  - destruct (proxy_dialog s); [|done]. intros [-> _]%some_pair. by constructor.
  - unfold call_answered. destruct (pm_flights s !! i) as [k|] eqn:Ei; [|done].
    pose proof (length_delete (pm_flights s) i ltac:(by rewrite Ei)) as Hd.
    pose proof (lookup_lt_Some _ _ _ Ei) as Hlt.
    assert (Hz : length (delete i (pm_flights s)) = 0) by (destruct (pm_busy s); lia).
    destruct a as [|status text json].
    + intros [-> _]%some_pair. by constructor.
    + destruct (ok_status status).
      * intros [-> _]%some_pair. destruct (after_success_keeps k (set_call false (pm_error s)
          (delete i (pm_flights s)) s)) as (E1 & E2 & E3). constructor; cbn [fst]; rewrite ?E1, ?E2, ?E3; try done.
      * destruct text; intros [-> _]%some_pair; by constructor.
  - intros [-> _]%some_pair. by constructor.
Qed.

Lemma proxy_reachable props tr s : run step (proxy_mount props) tr s -> proxy_inv s.
Proof. apply run_invariant; [exact proxy_step_inv|]. by constructor. Qed.

Lemma start_call_out c c' k s : Fetch c ∈ (start_call c' k s).2 -> c = c'.
Proof. intros Hin%list_elem_of_singleton. by injection Hin. Qed.

(** A request is the one the dialog holds, or sent from its own control with
    no dialog open and harmless. *)
Lemma proxy_sent s e s' out c :
  step s e = Some (s', out) -> Fetch c ∈ out ->
  (e = ProceedProxy /\ pm_pending s' = None
   /\ exists p, pm_pending s = Some p /\ c = action_call (pp_run p))
  \/ (proxy_dialog s = false /\ destructive c = false).
Proof.
  intros Hs Hx. unfold proxy_step, proxy_controls in Hs.
  destruct e as [b i|i j|i|draft|draft|text|id| | | | | |i a|props'].
  - destruct (button_action _ _ _); cbn in Hs; [|done]. destruct (_ && _); [|done].
    apply some_pair in Hs as [_ ->]. by apply not_elem_of_nil in Hx.
  - destruct (px_upstreams _ !! i) as [row|]; cbn in Hs; [|done].
    destruct (px_devices _ !! j) as [d|]; cbn in Hs; [|done].
    destruct (proxy_dialog s); [by rewrite andb_false_r in Hs|]. destruct (_ && _); [|done].
    apply some_pair in Hs as [_ ->]. apply start_call_out in Hx as ->. right. split; [done|apply probe_harmless].
  - destruct (px_instances _ !! i) as [row|]; cbn in Hs; [|done].
    destruct (proxy_dialog s); [by rewrite andb_false_r in Hs|]. destruct (_ && _); [|done].
    apply some_pair in Hs as [_ ->]. apply start_call_out in Hx as ->. right. split; [done|apply start_harmless].
  - destruct (proxy_dialog s); [done|]. apply some_pair in Hs as [_ ->]. by apply not_elem_of_nil in Hx.
  - destruct (proxy_dialog s); [done|]. apply some_pair in Hs as [_ ->]. by apply not_elem_of_nil in Hx.
  - destruct (proxy_dialog s); [done|]. apply some_pair in Hs as [_ ->]. by apply not_elem_of_nil in Hx.
  - destruct (proxy_dialog s); [done|]. apply some_pair in Hs as [_ ->]. by apply not_elem_of_nil in Hx.
  - destruct (proxy_dialog s); [by rewrite andb_false_r in Hs|]. destruct (_ && _); [|done].
    apply some_pair in Hs as [_ ->]. apply start_call_out in Hx as ->. right. split; [done|apply upstream_harmless].
  - destruct (proxy_dialog s); [by rewrite andb_false_r in Hs|]. destruct (_ && _); [|done].
    apply some_pair in Hs as [_ ->]. apply start_call_out in Hx as ->. right. split; [done|apply instance_harmless].
  - destruct (proxy_dialog s); [by rewrite andb_false_r in Hs|].
    destruct (code_valid (pm_code s)) eqn:Ev; [|by rewrite andb_false_r in Hs]. destruct (_ && _); [|done].
    apply some_pair in Hs as [_ ->]. apply start_call_out in Hx as ->. right. split; [done|by apply rule_call_harmless].
  - destruct (negb (pm_busy s)); [|done]. destruct (pm_pending s) as [p|]; [|done].
    apply some_pair in Hs as [-> ->]. apply start_call_out in Hx as ->. left. split_and!; [done..|]. by exists p.
  - destruct (proxy_dialog s); [|done]. apply some_pair in Hs as [_ ->]. by apply not_elem_of_nil in Hx.
  - unfold call_answered in Hs. destruct (pm_flights s !! i); [|done].
    destruct a as [|status text json]; [apply some_pair in Hs as [_ ->]; by apply not_elem_of_nil in Hx|].
    destruct (ok_status status); [|destruct text]; apply some_pair in Hs as [_ ->];
      [by apply list_elem_of_singleton in Hx|by apply not_elem_of_nil in Hx..].
  - apply some_pair in Hs as [_ ->]. by apply not_elem_of_nil in Hx.
Qed.

(** C21. What interrupts traffic is asked about.  In every run, whatever the
    rows and however the page is redrawn, a request that removes a row or
    stops or restarts a listener leaves the page only when the dialog is
    confirmed, and it is the request of the row the dialog's words were
    filled in from; every other request is none of these. *)
Theorem proxy_asks_first props tr s e s' out c :
  run step (proxy_mount props) tr s -> step s e = Some (s', out) -> Fetch c ∈ out ->
  if destructive c
  then e = ProceedProxy /\ pm_pending s' = None
       /\ exists a props', pm_pending s = Some (pending_of props' a) /\ c = action_call a
  else proxy_dialog s = false.
Proof.
  intros Hr Hs Hx. apply proxy_reachable in Hr as [_ Ha _].
  destruct (proxy_sent _ _ _ _ _ Hs Hx) as [(-> & Hn & p & Hp & ->)|[Hd ->]]; [|done].
  rewrite action_call_destructive. split_and!; [done..|].
  destruct (Ha p Hp) as [props' Hq]. exists (pp_run p), props'. by rewrite <-Hq.
Qed.

(** ** The page is never stuck *)

(** Whatever happens to a request (refused, rejected, answered with a
    body nobody can read), the page is free again once it has ended, an error
    stands on it exactly when it failed, and the server draws it again
    exactly when it did not. *)
Theorem proxy_never_stuck props tr s :
  run step (proxy_mount props) tr s -> pm_busy s = true ->
  forall a, exists s' out, step s (ProxyAnswer 0 a) = Some (s', out)
    /\ pm_busy s' = false /\ pm_flights s' = []
    /\ match a with
       | Answer status _ _ => if ok_status status then out = [RouterRefresh] /\ pm_error s' = None
                              else out = [] /\ pm_error s' <> None
       | NoAnswer => out = [] /\ pm_error s' <> None
       end.
Proof.
  intros Hr Hb a. apply proxy_reachable in Hr as [Hl _ Hc]. rewrite Hb in Hl. specialize (Hc Hb).
  unfold proxy_step, call_answered. destruct (pm_flights s) as [|k [|]] eqn:Ef; try done.
  cbn [lookup list_lookup]. change (delete 0 [k]) with (@nil after_call).
  eexists _, _. split; [apply f_equal, surjective_pairing|].
  destruct a as [|status text json]; [done|]. destruct (ok_status status); [|by destruct text].
  cbn [fst snd]. destruct (after_success_keeps k (set_call false (pm_error s) [] s)) as (E1 & E2 & _).
  rewrite E1, E2. by destruct k; cbn; rewrite Hc.
Qed.
End ProxyManager.

(** ** Concrete runs *)

Definition sample_upper : UpperCase :=
  {| toUpperCase s := (fun c => if (97 <=? c)%N && (c <=? 122)%N then (c - 32)%N else c) <$> s;
     toUpperCase_ascii _ _ := eq_refl |}.
Definition sample_port : ToNumber :=
  {| to_number v := match v with VNum n => n | _ => Fin (int 1080) end; to_number_num n := eq_refl |}.
Definition sample_number_text : NumberText := {| number_text _ := u "1080" |}.
Definition sample_instance : ProxyInstanceRow :=
  {| pi_id := u "i1"; pi_deviceId := u "d1"; pi_name := u "exit"; pi_modemImei := u "861";
     pi_protocol := u "socks5"; pi_listenAddr := u "10.0.0.2"; pi_listenPort := int 1080;
     pi_authEnabled := false; pi_username := []; pi_hasPassword := false; pi_upstreamId := [];
     pi_enabled := true |}.
Definition sample_props (devices : list (jstring * jstring)) : proxy_props :=
  {| px_upstreams := []; px_instances := [sample_instance]; px_countryRules := [];
     px_devices := devices |}.
Definition sample_proxy_labels (key : string) : jstring :=
  if String.eqb key "confirmStop" then u "{name} on {listen}" else u key.
Definition sample_proxy := @proxy_step sample_port sample_number_text sample_upper
  (fun _ => []) sample_proxy_labels.

Lemma proxy_asks_first_witness :
  exists s s', exec sample_proxy (proxy_mount (sample_props [])) [AskProxy ButtonStop 0] = Some (s, [])
    /\ pp_consequence <$> pm_pending s = Some (u "exit on 10.0.0.2:1080")
    /\ sample_proxy s ProceedProxy = Some (s', [Fetch (bare_post (u "/v1/proxy/instances/i1/stop"))])
    /\ pm_pending s' = None.
Proof.
  destruct (exec sample_proxy (proxy_mount (sample_props [])) [AskProxy ButtonStop 0])
    as [[s out]|] eqn:E; [|by vm_compute in E].
  destruct (sample_proxy s ProceedProxy) as [[s' out']|] eqn:E';
    [|vm_compute in E; injection E as <- <-; by vm_compute in E'].
  assert (Eo : out = [] /\ out' = [Fetch (bare_post (u "/v1/proxy/instances/i1/stop"))]
               /\ pp_consequence <$> pm_pending s = Some (u "exit on 10.0.0.2:1080")).
  { vm_compute in E. injection E as <- <-. vm_compute in E'. injection E' as _ <-. by vm_compute. }
  destruct Eo as (-> & -> & Hp). exists s, s'. split_and!; [reflexivity|exact Hp|exact E'|].
  destruct (exec_run _ _ _ _ _ E) as (tr & Hr & _).
  pose proof (@proxy_asks_first sample_port sample_number_text sample_upper (fun _ => [])
    sample_proxy_labels (sample_props []) tr s ProceedProxy s' _ (bare_post (u "/v1/proxy/instances/i1/stop"))
    Hr E' ltac:(left)) as Hf.
  exact (proj1 (proj2 Hf)).
Defined.

Lemma proxy_never_stuck_witness :
  exists s, exec sample_proxy (proxy_mount (sample_props [])) [StartRow 0]
      = Some (s, [Fetch (bare_post (u "/v1/proxy/instances/i1/start"))])
    /\ exists s' out, sample_proxy s (ProxyAnswer 0 NoAnswer) = Some (s', out) /\ pm_busy s' = false.
Proof.
  destruct (exec sample_proxy (proxy_mount (sample_props [])) [StartRow 0]) as [[s out]|] eqn:E;
    [|by vm_compute in E].
  assert (Eo : out = [Fetch (bare_post (u "/v1/proxy/instances/i1/start"))] /\ pm_busy s = true)
    by (vm_compute in E; injection E as <- <-; by vm_compute).
  destruct Eo as [-> Hb]. exists s. split; [reflexivity|].
  destruct (exec_run _ _ _ _ _ E) as (tr & Hr & _).
  destruct (@proxy_never_stuck sample_port sample_number_text sample_upper (fun _ => [])
    sample_proxy_labels (sample_props []) tr s Hr Hb NoAnswer) as (s' & out' & Hs & Hb' & _).
  exists s', out'. split; [exact Hs|exact Hb'].
Defined.

(** Where the form departs from what it shows: the device picker of a page
    first drawn without devices holds no device.  When one appears the picker
    shows it and the listener is added for none. *)
Theorem device_shown_not_sent :
  exists s, exec sample_proxy (proxy_mount (sample_props []))
      [RedrawProxy (sample_props [(u "d1", u "Edge")]);
       TypeInstance {| id_name := u "exit"; id_device_id := []; id_modem_imei := u "861";
                       id_listen_port := u "1080"; id_upstream_id := [] |}] = Some (s, [])
    /\ id_device_id (pm_instance s) = [] /\ px_devices (pm_props s) = [(u "d1", u "Edge")]
    /\ prop (default VUndef (cl_body (@instance_call sample_port (pm_instance s)))) (u "device_id") = VStr [].
Proof. eexists. split; [vm_compute; reflexivity|]. by vm_compute. Qed.

(** And a success puts back the boxes as they stood when the request left:
    the port chosen meanwhile for the next listener is lost. *)
Theorem typed_meanwhile_lost :
  let draft port := {| id_name := u "exit"; id_device_id := u "d1"; id_modem_imei := u "861";
                       id_listen_port := u port; id_upstream_id := [] |} in
  exists s, exec sample_proxy (proxy_mount (sample_props [(u "d1", u "Edge")]))
      [TypeInstance (draft "1080"); AddInstance; TypeInstance (draft "1081");
       ProxyAnswer 0 (Answer 201 None None)]
    = Some (s, [Fetch (@instance_call sample_port (draft "1080")); RouterRefresh])
    /\ id_listen_port (pm_instance s) = u "1080".
Proof. eexists. split; [vm_compute; reflexivity|]. by vm_compute. Qed.
