(* ===== verification/CardPolicies.v ===== *)
(** * Card policies (components/card-policies.tsx: CardPolicies,
      PlanCapability)

    One way from a control to the gateway: [propose] asks which dialog an
    edit needs, the dialog sends.  A save writes the whole policy, so what it
    sends for the fields nobody edited is part of its contract. *)

From Stdlib Require Import Lia.
From S2P Require Import Prelude JsString JsValue Gateway Messages SmsSafety Guards Component.

Record PolicyPending := {
  cq_iccid : jstring;
  cq_change : CardPolicyEdit;
  cq_guard : CardPolicyGuard;
}.

Record card_policies := {
  cs_policies : list CardPolicyRow;                 (** props *)
  cs_knownCards : list (jstring * jstring);         (** iccid and label *)
  cs_busy : bool;
  cs_error : option jstring;
  cs_pending : option PolicyPending;
  cs_flights : nat;                                 (** requests not answered *)
}.

Inductive policy_event :=
  | EditRow (iccid : jstring) (change : CardPolicyEdit)     (** a control of a row *)
  | SubmitAdd (iccid : jstring)                             (** the form below the table *)
  | ConfirmPolicy
  | CancelPolicy
  | PolicyAnswer (a : answer)
  | RedrawPolicies (policies : list CardPolicyRow) (knownCards : list (jstring * jstring)).

(** ** The request of a save *)

(** [a ?? b]. *)
Definition coalesce (a b : jsval) : jsval := nullish a b.

(** A field of [existing], undefined without one. *)
Definition existing_field (f : CardPolicyRow -> jsval) (existing : option CardPolicyRow) : jsval :=
  from_option f VUndef existing.

(** [declared]: null is a value here. *)
Definition declared (edited existing : jsval) : jsval :=
  match edited with VUndef => nullish existing VNull | _ => edited end.

Definition patch_field (patch : list (jstring * jsval)) (k : string) : jsval := prop (VObj patch) (u k).

Definition save_body (existing : option CardPolicyRow) (patch : list (jstring * jsval)) : jsval :=
  VObj
    [ (u "cellular_enabled",
       coalesce (patch_field patch "cellularEnabled")
         (coalesce (existing_field (fun r => VBool (cp_cellularEnabled r)) existing) (VBool true)));
      (u "vertical",
       coalesce (patch_field patch "vertical")
         (coalesce (existing_field (fun r => VStr (cp_vertical r)) existing) (VStr (u "cn"))));
      (u "apn",
       coalesce (patch_field patch "apn")
         (coalesce (existing_field (fun r => of_str (cp_apn r)) existing) VNull));
      (u "note",
       coalesce (patch_field patch "note")
         (coalesce (existing_field (fun r => VStr (cp_note r)) existing) (VStr [])));
      (u "sms_send",
       declared (patch_field patch "smsSend") (existing_field (fun r => of_bool (cp_smsSend r)) existing));
      (u "sms_receive",
       declared (patch_field patch "smsReceive") (existing_field (fun r => of_bool (cp_smsReceive r)) existing));
      (u "data",
       declared (patch_field patch "data") (existing_field (fun r => of_bool (cp_data r)) existing));
      (u "voice",
       declared (patch_field patch "voice") (existing_field (fun r => of_bool (cp_voice r)) existing)) ].

Definition policy_url (iccid : jstring) : jstring := u "/v1/cards/" ++ iccid ++ u "/policy".
Definition policy_put (iccid : jstring) (body : jsval) : call :=
  {| cl_method := u "PUT"; cl_url := policy_url iccid; cl_body := Some body |}.
Definition policy_delete (iccid : jstring) : call :=
  {| cl_method := u "DELETE"; cl_url := policy_url iccid; cl_body := None |}.

(** ** Handlers *)

Section CardPolicies.
Context (failed : jstring) (writable : bool).

Definition set_policy (busy : bool) (error : option jstring) (pending : option PolicyPending)
    (flights : nat) (s : card_policies) : card_policies :=
  {| cs_policies := cs_policies s; cs_knownCards := cs_knownCards s; cs_busy := busy;
     cs_error := error; cs_pending := pending; cs_flights := flights |}.

Definition unpolicied (s : card_policies) : list (jstring * jstring) :=
  List.filter (fun card => negb (existsb (fun policy => jeqb (cp_iccid policy) card.1) (cs_policies s)))
    (cs_knownCards s).

Definition propose (iccid : jstring) (change : CardPolicyEdit) (s : card_policies) : card_policies :=
  if negb writable then s else
  match cardPolicyGuardFor change with
  | None => s
  | Some guard =>
      set_policy (cs_busy s) None
        (Some {| cq_iccid := iccid; cq_change := change; cq_guard := guard |}) (cs_flights s) s
  end.

Definition find_policy (policies : list CardPolicyRow) (iccid : jstring) : option CardPolicyRow :=
  List.find (fun policy => jeqb (cp_iccid policy) iccid) policies.

Definition save (iccid : jstring) (patch : list (jstring * jsval)) (s : card_policies)
    : card_policies * list effect :=
  if negb writable then (s, []) else
  (set_policy true None None (S (cs_flights s)) s,
   [Fetch (policy_put iccid (save_body (find_policy (cs_policies s) iccid) patch))]).

Definition removePolicy (iccid : jstring) (s : card_policies) : card_policies * list effect :=
  if negb writable then (s, []) else
  (set_policy true None None (S (cs_flights s)) s, [Fetch (policy_delete iccid)]).

(** The dialog's answer; closing the dialog cancels what is left of it. *)
Definition confirm_policy (p : PolicyPending) (s : card_policies) : card_policies * list effect :=
  let sent := match cardPolicyPatch (cq_change p) with
    | None => removePolicy (cq_iccid p) s
    | Some patch => save (cq_iccid p) patch s
    end in
  (set_policy (cs_busy sent.1) (cs_error sent.1) None (cs_flights sent.1) sent.1, sent.2).

Definition policy_answered (a : answer) (s : card_policies) : option (card_policies * list effect) :=
  match cs_flights s with
  | O => None
  | S flights =>
      Some match a with
           | NoAnswer => (set_policy (cs_busy s) (cs_error s) (cs_pending s) flights s, [])
           | Answer status text _ =>
               if ok_status status
               then (set_policy false (cs_error s) (cs_pending s) flights s, [RouterRefresh])
               else match text with
                    | None => (set_policy false (cs_error s) (cs_pending s) flights s, [])
                    | Some t =>
                        (set_policy false (Some (if jeqb (trim t) [] then failed else trim t))
                           (cs_pending s) flights s, [])
                    end
           end
  end.

(** ** The component *)

Definition policies_mount (policies : list CardPolicyRow) (knownCards : list (jstring * jstring))
    : card_policies :=
  {| cs_policies := policies; cs_knownCards := knownCards; cs_busy := false; cs_error := None;
     cs_pending := None; cs_flights := 0 |}.

Definition policy_controls (s : card_policies) : bool :=
  writable && negb (cs_busy s) && negb (is_some (cs_pending s)).

(** The edits a row's controls can make of it. *)
Definition row_edit (policy : CardPolicyRow) (change : CardPolicyEdit) : bool :=
  match change with
  | EditCellular enabled => negb (Bool.eqb enabled (cp_cellularEnabled policy))
  | EditVertical from to => jeqb from (cp_vertical policy) && (jeqb to (u "cn") || jeqb to (u "intl"))
  | EditCapability _ _ | EditRemove => true
  | EditAdd => false
  end.

Definition policy_step (s : card_policies) (e : policy_event) : option (card_policies * list effect) :=
  match e with
  | EditRow iccid change =>
      if policy_controls s
         && existsb (fun policy => jeqb (cp_iccid policy) iccid && row_edit policy change) (cs_policies s)
      then Some (propose iccid change s, []) else None
  | SubmitAdd iccid =>
      if policy_controls s && existsb (fun card => jeqb card.1 iccid) (unpolicied s)
      then Some (if jeqb iccid [] then s else propose iccid EditAdd s, []) else None
  | ConfirmPolicy =>
      match cs_pending s with
      | Some p => if cs_busy s then None else Some (confirm_policy p s)
      | None => None
      end
  | CancelPolicy =>
      if is_some (cs_pending s)
      then Some (set_policy (cs_busy s) (cs_error s) None (cs_flights s) s, []) else None
  | PolicyAnswer a => policy_answered a s
  | RedrawPolicies policies knownCards =>
      Some ({| cs_policies := policies; cs_knownCards := knownCards; cs_busy := cs_busy s;
               cs_error := cs_error s; cs_pending := cs_pending s; cs_flights := cs_flights s |}, [])
  end.
End CardPolicies.

(** ** What a save writes *)

(** The policy an edit is meant to produce; adding means the default. *)
Definition edited_policy (change : CardPolicyEdit) (policy : CardPolicyRow) : CardPolicyRow :=
  let set cellular vertical smsSend smsReceive data voice :=
    {| cp_iccid := cp_iccid policy; cp_cellularEnabled := cellular; cp_vertical := vertical;
       cp_apn := cp_apn policy; cp_note := cp_note policy; cp_updatedAt := cp_updatedAt policy;
       cp_smsSend := smsSend; cp_smsReceive := smsReceive; cp_data := data; cp_voice := voice |} in
  match change with
  | EditCellular enabled =>
      set enabled (cp_vertical policy) (cp_smsSend policy) (cp_smsReceive policy) (cp_data policy) (cp_voice policy)
  | EditVertical _ to =>
      set (cp_cellularEnabled policy) to (cp_smsSend policy) (cp_smsReceive policy) (cp_data policy) (cp_voice policy)
  | EditCapability op v =>
      set (cp_cellularEnabled policy) (cp_vertical policy)
        (match op with smsSend => v | _ => cp_smsSend policy end)
        (match op with smsReceive => v | _ => cp_smsReceive policy end)
        (match op with data => v | _ => cp_data policy end)
        (match op with voice => v | _ => cp_voice policy end)
  | EditAdd =>
      set true (u "cn") (cp_smsSend policy) (cp_smsReceive policy) (cp_data policy) (cp_voice policy)
  | EditRemove => policy
  end.

(** The policy of a card that has none. *)
Definition new_policy (iccid : jstring) : CardPolicyRow :=
  {| cp_iccid := iccid; cp_cellularEnabled := true; cp_vertical := u "cn"; cp_apn := None;
     cp_note := []; cp_updatedAt := 0; cp_smsSend := None; cp_smsReceive := None;
     cp_data := None; cp_voice := None |}.

(** The wire form of a policy, as the gateway takes it. *)
Definition encode_policy (policy : CardPolicyRow) : jsval :=
  VObj [ (u "cellular_enabled", VBool (cp_cellularEnabled policy));
         (u "vertical", VStr (cp_vertical policy)); (u "apn", of_str (cp_apn policy));
         (u "note", VStr (cp_note policy)); (u "sms_send", of_bool (cp_smsSend policy));
         (u "sms_receive", of_bool (cp_smsReceive policy)); (u "data", of_bool (cp_data policy));
         (u "voice", of_bool (cp_voice policy)) ].

(** C10. A save refines the edit it was asked about: the policy it writes is
    the card's own with the edited field changed and every other as it was,
    "undeclared" included; and a card without a policy gets the default one
    with the edit applied. *)
Theorem save_body_refines change patch policy :
  cardPolicyPatch change = Some patch ->
  save_body (Some policy) patch = encode_policy (edited_policy change policy)
  /\ save_body None patch = encode_policy (edited_policy change (new_policy (cp_iccid policy))).
Proof.
  intros Hp. destruct policy as [iccid cellular vertical apn note at_ ss sr da vo].
  destruct change as [enabled|from to|op v| |]; injection Hp as <- || discriminate Hp;
    [destruct apn, ss, sr, da, vo; by split..| |destruct apn, ss, sr, da, vo; by split].
  destruct op, v, apn, ss, sr, da, vo; by split.
Qed.

(** ** What is asked *)

Section PolicyFacts.
Context (failed : jstring) (writable : bool).
Abbreviation step := (policy_step failed writable).

(** What a waiting edit promises: the dialog is the one its guard names. *)
Definition policy_asked (s : card_policies) : Prop :=
  forall p, cs_pending s = Some p -> cardPolicyGuardFor (cq_change p) = Some (cq_guard p).

Lemma propose_asked iccid change s : policy_asked s -> policy_asked (propose writable iccid change s).
Proof.
  intros Ha. unfold propose. destruct (negb writable); [done|].
  destruct (cardPolicyGuardFor change) as [g|] eqn:Eg; [|done]. by intros p [= <-].
Qed.

Lemma confirm_sent p s :
  (confirm_policy writable p s).2 =
    (if writable then
       [Fetch match cardPolicyPatch (cq_change p) with
              | None => policy_delete (cq_iccid p)
              | Some patch => policy_put (cq_iccid p) (save_body (find_policy (cs_policies s) (cq_iccid p)) patch)
              end] else [])
  /\ cs_pending (confirm_policy writable p s).1 = None.
Proof.
  unfold confirm_policy. split; [|done]. destruct (cardPolicyPatch (cq_change p));
    unfold save, removePolicy; by destruct writable.
Qed.

Lemma policy_step_asked s e s' out : policy_asked s -> step s e = Some (s', out) -> policy_asked s'.
Proof.
  intros Ha. unfold policy_step. destruct e as [iccid change|iccid| | |a|policies cards].
  - destruct (_ && _); [|done]. intros [-> _]%some_pair. by apply propose_asked.
  - destruct (_ && _); [|done]. intros [-> _]%some_pair. destruct (jeqb iccid []); [done|]. by apply propose_asked.
  - destruct (cs_pending s) as [p|]; [|done]. destruct (cs_busy s); [done|]. intros [-> _]%some_pair q Hq.
    by rewrite (proj2 (confirm_sent p s)) in Hq.
  - destruct (is_some _); [|done]. by intros [-> _]%some_pair q.
  - unfold policy_answered. destruct (cs_flights s); [done|]. destruct a as [|status text json].
    + by intros [-> _]%some_pair.
    + destruct (ok_status status); [|destruct text]; by intros [-> _]%some_pair.
  - by intros [-> _]%some_pair.
Qed.

(** A policy changes only on an answered question.  In every run, a
    request leaves the page only for a session that may write and only when
    the dialog of its edit is confirmed: a removal deletes the card's own
    policy, every other edit writes that card's, and the dialog shown is the
    one the edit's guard names, so an edit that changes nothing sends
    nothing. *)
Theorem policies_asked_first policies cards tr s e s' out x :
  run step (policies_mount policies cards) tr s -> step s e = Some (s', out) -> x ∈ out ->
  x = RouterRefresh \/
  exists p, e = ConfirmPolicy /\ writable = true /\ cs_pending s = Some p /\ cs_pending s' = None
    /\ cardPolicyGuardFor (cq_change p) = Some (cq_guard p)
    /\ match cardPolicyPatch (cq_change p) with
       | None => cq_change p = EditRemove /\ x = Fetch (policy_delete (cq_iccid p))
       | Some patch => x = Fetch (policy_put (cq_iccid p)
           (save_body (find_policy (cs_policies s) (cq_iccid p)) patch))
       end.
Proof.
  intros Hr Hs Hx.
  assert (Ha : policy_asked s).
  { apply (run_invariant step policy_asked (policies_mount policies cards) tr s);
      [exact policy_step_asked|by intros p|done]. }
  unfold policy_step in Hs. destruct e as [iccid change|iccid| | |a|policies' cards'].
  - destruct (_ && _); [|done]. apply some_pair in Hs as [_ ->]. by apply not_elem_of_nil in Hx.
  - destruct (_ && _); [|done]. apply some_pair in Hs as [_ ->]. by apply not_elem_of_nil in Hx.
  - destruct (cs_pending s) as [p|] eqn:Ep; [|done]. destruct (cs_busy s); [done|].
    apply some_pair in Hs as [-> ->]. cbn [fst snd] in *. destruct (confirm_sent p s) as [Ho Hn].
    rewrite Ho in Hx. right. exists p. destruct writable eqn:Ew; [|by apply not_elem_of_nil in Hx].
    apply list_elem_of_singleton in Hx. split_and!; [done|done|done|exact Hn|by apply Ha|].
    destruct (cq_change p); cbn in *; done.
  - destruct (is_some _); [|done]. apply some_pair in Hs as [_ ->]. by apply not_elem_of_nil in Hx.
  - left. unfold policy_answered in Hs. destruct (cs_flights s); [done|].
    destruct a as [|status text json]; [apply some_pair in Hs as [_ ->]; by apply not_elem_of_nil in Hx|].
    destruct (ok_status status); [|destruct text]; apply some_pair in Hs as [_ ->];
      [by apply list_elem_of_singleton in Hx|by apply not_elem_of_nil in Hx..].
  - apply some_pair in Hs as [_ ->]. by apply not_elem_of_nil in Hx.
Qed.
End PolicyFacts.

(** ** Concrete runs *)

Definition sample_policy : CardPolicyRow :=
  {| cp_iccid := u "8986"; cp_cellularEnabled := true; cp_vertical := u "cn"; cp_apn := Some (u "corp");
     cp_note := u "kept"; cp_updatedAt := 0; cp_smsSend := Some false; cp_smsReceive := None;
     cp_data := Some true; cp_voice := None |}.
Definition sample_policy_step := policy_step (u "failed") true.
Definition sample_policies : card_policies := policies_mount [sample_policy] [].
Definition sample_put : call :=
  policy_put (u "8986") (encode_policy (edited_policy (EditCellular false) sample_policy)).

Lemma save_body_refines_witness :
  save_body (Some sample_policy) [(u "smsSend", VNull)]
  = encode_policy (edited_policy (EditCapability smsSend None) sample_policy).
Proof.
  exact (proj1 (save_body_refines (EditCapability smsSend None) [(u "smsSend", VNull)] sample_policy eq_refl)).
Defined.

Lemma policies_asked_first_witness :
  exists s s', exec sample_policy_step sample_policies [EditRow (u "8986") (EditCellular false)] = Some (s, [])
    /\ sample_policy_step s ConfirmPolicy = Some (s', [Fetch sample_put])
    /\ exists p, cs_pending s = Some p /\ cardPolicyGuardFor (cq_change p) = Some (cq_guard p).
Proof.
  destruct (exec sample_policy_step sample_policies [EditRow (u "8986") (EditCellular false)])
    as [[s out]|] eqn:E; [|by vm_compute in E].
  destruct (sample_policy_step s ConfirmPolicy) as [[s' out']|] eqn:E';
    [|vm_compute in E; injection E as <- <-; by vm_compute in E'].
  assert (Eo : out = [] /\ out' = [Fetch sample_put]).
  { vm_compute in E. injection E as <- <-. vm_compute in E'. injection E' as _ <-. by vm_compute. }
  destruct Eo as [-> ->]. exists s, s'. split_and!; [reflexivity|exact E'|].
  destruct (exec_run _ _ _ _ _ E) as (tr & Hr & _).
  destruct (policies_asked_first (u "failed") true [sample_policy] [] tr s ConfirmPolicy s' _
    (Fetch sample_put) Hr E' ltac:(left)) as [Hx|(p & _ & _ & Hp & _ & Hg & _)]; [discriminate Hx|].
  exists p. split; [exact Hp|exact Hg].
Defined.

(** A policy another operator removed while the dialog stood is written
    again, with the defaults in the place of what it held. *)
Theorem vanished_policy_rewritten :
  exists s, exec sample_policy_step sample_policies
      [EditRow (u "8986") (EditCapability voice (Some false)); RedrawPolicies [] []; ConfirmPolicy]
    = Some (s, [Fetch (policy_put (u "8986")
        (encode_policy (edited_policy (EditCapability voice (Some false)) (new_policy (u "8986")))))]).
Proof. eexists. vm_compute. reflexivity. Qed.
