(* ===== verification/Admin.v ===== *)
(** * The remaining forms (components/device-admin.tsx, enrollment.tsx,
      support-ledger.tsx, login-form.tsx, sign-out.tsx)

    Renaming and removing a device, installing one and revoking its
    certificate, recording a measurement and publishing the ledger, signing
    in and out.  Each is a small machine of its own. *)

From Stdlib Require Import Lia.
From S2P Require Import Prelude JsString JsValue Session Devices I18n Component.

(** ** [String.prototype.replace] with a text and a template *)

(** The text before the first occurrence of the pattern, and after it. *)
Fixpoint split_first (pat s : jstring) : option (jstring * jstring) :=
  if startsWith s pat then Some ([], drop (length pat) s) else
  match s with
  | [] => None
  | c :: s => (fun p => (c :: p.1, p.2)) <$> split_first pat s
  end.

(** GetSubstitution: what [$$], [$&], [$`] and [$'] stand for; every other
    dollar is itself, the pattern having no groups. *)
Fixpoint get_substitution (before matched after template : jstring) : jstring :=
  match template with
  | 36%N :: 36%N :: t => 36%N :: get_substitution before matched after t
  | 36%N :: 38%N :: t => matched ++ get_substitution before matched after t
  | 36%N :: 96%N :: t => before ++ get_substitution before matched after t
  | 36%N :: 39%N :: t => after ++ get_substitution before matched after t
  | c :: t => c :: get_substitution before matched after t
  | [] => []
  end.

Definition replace_text (s pat template : jstring) : jstring :=
  match split_first pat s with
  | Some (before, after) => before ++ get_substitution before pat after template ++ after
  | None => s
  end.

Lemma get_substitution_plain before matched after t :
  36%N ∉ t -> get_substitution before matched after t = t.
Proof.
  induction t as [|c t IH]; [done|]. intros [Hc Ht]%not_elem_of_cons.
  assert (E : get_substitution before matched after (c :: t) = c :: get_substitution before matched after t).
  { cbn. repeat (case_match; try done); by destruct Hc. }
  by rewrite E, IH.
Qed.

(** [(await response.text()).trim() || labels.failed]. *)
Definition refusal_text (failed t : jstring) : jstring := if jeqb (trim t) [] then failed else trim t.

(** ** DeviceAdmin *)

Inductive device_flight := RenameDevice | RemoveDevice.

Record device_admin := {
  da_name : jstring;
  da_draft : jstring;
  da_busy : bool;
  da_error : option jstring;
  da_flights : list device_flight;
}.

(** [typed]: what [window.prompt] returned, null when it was dismissed. *)
Inductive device_event :=
  | TypeDraft (text : jstring)
  | SubmitRename
  | PressRemove (typed : option jstring)
  | DeviceAnswer (flight : nat) (a : answer)
  | RedrawDevice (name : jstring).

Section DeviceAdmin.
Context (deviceId failed confirmDelete : jstring) (writable : bool).

Definition device_patch (name : jstring) : call :=
  {| cl_method := u "PATCH"; cl_url := u "/v1/devices/" ++ deviceId;
     cl_body := Some (VObj [(u "name", VStr name)]) |}.
Definition device_delete : call :=
  {| cl_method := u "DELETE"; cl_url := u "/v1/devices/" ++ deviceId; cl_body := None |}.

(** What the prompt asks for. *)
Definition remove_prompt (name : jstring) : jstring := replace_text confirmDelete (u "{name}") name.

Definition set_device (draft : jstring) (busy : bool) (error : option jstring)
    (flights : list device_flight) (s : device_admin) : device_admin :=
  {| da_name := da_name s; da_draft := draft; da_busy := busy; da_error := error; da_flights := flights |}.

Definition device_rename (s : device_admin) : device_admin * list effect :=
  if negb writable then (s, []) else
  (set_device (da_draft s) true None (da_flights s ++ [RenameDevice]) s, [Fetch (device_patch (da_draft s))]).

Definition device_remove (typed : option jstring) (s : device_admin) : device_admin * list effect :=
  if negb writable then (s, []) else
  if negb (bool_decide (typed = Some (da_name s))) then (s, []) else
  (set_device (da_draft s) true (da_error s) (da_flights s ++ [RemoveDevice]) s, [Fetch device_delete]).

Definition device_answered (i : nat) (a : answer) (s : device_admin)
    : option (device_admin * list effect) :=
  match da_flights s !! i with
  | None => None
  | Some f =>
      let flights := delete i (da_flights s) in
      Some match a with
           | NoAnswer => (set_device (da_draft s) (da_busy s) (da_error s) flights s, [])
           | Answer status text _ =>
               if ok_status status then
                 (set_device (da_draft s) false (da_error s) flights s,
                  match f with
                  | RenameDevice => [RouterRefresh]
                  | RemoveDevice => [Navigate (u "/devices"); RouterRefresh]
                  end)
               else
                 (set_device (da_draft s) false
                    (match text with Some t => Some (refusal_text failed t) | None => da_error s end)
                    flights s, [])
           end
  end.

Definition device_mount (name : jstring) : device_admin :=
  {| da_name := name; da_draft := name; da_busy := false; da_error := None; da_flights := [] |}.

Definition device_step (s : device_admin) (e : device_event) : option (device_admin * list effect) :=
  match e with
  | TypeDraft text =>
      if writable then Some (set_device text (da_busy s) (da_error s) (da_flights s) s, []) else None
  | SubmitRename =>
      if writable && negb (da_busy s || jeqb (da_draft s) (da_name s) || jeqb (trim (da_draft s)) [])
      then Some (device_rename s) else None
  | PressRemove typed => if writable && negb (da_busy s) then Some (device_remove typed s) else None
  | DeviceAnswer i a => device_answered i a s
  | RedrawDevice name =>
      Some ({| da_name := name; da_draft := da_draft s; da_busy := da_busy s; da_error := da_error s;
               da_flights := da_flights s |}, [])
  end.

(** A device is removed only by typing its name.  Whatever else is
    pressed, a DELETE leaves the card only for a session that may write and
    only when the text typed into the prompt is the name the device has at
    that moment, letter for letter; a rename leaves only for such a session,
    with a name that is new and not blank; and the page moves away only on a
    2xx answer to the removal. *)
Theorem device_removed_by_name s e s' out x :
  device_step s e = Some (s', out) -> x ∈ out ->
  match x with
  | Fetch c => writable = true /\ da_busy s = false /\
      (e = PressRemove (Some (da_name s)) /\ c = device_delete
       \/ e = SubmitRename /\ c = device_patch (da_draft s) /\ da_draft s <> da_name s
          /\ trim (da_draft s) <> [])
  | Navigate url => url = u "/devices" /\ exists i status text json,
      e = DeviceAnswer i (Answer status text json) /\ ok_status status = true
      /\ da_flights s !! i = Some RemoveDevice
  | RouterRefresh => exists i status text json,
      e = DeviceAnswer i (Answer status text json) /\ ok_status status = true
  end.
Proof.
  unfold device_step. destruct e as [text| |typed|i a|name].
  - destruct writable; [|done]. by intros [-> ->]%some_pair ?%not_elem_of_nil.
  - destruct writable eqn:Ew; [|done]. destruct (da_busy s); [done|].
    destruct (jeqb (da_draft s) (da_name s)) eqn:En; [done|].
    destruct (jeqb (trim (da_draft s)) []) eqn:Et; [done|]. cbn [orb andb negb].
    unfold device_rename. rewrite Ew. cbn. intros [-> ->]%some_pair ->%list_elem_of_singleton.
    apply jeqb_neq in En, Et. split_and!; [done..|]. right. by split_and!.
  - destruct writable eqn:Ew; [|done]. destruct (da_busy s); [done|]. cbn [andb negb].
    unfold device_remove. rewrite Ew. cbn [negb]. case_bool_decide as Hn; cbn [negb];
      intros [-> ->]%some_pair; [|by intros ?%not_elem_of_nil].
    intros ->%list_elem_of_singleton. split_and!; [done..|]. left. by rewrite Hn.
  - unfold device_answered. destruct (da_flights s !! i) as [f|] eqn:Ef; [|done].
    destruct a as [|status text json]; [by intros [-> ->]%some_pair ?%not_elem_of_nil|].
    destruct (ok_status status) eqn:Eo; [|by intros [-> ->]%some_pair ?%not_elem_of_nil].
    intros [-> ->]%some_pair. destruct f; cbn [snd].
    + intros ->%list_elem_of_singleton. by exists i, status, text, json.
    + intros [->|Hx]%elem_of_cons; [|apply list_elem_of_singleton in Hx as ->; by exists i, status, text, json].
      split; [done|]. by exists i, status, text, json.
  - by intros [-> ->]%some_pair ?%not_elem_of_nil.
Qed.

(** The prompt shows the name as it is, unless a dollar in it is read as a
    reference to the text being replaced. *)
Theorem prompt_shows_name before after name :
  split_first (u "{name}") confirmDelete = Some (before, after) -> 36%N ∉ name ->
  remove_prompt name = before ++ name ++ after.
Proof.
  intros Hs Hn. unfold remove_prompt, replace_text. by rewrite Hs, get_substitution_plain.
Qed.
End DeviceAdmin.

(** ** Enrollment *)

Inductive enroll_flight := Mint | Revoke (id : jstring).

Record enrollment := {
  en_certificates : list CertificateRow;
  en_outstanding : Z;
  en_code : option jsval;             (** drawn while it is not empty *)
  en_expiresAt : option num;
  en_error : option jstring;
  en_busy : bool;
  en_confirming : option jstring;
  en_flights : list enroll_flight;
}.

Inductive enroll_event :=
  | PressMint
  | AskRevoke (id : jstring)
  | ConfirmRevoke
  | CancelRevoke
  | EnrollAnswer (flight : nat) (a : answer)
  | RedrawEnrollment (certificates : list CertificateRow) (outstanding : Z).

Section Enrollment.
Context (mintFailed revokeFailed : jstring) (writable : bool).

Definition mint_call : call := call_post (u "/v1/enrollment-codes") (VObj []).
Definition revoke_call (id : jstring) : call :=
  {| cl_method := u "POST"; cl_url := u "/v1/device-certificates/" ++ id ++ u "/revoke"; cl_body := None |}.

Definition set_enroll (error : option jstring) (busy : bool) (confirming : option jstring)
    (flights : list enroll_flight) (s : enrollment) : enrollment :=
  {| en_certificates := en_certificates s; en_outstanding := en_outstanding s; en_code := en_code s;
     en_expiresAt := en_expiresAt s; en_error := error; en_busy := busy; en_confirming := confirming;
     en_flights := flights |}.
Definition set_code (code : jsval) (expiresAt : option num) (s : enrollment) : enrollment :=
  {| en_certificates := en_certificates s; en_outstanding := en_outstanding s; en_code := Some code;
     en_expiresAt := expiresAt; en_error := en_error s; en_busy := en_busy s;
     en_confirming := en_confirming s; en_flights := en_flights s |}.

Definition mint (s : enrollment) : enrollment * list effect :=
  if negb writable then (s, []) else
  (set_enroll None true (en_confirming s) (en_flights s ++ [Mint]) s, [Fetch mint_call]).

Definition revoke (id : jstring) (s : enrollment) : enrollment * list effect :=
  if negb writable then (s, []) else
  (set_enroll None true (en_confirming s) (en_flights s ++ [Revoke id]) s, [Fetch (revoke_call id)]).

(** The code of an answer: 2xx, JSON, and a code in it. *)
Definition minted (a : answer) : option (jsval * option num) :=
  match a with
  | Answer status _ (Some body) =>
      if ok_status status then
        match get body (u "code") with
        | Ok code =>
            if truthy code
            then Some (code, match prop body (u "expires_at") with VNum n => Some n | _ => None end)
            else None
        | Throw _ => None
        end
      else None
  | _ => None
  end.

Definition answered_ok (a : answer) : bool :=
  match a with Answer status _ _ => ok_status status | NoAnswer => false end.

Definition enroll_answered (i : nat) (a : answer) (s : enrollment)
    : option (enrollment * list effect) :=
  match en_flights s !! i with
  | None => None
  | Some f =>
      let ended error := set_enroll error false (en_confirming s) (delete i (en_flights s)) s in
      Some match f with
           | Mint =>
               match minted a with
               | Some (code, expiresAt) => (set_code code expiresAt (ended (en_error s)), [])
               | None => (ended (Some mintFailed), [])
               end
           | Revoke _ =>
               if answered_ok a
               then (set_enroll (en_error s) false None (delete i (en_flights s)) s, [RouterRefresh])
               else (ended (Some revokeFailed), [])
           end
  end.

Definition enroll_mount (certificates : list CertificateRow) (outstanding : Z) : enrollment :=
  {| en_certificates := certificates; en_outstanding := outstanding; en_code := None;
     en_expiresAt := None; en_error := None; en_busy := false; en_confirming := None; en_flights := [] |}.

Definition enroll_controls (s : enrollment) : bool :=
  writable && negb (en_busy s) && negb (is_some (en_confirming s)).

Definition enroll_step (s : enrollment) (e : enroll_event) : option (enrollment * list effect) :=
  match e with
  | PressMint => if enroll_controls s then Some (mint s) else None
  | AskRevoke id =>
      if enroll_controls s
         && existsb (fun c => jeqb (ce_id c) id && negb (is_some (ce_revokedAt c))) (en_certificates s)
      then Some (set_enroll (en_error s) (en_busy s) (Some id) (en_flights s) s, []) else None
  | ConfirmRevoke =>
      match en_confirming s with
      | Some id =>
          if en_busy s then None else
          let sent := revoke id s in
          Some (set_enroll (en_error sent.1) (en_busy sent.1) None (en_flights sent.1) sent.1, sent.2)
      | None => None
      end
  | CancelRevoke =>
      if is_some (en_confirming s)
      then Some (set_enroll (en_error s) (en_busy s) None (en_flights s) s, []) else None
  | EnrollAnswer i a => enroll_answered i a s
  | RedrawEnrollment certificates outstanding =>
      Some ({| en_certificates := certificates; en_outstanding := outstanding; en_code := en_code s;
               en_expiresAt := en_expiresAt s; en_error := en_error s; en_busy := en_busy s;
               en_confirming := en_confirming s; en_flights := en_flights s |}, [])
  end.

(** An installation code on the screen is one the gateway gave.  The code
    shown changes only when a mint is answered 2xx with a code in it, to that
    code; every other end of a mint shows the failure and no new code; and
    however a request ends, the buttons are free again. *)
Theorem code_shown_was_minted s e s' out :
  enroll_step s e = Some (s', out) ->
  (en_code s' <> en_code s ->
     exists i a code expiresAt, e = EnrollAnswer i a /\ en_flights s !! i = Some Mint
       /\ minted a = Some (code, expiresAt) /\ en_code s' = Some code /\ truthy code = true)
  /\ (forall i a, e = EnrollAnswer i a -> en_busy s' = false
        /\ (en_flights s !! i = Some Mint -> minted a = None ->
              en_code s' = en_code s /\ en_error s' = Some mintFailed)).
Proof.
  intros Hs. unfold enroll_step in Hs. destruct e as [|id| | |i a|cs o].
  - split; [|done]. destruct (enroll_controls s); [|done]. apply some_pair in Hs as [-> _].
    unfold mint. by destruct (negb writable).
  - split; [|done]. destruct (_ && _); [|done]. by apply some_pair in Hs as [-> _].
  - split; [|done]. destruct (en_confirming s); [|done]. destruct (en_busy s); [done|].
    apply some_pair in Hs as [-> _]. unfold revoke. by destruct (negb writable).
  - split; [|done]. destruct (is_some _); [|done]. by apply some_pair in Hs as [-> _].
  - unfold enroll_answered in Hs. destruct (en_flights s !! i) as [f|] eqn:Ef; [|done].
    apply some_pair in Hs as [-> _]. destruct f as [|id].
    + destruct (minted a) as [[code expiresAt]|] eqn:Em.
      * split.
        { intros _. exists i, a, code, expiresAt. split_and!; [done..|]. unfold minted in Em.
          destruct a as [|status text [body|]]; try done. destruct (ok_status status); [|done].
          destruct (get body (u "code")) as [v|]; [|done]. destruct (truthy v) eqn:Et; [|done].
          by injection Em as <- _. }
        intros j b [= <- <-]. rewrite Em. by split.
      * split; [done|]. intros j b [= <- <-]. by split.
    + split; [by destruct (answered_ok a)|]. intros j b [= <- <-]. rewrite Ef.
      split; [by destruct (answered_ok a)|done].
  - split; [|done]. by apply some_pair in Hs as [-> _].
Qed.
End Enrollment.

(** ** LedgerAdmin *)

Record ledger_form := {
  lf_modemFamily : jstring; lf_carrier : jstring;
  lf_smsMo : jstring; lf_smsMt : jstring; lf_data : jstring; lf_voice : jstring;
  lf_testedBy : jstring; lf_note : jstring;
}.
#[export] Instance ledger_form_eq_dec : EqDecision ledger_form.
Proof. solve_decision. Defined.

(** A save holds the form its closure captured. *)
Inductive ledger_flight := SaveRow (form : ledger_form) | Publish.

Record ledger_admin := {
  la_rowCount : Z;
  la_busy : bool;
  la_error : option jstring;
  la_asking : bool;
  la_form : ledger_form;
  la_flights : list ledger_flight;
}.

Inductive ledger_event :=
  | TypeLedger (form : ledger_form)
  | SubmitLedger
  | AskPublish
  | ConfirmPublish
  | CancelPublish
  | LedgerAnswer (flight : nat) (a : answer).

Definition empty_ledger : ledger_form :=
  {| lf_modemFamily := []; lf_carrier := []; lf_smsMo := []; lf_smsMt := []; lf_data := [];
     lf_voice := []; lf_testedBy := []; lf_note := [] |}.

Section LedgerAdmin.
Context (failed : jstring) (writable : bool).

(** [form.smsMo || null]. *)
Definition verdict (v : jstring) : jsval := if jeqb v [] then VNull else VStr v.

Definition ledger_body (form : ledger_form) : jsval :=
  VObj [(u "sms_mo", verdict (lf_smsMo form)); (u "sms_mt", verdict (lf_smsMt form));
        (u "data", verdict (lf_data form)); (u "voice", verdict (lf_voice form));
        (u "tested_by", VStr (lf_testedBy form)); (u "note", VStr (lf_note form));
        (u "bearer", VStr (u "cellular"))].

Definition ledger_call (form : ledger_form) : res call :=
  family ← encodeURIComponent (lf_modemFamily form);
  carrier ← encodeURIComponent (lf_carrier form);
  Ok {| cl_method := u "PUT"; cl_url := u "/v1/support-ledger/" ++ family ++ u "/" ++ carrier;
        cl_body := Some (ledger_body form) |}.
Definition publish_call : call :=
  {| cl_method := u "POST"; cl_url := u "/v1/support-ledger/publish"; cl_body := None |}.

Definition set_ledger (busy : bool) (error : option jstring) (asking : bool) (form : ledger_form)
    (flights : list ledger_flight) (s : ledger_admin) : ledger_admin :=
  {| la_rowCount := la_rowCount s; la_busy := busy; la_error := error; la_asking := asking;
     la_form := form; la_flights := flights |}.

(** [busy] is raised before the URL is built, so a name that cannot be
    encoded leaves it raised. *)
Definition ledger_save (s : ledger_admin) : ledger_admin * list effect :=
  if negb writable then (s, []) else
  match ledger_call (la_form s) with
  | Ok c => (set_ledger true None (la_asking s) (la_form s) (la_flights s ++ [SaveRow (la_form s)]) s, [Fetch c])
  | Throw _ => (set_ledger true None (la_asking s) (la_form s) (la_flights s) s, [])
  end.

Definition ledger_publish (s : ledger_admin) : ledger_admin * list effect :=
  if negb writable then (s, []) else
  (set_ledger true None false (la_form s) (la_flights s ++ [Publish]) s, [Fetch publish_call]).

(** What a success leaves in the form. *)
Definition after_save (form : ledger_form) : ledger_form :=
  {| lf_modemFamily := lf_modemFamily form; lf_carrier := lf_carrier form; lf_smsMo := [];
     lf_smsMt := []; lf_data := []; lf_voice := []; lf_testedBy := lf_testedBy form; lf_note := [] |}.

Definition ledger_answered (i : nat) (a : answer) (s : ledger_admin)
    : option (ledger_admin * list effect) :=
  match la_flights s !! i with
  | None => None
  | Some f =>
      let flights := delete i (la_flights s) in
      Some match a with
           | NoAnswer => (set_ledger (la_busy s) (la_error s) (la_asking s) (la_form s) flights s, [])
           | Answer status text _ =>
               if ok_status status then
                 (set_ledger false (la_error s) (la_asking s)
                    (match f with SaveRow form => after_save form | Publish => la_form s end) flights s,
                  [RouterRefresh])
               else
                 (set_ledger false
                    (match text with Some t => Some (refusal_text failed t) | None => la_error s end)
                    (la_asking s) (la_form s) flights s, [])
           end
  end.

Definition ledger_mount (rowCount : Z) : ledger_admin :=
  {| la_rowCount := rowCount; la_busy := false; la_error := None; la_asking := false;
     la_form := empty_ledger; la_flights := [] |}.

(** The boxes the browser requires. *)
Definition ledger_valid (form : ledger_form) : bool :=
  negb (jeqb (lf_modemFamily form) []) && negb (jeqb (lf_carrier form) [])
  && negb (jeqb (lf_testedBy form) []).

Definition ledger_step (s : ledger_admin) (e : ledger_event) : option (ledger_admin * list effect) :=
  match e with
  | TypeLedger form =>
      if writable && negb (la_asking s)
      then Some (set_ledger (la_busy s) (la_error s) (la_asking s) form (la_flights s) s, []) else None
  | SubmitLedger =>
      if writable && negb (la_asking s) && negb (la_busy s) && ledger_valid (la_form s)
      then Some (ledger_save s) else None
  | AskPublish =>
      if writable && negb (la_asking s) && negb (la_busy s || (la_rowCount s =? 0)%Z)
      then Some (set_ledger (la_busy s) (la_error s) true (la_form s) (la_flights s) s, []) else None
  | ConfirmPublish =>
      if writable && la_asking s && negb (la_busy s) then
        let sent := ledger_publish s in
        Some (set_ledger (la_busy sent.1) (la_error sent.1) false (la_form sent.1) (la_flights sent.1) sent.1,
              sent.2)
      else None
  | CancelPublish =>
      if writable && la_asking s
      then Some (set_ledger (la_busy s) (la_error s) false (la_form s) (la_flights s) s, []) else None
  | LedgerAnswer i a => ledger_answered i a s
  end.

(** Measuring is not publishing, and not measured is not supported.  The
    ledger reaches the fleet only by confirming the question asked about it;
    saving a row sends that row alone, under the module and the carrier in
    the boxes, with null for every operation nobody measured; and neither is
    sent for a session that may not write. *)
Theorem ledger_sends s e s' out x :
  ledger_step s e = Some (s', out) -> x ∈ out ->
  x = RouterRefresh \/
  (writable = true /\ la_busy s = false /\
   (e = ConfirmPublish /\ la_asking s = true /\ x = Fetch publish_call
    \/ e = SubmitLedger /\ la_asking s = false /\ exists c, x = Fetch c
       /\ ledger_call (la_form s) = Ok c /\ cl_body c = Some (ledger_body (la_form s))
       /\ (forall name v, (name, v) ∈ [("sms_mo", lf_smsMo (la_form s)); ("sms_mt", lf_smsMt (la_form s));
                                       ("data", lf_data (la_form s)); ("voice", lf_voice (la_form s))]%string ->
           (prop (ledger_body (la_form s)) (u name) = VNull <-> v = [])))).
Proof.
  intros Hs Hx. unfold ledger_step in Hs. destruct e as [form| | | | |i a].
  - destruct (_ && _); [|done]. apply some_pair in Hs as [_ ->]. by apply not_elem_of_nil in Hx.
  - destruct writable eqn:Ew; [|done]. destruct (la_asking s) eqn:Ea; [done|].
    destruct (la_busy s); [done|]. destruct (_ && _); [|done].
    apply some_pair in Hs as [_ ->]. unfold ledger_save in Hx. rewrite Ew in Hx. cbn [negb] in Hx.
    destruct (ledger_call (la_form s)) as [c|] eqn:Ec; [|by apply not_elem_of_nil in Hx].
    apply list_elem_of_singleton in Hx as ->. right. split_and!; [done..|]. right. split_and!; [done..|].
    exists c. split_and!; [done..| |].
    + unfold ledger_call in Ec. destruct (encodeURIComponent (lf_modemFamily (la_form s))); [|done].
      destruct (encodeURIComponent (lf_carrier (la_form s))); [|done]. by injection Ec as <-.
    + assert (Hv : forall v, verdict v = VNull <-> v = []).
      { intros v. unfold verdict. destruct (jeqb v []) eqn:E; [apply jeqb_eq in E|apply jeqb_neq in E]; naive_solver. }
      intros name v Hin. repeat (apply elem_of_cons in Hin as [[= -> ->]|Hin]; [apply Hv|]).
      by apply not_elem_of_nil in Hin.
  - destruct (_ && _); [|done]. apply some_pair in Hs as [_ ->]. by apply not_elem_of_nil in Hx.
  - destruct writable eqn:Ew; [|done]. destruct (la_asking s) eqn:Ea; [|done].
    destruct (la_busy s); [done|]. cbn [andb negb] in Hs. apply some_pair in Hs as [_ ->]. cbn [snd] in Hx.
    unfold ledger_publish in Hx. rewrite Ew in Hx. apply list_elem_of_singleton in Hx as ->.
    right. split_and!; [done..|]. by left.
  - destruct (_ && _); [|done]. apply some_pair in Hs as [_ ->]. by apply not_elem_of_nil in Hx.
  - unfold ledger_answered in Hs. destruct (la_flights s !! i); [|done].
    apply some_pair in Hs as [_ ->]. destruct a as [|status text json]; [by apply not_elem_of_nil in Hx|].
    destruct (ok_status status); [|by apply not_elem_of_nil in Hx].
    left. by apply list_elem_of_singleton in Hx.
Qed.
End LedgerAdmin.

(** ** LoginForm and SignOutButton *)

Record login_form := {
  lg_pending : bool;
  lg_error : option jstring;
  lg_flights : nat;
}.

Inductive login_event :=
  | SubmitLogin (email password : jstring)
  | LoginAnswer (a : answer).

Section Login.
Context (next labelError labelUnavailable : jstring).

Definition login_call (email password : jstring) : call :=
  call_post (u "/api/auth/login")
    (VObj [(u "email", VStr email); (u "password", VStr password)]).

Definition login_step (s : login_form) (e : login_event) : option (login_form * list effect) :=
  match e with
  | SubmitLogin email password =>
      if lg_pending s || jeqb email [] || jeqb password [] then None else
      Some ({| lg_pending := true; lg_error := None; lg_flights := S (lg_flights s) |},
            [Fetch (login_call email password)])
  | LoginAnswer a =>
      match lg_flights s with
      | O => None
      | S flights =>
          let ended error := {| lg_pending := false; lg_error := error; lg_flights := flights |} in
          Some match a with
               | NoAnswer => (ended (Some labelUnavailable), [])
               | Answer status _ _ =>
                   if ok_status status then (ended (lg_error s), [Navigate next])
                   else (ended (Some (if (status =? 401)%Z then labelError else labelUnavailable)), [])
               end
      end
  end.
End Login.

(** The form of app/login/page.tsx. *)
Definition login_page_step (param : option jstring) := login_step (safeNext param).

(** The button, pressed and answered: the sign-in page either way. *)
Definition sign_out_call : call :=
  {| cl_method := u "POST"; cl_url := u "/api/auth/logout"; cl_body := None |}.
Definition sign_out (a : answer) : list effect := [Fetch sign_out_call; Navigate (u "/login")].

(** Signing in from the page.  The page leaves for another only when the
    route answered 2xx, and then for a path of this site, whatever the
    parameter said; the credential is reported wrong exactly on a 401, and
    every other failure, a rejected request included, as unavailability; the
    form is free again however it ended. *)
Theorem login_page_outcome param error unavailable s a s' out :
  login_page_step param error unavailable s (LoginAnswer a) = Some (s', out) ->
  lg_pending s' = false
  /\ (forall url, Navigate url ∈ out <-> answered_ok a = true /\ url = safeNext param)
  /\ (forall url, Navigate url ∈ out -> local_path url = true)
  /\ (answered_ok a = false -> out = [] /\
        lg_error s' = Some match a with
                           | Answer 401 _ _ => error
                           | _ => unavailable
                           end).
Proof.
  unfold login_page_step, login_step. destruct (lg_flights s) as [|n]; [done|].
  intros [-> ->]%some_pair. unfold answered_ok. destruct a as [|status text json].
  - split_and!; [done| |by intros url ?%not_elem_of_nil|done]. intros url. split; [by intros ?%not_elem_of_nil|by intros []].
  - destruct (ok_status status) eqn:Eo.
    + split_and!; [done| |by intros url [= ->]%list_elem_of_singleton; apply safeNext_local|done].
      intros url. split; [by intros [= ->]%list_elem_of_singleton|by intros [_ ->]; left].
    + split_and!; [done| |by intros url ?%not_elem_of_nil|].
      * intros url. split; [by intros ?%not_elem_of_nil|by intros []].
      * intros _. split; [done|]. cbn. destruct (Z.eqb_spec status 401) as [->|Hn]; [done|].
        f_equal. repeat (case_match; try done).
Qed.

(** ** Concrete runs *)

Definition sample_device_step := device_step (u "d1") (u "failed") true.

Lemma device_removed_by_name_witness :
  exists s', sample_device_step (device_mount (u "Edge")) (PressRemove (Some (u "Edge")))
      = Some (s', [Fetch (device_delete (u "d1"))])
    /\ da_busy (device_mount (u "Edge")) = false.
Proof.
  destruct (sample_device_step (device_mount (u "Edge")) (PressRemove (Some (u "Edge"))))
    as [[s' out]|] eqn:E; [|by vm_compute in E].
  assert (Eo : out = [Fetch (device_delete (u "d1"))]) by (vm_compute in E; injection E as _ <-; by vm_compute).
  subst out. exists s'. split; [reflexivity|].
  exact (proj1 (proj2 (device_removed_by_name (u "d1") (u "failed") true
    (device_mount (u "Edge")) _ s' _ (Fetch (device_delete (u "d1"))) E ltac:(left)))).
Defined.

(** Where the prompt departs from what it means to ask: [$&] in a device's
    name is replaced by the placeholder itself, and the name it shows cannot
    be what it asks to be typed. *)
Theorem prompt_dollar_name :
  remove_prompt (u "Type {name} to remove") (u "rack $&") = u "Type rack {name} to remove".
Proof. reflexivity. Qed.

Definition sample_enroll := enroll_step (u "mint failed") (u "revoke failed") true.
Definition sample_minted : answer := Answer 200 None (Some (VObj [(u "code", VStr (u "K7"))])).

Lemma code_shown_was_minted_witness :
  exists s s', exec sample_enroll (enroll_mount [] 0) [PressMint] = Some (s, [Fetch mint_call])
    /\ sample_enroll s (EnrollAnswer 0 sample_minted) = Some (s', [])
    /\ en_busy s' = false /\ en_code s' = Some (VStr (u "K7")).
Proof.
  destruct (exec sample_enroll (enroll_mount [] 0) [PressMint]) as [[s out]|] eqn:E; [|by vm_compute in E].
  destruct (sample_enroll s (EnrollAnswer 0 sample_minted)) as [[s' out']|] eqn:E';
    [|vm_compute in E; injection E as <- <-; by vm_compute in E'].
  assert (Eo : out = [Fetch mint_call] /\ out' = [] /\ en_code s' = Some (VStr (u "K7"))).
  { vm_compute in E. injection E as <- <-. vm_compute in E'. injection E' as <- <-. by vm_compute. }
  destruct Eo as (-> & -> & Hc). exists s, s'. split_and!; [reflexivity|exact E'| |exact Hc].
  exact (proj1 (proj2 (code_shown_was_minted (u "mint failed") (u "revoke failed") true s _ s' _ E')
           0 sample_minted eq_refl)).
Defined.

Definition sample_ledger := ledger_step (u "failed") true.
Definition sample_ledger_form : ledger_form :=
  {| lf_modemFamily := u "EC25"; lf_carrier := u "CMCC"; lf_smsMo := u "supported"; lf_smsMt := [];
     lf_data := []; lf_voice := []; lf_testedBy := u "ana"; lf_note := [] |}.

Lemma ledger_sends_witness :
  exists s s' c, exec sample_ledger (ledger_mount 1) [TypeLedger sample_ledger_form] = Some (s, [])
    /\ sample_ledger s SubmitLedger = Some (s', [Fetch c])
    /\ cl_url c = u "/v1/support-ledger/EC25/CMCC" /\ la_busy s = false.
Proof.
  destruct (exec sample_ledger (ledger_mount 1) [TypeLedger sample_ledger_form]) as [[s out]|] eqn:E;
    [|by vm_compute in E].
  destruct (sample_ledger s SubmitLedger) as [[s' out']|] eqn:E';
    [|vm_compute in E; injection E as <- <-; by vm_compute in E'].
  assert (Eo : out = [] /\ exists c, out' = [Fetch c] /\ cl_url c = u "/v1/support-ledger/EC25/CMCC").
  { vm_compute in E. injection E as <- <-. vm_compute in E'. injection E' as _ <-. split; [done|].
    eexists. split; [reflexivity|by vm_compute]. }
  destruct Eo as (-> & c & -> & Hc). exists s, s', c. split_and!; [reflexivity|exact E'|exact Hc|].
  destruct (ledger_sends (u "failed") true s SubmitLedger s' _ (Fetch c) E' ltac:(left))
    as [Hx|(_ & Hb & _)]; [discriminate Hx|exact Hb].
Defined.

(** A name the URL cannot be built for (half of a surrogate pair) leaves the
    form busy with nothing sent and nothing said. *)
Theorem unencodable_row_freezes :
  exists s, exec sample_ledger (ledger_mount 1)
      [TypeLedger {| lf_modemFamily := [0xD800%N]; lf_carrier := u "CMCC"; lf_smsMo := []; lf_smsMt := [];
                     lf_data := []; lf_voice := []; lf_testedBy := u "ana"; lf_note := [] |};
       SubmitLedger] = Some (s, [])
    /\ la_busy s = true /\ la_error s = None /\ la_flights s = [] /\ sample_ledger s SubmitLedger = None.
Proof. eexists. split; [vm_compute; reflexivity|]. by vm_compute. Qed.

(** The row typed while another is being saved is replaced by the saved
    one's names when that answer arrives. *)
Theorem next_row_lost :
  exists s c, exec sample_ledger (ledger_mount 1)
      [TypeLedger sample_ledger_form; SubmitLedger;
       TypeLedger {| lf_modemFamily := u "EG25"; lf_carrier := u "CT"; lf_smsMo := u "probe"; lf_smsMt := [];
                     lf_data := []; lf_voice := []; lf_testedBy := u "ana"; lf_note := [] |};
       LedgerAnswer 0 (Answer 200 None None)] = Some (s, [Fetch c; RouterRefresh])
    /\ la_form s = after_save sample_ledger_form.
Proof. eexists _, _. split; [vm_compute; reflexivity|]. by vm_compute. Qed.

Definition sample_login := login_page_step (Some (u "/devices")) (u "wrong") (u "unavailable").

Lemma login_page_outcome_witness :
  exists s s', exec sample_login {| lg_pending := false; lg_error := None; lg_flights := 0 |}
      [SubmitLogin (u "a@b") (u "pw")] = Some (s, [Fetch (login_call (u "a@b") (u "pw"))])
    /\ sample_login s (LoginAnswer (Answer 401 None None)) = Some (s', [])
    /\ lg_pending s' = false.
Proof.
  destruct (exec sample_login {| lg_pending := false; lg_error := None; lg_flights := 0 |}
      [SubmitLogin (u "a@b") (u "pw")]) as [[s out]|] eqn:E; [|by vm_compute in E].
  destruct (sample_login s (LoginAnswer (Answer 401 None None))) as [[s' out']|] eqn:E';
    [|vm_compute in E; injection E as <- <-; by vm_compute in E'].
  assert (Eo : out = [Fetch (login_call (u "a@b") (u "pw"))] /\ out' = []).
  { vm_compute in E. injection E as <- <-. vm_compute in E'. injection E' as _ <-. by vm_compute. }
  destruct Eo as [-> ->]. exists s, s'. split_and!; [reflexivity|exact E'|].
  exact (proj1 (login_page_outcome (Some (u "/devices")) (u "wrong") (u "unavailable") s _ s' _ E')).
Defined.
