(* ===== verification/JournalPage.v ===== *)
(** * The journal (app/journal/page.tsx, components/journal.tsx)

    The page reads the newest two hundred events and offers the kinds among
    them; the component filters them and, when a row is opened, asks the
    gateway for the envelopes of its device and looks the row up in the
    answer.  [journal_step] is the component, its requests in flight. *)

From Stdlib Require Import Lia.
From S2P Require Import Prelude JsString JsValue JsSort JsMap Fetch Gateway Messages TableQuery Component.

(** ** app/journal/page.tsx *)

Definition JournalPage_read (env : environment) (fetchImpl : fetch_fn) (host : jstring)
    (token : option jstring) : list JournalEvent * bool :=
  match fetchJournal env fetchImpl host token
          {| op_kind := None; op_deviceId := None; op_limit := Some 200%Z |} with
  | Ok events => (events, false)
  | Throw _ => ([], true)
  end.

(** [[...new Set(kinds)].sort()], in code-unit order. *)
Definition journal_kinds (events : list JournalEvent) : list jstring :=
  sort unit_compare (distinct (jo_kind <$> events)).

(** ** components/journal.tsx *)

Record journal := {
  jn_events : list JournalEvent;                (** props *)
  jn_kinds : list jstring;
  jn_kind : jstring;
  jn_open : option jstring;
  jn_payloads : list (jstring * jsval);
  jn_flights : list JournalEvent;
}.

Inductive journal_event :=
  | PickKind (kind : jstring)                   (** the segmented control *)
  | ToggleRow (row : nat)                       (** Show or Hide, on a row shown *)
  | JournalAnswer (flight : nat) (a : answer)
  | RedrawJournal (events : list JournalEvent) (kinds : list jstring).

Section Journal.
Context `{NumberText}.

(** A device's sequence is unique per device, not globally. *)
Definition rowKey (event : JournalEvent) : jstring :=
  jo_deviceId event ++ u ":" ++ number_text (Fin (jo_seq event)).

Definition journal_shown (s : journal) : list JournalEvent :=
  if jeqb (jn_kind s) [] then jn_events s
  else List.filter (fun event => jeqb (jo_kind event) (jn_kind s)) (jn_events s).

Definition envelope_call (event : JournalEvent) : call :=
  call_get (u "/v1/journal?" ++ URLSearchParams
    [(u "payload", u "1"); (u "device_id", jo_deviceId event); (u "limit", u "200")]).

Definition set_open (open : option jstring) (flights : list JournalEvent) (s : journal) : journal :=
  {| jn_events := jn_events s; jn_kinds := jn_kinds s; jn_kind := jn_kind s; jn_open := open;
     jn_payloads := jn_payloads s; jn_flights := flights |}.

Definition set_payload (key : jstring) (payload : jsval) (s : journal) : journal :=
  {| jn_events := jn_events s; jn_kinds := jn_kinds s; jn_kind := jn_kind s; jn_open := jn_open s;
     jn_payloads := map_set key payload (jn_payloads s); jn_flights := jn_flights s |}.

Definition expand (event : JournalEvent) (s : journal) : journal * list effect :=
  let key := rowKey event in
  if bool_decide (jn_open s = Some key) then (set_open None (jn_flights s) s, []) else
  match map_get key (jn_payloads s) with
  | Some _ => (set_open (Some key) (jn_flights s) s, [])
  | None => (set_open (Some key) (jn_flights s ++ [event]) s, [Fetch (envelope_call event)])
  end.

(** [candidate.seq === event.seq && candidate.deviceId === event.deviceId]. *)
Definition same_event (event : JournalEvent) (candidate : jsval) : res bool :=
  sequence ← get candidate (u "seq");
  Ok (match sequence with VNum (Fin m) => (m =? jo_seq event)%Z | _ => false end
      && match prop candidate (u "deviceId") with
         | VStr s => jeqb s (jo_deviceId event)
         | _ => false
         end).

Fixpoint find_event (event : JournalEvent) (rows : list jsval) : res (option jsval) :=
  match rows with
  | [] => Ok None
  | row :: rows =>
      hit ← same_event event row;
      if (hit : bool) then Ok (Some row) else find_event event rows
  end.

(** What [expand] makes of the answer; an exception leaves the row as it is. *)
Definition envelope_in (event : JournalEvent) (a : answer) : option jsval :=
  match a with
  | NoAnswer => None
  | Answer status _ json =>
      if negb (ok_status status) then None else
      match json with
      | None => None
      | Some body =>
          let found :=
            events ← get body (u "events");
            match nullish events (VArr []) with
            | VArr rows => find_event event rows
            | _ => Throw TypeError
            end in
          match found with
          | Throw _ => None
          | Ok None => Some VNull
          | Ok (Some row) => Some (nullish (prop row (u "payload")) VNull)
          end
      end
  end.

Definition journal_mount (events : list JournalEvent) (kinds : list jstring) : journal :=
  {| jn_events := events; jn_kinds := kinds; jn_kind := []; jn_open := None; jn_payloads := [];
     jn_flights := [] |}.

Definition journal_step (s : journal) (e : journal_event) : option (journal * list effect) :=
  match e with
  | PickKind kind =>
      if jeqb kind [] || existsb (jeqb kind) (jn_kinds s)
      then Some ({| jn_events := jn_events s; jn_kinds := jn_kinds s; jn_kind := kind;
                    jn_open := jn_open s; jn_payloads := jn_payloads s;
                    jn_flights := jn_flights s |}, [])
      else None
  | ToggleRow row => event ← journal_shown s !! row; Some (expand event s)
  | JournalAnswer i a =>
      event ← jn_flights s !! i;
      let landed := set_open (jn_open s) (delete i (jn_flights s)) s in
      Some (match envelope_in event a with
            | Some payload => set_payload (rowKey event) payload landed
            | None => landed
            end, [])
  | RedrawJournal events kinds =>
      Some ({| jn_events := events; jn_kinds := kinds; jn_kind := jn_kind s; jn_open := jn_open s;
               jn_payloads := jn_payloads s; jn_flights := jn_flights s |}, [])
  end.

(** What an opened row draws: [None] stands for the loading text. *)
Definition drawn_envelope (event : JournalEvent) (s : journal) : option jsval :=
  map_get (rowKey event) (jn_payloads s).

End Journal.

(** ** What the filter offers *)

(** The filter has no dead end.  It offers, sorted and once each, exactly
    the kinds of the events listed; picking one shows exactly the events of
    that kind, at least one; and the first button brings them all back. *)
Theorem journal_filter `{NumberText} events s kind s' out :
  let kinds := journal_kinds events in
  (StronglySorted (cmp_le unit_compare) kinds /\ NoDup kinds
   /\ forall k, k ∈ kinds <-> exists event, event ∈ events /\ jo_kind event = k)
  /\ (jn_events s = events -> jn_kinds s = kinds ->
      journal_step s (PickKind kind) = Some (s', out) ->
      out = [] /\ jn_events s' = events
      /\ (kind = [] /\ journal_shown s' = events
          \/ kind <> [] /\ journal_shown s' <> []
             /\ journal_shown s' = List.filter (fun event => jeqb (jo_kind event) kind) events)).
Proof.
  intros kinds.
  assert (Hk : forall k, k ∈ kinds <-> exists event, event ∈ events /\ jo_kind event = k).
  { intros k. unfold kinds, journal_kinds. rewrite elem_of_sort, elem_of_distinct, list_elem_of_fmap.
    split; intros (e & ? & ?); by exists e. }
  split.
  - split_and!; [apply sort_sorted, _| |done]. unfold kinds, journal_kinds. rewrite sort_perm.
    apply NoDup_distinct.
  - intros He Hs. unfold journal_step. rewrite Hs, He.
    destruct (jeqb kind []) eqn:E; cbn [orb].
    + apply jeqb_eq in E as ->. intros [-> ->]%some_pair. split_and!; [done..|]. by left.
    + apply jeqb_neq in E as Hne. destruct (existsb (jeqb kind) kinds) eqn:Ek; [|done].
      intros [-> ->]%some_pair. split_and!; [done..|]. right. split; [done|].
      unfold journal_shown. cbn [jn_kind jn_events fst]. rewrite E. split; [|done].
      apply existsb_elem in Ek as (k & Hin & ->%jeqb_eq). apply Hk in Hin as (event & Hin & Hkind).
      intros Hnil. apply (not_elem_of_nil event). rewrite <-Hnil, elem_of_filter_bool.
      split; [done|]. by apply jeqb_eq.
Qed.

(** ** What is asked *)

Section Requests.
Context `{NumberText}.

Lemma held_step key s e s' out :
  journal_step s e = Some (s', out) ->
  is_Some (map_get key (jn_payloads s)) -> is_Some (map_get key (jn_payloads s')).
Proof.
  intros Hs Hk. destruct e as [kind|row|i a|events kinds]; cbn in Hs.
  - case_match; [|done]. by apply some_pair in Hs as [-> _].
  - destruct (journal_shown s !! row) as [event|]; [|done]. cbn in Hs.
    apply some_pair in Hs as [-> _]. unfold expand. repeat case_match; done.
  - destruct (jn_flights s !! i) as [event|]; [|done]. cbn in Hs.
    apply some_pair in Hs as [-> _]. destruct (envelope_in event a) as [v|]; [|done]. cbn.
    destruct (decide (key = rowKey event)) as [->|Hne].
    + rewrite map_get_set_eq. eauto.
    + by rewrite map_get_set_ne.
  - by apply some_pair in Hs as [-> _].
Qed.

(** An envelope is asked for only when it is looked at.  A request leaves
    only when a row that is closed, and whose envelope is not held, is opened;
    it is for that row's own device; and a row whose envelope is held is
    opened and closed without asking, however the run goes on. *)
Theorem journal_requests events kinds tr s e s' out x :
  run journal_step (journal_mount events kinds) tr s ->
  journal_step s e = Some (s', out) ->
  (x ∈ out -> exists row event,
     e = ToggleRow row /\ journal_shown s !! row = Some event /\ x = Fetch (envelope_call event)
     /\ jn_open s <> Some (rowKey event) /\ drawn_envelope event s = None
     /\ jn_open s' = Some (rowKey event))
  /\ (forall event, is_Some (drawn_envelope event s) ->
       forall tr' s2, run journal_step s tr' s2 ->
         is_Some (drawn_envelope event s2)
         /\ forall row s3 out', journal_shown s2 !! row = Some event ->
              journal_step s2 (ToggleRow row) = Some (s3, out') -> out' = []).
Proof.
  intros _ Hs. split.
  - intros Hx. destruct e as [kind|row|i a|events' kinds']; cbn in Hs.
    + case_match; [|done]. apply some_pair in Hs as [_ ->]. by apply not_elem_of_nil in Hx.
    + destruct (journal_shown s !! row) as [event|] eqn:Er; [|done]. cbn in Hs.
      apply some_pair in Hs as [-> ->]. unfold expand in *. case_bool_decide as Ho.
      { by apply not_elem_of_nil in Hx. }
      destruct (map_get _ _) eqn:Em; [by apply not_elem_of_nil in Hx|].
      apply list_elem_of_singleton in Hx as ->. by exists row, event.
    + destruct (jn_flights s !! i); [|done]. cbn in Hs. apply some_pair in Hs as [_ ->].
      by apply not_elem_of_nil in Hx.
    + apply some_pair in Hs as [_ ->]. by apply not_elem_of_nil in Hx.
  - intros event Hk tr' s2 Hr.
    assert (Hk2 : is_Some (drawn_envelope event s2)).
    { revert Hk Hr. apply (run_invariant journal_step (fun s => is_Some (drawn_envelope event s))).
      intros s0 e0 s1 o H0 H1. exact (held_step _ _ _ _ _ H1 H0). }
    split; [done|]. intros row s3 out' Hrow. cbn. rewrite Hrow. cbn.
    intros [_ ->]%some_pair. unfold expand. case_bool_decide; [done|].
    destruct Hk2 as [v Hv]. unfold drawn_envelope in Hv. by rewrite Hv.
Qed.

(** ** What is found *)

(** The gateway's row, as [fetchJournal] reads it. *)
Definition wire_event (event : JournalEvent) : jsval :=
  VObj [(u "seq", VNum (Fin (jo_seq event))); (u "device_id", VStr (jo_deviceId event));
        (u "kind", VStr (jo_kind event)); (u "received_at", VNum (Fin (jo_receivedAt event)));
        (u "payload", jo_payload event)].

Lemma journalEvent_wire event : journalEvent (wire_event event) = Ok event.
Proof. by destruct event as [seq [|c d] [|k ks] at_ payload]. Qed.

Definition wire_body (events : list JournalEvent) : jsval :=
  VObj [(u "events", VArr (wire_event <$> events))].

Lemma find_event_wire event rows : find_event event (wire_event <$> rows) = Ok None.
Proof.
  induction rows as [|row rows IH]; [done|]. cbn [fmap list_fmap find_event].
  assert (same_event event (wire_event row) = Ok false) as ->; [|exact IH].
  unfold same_event. cbn. by rewrite andb_false_r.
Qed.

(** An event of a run whose answers are the gateway's: they fail, or list
    events the way the page itself reads them. *)
Definition gateway_answer (e : journal_event) : Prop :=
  match e with
  | JournalAnswer _ (Answer _ _ (Some body)) => exists rows, body = wire_body rows
  | _ => True
  end.

Lemma envelope_in_wire event status text rows v :
  envelope_in event (Answer status text (Some (wire_body rows))) = Some v -> v = VNull.
Proof.
  unfold envelope_in. destruct (negb (ok_status status)); [done|].
  assert (Hget : get (wire_body rows) (u "events") = Ok (VArr (wire_event <$> rows))) by done.
  rewrite Hget. cbn -[find_event fmap]. rewrite find_event_wire. by intros [= <-].
Qed.

Lemma null_step s e s' out :
  journal_step s e = Some (s', out) -> gateway_answer e ->
  (forall key v, map_get key (jn_payloads s) = Some v -> v = VNull) ->
  forall key v, map_get key (jn_payloads s') = Some v -> v = VNull.
Proof.
  intros Hs He HP key v. destruct e as [kind|row|i a|events kinds]; cbn in Hs.
  - case_match; [|done]. apply some_pair in Hs as [-> _]. apply HP.
  - destruct (journal_shown s !! row) as [event|]; [|done]. cbn in Hs.
    apply some_pair in Hs as [-> _]. unfold expand. repeat case_match; apply HP.
  - destruct (jn_flights s !! i) as [event|]; [|done]. cbn in Hs.
    apply some_pair in Hs as [-> _]. destruct (envelope_in event a) as [w|] eqn:Ew; [|apply HP].
    assert (w = VNull) as ->.
    { destruct a as [|status text [body|]]; [done| |].
      - destruct He as [rows ->]. by eapply envelope_in_wire.
      - cbn in Ew. by destruct (negb (ok_status status)). }
    cbn. destruct (decide (key = rowKey event)) as [->|Hne].
    + rewrite map_get_set_eq. by intros [= <-].
    + rewrite map_get_set_ne by done. apply HP.
  - apply some_pair in Hs as [-> _]. apply HP.
Qed.

(** Where the journal departs from what it is for ("a row expands to the
    envelope verbatim").  It looks the row up under [deviceId] in an answer
    that calls it [device_id], the name the same page's list is read under:
    no row is ever found, and whatever the gateway answers, an opened row
    shows [null] or goes on loading. *)
Theorem journal_shows_null events kinds tr s event :
  run journal_step (journal_mount events kinds) tr s ->
  Forall (fun eo => gateway_answer eo.1) tr ->
  drawn_envelope event s = None \/ drawn_envelope event s = Some VNull.
Proof.
  intros Hr Hg. set (P := fun s => forall key v, map_get key (jn_payloads s) = Some v -> v = VNull).
  assert (HP : P s).
  { assert (H0 : P (journal_mount events kinds)) by done.
    induction Hr as [|s0 e s1 out tr s2 Hs _ IH]; [done|].
    apply Forall_cons in Hg as [He Hg]. apply IH; [done|]. exact (null_step _ _ _ _ Hs He H0). }
  unfold drawn_envelope. destruct (map_get _ _) as [v|] eqn:E; [right|by left].
  by rewrite (HP _ _ E).
Qed.
End Requests.

(** ** Samples *)

Definition sample_journal_text : NumberText := {| number_text _ := u "7" |}.
Definition sample_event (kind : string) (payload : jsval) : JournalEvent :=
  {| jo_seq := int 7; jo_deviceId := u "d1"; jo_kind := u kind; jo_receivedAt := int 1;
     jo_payload := payload |}.
Definition sample_listed : list JournalEvent :=
  [sample_event "SmsReceived" VUndef; sample_event "DeviceState" VUndef].
Definition sample_journal : journal := journal_mount sample_listed (journal_kinds sample_listed).
Definition sample_journal_step := @journal_step sample_journal_text.
Definition sample_envelope : answer :=
  Answer 200 None (Some (wire_body [sample_event "SmsReceived" (VStr (u "the envelope"))])).

Lemma journal_requests_witness :
  exists s', sample_journal_step sample_journal (ToggleRow 0)
             = Some (s', [Fetch (envelope_call (sample_event "SmsReceived" VUndef))])
  /\ exists row event, ToggleRow 0 = ToggleRow row
       /\ @journal_shown sample_journal !! row = Some event
       /\ jn_open s' = Some (@rowKey sample_journal_text event).
Proof.
  eexists. split; [vm_compute; reflexivity|].
  refine (let H := journal_requests (H := sample_journal_text) sample_listed
    (journal_kinds sample_listed) [] sample_journal (ToggleRow 0) _ _
    (Fetch (envelope_call (sample_event "SmsReceived" VUndef))) _ _ in _).
  destruct (proj1 H) as (row & event & He & Hr & _ & _ & _ & Ho); [left|].
  exists row, event. split_and!; [exact He|exact Hr|exact Ho].
  Unshelve.
  - constructor.
  - vm_compute. reflexivity.
Defined.

(** The gateway answers with the envelope; the row shows [null]. *)
Lemma journal_shows_null_witness :
  exists s tr, run sample_journal_step sample_journal tr s
  /\ tr.*1 = [ToggleRow 0; JournalAnswer 0 sample_envelope]
  /\ is_Some (@drawn_envelope sample_journal_text (sample_event "SmsReceived" VUndef) s)
  /\ (@drawn_envelope sample_journal_text (sample_event "SmsReceived" VUndef) s = None
      \/ @drawn_envelope sample_journal_text (sample_event "SmsReceived" VUndef) s = Some VNull).
Proof.
  destruct (exec_run sample_journal_step sample_journal [ToggleRow 0; JournalAnswer 0 sample_envelope]
              _ _ eq_refl) as (tr & Hr & He & _).
  eexists _, tr. split_and!; [exact Hr|exact He|by vm_compute; eauto|].
  eapply (journal_shows_null (H := sample_journal_text) _ _ tr); [exact Hr|].
  apply (Forall_fmap fst gateway_answer). rewrite He.
  constructor; [done|]. constructor; [|constructor]. by exists [sample_event "SmsReceived" (VStr (u "the envelope"))].
Defined.
