(* ===== verification/ListPages.v ===== *)
(** * The list pages (app/page.tsx, app/sessions, app/schedule, app/audit,
      app/support-ledger, app/rules)

    What each page reads, the rows it draws for [?q] and [?sort], and which of
    its empty states; what the cells compute.  The list itself is
    [shown_rows] (TableQuery). *)

From Stdlib Require Import Lia.
From S2P Require Import Prelude JsString JsValue JsSort Fetch Session Gateway Devices Messages Network AuditLog TableQuery Fleet Navigation.

(** ** app/page.tsx *)

Record overview_read := {
  ov_devices : list DeviceRow;
  ov_messages : list MessageRow;
  ov_peers : nat;
  ov_loadError : bool;
}.

Section Reads.
Context `{Platform}.
Variable env : environment.
Variable fetchImpl : fetch_fn.
Variables (host : jstring) (token : option jstring).

(** [Promise.all]: one refusal and nothing is assigned. *)
Definition OverviewPage_read : overview_read :=
  match fetchDevices env fetchImpl host token, fetchMessages env fetchImpl host token,
        fetchSessions env fetchImpl host token with
  | Ok devices, Ok messages, Ok sessions =>
      {| ov_devices := devices; ov_messages := messages; ov_peers := length sessions;
         ov_loadError := false |}
  | _, _, _ => {| ov_devices := []; ov_messages := []; ov_peers := 0; ov_loadError := true |}
  end.

(** One [try] around one list. *)
Definition list_read {A} (load : res (list A)) : list A * bool :=
  match load with Ok rows => (rows, false) | Throw _ => ([], true) end.

Definition SessionsPage_read := list_read (fetchSessions env fetchImpl host token).
Definition SchedulePage_read := list_read (fetchSchedules env fetchImpl host token).
Definition RulesPage_read := list_read (fetchRules env fetchImpl host token).
Definition AuditPage_read : AuditScreen := auditScreen (loadAudit env fetchImpl host token).

Record ledger_read := { lr_writable : bool; lr_rows : list LedgerRow; lr_failed : bool }.
Definition SupportLedgerPage_read : ledger_read :=
  let rows := list_read (fetchLedger env fetchImpl host token) in
  {| lr_writable := mayWrite (fetchConsoleRole env fetchImpl host token);
     lr_rows := rows.1; lr_failed := rows.2 |}.
End Reads.

Definition ov_online (page : overview_read) : nat :=
  length (List.filter (fun device => jeqb (dv_state device) (u "online")) (ov_devices page)).

Definition ov_recent (page : overview_read) : list MessageRow :=
  take 8 (sort (cmp_on ms_receivedAt cmp_desc) (ov_messages page)).

Definition ov_tone (page : overview_read) : option BadgeTone :=
  if (length (ov_devices page) =? 0)%nat then None
  else if (ov_online page =? length (ov_devices page))%nat then Some ToneOk else Some ToneWarn.

(** ** app/schedule/page.tsx: the cells *)

(** A cadence read as "every two hours" rather than as 7200. *)
Inductive Cadence :=
  | NoCadence
  | EveryDays (n : Z)
  | EveryHours (n : Z)
  | EveryMinutes (n : Z).

(** [Math.round(a / b)]: the nearest integer, halves up.  The quotient is
    exact here and a double in the code; for whole seconds that fit in a
    double their nearest integer is the same, since a quotient by 60 that is
    not a half is at least a sixtieth away from one. *)
Definition round_ratio (a b : Z) : Z := ((2 * a + b) / (2 * b))%Z.

Definition cadence (seconds : Z) : Cadence :=
  if (seconds <=? 0)%Z then NoCadence
  else if (seconds mod int 86400 =? 0)%Z then EveryDays (seconds / int 86400)
  else if (seconds mod int 3600 =? 0)%Z then EveryHours (seconds / int 3600)
  else EveryMinutes (round_ratio seconds (int 60)).

(** The target column: the words are the catalogue's. *)
Definition target (card device : jstring) (row : ScheduleRow) : jstring :=
  let sel := sc_selector row in
  let named (mode : string) (value : option jstring) :=
    jeqb (sel_mode sel) (u mode) && match value with Some v => negb (jeqb v []) | None => false end in
  if named "card" (sel_iccid sel)
  then card ++ u " " ++ default_to [] (sel_iccid sel)
  else if named "device" (sel_deviceId sel)
  then device ++ u " " ++ default_to [] (sel_deviceId sel)
       ++ match sel_modemImei sel with
          | Some imei => if jeqb imei [] then [] else u " / " ++ imei
          | None => []
          end
  else sel_mode sel.

Definition statusTone (status : option jstring) : jstring :=
  match status with
  | None => u "unknown"
  | Some s =>
      if jeqb s [] then u "unknown"
      else if jeqb s (u "issued") || jeqb s (u "checked") then u "online"
      else u "busy"
  end.

(** ** app/support-ledger/page.tsx: a verdict *)

Inductive support_cell := Unmeasured | Supported | Unsupported | ProbeOnly.

Definition Support (value : option jstring) : support_cell :=
  match value with
  | None => Unmeasured
  | Some v =>
      if jeqb v (u "supported") then Supported
      else if jeqb v (u "unsupported") then Unsupported else ProbeOnly
  end.

(** What the card draws under its form. *)
Inductive ledger_body := LedgerNoMatch | LedgerEmpty | LedgerTable.

Definition ledger_draws (failed : bool) (total : nat) (empty : option EmptyKind) : ledger_body :=
  match empty with
  | Some EmptyNoMatch => LedgerNoMatch
  | _ => if negb failed && (total =? 0)%nat then LedgerEmpty else LedgerTable
  end.

(** ** The orders the pages offer *)

Section Orders.
Context `{CaseMapping} `{NumberText} `{Collation}.

Definition SESSION_SORTS : list jstring := [u "received"; u "count"; u "peer"].
Definition session_fields (row : SessionRow) : list table_field :=
  [FText (ss_peer row); FText (ss_lastBody row); FText (ss_deviceId row)].
Definition session_order (order : jstring) : comparator SessionRow :=
  by_ [ when (jeqb order (u "received")) (cmp_on (fun row => Some (ss_lastReceivedAt row)) biggestFirst);
        when (jeqb order (u "count")) (cmp_on (fun row => Some (ss_count row)) biggestFirst);
        cmp_on ss_peer alphabetical ].
Definition shownSessions (q sort_by : option jstring) : list SessionRow -> list SessionRow :=
  shown_rows session_fields (session_order (pickSort sort_by SESSION_SORTS (u "received"))) (needleOf q).

Definition of_option (v : option jstring) : table_field :=
  match v with Some s => FText s | None => FMissing end.

Definition SCHEDULE_SORTS : list jstring := [u "name"; u "due"; u "lastRun"].
Definition schedule_fields (row : ScheduleRow) : list table_field :=
  [FText (sc_name row); FText (sc_action row); of_option (sc_commandKind row);
   of_option (sel_deviceId (sc_selector row)); of_option (sel_iccid (sc_selector row));
   of_option (sel_modemImei (sc_selector row))].
Definition schedule_order (order : jstring) : comparator ScheduleRow :=
  by_ [ when (jeqb order (u "due")) (cmp_on sc_nextDueAt biggestFirst);
        when (jeqb order (u "lastRun")) (cmp_on sc_lastRunAt biggestFirst);
        when (jeqb order (u "name")) (cmp_on sc_name alphabetical);
        cmp_on sc_id alphabetical ].
Definition shownSchedules (q sort_by : option jstring) : list ScheduleRow -> list ScheduleRow :=
  shown_rows schedule_fields (schedule_order (pickSort sort_by SCHEDULE_SORTS (u "name"))) (needleOf q).

Definition LEDGER_SORTS : list jstring := [u "modem"; u "carrier"; u "tested"].
Definition ledger_fields (row : LedgerRow) : list table_field :=
  [FText (lg_modemFamily row); FText (lg_carrier row); FText (lg_bearer row); FText (lg_note row);
   of_option (lg_reason row); FText (lg_testedBy row)].
Definition ledger_order (order : jstring) : comparator LedgerRow :=
  by_ [ when (jeqb order (u "tested")) (cmp_on (fun row => Some (lg_testedAt row)) biggestFirst);
        when (jeqb order (u "carrier")) (cmp_on lg_carrier alphabetical);
        cmp_on lg_modemFamily alphabetical;
        cmp_on lg_carrier alphabetical ].
Definition shownLedger (q sort_by : option jstring) : list LedgerRow -> list LedgerRow :=
  shown_rows ledger_fields (ledger_order (pickSort sort_by LEDGER_SORTS (u "modem"))) (needleOf q).

(** The audit page sorts its rows with the place each arrived in. *)
Definition AUDIT_SORTS : list jstring := [u "received"; u "actor"; u "action"].
Definition audit_fields (entry : AuditRow * nat) : list table_field :=
  [FText (au_actor entry.1); FText (au_action entry.1); FText (au_target entry.1)].
Definition audit_order (order : jstring) : comparator (AuditRow * nat) :=
  by_ [ when (jeqb order (u "actor")) (cmp_on (fun entry => au_actor entry.1) alphabetical);
        when (jeqb order (u "action")) (cmp_on (fun entry => au_action entry.1) alphabetical);
        cmp_on (fun entry => Z.of_nat entry.2) cmp_asc ].
Definition audit_entries (screen : AuditScreen) : list (AuditRow * nat) :=
  imap (fun i row => (row, i)) (as_rows screen).
Definition shownAudit (q sort_by : option jstring) (screen : AuditScreen) : list (AuditRow * nat) :=
  shown_rows audit_fields (audit_order (pickSort sort_by AUDIT_SORTS (u "received"))) (needleOf q)
    (audit_entries screen).

(** Which of the four the audit card draws. *)
Inductive audit_body :=
  | AuditSays (p : AuditPlaceholder)
  | AuditNoMatch
  | AuditTable (rows : list (AuditRow * nat)).

Definition audit_draws (q sort_by : option jstring) (screen : AuditScreen) : audit_body :=
  let shown := shownAudit q sort_by screen in
  match as_placeholder screen with
  | Some p => AuditSays p
  | None =>
      match emptyKind (length (as_rows screen)) (length shown) (needleOf q) with
      | Some EmptyNoMatch => AuditNoMatch
      | _ => AuditTable shown
      end
  end.

(** ** Each is an order *)

Ltac page_order := apply by_consistent; repeat (apply Forall_cons; split; [apply _|]); constructor.

#[export] Instance session_order_consistent order : Consistent (session_order order).
Proof. page_order. Qed.
#[export] Instance schedule_order_consistent order : Consistent (schedule_order order).
Proof. page_order. Qed.
#[export] Instance ledger_order_consistent order : Consistent (ledger_order order).
Proof. page_order. Qed.
#[export] Instance audit_order_consistent order : Consistent (audit_order order).
Proof. page_order. Qed.

(** ** The lists *)

(** A schedule that never ran is not the one that ran longest ago, and no
    list moves under the reader.  The task list and the support ledger show
    exactly the rows that match, sorted as asked for, tasks without a due
    time or a last run behind all that have one; and with keys the collation
    tells apart, two polls whose rows arrive in different orders show the
    same list. *)
Theorem lists_keep_still q sort_by (schedules schedules' : list ScheduleRow) (ledger ledger' : list LedgerRow) :
  let shown := shownSchedules q sort_by schedules in
  (forall row, row ∈ shown <-> row ∈ schedules /\ matches (needleOf q) (schedule_fields row) = true)
  /\ (forall i j a b, shown !! i = Some a -> shown !! j = Some b -> i < j ->
       (pickSort sort_by SCHEDULE_SORTS (u "name") = u "due" ->
          sc_nextDueAt a = None -> sc_nextDueAt b = None)
       /\ (pickSort sort_by SCHEDULE_SORTS (u "name") = u "lastRun" ->
          sc_lastRunAt a = None -> sc_lastRunAt b = None))
  /\ (schedules ≡ₚ schedules' ->
      (forall a b, a ∈ schedules -> b ∈ schedules -> localeCompare (sc_id a) (sc_id b) = 0%Z -> a = b) ->
      shownSchedules q sort_by schedules' = shown)
  /\ (forall row, row ∈ shownLedger q sort_by ledger
        <-> row ∈ ledger /\ matches (needleOf q) (ledger_fields row) = true)
  /\ (ledger ≡ₚ ledger' ->
      (forall a b, a ∈ ledger -> b ∈ ledger ->
         localeCompare (lg_modemFamily a) (lg_modemFamily b) = 0%Z ->
         localeCompare (lg_carrier a) (lg_carrier b) = 0%Z -> a = b) ->
      shownLedger q sort_by ledger' = shownLedger q sort_by ledger).
Proof.
  intros shown. split_and!.
  - intros row. apply elem_of_shown.
  - intros i j a b Hi Hj Hij.
    assert (Hle : cmp_le (schedule_order (pickSort sort_by SCHEDULE_SORTS (u "name"))) a b).
    { eapply sorted_lookup; [|exact Hi|exact Hj|exact Hij]. apply shown_rows_spec, _. }
    split; intros Ho; rewrite Ho in Hle.
    + apply by_first in Hle. by apply biggest_missing.
    + apply by_skip in Hle; [|done]. apply by_first in Hle. by apply biggest_missing.
  - intros Hp Hk. symmetry. apply shown_rows_arrival; [apply _|done|].
    intros a b Ha Hb Hz. apply Hk; [done..|]. unfold schedule_order in Hz. rewrite by_zero in Hz.
    apply (Hz (cmp_on sc_id alphabetical)). do 3 right. left.
  - intros row. apply elem_of_shown.
  - intros Hp Hk. symmetry. apply shown_rows_arrival; [apply _|done|].
    intros a b Ha Hb Hz. unfold ledger_order in Hz. rewrite by_zero in Hz. apply Hk; [done..| |].
    + apply (Hz (cmp_on lg_modemFamily alphabetical)). do 2 right. left.
    + apply (Hz (cmp_on lg_carrier alphabetical)). do 3 right. left.
Qed.
End Orders.

(** ** The sessions page *)

(** Where the sessions page departs from what its comment promises ("every
    branch falls through to the peer, which is unique per device on this
    list"): the list holds every device, and two rows of one peer on two
    devices, alike in count and moment, stand in whatever order the gateway
    sent them. *)
Theorem sessions_follow_gateway `{CaseMapping} `{NumberText} `{Collation} sort_by a b :
  ss_peer a = ss_peer b -> ss_count a = ss_count b -> ss_lastReceivedAt a = ss_lastReceivedAt b ->
  shownSessions None sort_by [a; b] = [a; b] /\ shownSessions None sort_by [b; a] = [b; a].
Proof.
  intros Hp Hc Hr. unfold shownSessions. rewrite needleOf_none. set (order := pickSort _ _ _).
  assert (Hz : forall x y, ss_peer x = ss_peer y -> ss_count x = ss_count y ->
    ss_lastReceivedAt x = ss_lastReceivedAt y -> session_order order x y = 0%Z).
  { intros x y Hxp Hxc Hxr. unfold session_order. apply by_zero. intros c Hin.
    repeat (apply elem_of_cons in Hin as [->|Hin]); [..|by apply not_elem_of_nil in Hin];
      unfold when, cmp_on; rewrite ?Hxp, ?Hxc, ?Hxr; repeat case_match; try done; apply cmp_refl. }
  rewrite !shown_rows_blank. cbn -[session_order]. by rewrite !Hz.
Qed.

(** ** The overview *)

(** The landing page.  The recent messages are the newest: at most eight,
    newest first, and none left out is newer than one shown; its one
    judgement is green exactly when the fleet is not empty and every device
    is online, and says nothing of an empty fleet; and a refusal of any of
    its three reads shows no device and no message, and says so. *)
Theorem overview_recent env fetchImpl host token :
  let page := OverviewPage_read env fetchImpl host token in
  let shown := ov_recent page in
  length shown = Nat.min 8 (length (ov_messages page))
  /\ StronglySorted (fun a b => (ms_receivedAt b <= ms_receivedAt a)%Z) shown
  /\ (exists rest, ov_messages page ≡ₚ shown ++ rest
       /\ forall a b, a ∈ shown -> b ∈ rest -> (ms_receivedAt b <= ms_receivedAt a)%Z)
  /\ (ov_tone page = None <-> ov_devices page = [])
  /\ (ov_tone page = Some ToneOk <-> ov_devices page <> []
       /\ forall device, device ∈ ov_devices page -> dv_state device = u "online")
  /\ (ov_loadError page = true -> ov_devices page = [] /\ shown = [] /\ ov_peers page = 0)
  /\ (ov_loadError page = false -> fetchDevices env fetchImpl host token = Ok (ov_devices page)
       /\ fetchMessages env fetchImpl host token = Ok (ov_messages page)).
Proof.
  intros page shown.
  set (sorted := sort (cmp_on ms_receivedAt cmp_desc) (ov_messages page)).
  assert (Hs : StronglySorted (fun a b => (ms_receivedAt b <= ms_receivedAt a)%Z) sorted).
  { eapply sorted_weaken; [|apply (sort_sorted (cmp_on ms_receivedAt cmp_desc))].
    intros a b. unfold cmp_le, cmp_on, cmp_desc. lia. }
  assert (Hsplit : sorted = shown ++ drop 8 sorted) by (symmetry; apply take_drop).
  split_and!.
  - unfold shown, ov_recent. rewrite length_take, sort_length. done.
  - rewrite Hsplit in Hs. by apply StronglySorted_app in Hs as (_ & Hs & _).
  - exists (drop 8 sorted). rewrite <-Hsplit. split; [symmetry; apply sort_perm|].
    intros a b Ha Hb. rewrite Hsplit in Hs. apply StronglySorted_app in Hs as (Hab & _). by apply Hab.
  - unfold ov_tone. destruct (ov_devices page) as [|d l]; cbn [length Nat.eqb]; [done|].
    split; [|done]. by destruct (_ =? _)%nat.
  - unfold ov_tone, ov_online. destruct (ov_devices page) as [|d l] eqn:Ed; [by cbn; split; [|intros [? _]]|].
    rewrite <-Ed. replace (length (ov_devices page) =? 0)%nat with false by (by rewrite Ed).
    destruct (Nat.eqb_spec (length (List.filter (fun device => jeqb (dv_state device) (u "online")) (ov_devices page)))
                (length (ov_devices page))) as [E|E].
    + split; [|done]. intros _. split; [by rewrite Ed|]. intros x Hx.
      apply List.filter_length_forallb in E. rewrite List.forallb_forall in E.
      apply jeqb_eq, E. by apply list_elem_of_In.
    + split; [done|]. intros [_ Hall]. destruct E. rewrite List.forallb_filter_id; [done|]. apply List.forallb_forall.
      intros x Hx%list_elem_of_In. apply jeqb_eq. auto.
  - subst shown. unfold page, OverviewPage_read. repeat case_match; done.
  - subst shown. unfold page, OverviewPage_read. repeat case_match; done.
Qed.

(** ** The cells *)

Lemma int_mod a b : (0 < b)%Z -> (int a mod int b = int (a mod b))%Z.
Proof.
  intros Hb. unfold int. pose proof scale_pos. rewrite Z.mul_mod_distr_r by lia. done.
Qed.
Lemma int_div a b : (0 < b)%Z -> (int a / int b = a / b)%Z.
Proof. intros Hb. unfold int. pose proof scale_pos. rewrite Z.div_mul_cancel_r by lia. done. Qed.
Lemma int_zero a : int a = 0%Z <-> a = 0%Z.
Proof. unfold int. pose proof scale_pos. nia. Qed.

(** Rounding a ratio of integers: never more than half a unit off, and a half
    goes up. *)
Lemma round_ratio_int a b : (0 < b)%Z -> round_ratio (int a) (int b) = round_ratio a b.
Proof.
  intros Hb. unfold round_ratio.
  replace (2 * int a + int b)%Z with (int (2 * a + b)) by (unfold int; ring).
  replace (2 * int b)%Z with (int (2 * b)) by (unfold int; ring).
  apply int_div. lia.
Qed.
Lemma round_ratio_near a b : (0 < b)%Z -> (- b < 2 * (a - b * round_ratio a b) + 1 <= b + 1)%Z
  /\ (- b <= 2 * (a - b * round_ratio a b) < b)%Z.
Proof.
  intros Hb. unfold round_ratio. pose proof (Z.div_mod (2 * a + b) (2 * b)).
  pose proof (Z.mod_pos_bound (2 * a + b) (2 * b)). nia.
Qed.

(** The cadence column.  A task's interval is read in the largest unit
    that says it exactly, days before hours, and otherwise in minutes, at
    most half a minute off; every interval a task may have (a minute to a
    week) reads as a positive number of some unit, and at most seven days. *)
Theorem cadence_reads seconds :
  match cadence (int seconds) with
  | NoCadence => (seconds <= 0)%Z
  | EveryDays n => (0 < n /\ seconds = n * 86400)%Z
  | EveryHours n => (0 < n /\ seconds = n * 3600 /\ seconds mod 86400 <> 0)%Z
  | EveryMinutes n =>
      (0 < seconds /\ seconds mod 3600 <> 0 /\ -30 <= seconds - n * 60 < 30)%Z
  end
  /\ ((60 <= seconds <= 604800)%Z ->
      exists n, (cadence (int seconds) = EveryDays n /\ 1 <= n <= 7
        \/ cadence (int seconds) = EveryHours n /\ 1 <= n < 168
        \/ cadence (int seconds) = EveryMinutes n /\ 1 <= n <= 10080)%Z).
Proof.
  assert (Hc : cadence (int seconds) =
    (if (seconds <=? 0)%Z then NoCadence
     else if (seconds mod 86400 =? 0)%Z then EveryDays (seconds / 86400)
     else if (seconds mod 3600 =? 0)%Z then EveryHours (seconds / 3600)
     else EveryMinutes (round_ratio seconds 60))).
  { unfold cadence. rewrite !int_mod, !int_div, round_ratio_int by lia.
    replace (int seconds <=? 0)%Z with (seconds <=? 0)%Z.
    2: { pose proof (int_le seconds 0). change (int 0) with 0%Z in H.
         destruct (Z.leb_spec seconds 0), (Z.leb_spec (int seconds) 0); try done; lia. }
    destruct (seconds <=? 0)%Z; [done|].
    pose proof (int_zero (seconds mod 86400)). pose proof (int_zero (seconds mod 3600)).
    destruct (Z.eqb_spec (int (seconds mod 86400)) 0), (Z.eqb_spec (seconds mod 86400) 0); try tauto;
    destruct (Z.eqb_spec (int (seconds mod 3600)) 0), (Z.eqb_spec (seconds mod 3600) 0); tauto. }
  rewrite Hc. pose proof (round_ratio_near seconds 60).
  destruct (Z.leb_spec seconds 0); [split; [done|lia]|].
  destruct (Z.eqb_spec (seconds mod 86400) 0); [split; [|intros; eexists; left; split; [done|]]; Z.to_euclidean_division_equations; lia|].
  destruct (Z.eqb_spec (seconds mod 3600) 0); [split; [|intros; eexists; right; left; split; [done|]]; Z.to_euclidean_division_equations; lia|].
  split; [lia|]. intros. eexists. right. right. split; [done|]. lia.
Qed.

(** ** The audit page *)

Lemma by_last {A} (f g h : comparator A) a b : f a b = 0%Z -> g a b = 0%Z -> by_ [f; g; h] a b = h a b.
Proof. cbn. intros -> ->. cbn. by destruct (Z.eqb_spec (h a b) 0). Qed.

Lemma audit_entries_arrival screen :
  StronglySorted (fun a b => (a.2 < b.2)%nat) (audit_entries screen)
  /\ (audit_entries screen).*1 = as_rows screen.
Proof.
  unfold audit_entries.
  assert (H : forall k (rows : list AuditRow),
    StronglySorted (fun a b => (a.2 < b.2)%nat) (imap (fun i row => (row, k + i)) rows)
    /\ Forall (fun e => k <= e.2) (imap (fun i row => (row, k + i)) rows)
    /\ (imap (fun i row => (row, k + i)) rows).*1 = rows).
  { intros k rows. revert k. induction rows as [|row rows IH]; intros k; [by repeat constructor|].
    rewrite imap_cons. destruct (IH (S k)) as (Hs & Hf & H1).
    rewrite (imap_ext _ (fun i row => (row, S k + i)) rows) by (intros; unfold compose; f_equal; lia).
    split_and!.
    - constructor; [done|]. eapply Forall_impl; [exact Hf|]. intros [r n]. cbn. lia.
    - constructor; [cbn; lia|]. eapply Forall_impl; [exact Hf|]. intros [r n]. cbn. lia.
    - rewrite fmap_cons. by f_equal. }
  destruct (H 0 (as_rows screen)) as (Hs & _ & H1). done.
Qed.

Lemma filter_sorted {A} (R : A -> A -> Prop) (p : A -> bool) l :
  StronglySorted R l -> StronglySorted R (List.filter p l).
Proof.
  induction 1 as [|x l Hl IH Hx]; cbn; [constructor|]. destruct (p x); [|done].
  constructor; [done|]. apply Forall_forall. intros y [Hy _]%elem_of_filter_bool.
  rewrite Forall_forall in Hx. auto.
Qed.

Lemma filter_first {A B} (p : A -> bool) (l : list (A * B)) :
  (List.filter (fun e => p e.1) l).*1 = List.filter p l.*1.
Proof.
  induction l as [|[a b] l IH]; [done|]. rewrite fmap_cons. cbn [List.filter fst].
  destruct (p a); [by rewrite fmap_cons, IH|done].
Qed.

(** The audit page never shuffles the log.  Unless another order is asked
    for, it draws the matching rows in the gateway's order, the only recency
    it has; sorted by actor or by action, two rows the sort does not tell
    apart keep their arrival order; the page says what the load says exactly
    when there is no row, and the table is drawn only with a row in it. *)
Theorem audit_never_shuffled `{CaseMapping} `{NumberText} `{Collation} q sort_by env fetchImpl host token :
  let screen := AuditPage_read env fetchImpl host token in
  let shown := shownAudit q sort_by screen in
  let order := pickSort sort_by AUDIT_SORTS (u "received") in
  (order = u "received" ->
     shown.*1 = List.filter (fun row => matches (needleOf q) (audit_fields (row, 0))) (as_rows screen))
  /\ (forall i j a b, shown !! i = Some a -> shown !! j = Some b -> i < j ->
       (order = u "actor" -> localeCompare (au_actor a.1) (au_actor b.1) = 0%Z) ->
       (order = u "action" -> localeCompare (au_action a.1) (au_action b.1) = 0%Z) ->
       (a.2 <= b.2)%nat)
  /\ match audit_draws q sort_by screen with
     | AuditSays _ => as_rows screen = []
     | AuditNoMatch => as_rows screen <> [] /\ shown = []
     | AuditTable rows => rows = shown /\ rows <> []
     end.
Proof.
  intros screen shown order. destruct (audit_entries_arrival screen) as [Hs Hfst]. split_and!.
  - intros Ho. unfold shown, shownAudit, shown_rows. fold order. rewrite sort_id.
    + rewrite <-Hfst. apply (filter_first (fun row => matches (needleOf q) (audit_fields (row, 0)))).
    + rewrite Ho. apply filter_sorted. eapply sorted_weaken; [|exact Hs].
      intros a b Hab. unfold cmp_le, audit_order. rewrite by_last; [|done..].
      cbn in Hab. unfold cmp_on, cmp_asc. lia.
  - intros i j a b Hi Hj Hij Hactor Haction.
    assert (Hle : cmp_le (audit_order order) a b).
    { eapply sorted_lookup; [|exact Hi|exact Hj|exact Hij]. apply shown_rows_spec, _. }
    unfold cmp_le, audit_order in Hle. rewrite by_last in Hle.
    + unfold cmp_on, cmp_asc in Hle. lia.
    + unfold when, cmp_on. destruct (jeqb order (u "actor")) eqn:E; [|done]. apply jeqb_eq in E. by apply Hactor.
    + unfold when, cmp_on. destruct (jeqb order (u "action")) eqn:E; [|done]. apply jeqb_eq in E. by apply Haction.
  - pose proof (shown_rows_spec audit_fields (audit_order order) (needleOf q) (audit_entries screen)) as (_ & _ & Hk).
    assert (Hlen : length (audit_entries screen) = length (as_rows screen)) by (by rewrite <-Hfst, length_fmap).
    assert (Hnil : as_rows screen = [] -> audit_entries screen = []).
    { intros E. apply length_zero_iff_nil. by rewrite Hlen, E. }
    unfold audit_draws. fold shown. rewrite Hlen in Hk.
    destruct (auditScreen_rows env fetchImpl host token) as [Hsome Hnone].
    change (auditScreen (loadAudit env fetchImpl host token)) with screen in Hsome, Hnone.
    destruct (as_placeholder screen) as [p|] eqn:Ep; [by apply (Hnone p)|].
    change (shown_rows audit_fields (audit_order order) (needleOf q) (audit_entries screen)) with shown in Hk.
    destruct (emptyKind _ _ _) as [[]|].
    + exfalso. apply Hsome; [done|]. rewrite <-Hfst. by rewrite Hk.
    + destruct Hk as (Hne & _ & Hsh). split; [|done]. intros E. by apply Hne, Hnil.
    + done.
Qed.
