(* ===== verification/DevicePages.v ===== *)
(** * The device pages (app/devices/page.tsx, app/devices/[deviceId]/page.tsx,
      components/modem-network.tsx)

    The fleet page and the page of one device: what each reads, the lists it
    draws and in which order, what a cell makes of a reading that is missing,
    and what each of the four tabs is handed. *)

From Stdlib Require Import Lia.
From S2P Require Import Prelude JsString JsValue JsNumber JsMap JsSort Fetch Session Gateway Devices Messages Network Esim EsimData TableQuery Fleet Plmn Navigation I18n Guards Component ProxyExport ListPages Console.

(** ** app/devices/page.tsx: the reads *)

Record fleet_read := {
  fr_writable : bool;
  fr_devices : list DeviceRow;
  fr_modems : list ModemRow;
  fr_policies : list CardPolicyRow;
  fr_alerts : list AlertRow;
  fr_loadError : bool;
  fr_certificates : list CertificateRow;
  fr_outstanding : nat;
}.

(** A code nobody used and that has not run out. *)
Definition code_live (now : Z) (code : EnrollmentCodeRow) : bool :=
  match ec_usedAt code with None => (now <? ec_expiresAt code)%Z | Some _ => false end.

Section FleetRead.
Context `{Platform}.
Variable env : environment.
Variable fetchImpl : fetch_fn.
Variables (host : jstring) (token : option jstring).

(** The four reads of the [Promise.all] stand or fall together; the
    certificates and the codes are read on their own. *)
Definition DevicesPage_read (now : Z) : fleet_read :=
  let writable := mayWrite (fetchConsoleRole env fetchImpl host token) in
  let certificates := (list_read (fetchCertificates env fetchImpl host token)).1 in
  let outstanding :=
    match fetchEnrollmentCodes env fetchImpl host token with
    | Ok codes => length (List.filter (code_live now) codes)
    | Throw _ => 0%nat
    end in
  match fetchDevices env fetchImpl host token, fetchModems env fetchImpl host token,
        fetchCardPolicies env fetchImpl host token, fetchAlerts env fetchImpl host token None 20 with
  | Ok devices, Ok modems, Ok policies, Ok alerts =>
      {| fr_writable := writable; fr_devices := devices; fr_modems := modems;
         fr_policies := policies; fr_alerts := alerts; fr_loadError := false;
         fr_certificates := certificates; fr_outstanding := outstanding |}
  | _, _, _, _ =>
      {| fr_writable := writable; fr_devices := []; fr_modems := []; fr_policies := [];
         fr_alerts := []; fr_loadError := true;
         fr_certificates := certificates; fr_outstanding := outstanding |}
  end.
End FleetRead.

(** [modems.filter((modem) => modem.iccid).map(..)]. *)
Definition knownCards (modems : list ModemRow) : list (jstring * jstring) :=
  omap (fun modem =>
    match md_iccid modem with
    | Some iccid => if jeqb iccid [] then None else Some (iccid, iccid ++ u " — " ++ md_imei modem)
    | None => None
    end) modems.

(** ** The fleet's module table *)

Definition fleet_order (sort_by : option jstring) : jstring :=
  match sort_by with
  | Some s => if jeqb s (u "signal") || jeqb s (u "seen") then s else u "imei"
  | None => u "imei"
  end.

Section FleetTable.
Context `{CaseMapping} `{Collation}.

Definition matchingModems (modems : list ModemRow) (needle : jstring) : list ModemRow :=
  if jeqb needle [] then modems
  else List.filter (fun modem =>
         existsb (fun field => includes (toLowerCase (default_to [] field)) needle)
           [Some (md_imei modem); md_iccid modem; Some (md_family modem); md_homePlmn modem;
            md_servingPlmn modem; md_msisdn modem]) modems.

(** [b - a] for two readings, either of which may be [-Infinity]. *)
Definition minus_sign (b a : num) : Z :=
  match b, a with
  | Fin y, Fin x => y - x
  | Fin _, Inf true => 1
  | Inf true, Fin _ => -1
  | _, _ => 0
  end%Z.

Definition reading_or (missing : num) (value : option Z) : num :=
  match value with Some v => Fin v | None => missing end.

(** The comparator of [orderModems]. *)
Definition modem_order (order : jstring) : comparator ModemRow := fun left right =>
  let signal modem := reading_or (Inf true) (md_signalDbm modem) in
  let seen modem := reading_or (Fin 0) (md_lastSeen modem) in
  if jeqb order (u "signal") && negb (bool_decide (signal left = signal right))
  then minus_sign (signal right) (signal left)
  else if jeqb order (u "seen") && negb (bool_decide (seen left = seen right))
       then minus_sign (seen right) (seen left)
       else localeCompare (md_imei left) (md_imei right).
Definition orderModems (modems : list ModemRow) (order : jstring) : list ModemRow :=
  sort (modem_order order) modems.

Definition fleet_shown (q sort_by : option jstring) (modems : list ModemRow) : list ModemRow :=
  orderModems (matchingModems modems (needleOf q)) (fleet_order sort_by).
End FleetTable.

(** ** Cells *)

(** The queue column. *)
Inductive queue_cell := QueueUnknown | QueueEmpty | QueueBehind (records : Z).
Definition queue_draws (device : DeviceRow) : queue_cell :=
  match dv_queueRecords device with
  | None => QueueUnknown
  | Some n => if (0 <? n)%Z then QueueBehind n else QueueEmpty
  end.

(** [ModemQuality]: [None] is a dash for all three. *)
Definition ModemQuality (rsrp rsrq sinr : option Z) : option (option Z * option Z * option Z) :=
  match rsrp, rsrq, sinr with
  | None, None, None => None
  | _, _, _ => Some (rsrp, rsrq, sinr)
  end.

(** [Math.round((used / total) * 100)]; [None] is a dash. *)
Definition memory_percent (used total : option Z) : option num :=
  match used, total with
  | Some used, Some total =>
      if (total =? 0)%Z then None else Some (Math_round (times (divide used total) (int 100)))
  | _, _ => None
  end.

(** The times an alert was held back, and the one that was not. *)
Definition alert_repeats (alert : AlertRow) : option num :=
  match prop (al_context alert) (u "repeats") with
  | VNum (Fin n) => Some (Fin (n + int 1))
  | VNum n => Some n
  | _ => None
  end.

(** [modem.manageable === false] and [modem.observed === false]. *)
Definition modem_badges (modem : ModemRow) : bool * bool :=
  (bool_decide (md_manageable modem = Some false), negb (md_observed modem)).

(** ** components/modem-network.tsx *)

Record network_cell := {
  nc_flag : option jstring;
  nc_operator : operator_label;
  nc_territory : option jstring;
  nc_roaming : option (option jstring * operator_label);
}.

Definition given (s : option jstring) : bool :=
  match s with Some s => negb (jeqb s []) | None => false end.

(** [None] is a dash. *)
Definition ModemNetwork (home serving : option jstring) : option network_cell :=
  if negb (given home) && negb (given serving) then None else
  let identity := match home with Some h => h | None => default_to [] serving end in
  Some {| nc_flag := territoryFlag identity;
          nc_operator := operatorName identity;
          nc_territory := territoryName identity;
          nc_roaming :=
            match home, serving with
            | Some h, Some s => if isRoaming h s then Some (territoryFlag s, operatorName s) else None
            | _, _ => None
            end |}.

(** ** app/devices/[deviceId]/page.tsx: the reads *)

Record device_read := {
  dr_writable : bool;
  dr_devices : list DeviceRow;
  dr_modems : list ModemRow;
  dr_esim : list EsimProfileRow;
  dr_proxies : list ProxyInstanceRow;
  dr_uptime : list UptimeHourRow;
  dr_candidates : list CandidateRow;
  dr_loadError : bool;
}.

Section DeviceRead.
Context `{Platform}.
Variable env : environment.
Variable fetchImpl : fetch_fn.
Variables (host : jstring) (token : option jstring).

(** [fetchDeviceUptime] asks for a week when it is not told otherwise. *)
Definition DevicePage_read (deviceId : jstring) : device_read :=
  let writable := mayWrite (fetchConsoleRole env fetchImpl host token) in
  match fetchDevices env fetchImpl host token, fetchModems env fetchImpl host token,
        fetchEsimProfiles env fetchImpl host token (Some deviceId),
        fetchProxyInstances env fetchImpl host token,
        fetchDeviceUptime env fetchImpl host token deviceId 168,
        fetchCandidates env fetchImpl host token with
  | Ok devices, Ok modems, Ok profiles, Ok proxies, Ok uptime, Ok candidates =>
      {| dr_writable := writable; dr_devices := devices; dr_modems := modems; dr_esim := profiles;
         dr_proxies := proxies; dr_uptime := uptime; dr_candidates := candidates;
         dr_loadError := false |}
  | _, _, _, _, _, _ =>
      {| dr_writable := writable; dr_devices := []; dr_modems := []; dr_esim := [];
         dr_proxies := []; dr_uptime := []; dr_candidates := []; dr_loadError := true |}
  end.
End DeviceRead.

(** ** The panels *)

Record panel_query := { pq_needle : jstring; pq_order : jstring; pq_tab : DeviceTabId }.

Inductive device_panel :=
  | OverviewTab (device : option DeviceRow) (modems : list ModemRow)
      (proxies : list ProxyInstanceRow) (uptime : list UptimeHourRow) (query : panel_query)
  | DiagnosticsTab (writable : bool) (device : option DeviceRow) (modems : list ModemRow)
  | ConsoleTab (writable : bool) (device : option DeviceRow) (modems : list ModemRow)
      (candidates : list CandidateRow)
  | EsimTab (writable : bool) (profiles : list EsimProfileRow) (imeis : list jstring).

Definition page_device (page : device_read) (deviceId : jstring) : option DeviceRow :=
  List.find (fun row => jeqb (dv_id row) deviceId) (dr_devices page).
Definition own_modems (page : device_read) (deviceId : jstring) : list ModemRow :=
  List.filter (fun row => jeqb (md_deviceId row) deviceId) (dr_modems page).

Definition panelFor (page : device_read) (deviceId : jstring) (query : panel_query)
    (tab : DeviceTabId) : device_panel :=
  let device := page_device page deviceId in
  let own := own_modems page deviceId in
  match tab with
  | overview =>
      OverviewTab device own
        (List.filter (fun row => jeqb (pi_deviceId row) deviceId) (dr_proxies page))
        (dr_uptime page) query
  | diagnostics => DiagnosticsTab (dr_writable page) device own
  | Navigation.console =>
      ConsoleTab (dr_writable page) device own
        (List.filter (fun row => jeqb (ca_deviceId row) deviceId) (dr_candidates page))
  | esim => EsimTab (dr_writable page) (dr_esim page) (md_imei <$> own)
  end.

(** The heading, and the name the admin card is given to type back. *)
Definition page_title (fallback : jstring) (device : option DeviceRow) : jstring :=
  match device with Some d => dv_name d | None => fallback end.
Definition admin_name (deviceId : jstring) (device : option DeviceRow) : jstring :=
  match device with Some d => dv_name d | None => deviceId end.

(** ** The overview tab *)

Section Overview.
Context `{CaseMapping} `{NumberText} `{Collation}.

Definition MODEM_SORTS : list jstring := [u "imei"; u "signal"; u "seen"].
Definition overview_fields (row : ModemRow) : list table_field :=
  [FText (md_imei row); of_option (md_iccid row); FText (md_family row);
   of_option (md_servingPlmn row)].
Definition overview_order (order : jstring) : comparator ModemRow :=
  by_ [ when (jeqb order (u "signal")) (cmp_on md_signalDbm biggestFirst);
        when (jeqb order (u "seen")) (cmp_on md_lastSeen biggestFirst);
        cmp_on md_imei alphabetical ].
Definition overview_shown (query : panel_query) (modems : list ModemRow) : list ModemRow :=
  shown_rows overview_fields (overview_order (pq_order query)) (pq_needle query) modems.

(** What the page asks of its query string. *)
Definition device_query (tab : SearchParam) (q sort_by : option jstring) : panel_query :=
  {| pq_needle := needleOf q; pq_order := pickSort sort_by MODEM_SORTS (u "imei");
     pq_tab := deviceTab tab |}.

(** The fields of the GET form, as the next request's query string names
    them: the hidden tab, what is typed and what is picked. *)
Definition form_fields (query : panel_query) (typed picked : jstring) : list (jstring * jstring) :=
  [(u "tab", tab_name (pq_tab query)); (u "q", typed); (u "sort", picked)].

#[export] Instance overview_order_consistent order : Consistent (overview_order order).
Proof. apply by_consistent. repeat (apply Forall_cons; split; [apply _|]). constructor. Qed.
End Overview.

(** One cell each. *)
Inductive msisdn_cell := MsisdnNumber (n : jstring) | MsisdnPending | MsisdnNone.
Definition msisdn_draws (modem : ModemRow) : msisdn_cell :=
  match md_msisdn modem with
  | Some n => MsisdnNumber n
  | None => if md_msisdnPending modem then MsisdnPending else MsisdnNone
  end.

(** [MatrixKey]: the pair the matrix was asked, and whether the answer was
    the fallback; [None] is a dash. *)
Definition MatrixKey (family : jstring) (carrier origin : option jstring)
    : option (jstring * jstring * bool) :=
  match carrier with
  | None => None
  | Some c => if jeqb c [] then None else Some (family, c, bool_decide (origin = Some (u "fallback")))
  end.

(** [ProxyBindings] of one module: name, protocol, port, and whether it runs;
    the empty list is drawn as "none". *)
Definition ProxyBindings (proxies : list ProxyInstanceRow) (modem : ModemRow)
    : list (jstring * jstring * Z * bool) :=
  (fun row => (pi_name row, pi_protocol row, pi_listenPort row, pi_enabled row))
    <$> List.filter (fun row => jeqb (pi_modemImei row) (md_imei modem)) proxies.

Definition AUTH_NAMES : list (jstring * jstring) :=
  [(u "pap", u "PAP"); (u "chap", u "CHAP"); (u "pap_or_chap", u "PAP/CHAP")].

(** What is said of a context's authentication. *)
Inductive auth_cell := AuthSilent | AuthUnread | AuthNamed (name : looked_up jstring).
Definition auth_draws (auth : option jstring) : auth_cell :=
  match auth with
  | None => AuthUnread
  | Some a =>
      if jeqb a [] || jeqb a (u "none") then AuthSilent
      else AuthNamed (match table_read AUTH_NAMES a with Absent => Own a | found => found end)
  end.

Record apn_line := {
  an_context : Z;
  an_name : option jstring;       (** [None]: the catalogue's word for unnamed *)
  an_pdpType : option jstring;
  an_username : option jstring;
  an_auth : auth_cell;
  an_password : bool;
  an_configured : bool;
}.

Definition text_given (s : jstring) : option jstring := if jeqb s [] then None else Some s.

Definition apn_draws (context : ApnContextRow) : apn_line :=
  {| an_context := ap_cid context;
     an_name := text_given (ap_apn context);
     an_pdpType := text_given (ap_pdpType context);
     an_username := text_given (ap_username context);
     an_auth := auth_draws (ap_auth context);
     an_password := ap_hasPassword context;
     an_configured := bool_decide (ap_source context = Some (u "configured")) |}.

Inductive apn_cell := ApnUnread | ApnNone | ApnTable (lines : list apn_line).
Definition ApnContexts (contexts : option (list ApnContextRow)) : apn_cell :=
  match contexts with
  | None => ApnUnread
  | Some [] => ApnNone
  | Some l => ApnTable (apn_draws <$> l)
  end.

(** ** Uptime *)

(** The eight blocks, from the lowest: U+2581 and up. *)
Definition UPTIME_BLOCKS : list jstring := (fun i => [(0x2581 + N.of_nat i)%N]) <$> seq 0 8.

(** [Math.ceil(share * 7)] for the share of an hour, the quotient exact. *)
Definition uptime_step (minutes : Z) : nat :=
  let share := Z.max 0 (Z.min (int 60) minutes) in
  if (share =? 0)%Z then 0 else Z.to_nat ((share * 7 + int 60 - 1) / int 60).

Definition uptimeSparkline (rows : list UptimeHourRow) : jstring :=
  concat ((fun row => default [] (UPTIME_BLOCKS !! uptime_step (uh_minutesOnline row))) <$> rev rows).

(** The card: nothing recorded, or the ratio, the hours and the line. *)
Definition UptimeCard (rows : list UptimeHourRow) : option ((Z * Z) * nat * jstring) :=
  (fun ratio => (ratio, length rows, uptimeSparkline rows)) <$> uptimeRatio rows.

(** ** The host's readings *)

(** [value.toFixed(digits)]. *)
Class ToFixed := { to_fixed : nat -> Z -> jstring }.

Section Host.
Context `{ToFixed}.

Definition formatBytes (value : Z) : jstring :=
  let (scaled, unit) := bytes_loop value 0 (drop 1 BYTE_UNITS) in
  to_fixed (match unit with O => 0 | _ => 1 end) scaled ++ u " " ++ default [] (BYTE_UNITS !! unit).

(** [HostMemory] and [HostThroughput]; [None] is a dash. *)
Definition HostMemory (used total : option Z) : option (jstring * jstring * num) :=
  match used, total, memory_percent used total with
  | Some used, Some total, Some percent => Some (formatBytes used, formatBytes total, percent)
  | _, _, _ => None
  end.
Definition HostThroughput (rx tx : option Z) : option (jstring * jstring) :=
  match rx, tx with
  | Some rx, Some tx => Some (formatBytes rx, formatBytes tx)
  | _, _ => None
  end.

Record host_card := {
  hc_publicIp : option jstring;
  hc_cpu : option jstring;
  hc_memory : option (jstring * jstring * num);
  hc_disk : option (jstring * jstring * num);
  hc_network : option (jstring * jstring);
  hc_machine : jstring;
}.

(** [[a, b, c].filter((part) => part).join(" · ") || "—"]. *)
Definition host_machine (device : DeviceRow) : jstring :=
  let parts := omap (fun part => match part with Some p => text_given p | None => None end)
                 [dv_hostname device; dv_cpuModel device; dv_kernel device] in
  match parts with
  | [] => u "—"
  | part :: parts => fold_left (fun joined part => joined ++ u " · " ++ part) parts part
  end.

(** The card of the diagnostics tab; [None] says the host never reported. *)
Definition host_draws (device : option DeviceRow) : option host_card :=
  match device with
  | Some d =>
      match dv_hostReportedAt d with
      | Some _ =>
          Some {| hc_publicIp := dv_publicIp d;
                  hc_cpu := (fun cpu => to_fixed 1 cpu ++ u "%") <$> dv_cpuPercent d;
                  hc_memory := HostMemory (dv_memoryUsedBytes d) (dv_memoryTotalBytes d);
                  hc_disk := HostMemory (dv_diskUsedBytes d) (dv_diskTotalBytes d);
                  hc_network := HostThroughput (dv_netRxBytesPerSec d) (dv_netTxBytesPerSec d);
                  hc_machine := host_machine d |}
      | None => None
      end
  | None => None
  end.
End Host.

(** ** The rows *)

(** [value ? moment : never]: the epoch is never. *)
Definition seen_at (value : option Z) : option Z :=
  match value with Some v => if (v =? 0)%Z then None else Some v | None => None end.

Section Rows.
Context `{ToFixed}.

(** A row of the fleet page's devices. *)
Record device_row := {
  rw_href : jstring;
  rw_name : jstring;
  rw_id : jstring;
  rw_state : jstring;
  rw_version : option jstring;
  rw_queue : queue_cell;
  rw_publicIp : option jstring;
  rw_cpu : option jstring;
  rw_memory : option num;
  rw_lastSeen : option Z;
}.

Definition device_row_draws (device : DeviceRow) : device_row :=
  {| rw_href := u "/devices/" ++ dv_id device;
     rw_name := dv_name device;
     rw_id := dv_id device;
     rw_state := dv_state device;
     rw_version := dv_edgeVersion device;
     rw_queue := queue_draws device;
     rw_publicIp := dv_publicIp device;
     rw_cpu := (fun cpu => to_fixed 1 cpu ++ u "%") <$> dv_cpuPercent device;
     rw_memory := memory_percent (dv_memoryUsedBytes device) (dv_memoryTotalBytes device);
     rw_lastSeen := seen_at (dv_lastSeen device) |}.
End Rows.

(** A row of the fleet page's modules; one never seen is a sentence. *)
Record fleet_cells := {
  fc_iccid : option jstring;
  fc_network : option network_cell;
  fc_state : jstring;
  fc_signal : option Z;
  fc_quality : option (option Z * option Z * option Z);
  fc_smsMt : option jstring;
  fc_smsMo : option jstring;
  fc_uncharacterised : bool;
  fc_lastSeen : option Z;
}.

Inductive drawn_row (cells : Type) :=
  | NeverSeenRow
  | SeenRow (c : cells).
Arguments NeverSeenRow {cells}.
Arguments SeenRow {cells} c.

Definition fleet_row_draws (modem : ModemRow) : (bool * bool) * drawn_row fleet_cells :=
  (modem_badges modem,
   if md_observed modem then
     SeenRow {| fc_iccid := md_iccid modem;
                fc_network := ModemNetwork (md_homePlmn modem) (md_servingPlmn modem);
                fc_state := default (u "unknown") (md_state modem);
                fc_signal := md_signalDbm modem;
                fc_quality := ModemQuality (md_rsrp modem) (md_rsrq modem) (md_sinr modem);
                fc_smsMt := md_smsMt modem;
                fc_smsMo := md_smsMo modem;
                fc_uncharacterised := bool_decide (md_capabilityOrigin modem = Some (u "fallback"));
                fc_lastSeen := seen_at (md_lastSeen modem) |}
   else NeverSeenRow).

(** A row of the overview tab's modules. *)
Record overview_cells := {
  oc_iccid : option jstring;
  oc_network : option network_cell;
  oc_firmware : option jstring;
  oc_msisdn : msisdn_cell;
  oc_port : option jstring;
  oc_usb : option jstring;
  oc_apn : apn_cell;
  oc_matrix : option (jstring * jstring * bool);
  oc_proxies : list (jstring * jstring * Z * bool);
}.

Definition overview_row_draws (proxies : list ProxyInstanceRow) (modem : ModemRow)
    : (bool * bool) * drawn_row overview_cells :=
  (modem_badges modem,
   if md_observed modem then
     SeenRow {| oc_iccid := md_iccid modem;
                oc_network := ModemNetwork (md_homePlmn modem) (md_servingPlmn modem);
                oc_firmware := md_firmware modem;
                oc_msisdn := msisdn_draws modem;
                oc_port := md_controlPort modem;
                oc_usb := md_usbDevice modem;
                oc_apn := ApnContexts (md_apnContexts modem);
                oc_matrix := MatrixKey (md_family modem) (md_carrierProfile modem)
                               (md_capabilityOrigin modem);
                oc_proxies := ProxyBindings proxies modem |}
   else NeverSeenRow).

(** The radio table of the diagnostics tab. *)
Definition radio_row_draws (modem : ModemRow)
    : jstring * option Z * option (option Z * option Z * option Z) :=
  (md_imei modem, md_signalDbm modem, ModemQuality (md_rsrp modem) (md_rsrq modem) (md_sinr modem)).

(** ** The labels of the device console *)

Definition DEVICE_LABEL_KEYS : list (jstring * jstring) :=
  [ (u "modem", u "device.modem"); (u "modemNote", u "device.modemNote");
    (u "noModems", u "device.noModems"); (u "noCommands", u "device.noCommands");
    (u "waiting", u "device.waiting"); (u "failed", u "device.failed"); (u "run", u "device.run");
    (u "send", u "device.send"); (u "cancel", u "device.cancel"); (u "console", u "device.console");
    (u "consoleNote", u "device.consoleNote"); (u "diagTitle", u "device.diagTitle");
    (u "diagNote", u "device.diagNote"); (u "atCommand", u "device.atCommand");
    (u "atNote", u "device.atNote"); (u "atGuarded", u "device.atGuarded");
    (u "atForce", u "device.atForce"); (u "atForceHint", u "device.atForceHint");
    (u "ussdNote", u "device.ussdNote"); (u "ussdCode", u "device.ussdCode");
    (u "ussdSession", u "device.ussdSession"); (u "ussdSessionModem", u "device.ussdSessionModem");
    (u "ussdReply", u "device.ussdReply"); (u "ussdContinue", u "device.ussdContinue");
    (u "ussdExpired", u "device.ussdExpired"); (u "ussdStageComplete", u "device.ussdStageComplete");
    (u "ussdStageNeedsReply", u "device.ussdStageNeedsReply");
    (u "ussdStageTerminated", u "device.ussdStageTerminated");
    (u "ussdStageOtherClient", u "device.ussdStageOtherClient");
    (u "ussdStageNotSupported", u "device.ussdStageNotSupported");
    (u "ussdStageNetworkTimeout", u "device.ussdStageNetworkTimeout");
    (u "ussdStageOther", u "device.ussdStageOther"); (u "selectOperator", u "device.selectOperator");
    (u "networkTitle", u "device.networkTitle"); (u "networkNote", u "device.networkNote");
    (u "pin", u "device.pin"); (u "automatic", u "device.automatic"); (u "radioOn", u "device.radioOn");
    (u "dataOn", u "device.dataOn"); (u "danger", u "device.danger");
    (u "dangerNote", u "device.dangerNote"); (u "recovery", u "device.recovery");
    (u "recoveryNote", u "device.recoveryNote"); (u "logTitle", u "device.logTitle");
    (u "logNote", u "device.logNote"); (u "usbnetMode", u "device.usbnetMode");
    (u "usbnetWarning", u "device.usbnetWarning"); (u "apnContext", u "device.apnContext");
    (u "apn", u "device.apn"); (u "apnPdpType", u "device.apnPdpType");
    (u "apnUsername", u "device.apnUsername"); (u "apnAuth", u "device.apnAuth");
    (u "apnPassword", u "device.apnPassword"); (u "apnPasswordKeep", u "device.apnPasswordKeep");
    (u "apnClearPassword", u "device.apnClearPassword"); (u "apnKeep", u "device.apnKeep");
    (u "apnHint", u "device.apnHint"); (u "agentLog", u "device.agentLog");
    (u "agentLogNote", u "device.agentLogNote"); (u "agentLogFilter", u "device.agentLogFilter");
    (u "agentLogFilterHint", u "device.agentLogFilterHint"); (u "agentLogRead", u "device.agentLogRead");
    (u "agentLogNone", u "device.agentLogNone"); (u "agentLogEmpty", u "device.agentLogEmpty");
    (u "candidates", u "device.candidates"); (u "candidatesNote", u "device.candidatesNote");
    (u "candidatesNone", u "device.candidatesNone"); (u "candidatesHint", u "device.candidatesHint");
    (u "candidateAdopt", u "device.candidateAdopt"); (u "candidateClaim", u "device.candidateClaim");
    (u "candidateRevoke", u "device.candidateRevoke");
    (u "candidateClaimed", u "device.candidateClaimed"); (u "adoptionTitle", u "device.adoptionTitle");
    (u "adoptionNote", u "device.adoptionNote"); (u "adoptionSave", u "device.adoptionSave");
    (u "adoptionNone", u "device.adoptionNone");
    (u "adoptionPlaceholder", u "device.adoptionPlaceholder"); (u "createTitle", u "device.createTitle");
    (u "createNote", u "device.createNote"); (u "createImei", u "device.createImei");
    (u "createFamily", u "device.createFamily"); (u "createSubmit", u "device.createSubmit");
    (u "createUngated", u "device.createUngated"); (u "modem_report", u "cmd.modem_report");
    (u "list_esim_profiles", u "cmd.list_esim_profiles"); (u "restart_modem", u "cmd.restart_modem");
    (u "reset_modem_usb", u "cmd.reset_modem_usb"); (u "scan_operators", u "cmd.scan_operators");
    (u "rotate_ip", u "cmd.rotate_ip"); (u "set_radio", u "cmd.set_radio");
    (u "unregister_modem", u "cmd.unregister_modem"); (u "reconfirm_modem", u "device.reconfirm_modem");
    (u "update_modem", u "cmd.update_modem"); (u "create_modem", u "cmd.create_modem");
    (u "set_data_network", u "cmd.set_data_network");
    (u "reregister_network", u "cmd.reregister_network"); (u "refresh_modems", u "cmd.refresh_modems");
    (u "run_at_command", u "cmd.run_at_command"); (u "send_ussd", u "cmd.send_ussd");
    (u "select_operator", u "cmd.select_operator"); (u "send_sms", u "cmd.send_sms");
    (u "switch_esim_profile", u "cmd.switch_esim_profile");
    (u "set_usbnet_mode", u "cmd.set_usbnet_mode") ].

(** [Object.fromEntries(names.map((key) => [key, t(..)]))]. *)
Definition deviceLabels (inherited_text : jstring -> jstring)
    (catalogs : Locale -> list (jstring * jstring)) (locale : Locale) : list (jstring * jstring) :=
  (fun entry => (entry.1, t inherited_text catalogs entry.2 locale None)) <$> DEVICE_LABEL_KEYS.

(** ** The two module tables *)

Section Tables.
Context `{CaseMapping} `{NumberText} `{Collation}.

Lemma fleet_order_pick sort_by : fleet_order sort_by = pickSort sort_by MODEM_SORTS (u "imei").
Proof.
  destruct sort_by as [s|]; [|done]. cbn -[u]. rewrite orb_false_r.
  destruct (jeqb s (u "imei")) eqn:E; cbn [orb]; [|done]. apply jeqb_eq in E. by subst s.
Qed.

Lemma reading_desc (missing : num) (a b : option Z) (x y : Z) :
  reading_or missing a = Fin x -> reading_or missing b = Fin y ->
  minus_sign (reading_or missing b) (reading_or missing a) = (y - x)%Z.
Proof. by intros -> ->. Qed.

(** The two comparators have the same sign on rows seen after the epoch. *)
Lemma modem_order_sign order a b :
  (forall x, md_lastSeen a = Some x -> (0 < x)%Z) -> (forall x, md_lastSeen b = Some x -> (0 < x)%Z) ->
  Z.sgn (modem_order order a b) = Z.sgn (overview_order order a b).
Proof.
  intros Ha Hb. unfold modem_order, overview_order, when, cmp_on, alphabetical.
  cbn [by_]. destruct (jeqb order (u "signal")) eqn:E1.
  - apply jeqb_eq in E1. subst order. change (jeqb (u "signal") (u "seen")) with false. cbn [andb].
    unfold reading_or. destruct (md_signalDbm a) as [x|], (md_signalDbm b) as [y|]; cbn [biggestFirst].
    + destruct (bool_decide_reflect (Fin x = Fin y)) as [[= ->]|Hn]; cbn [negb].
      * rewrite Z.sub_diag. cbn. by destruct (_ =? 0)%Z eqn:Ez; [apply Z.eqb_eq in Ez; rewrite Ez|].
      * cbn [minus_sign]. destruct (Z.eqb_spec (y - x) 0); [|done]. destruct Hn. f_equal. lia.
    + by rewrite bool_decide_eq_false_2.
    + by rewrite bool_decide_eq_false_2.
    + rewrite bool_decide_eq_true_2 by done. cbn.
      by destruct (_ =? 0)%Z eqn:Ez; [apply Z.eqb_eq in Ez; rewrite Ez|].
  - cbn [andb Z.eqb]. destruct (jeqb order (u "seen")); cbn [andb].
    + unfold reading_or. destruct (md_lastSeen a) as [x|], (md_lastSeen b) as [y|]; cbn [biggestFirst].
      * destruct (bool_decide_reflect (Fin x = Fin y)) as [[= ->]|Hn]; cbn [negb].
        -- rewrite Z.sub_diag. cbn. by destruct (_ =? 0)%Z eqn:Ez; [apply Z.eqb_eq in Ez; rewrite Ez|].
        -- cbn [minus_sign]. destruct (Z.eqb_spec (y - x) 0); [|done]. destruct Hn. f_equal. lia.
      * specialize (Ha x eq_refl). rewrite bool_decide_eq_false_2 by (intros [= ->]; lia). cbn. lia.
      * specialize (Hb y eq_refl). rewrite bool_decide_eq_false_2 by (intros [= <-]; lia). cbn. lia.
      * rewrite bool_decide_eq_true_2 by done. cbn.
        by destruct (_ =? 0)%Z eqn:Ez; [apply Z.eqb_eq in Ez; rewrite Ez|].
    + cbn. by destruct (_ =? 0)%Z eqn:Ez; [apply Z.eqb_eq in Ez; rewrite Ez|].
Qed.

(** Two pages, one order.  The fleet page and the page of a device sort
    with code of their own; with no search, the modules of a device stand on
    its page in the order the fleet page lists them, whatever order is asked
    for, in the address bar or not at all. *)
Theorem fleet_and_device_agree sort_by tab modems deviceId :
  (forall m x, m ∈ modems -> md_lastSeen m = Some x -> (0 < x)%Z) ->
  let own := List.filter (fun row => jeqb (md_deviceId row) deviceId) in
  own (fleet_shown None sort_by modems)
  = overview_shown (device_query tab None sort_by) (own modems).
Proof.
  intros Hpos own. unfold fleet_shown, overview_shown, device_query. cbn [pq_order pq_needle].
  rewrite needleOf_none, shown_rows_blank, <-fleet_order_pick. unfold orderModems, matchingModems.
  change (jeqb [] []) with true. cbv iota. unfold own. rewrite <-filter_sort by apply _. f_equal.
  apply sort_ext. intros a b Ha Hb. apply modem_order_sign; intros x; by apply Hpos.
Qed.

(** Where the fleet page departs from its comment ("A missing reading sorts
    last rather than as zero"): the last seen moment of a module never seen
    sorts as zero, ahead of one seen before the epoch, which the device page
    puts behind it. *)
Theorem never_seen_sorts_as_zero tab a b x :
  md_lastSeen a = Some x -> (x < 0)%Z -> md_lastSeen b = None ->
  fleet_shown None (Some (u "seen")) [a; b] = [b; a]
  /\ overview_shown (device_query tab None (Some (u "seen"))) [a; b] = [a; b].
Proof.
  intros Ha Hx Hb. unfold fleet_shown, overview_shown, device_query. cbn [pq_order pq_needle].
  rewrite needleOf_none, shown_rows_blank. unfold orderModems, matchingModems.
  change (jeqb [] []) with true. cbv iota.
  change (fleet_order (Some (u "seen"))) with (u "seen").
  change (pickSort (Some (u "seen")) MODEM_SORTS (u "imei")) with (u "seen").
  assert (Hf : modem_order (u "seen") a b = (- x)%Z).
  { unfold modem_order. change (jeqb (u "seen") (u "signal")) with false.
    change (jeqb (u "seen") (u "seen")) with true. rewrite Ha, Hb. cbn [andb reading_or].
    rewrite bool_decide_eq_false_2 by (intros [= ->]; lia). cbn. lia. }
  assert (Ho : overview_order (u "seen") a b = (-1)%Z).
  { unfold overview_order, when, cmp_on. change (jeqb (u "seen") (u "signal")) with false.
    change (jeqb (u "seen") (u "seen")) with true. cbn [by_]. by rewrite Ha, Hb. }
  cbn -[modem_order overview_order u]. rewrite Hf, Ho. by destruct (Z.leb_spec (- x) 0); [lia|].
Qed.
End Tables.

Definition sample_fleet : list ModemRow :=
  filter_map parseModem
    [VObj [(u "id", VStr (u "m1")); (u "imei", VStr (u "861")); (u "device_id", VStr (u "d1"));
           (u "last_seen", VNum (Fin (int 5)))];
     VObj [(u "id", VStr (u "m2")); (u "imei", VStr (u "862")); (u "device_id", VStr (u "d2"));
           (u "last_seen", VNum (Fin (int 9)))];
     VObj [(u "id", VStr (u "m3")); (u "imei", VStr (u "863")); (u "device_id", VStr (u "d1"));
           (u "last_seen", VNum (Fin (int 9)))]].

Lemma fleet_and_device_agree_witness :
  let table := @fleet_shown lower_reference collation_reference None (Some (u "seen")) sample_fleet in
  let tab := @overview_shown lower_reference {| number_text _ := [] |} collation_reference
    (@device_query lower_reference ParamAbsent None (Some (u "seen")))
    (List.filter (fun row => jeqb (md_deviceId row) (u "d1")) sample_fleet) in
  List.filter (fun row => jeqb (md_deviceId row) (u "d1")) table = tab /\ length tab = 2.
Proof.
  intros table tab. split; [|by vm_compute].
  apply (@fleet_and_device_agree lower_reference {| number_text _ := [] |} collation_reference
           (Some (u "seen")) ParamAbsent sample_fleet (u "d1")).
  assert (Hall : md_lastSeen <$> sample_fleet = [Some (int 5); Some (int 9); Some (int 9)]) by (by vm_compute).
  intros m x Hm Hx. assert (Hin : Some x ∈ md_lastSeen <$> sample_fleet) by (rewrite <-Hx; by apply list_elem_of_fmap_2).
  rewrite Hall in Hin. pose proof (int_lt 0 5). pose proof (int_lt 0 9). change (int 0) with 0%Z in *.
  rewrite !elem_of_cons in Hin. destruct Hin as [E|[E|[E|E]]]; [injection E as ->; lia..|by apply not_elem_of_nil in E].
Defined.

(** ** What a tab is handed *)

(** Whether the panel offers its writes; the overview has none. *)
Definition panel_writes (p : device_panel) : bool :=
  match p with
  | OverviewTab _ _ _ _ _ => false
  | DiagnosticsTab writable _ _ | ConsoleTab writable _ _ _ | EsimTab writable _ _ => writable
  end.

Section Tabs.
Context `{Platform}.
Variable env : environment.
Variable fetchImpl : fetch_fn.
Variables (host : jstring) (token : option jstring) (deviceId : jstring).

Lemma device_reads :
  let page := DevicePage_read env fetchImpl host token deviceId in
  if dr_loadError page
  then dr_devices page = [] /\ dr_modems page = [] /\ dr_esim page = [] /\ dr_proxies page = []
       /\ dr_uptime page = [] /\ dr_candidates page = []
  else fetchDevices env fetchImpl host token = Ok (dr_devices page)
       /\ fetchModems env fetchImpl host token = Ok (dr_modems page)
       /\ fetchEsimProfiles env fetchImpl host token (Some deviceId) = Ok (dr_esim page)
       /\ fetchProxyInstances env fetchImpl host token = Ok (dr_proxies page)
       /\ fetchDeviceUptime env fetchImpl host token deviceId 168 = Ok (dr_uptime page)
       /\ fetchCandidates env fetchImpl host token = Ok (dr_candidates page).
Proof. unfold DevicePage_read. repeat case_match; done. Qed.

(** Of the rows the gateway answered with, this device's, none of them missing. *)
Definition own_rows {A} (key : A -> jstring) (answer : res (list A)) (shown : list A) : Prop :=
  exists rows, answer = Ok rows /\ forall row, row ∈ shown <-> row ∈ rows /\ key row = deviceId.
Definition own_device (device : option DeviceRow) : Prop :=
  exists rows, fetchDevices env fetchImpl host token = Ok rows
  /\ match device with
     | Some d => d ∈ rows /\ dv_id d = deviceId
     | None => forall d, d ∈ rows -> dv_id d <> deviceId
     end.

(** What a panel is handed after reads that all succeeded. *)
Definition panel_own (panel : device_panel) : Prop :=
  let modules := own_rows md_deviceId (fetchModems env fetchImpl host token) in
  match panel with
  | OverviewTab device modems proxies uptime _ =>
      own_device device /\ modules modems
      /\ own_rows pi_deviceId (fetchProxyInstances env fetchImpl host token) proxies
      /\ fetchDeviceUptime env fetchImpl host token deviceId 168 = Ok uptime
  | DiagnosticsTab _ device modems => own_device device /\ modules modems
  | ConsoleTab _ device modems candidates =>
      own_device device /\ modules modems
      /\ own_rows ca_deviceId (fetchCandidates env fetchImpl host token) candidates
  | EsimTab _ profiles imeis =>
      fetchEsimProfiles env fetchImpl host token (Some deviceId) = Ok profiles
      /\ exists modems, modules modems /\ imeis = md_imei <$> modems
  end.

(** And after one that failed. *)
Definition panel_bare (panel : device_panel) : Prop :=
  match panel with
  | OverviewTab device modems proxies uptime _ => device = None /\ modems = [] /\ proxies = [] /\ uptime = []
  | DiagnosticsTab _ device modems => device = None /\ modems = []
  | ConsoleTab _ device modems candidates => device = None /\ modems = [] /\ candidates = []
  | EsimTab _ profiles imeis => profiles = [] /\ imeis = []
  end.

Lemma own_filter {A} (key : A -> jstring) answer rows :
  answer = Ok rows -> own_rows key answer (List.filter (fun row => jeqb (key row) deviceId) rows).
Proof. intros ->. exists rows. split; [done|]. intros row. by rewrite elem_of_filter_bool, jeqb_eq. Qed.

(** C24. A device's page is about that device.  Whatever tab is open and
    whatever the gateway answers: when every read succeeded, a panel is handed
    exactly the rows of its own device among those the gateway listed, modules,
    listeners and candidates, none missing and no other; the device asked for,
    when the gateway lists it; and the week and the profiles the gateway was
    asked for under its id.  When any read failed it is handed none of them,
    and the name to type back for a removal is the id.  Every panel but the
    overview, which has no controls, offers its writes exactly to an account
    that may write. *)
Theorem device_page_own query tab :
  let page := DevicePage_read env fetchImpl host token deviceId in
  let panel := panelFor page deviceId query tab in
  (dr_loadError page = false -> panel_own panel)
  /\ (dr_loadError page = true ->
        panel_bare panel /\ admin_name deviceId (page_device page deviceId) = deviceId)
  /\ panel_writes panel
     = (negb (bool_decide (tab = overview)) && mayWrite (fetchConsoleRole env fetchImpl host token)).
Proof.
  intros page panel. pose proof device_reads as Hread. cbv zeta in Hread. fold page in Hread.
  assert (Hw : dr_writable page = mayWrite (fetchConsoleRole env fetchImpl host token)).
  { unfold page, DevicePage_read. by repeat case_match. }
  subst panel. split_and!.
  - intros Hl. rewrite Hl in Hread. destruct Hread as (Hd & Hm & He & Hp & Hu & Hc).
    assert (Hmods : own_rows md_deviceId (fetchModems env fetchImpl host token) (own_modems page deviceId))
      by (by apply own_filter).
    assert (Hdev : own_device (page_device page deviceId)).
    { exists (dr_devices page). split; [done|]. unfold page_device. destruct (List.find _ _) as [d|] eqn:Ef.
      - apply List.find_some in Ef as [Hin%list_elem_of_In E%jeqb_eq]. done.
      - intros d Hin%list_elem_of_In E. pose proof (List.find_none _ _ Ef d Hin) as Hn. cbn in Hn.
        by rewrite E, jeqb_refl in Hn. }
    destruct tab; cbn [panelFor panel_own]; split_and!; try done; try (by apply own_filter). by eexists.
  - intros Hl. rewrite Hl in Hread. destruct Hread as (Hd & Hm & He & Hp & Hu & Hc).
    assert (Hn : page_device page deviceId = None) by (unfold page_device; by rewrite Hd).
    assert (Ho : own_modems page deviceId = []) by (unfold own_modems; by rewrite Hm).
    split; [|by rewrite Hn]. destruct tab; cbn [panelFor panel_bare]; by rewrite ?Hn, ?Ho, ?Hp, ?Hc, ?He, ?Hu.
  - rewrite <-Hw. by destruct tab.
Qed.
End Tabs.

(** The fleet page and its five reads.  Devices, modules, card policies
    and alerts stand or fall together, and a failure says so and draws none
    of the four; the certificates and the outstanding codes are shown
    whatever becomes of them, and a list of codes that cannot be read counts
    none; the cards a policy may be added for are those some module reports. *)
Theorem fleet_page_stands `{Platform} env fetchImpl host token now :
  let page := DevicesPage_read env fetchImpl host token now in
  (fr_loadError page = false ->
     fetchDevices env fetchImpl host token = Ok (fr_devices page)
     /\ fetchModems env fetchImpl host token = Ok (fr_modems page)
     /\ fetchCardPolicies env fetchImpl host token = Ok (fr_policies page)
     /\ fetchAlerts env fetchImpl host token None 20 = Ok (fr_alerts page))
  /\ (fr_loadError page = true ->
     fr_devices page = [] /\ fr_modems page = [] /\ fr_policies page = [] /\ fr_alerts page = []
     /\ ((exists e, fetchDevices env fetchImpl host token = Throw e)
       \/ (exists e, fetchModems env fetchImpl host token = Throw e)
       \/ (exists e, fetchCardPolicies env fetchImpl host token = Throw e)
       \/ exists e, fetchAlerts env fetchImpl host token None 20 = Throw e))
  /\ (forall rows, fetchCertificates env fetchImpl host token = Ok rows -> fr_certificates page = rows)
  /\ (forall codes, fetchEnrollmentCodes env fetchImpl host token = Ok codes ->
       fr_outstanding page = length (List.filter (code_live now) codes))
  /\ ((forall codes, fetchEnrollmentCodes env fetchImpl host token <> Ok codes) -> fr_outstanding page = 0)
  /\ (forall iccid, iccid ∈ (knownCards (fr_modems page)).*1
       <-> iccid <> [] /\ exists m, m ∈ fr_modems page /\ md_iccid m = Some iccid).
Proof.
  intros page. split_and!.
  1,2: unfold page, DevicesPage_read;
    destruct (fetchDevices _ _ _ _), (fetchModems _ _ _ _), (fetchCardPolicies _ _ _ _), (fetchAlerts _ _ _ _ _ _);
    try done; intros _; split_and!; eauto.
  - intros rows E. unfold page, DevicesPage_read. rewrite E. by repeat case_match.
  - intros codes E. unfold page, DevicesPage_read. rewrite E. by repeat case_match.
  - intros Hn. unfold page, DevicesPage_read. destruct (fetchEnrollmentCodes _ _ _ _) as [codes|e]; [|by repeat case_match].
    by destruct (Hn codes).
  - intros iccid. unfold knownCards. rewrite list_elem_of_fmap. setoid_rewrite list_elem_of_omap. split.
    + intros ([i label] & -> & m & Hm & E). destruct (md_iccid m) as [c|] eqn:Ec; [|done].
      destruct (jeqb c []) eqn:En; [done|]. apply jeqb_neq in En. injection E as <- _. split; [done|by exists m].
    + intros (Hn & m & Hm & E). exists (iccid, iccid ++ u " — " ++ md_imei m). split; [done|]. exists m.
      split; [done|]. rewrite E. by apply jeqb_neq in Hn as ->.
Qed.

(** ** The cells *)

Lemma uptime_block i : i < 8 -> UPTIME_BLOCKS !! i = Some [(0x2581 + N.of_nat i)%N].
Proof. intros Hi. do 8 (destruct i as [|i]; [done|]). lia. Qed.

Lemma uptime_step_range minutes :
  uptime_step minutes < 8
  /\ (uptime_step minutes = 0 <-> (minutes <= 0)%Z)
  /\ ((0 < minutes <= int 60)%Z ->
      ((Z.of_nat (uptime_step minutes) - 1) * int 60 < minutes * 7 <= Z.of_nat (uptime_step minutes) * int 60)%Z)
  /\ ((int 60 <= minutes)%Z -> uptime_step minutes = 7).
Proof.
  unfold uptime_step. pose proof (int_lt 0 60) as Hp. change (int 0) with 0%Z in Hp.
  assert (H60 : (0 < int 60)%Z) by lia. clear Hp. set (h := int 60) in *.
  set (share := Z.max 0 (Z.min h minutes)). destruct (Z.eqb_spec share 0) as [E|E].
  - split_and!; lia.
  - assert (Hs : (0 < share <= h)%Z) by lia.
    pose proof (Z.div_mod (share * 7 + h - 1) h ltac:(lia)) as Hd.
    pose proof (Z.mod_pos_bound (share * 7 + h - 1) h H60) as Hm.
    set (q := ((share * 7 + h - 1) / h)%Z) in *. assert (Hq : (1 <= q <= 7)%Z) by nia.
    split_and!; [lia|lia|intros; rewrite Z2Nat.id by lia; assert (share = minutes) by lia; nia|].
    intros Hge. assert (share = h) by lia. assert (q = 7)%Z by nia. lia.
Qed.

(** The uptime line.  One block per row, the oldest on the left; an hour
    is the lowest block exactly when nothing was seen in it, the highest when
    all of it was, and otherwise the least eighth that covers its share. *)
Theorem uptimeSparkline_reads rows :
  length (uptimeSparkline rows) = length rows
  /\ forall i row, rows !! i = Some row ->
     exists step, uptimeSparkline rows !! (length rows - S i) = Some (0x2581 + N.of_nat step)%N
       /\ step < 8
       /\ (step = 0 <-> (uh_minutesOnline row <= 0)%Z)
       /\ ((int 60 <= uh_minutesOnline row)%Z -> step = 7)
       /\ ((0 < uh_minutesOnline row <= int 60)%Z ->
           ((Z.of_nat step - 1) * int 60 < uh_minutesOnline row * 7 <= Z.of_nat step * int 60)%Z).
Proof.
  assert (Hs : uptimeSparkline rows = (fun row => (0x2581 + N.of_nat (uptime_step (uh_minutesOnline row)))%N) <$> rev rows).
  { unfold uptimeSparkline. induction (rev rows) as [|row l IH]; [done|]. rewrite !fmap_cons. cbn [concat].
    rewrite IH, uptime_block by apply uptime_step_range. done. }
  rewrite Hs. split; [by rewrite length_fmap, length_rev|]. intros i row Hi.
  exists (uptime_step (uh_minutesOnline row)).
  destruct (uptime_step_range (uh_minutesOnline row)) as (Ha & Hb & Hc & Hd). split_and!; try done; [|apply Hb..].
  pose proof (lookup_lt_Some _ _ _ Hi). rewrite list_lookup_fmap, List.rev_alt.
  change (rev_append rows []) with (reverse rows). rewrite reverse_lookup by lia.
  replace (length rows - S (length rows - S i)) with i by lia. by rewrite Hi.
Qed.

(** A module is one module on both pages, and a missing reading is not a
    reading.  The two tables mark the same modules as never seen and as out
    of reach, and show one network for each; the module's apn table is drawn
    as unread, as empty or as the lines the module reported, one per context;
    its number as unread only after a card change; and every listener a
    module's row names is bound to that module. *)
Theorem module_rows_agree modem proxies :
  let fleet := fleet_row_draws modem in
  let detail := overview_row_draws proxies modem in
  fleet.1 = detail.1
  /\ (fleet.2 = NeverSeenRow <-> md_observed modem = false)
  /\ (detail.2 = NeverSeenRow <-> md_observed modem = false)
  /\ forall f d, fleet.2 = SeenRow f -> detail.2 = SeenRow d ->
       fc_network f = oc_network d
       /\ (oc_apn d = ApnUnread <-> md_apnContexts modem = None)
       /\ (oc_apn d = ApnNone <-> md_apnContexts modem = Some [])
       /\ (forall lines, oc_apn d = ApnTable lines ->
            an_context <$> lines = ap_cid <$> default [] (md_apnContexts modem))
       /\ (oc_msisdn d = MsisdnPending <-> md_msisdn modem = None /\ md_msisdnPending modem = true)
       /\ (fc_quality f = None <-> md_rsrp modem = None /\ md_rsrq modem = None /\ md_sinr modem = None)
       /\ length (oc_proxies d)
          = length (List.filter (fun row => jeqb (pi_modemImei row) (md_imei modem)) proxies).
Proof.
  intros fleet detail. unfold fleet, detail, fleet_row_draws, overview_row_draws. cbn [fst snd].
  destruct (md_observed modem); split_and!; try done.
  intros f d [= <-] [= <-]. cbn -[fmap]. split_and!; try done.
  - destruct (md_apnContexts modem) as [[|]|]; done.
  - destruct (md_apnContexts modem) as [[|]|]; done.
  - destruct (md_apnContexts modem) as [[|c l]|]; try done. intros lines [= <-].
    change (an_context <$> (apn_draws <$> (c :: l)) = ap_cid <$> (c :: l)). by rewrite <-list_fmap_compose.
  - unfold msisdn_draws. destruct (md_msisdn modem), (md_msisdnPending modem); split; try done; by intros [? ?].
  - unfold ModemQuality. destruct (md_rsrp modem), (md_rsrq modem), (md_sinr modem); split; try done;
      by intros (? & ? & ?).
  - unfold ProxyBindings. by rewrite length_fmap.
Qed.

(** Where the uptime card departs from its comment ("an hour with no row is
    drawn as a gap"): the line does not look at which hour a row is of, so a
    device with hours missing draws what an unbroken one draws, and the ratio
    beside it is of the hours recorded. *)
Theorem uptime_gaps_not_drawn rows rows' :
  uh_minutesOnline <$> rows = uh_minutesOnline <$> rows' -> UptimeCard rows = UptimeCard rows'.
Proof.
  intros E. assert (Hlen : length rows = length rows').
  { apply (f_equal length) in E. by rewrite !length_fmap in E. }
  assert (Hline : uptimeSparkline rows = uptimeSparkline rows').
  { assert (Hof : forall l, uptimeSparkline l =
      concat ((fun m => default [] (UPTIME_BLOCKS !! uptime_step m)) <$> reverse (uh_minutesOnline <$> l))).
    { intros l. unfold uptimeSparkline. by rewrite List.rev_alt, <-fmap_reverse, <-list_fmap_compose. }
    by rewrite !Hof, E. }
  assert (Htotal : total_minutes rows = total_minutes rows').
  { clear Hline Hlen. revert rows' E. induction rows as [|r rows IH]; intros [|r' rows'] E; try done.
    rewrite !fmap_cons in E. injection E as Er El. rewrite !total_minutes_cons, Er. by rewrite (IH rows'). }
  unfold UptimeCard, uptimeRatio. by rewrite Hlen, Hline, Htotal.
Qed.

(** C40. Memory as a share.  The cell is a dash exactly for a reading that is
    missing or a total of nothing; for a host that uses no more than it has it
    is a whole number between 0 and 100, within half a percent of the truth but
    for what the two roundings of the doubles add, 2^-45 of a percent at
    most; and they do add something: 57 of 200 is 28.5 percent and reads
    as 28. *)
Theorem memory_percent_reads used total :
  (memory_percent used total = None <-> used = None \/ total = None \/ total = Some 0%Z)
  /\ (forall a b, used = Some a -> total = Some b -> (0 <= a <= b)%Z -> (0 < b)%Z ->
        exists p, memory_percent used total = Some (Fin (int p)) /\ (0 <= p <= 100)%Z
          /\ (2 ^ 45 * Z.abs (100 * a - p * b) <= (2 ^ 44 + 1) * b)%Z)
  /\ memory_percent (Some (int 57)) (Some (int 200)) = Some (Fin (int 28)).
Proof.
  unfold memory_percent. split_and!; [| |by vm_compute].
  - destruct used as [a|], total as [b|]; try naive_solver.
    destruct (Z.eqb_spec b 0) as [->|Hb]; [naive_solver|]. split; [done|]. intros [?|[?|E]]; try done.
    by injection E.
  - intros a b -> -> Ha Hb. destruct (Z.eqb_spec b 0); [lia|].
    destruct (percent_near a b Ha Hb) as (p & -> & ?). by exists p.
Qed.

(** A module's network cell.  It is a dash exactly for a module of
    neither network; it names the card's home network whenever that is known
    and the serving one otherwise; and the roaming mark is drawn exactly
    when both are known and are not one operator, naming the network the
    module is on. *)
Theorem network_cell_reads home serving :
  (forall s, home = Some s -> s <> []) -> (forall s, serving = Some s -> s <> []) ->
  match ModemNetwork home serving with
  | None => home = None /\ serving = None
  | Some cell =>
      (exists identity, (home = Some identity \/ home = None /\ serving = Some identity)
         /\ nc_operator cell = operatorName identity /\ nc_territory cell = territoryName identity)
      /\ (forall flag name, nc_roaming cell = Some (flag, name) <->
            exists h s, home = Some h /\ serving = Some s /\ operatorName h <> operatorName s
              /\ flag = territoryFlag s /\ name = operatorName s)
  end.
Proof.
  intros Hh Hs. unfold ModemNetwork.
  assert (Hg : forall o, (forall s, o = Some s -> s <> []) -> given o = bool_decide (is_Some o)).
  { intros [s|] Ho; [|done]. cbn. destruct (jeqb s []) eqn:E; [|done].
    apply jeqb_eq in E. by destruct (Ho s). }
  rewrite !Hg by done. destruct home as [h|], serving as [s|]; cbn; [..|done].
  - split; [by exists h; split; [left|]|]. intros flag name. unfold isRoaming. case_bool_decide as E; cbn.
    + split; [done|]. intros (h' & s' & [= <-] & [= <-] & Hn & _). done.
    + split; [intros [= <- <-]; by exists h, s|]. by intros (h' & s' & [= <-] & [= <-] & _ & -> & ->).
  - split; [by exists h; split; [left|]|]. intros. split; [done|]. by intros (? & ? & _ & ? & _).
  - split; [by exists s; split; [right|]|]. intros. split; [done|]. by intros (? & ? & ? & _).
Qed.

Lemma network_cell_reads_witness :
  exists cell, ModemNetwork (Some (u "460-15")) (Some (u "460-00")) = Some cell
    /\ nc_roaming cell = Some (Some (flagOf (u "CN")), Named (u "中国移动")).
Proof.
  assert (Hn : forall s k, Some (u k) = Some s -> u k <> [] -> s <> []) by (intros s k E; by injection E as <-).
  pose proof (network_cell_reads (Some (u "460-15")) (Some (u "460-00"))
    (fun s E => Hn s "460-15" E ltac:(by vm_compute)) (fun s E => Hn s "460-00" E ltac:(by vm_compute))) as Hc.
  destruct (ModemNetwork (Some (u "460-15")) (Some (u "460-00"))) as [cell|]; [|by destruct Hc].
  exists cell. split; [done|]. destruct Hc as [_ Hr]. apply Hr.
  exists (u "460-15"), (u "460-00"). split_and!; try done; by vm_compute.
Defined.

(** ** The labels *)

(** What the device console calls a command.  Every name of the label
    set reads as its own entry of the catalogue, in either language; and a
    name outside it, a guarded command included, is drawn as the identifier
    the gateway uses. *)
Theorem device_labels_read inherited_text catalogs locale :
  Forall (fun entry => commandLabel inherited_text (deviceLabels inherited_text catalogs locale) entry.1
                       = t inherited_text catalogs entry.2 locale None) DEVICE_LABEL_KEYS
  /\ Forall (fun kind => commandLabel inherited_text (deviceLabels inherited_text catalogs locale) kind = kind
                         /\ is_some (field kind DEVICE_COMMAND_GUARDS) = true)
       [u "claim_modem_candidate"; u "revoke_modem_candidate"; u "configure_apn"].
Proof.
  split.
  - unfold commandLabel, deviceLabels, table_read.
    assert (Hr : forall (l : list (jstring * jstring)) k,
      field k ((fun entry => (entry.1, t inherited_text catalogs entry.2 locale None)) <$> l)
      = (fun key => t inherited_text catalogs key locale None) <$> field k l).
    { intros l k. induction l as [|[a b] l IH]; [done|]. rewrite fmap_cons. cbn [field].
      cbn [fst snd]. rewrite IH. by case_match. }
    assert (Hk : forallb (fun e => match field e.1 DEVICE_LABEL_KEYS with
                                    | Some key => jeqb key e.2 | None => false end) DEVICE_LABEL_KEYS = true)
      by (vm_compute; reflexivity).
    apply Forall_forall. intros e He. rewrite List.forallb_forall in Hk.
    apply list_elem_of_In, Hk in He. rewrite Hr. destruct (field e.1 DEVICE_LABEL_KEYS) as [key|]; [|done].
    apply jeqb_eq in He. by subst key.
  - repeat (apply Forall_cons; split; [split; vm_compute; reflexivity|]). constructor.
Qed.
