(* ===== verification/ProxyPage.v ===== *)
(** * The proxy page (app/proxy/page.tsx; components/proxy-manager.tsx: the
      cells of its tables, the pickers, ProbeCell)

    What the page reads, the labels it resolves for the client component, and
    what a row of each of its tables is drawn as. *)

From Stdlib Require Import Lia.
From S2P Require Import Prelude JsString JsValue JsMap JsSort Fetch Session Gateway Devices Messages Network TableQuery I18n Settings Component ProxyManager ProxyExport ListPages.

(** ** The reads *)

Record proxy_read := {
  pg_upstreams : list UpstreamRow;
  pg_instances : list ProxyInstanceRow;
  pg_devices : list DeviceRow;
  pg_traffic : list TrafficPoint;
  pg_countryRules : list CountryRuleRow;
  pg_loadError : bool;
  pg_canExport : bool;
}.

(** The five reads of the [Promise.all] stand or fall together; the role is
    asked for on its own. *)
Definition ProxyPage_read (env : environment) (fetchImpl : fetch_fn) (host : jstring) (token : option jstring)
    : proxy_read :=
  let canExport := mayWrite (fetchConsoleRole env fetchImpl host token) in
  match fetchUpstreams env fetchImpl host token, fetchProxyInstances env fetchImpl host token,
        fetchDevices env fetchImpl host token, fetchTraffic env fetchImpl host token,
        fetchCountryRules env fetchImpl host token with
  | Ok upstreams, Ok instances, Ok devices, Ok traffic, Ok countryRules =>
      {| pg_upstreams := upstreams; pg_instances := instances; pg_devices := devices;
         pg_traffic := traffic; pg_countryRules := countryRules; pg_loadError := false;
         pg_canExport := canExport |}
  | _, _, _, _, _ =>
      {| pg_upstreams := []; pg_instances := []; pg_devices := []; pg_traffic := [];
         pg_countryRules := []; pg_loadError := true; pg_canExport := canExport |}
  end.

(** What the page hands to [ProxyManager]. *)
Definition manager_props (page : proxy_read) : proxy_props :=
  {| px_upstreams := pg_upstreams page; px_instances := pg_instances page;
     px_countryRules := pg_countryRules page;
     px_devices := (fun device => (dv_id device, dv_name device)) <$> pg_devices page |}.

(** ** The labels *)

Definition PROXY_LABEL_KEYS : list jstring :=
  [ u "colActions"; u "upstreams"; u "instances"; u "noUpstreams"; u "noInstances"; u "colName";
    u "colAddress"; u "colProbe"; u "colListen"; u "colModem"; u "colUpstream"; u "add"; u "remove";
    u "start"; u "stop"; u "restart"; u "direct"; u "device"; u "port"; u "username"; u "password";
    u "probeFrom"; u "neverProbed"; u "failed"; u "confirmRemoveUpstreamTitle"; u "confirmRemoveUpstream";
    u "confirmRemoveInstanceTitle"; u "confirmRemoveInstance"; u "confirmRemoveRuleTitle";
    u "confirmRemoveRule"; u "confirmStopTitle"; u "confirmStop"; u "confirmRestartTitle";
    u "confirmRestart"; u "countryRules"; u "noCountryRules"; u "colCountry"; u "export"; u "exportNote";
    u "exportHost"; u "exportHostHint"; u "exportEmpty"; u "exportUnexportable"; u "exportFailed";
    u "exportClose"; u "copy"; u "copyAll"; u "copied"; u "copyFailed" ].

Section Labels.
Context (inherited_text : jstring -> jstring).
Context (catalogs : Locale -> list (jstring * jstring)) (locale : Locale).

(** [labels(locale)]. *)
Definition proxy_labels : list (jstring * jstring) :=
  fold_left (fun m key => map_set key (t inherited_text catalogs (u "proxy." ++ key) locale None) m)
    PROXY_LABEL_KEYS [].

(** [labels.key], for a key of the type. *)
Definition proxy_label (key : string) : jstring := default [] (field (u key) proxy_labels).
End Labels.

(** ** The rows *)

Section Rows.
Context `{NumberText} `{FixedText}.
Variable labels : string -> jstring.
(** [new Date(at).toISOString().replace("T", " ")], of a moment a date can have. *)
Variable date_text : Z -> jstring.

Record probe_cell := {
  pc_ok : bool;
  pc_stage : jstring;
  pc_hint : option jstring;
  pc_at : option jstring;
}.

Definition own_string (value : jsval) (key : jstring) : option jstring :=
  match prop value key with VStr s => Some s | _ => None end.

(** [None] is the text [labels.neverProbed]. *)
Definition ProbeCell (probe : option jsval) (at_ : option Z) : option probe_cell :=
  match probe with
  | None => None
  | Some probe =>
      let ok := bool_decide (prop probe (u "ok") = VBool true) in
      Some {| pc_ok := ok;
              pc_stage := default (u "unknown") (own_string probe (u "stage"));
              pc_hint := if ok then None else own_string probe (u "hint");
              pc_at := match at_ with
                       | Some at_ => if (at_ =? 0)%Z then None else Some (take 11 (drop 5 (date_text at_)))
                       | None => None
                       end |}
  end.

Definition upstream_cells (upstream : UpstreamRow) : jstring * jstring * option probe_cell :=
  (up_name upstream, up_address upstream, ProbeCell (up_lastProbe upstream) (up_lastProbeAt upstream)).

Definition instance_cells (upstreams : list UpstreamRow) (instance : ProxyInstanceRow) : list jstring :=
  [ pi_name instance; listenAddress instance; pi_modemImei instance;
    upstreamName labels upstreams (pi_upstreamId instance) ].

Definition rule_cells (upstreams : list UpstreamRow) (rule : CountryRuleRow) : list jstring :=
  [ cr_countryCode rule; upstreamName labels upstreams (cr_upstreamId rule) ].

(** A picker's options, value and text. *)
Definition device_options (props : proxy_props) : list (jstring * jstring) := px_devices props.
Definition upstream_options (props : proxy_props) : list (jstring * jstring) :=
  ([], labels "direct") :: ((fun upstream => (up_id upstream, up_name upstream)) <$> px_upstreams props).
Definition probe_options (props : proxy_props) : list (jstring * jstring) :=
  ([], labels "probeFrom") :: px_devices props.

Definition traffic_cells (instances : list ProxyInstanceRow) (point : TrafficPoint) : list jstring :=
  [ take 13 (date_text (tp_hour point)) ++ u ":00"; traffic_name instances point;
    bytes (tp_bytesUp point); bytes (tp_bytesDown point); number_text (Fin (tp_connections point)) ].

(** The body of the traffic card. *)
Inductive traffic_body :=
  | TrafficNoMatch
  | TrafficEmpty
  | TrafficRows (rows : list (list jstring)).

Definition traffic_draws `{CaseMapping} `{Collation} (q sort_by : option jstring) (page : proxy_read)
    : traffic_body :=
  let shown := shownTraffic q sort_by (pg_instances page) (pg_traffic page) in
  match emptyKind (length (pg_traffic page)) (length shown) (needleOf q) with
  | Some EmptyNoMatch => TrafficNoMatch
  | Some EmptyNone => TrafficEmpty
  | None => TrafficRows (traffic_cells (pg_instances page) <$> shown)
  end.
End Rows.

(** ** Properties *)

(** The proxy page stands or falls as one.  Either all five of its lists
    are the gateway's, or it says that it could not load and shows none of
    them; the export control is drawn exactly for a session the gateway says
    may write, whatever else failed; and the pickers of the client component
    offer the devices read, in their order, and every upstream after the
    direct one. *)
Theorem proxy_page_reads env fetchImpl host token :
  let page := ProxyPage_read env fetchImpl host token in
  let props := manager_props page in
  (pg_loadError page = false ->
     fetchUpstreams env fetchImpl host token = Ok (px_upstreams props)
     /\ fetchProxyInstances env fetchImpl host token = Ok (px_instances props)
     /\ fetchCountryRules env fetchImpl host token = Ok (px_countryRules props)
     /\ fetchTraffic env fetchImpl host token = Ok (pg_traffic page)
     /\ exists devices, fetchDevices env fetchImpl host token = Ok devices
          /\ device_options props = (fun device => (dv_id device, dv_name device)) <$> devices)
  /\ (pg_loadError page = true ->
     props = {| px_upstreams := []; px_instances := []; px_countryRules := []; px_devices := [] |}
     /\ pg_traffic page = [])
  /\ pg_canExport page = mayWrite (fetchConsoleRole env fetchImpl host token)
  /\ (forall labels, (upstream_options labels props).*1 = [] :: (up_id <$> px_upstreams props)).
Proof.
  unfold ProxyPage_read.
  destruct (fetchUpstreams env fetchImpl host token) as [ups|]; cbn [pg_loadError];
    [destruct (fetchProxyInstances env fetchImpl host token) as [ins|]; cbn [pg_loadError];
      [destruct (fetchDevices env fetchImpl host token) as [devs|]; cbn [pg_loadError];
        [destruct (fetchTraffic env fetchImpl host token) as [tra|]; cbn [pg_loadError];
          [destruct (fetchCountryRules env fetchImpl host token) as [rul|]; cbn [pg_loadError]|]|]|]|].
  all: split_and!; try discriminate; try done.
  - intros _. split_and!; try done. by exists devs.
  - intros labels. unfold upstream_options. cbn [fmap list_fmap fst manager_props px_upstreams pg_upstreams]. f_equal.
    by rewrite <-list_fmap_compose.
Qed.

(** Where traffic goes is said alike everywhere.  The upstream in a
    listener's row, in a country rule's row and in the question asked before
    that rule is removed is the first upstream of its identifier, and "direct"
    when the page lists none. *)
Theorem upstream_said_alike `{NumberText} inherited_text labels props instance rule name :
  let says id := upstreamName labels (px_upstreams props) id in
  last (instance_cells labels (px_upstreams props) instance) = Some (says (pi_upstreamId instance))
  /\ last (rule_cells labels (px_upstreams props) rule) = Some (says (cr_upstreamId rule))
  /\ pp_consequence (pending_of inherited_text labels props (RemoveRule rule))
     = fill_label inherited_text labels "confirmRemoveRule"
         [(u "code", cr_countryCode rule); (u "upstream", says (cr_upstreamId rule))]
  /\ (forall id, (forall upstream, upstream ∈ px_upstreams props -> up_id upstream <> id) -> says id = labels "direct")
  /\ (forall i upstream, px_upstreams props !! i = Some upstream -> up_name upstream = name ->
       (forall j earlier, j < i -> px_upstreams props !! j = Some earlier -> up_id earlier <> up_id upstream) ->
       says (up_id upstream) = name).
Proof.
  intros says. split_and!; try done.
  - intros id Hno. unfold says, upstreamName. destruct (List.find _ _) as [x|] eqn:E; [|done].
    apply List.find_some in E as [Hin Hid]. apply jeqb_eq in Hid. apply list_elem_of_In in Hin. by apply Hno in Hin.
  - intros i upstream Hi Hn Hfirst. unfold says, upstreamName. destruct (List.find _ _) as [x|] eqn:E.
    + apply find_first in E as (l1 & l2 & Hl & Hid & Hbefore). apply jeqb_eq in Hid.
      assert (Hj : px_upstreams props !! length l1 = Some x) by (rewrite Hl; by apply list_lookup_middle).
      destruct (decide (length l1 = i)) as [Heq|Hne]; [subst i; congruence|].
      destruct (decide (length l1 < i)) as [Hlt|Hge]; [by destruct (Hfirst _ x Hlt Hj)|].
      exfalso. assert (Hin : upstream ∈ l1).
      { apply (list_elem_of_lookup_2 _ i). by rewrite Hl, lookup_app_l in Hi by lia. }
      apply Hbefore, jeqb_neq in Hin. done.
    + exfalso. eapply List.find_none in E; [|apply list_elem_of_In; by eapply list_elem_of_lookup_2].
      apply jeqb_neq in E. done.
Qed.
