(* ===== verification/TableViews.v ===== *)
(** * The tables of the console as they are drawn (app/page.tsx, app/sessions,
      app/schedule, app/rules, app/support-ledger, app/audit, app/proxy,
      app/devices, app/devices/[deviceId])

    Every list with its search form, its columns, its rows of cells and the
    sentence that stands in its place.  ListPages, DevicePages and ProxyPage
    have what the pages read, the orders, and the values of the cells.  Class
    names and widths are left out, but for the mark [secondary], which takes a
    column off the phone. *)

From Stdlib Require Import Lia.
From S2P Require Import Prelude JsString JsValue JsSort Fetch Session Gateway Devices Messages Network AuditLog TableQuery Fleet Plmn I18n Navigation ListPages ProxyManager ProxyExport DevicePages ProxyPage.

(** ** Tables *)

Inductive content :=
  | Word (s : jstring)
  | Tag (tone : option (looked_up BadgeTone)) (s : jstring)
  | Anchor (href s : jstring)
  | Press (risk enabled : bool) (s : jstring)
  (** A picker: the value it stands on, and its options, value and text. *)
  | Choose (enabled : bool) (value : jstring) (options : list (jstring * jstring)).

Record cell := { ce_span : nat; ce_secondary : bool; ce_content : list content }.
Record heading := { th_text : jstring; th_secondary : bool }.
Record table := { tb_heads : list heading; tb_rows : list (jstring * list cell) }.

(** The form over a list: what it is filled in with, and the options of its
    order, value and text. *)
Record query_form := { qf_needle : jstring; qf_order : jstring; qf_options : list (jstring * jstring) }.

Inductive list_body := Says (title : jstring) (description : option jstring) | Rows (t : table).

Record list_view := {
  lv_heading : option (jstring * jstring);   (** of the page *)
  lv_error : option jstring;
  lv_form : option query_form;
  lv_body : list_body;
}.

Definition head (text : jstring) : heading := {| th_text := text; th_secondary := false |}.
Definition head2 (text : jstring) : heading := {| th_text := text; th_secondary := true |}.
Definition cell_of (c : list content) : cell := {| ce_span := 1; ce_secondary := false; ce_content := c |}.
Definition cell2 (c : list content) : cell := {| ce_span := 1; ce_secondary := true; ce_content := c |}.
(** [<TableCell colSpan={n} wrap>]. *)
Definition spanning (n : nat) (c : list content) : cell :=
  {| ce_span := n; ce_secondary := false; ce_content := c |}.

(** A row stands under its headings: a cell of one column carries the mark of
    that column, and together the cells fill the columns exactly. *)
Fixpoint row_fits (heads : list heading) (cells : list cell) : bool :=
  match cells with
  | [] => (length heads =? 0)%nat
  | c :: cells =>
      if (ce_span c =? 1)%nat then
        match heads with
        | h :: heads => eqb (th_secondary h) (ce_secondary c) && row_fits heads cells
        | [] => false
        end
      else (1 <? ce_span c)%nat && (ce_span c <=? length heads)%nat && row_fits (drop (ce_span c) heads) cells
  end.
(** A column with something to press is never taken off the phone. *)
Definition is_control (c : content) : bool := match c with Word _ | Tag _ _ => false | _ => true end.
Definition control_stays (c : cell) : bool := negb (ce_secondary c && existsb is_control (ce_content c)).
Definition row_drawn (heads : list heading) (cells : list cell) : bool :=
  row_fits heads cells && forallb control_stays cells.
(** The first column names the row, and stays as well. *)
Definition well_drawn (t : table) : bool :=
  from_option (fun h => negb (th_secondary h)) false (hd_error (tb_heads t))
  && forallb (fun row => row_drawn (tb_heads t) row.2) (tb_rows t).
Definition body_drawn (body : list_body) : bool :=
  match body with Says _ _ => true | Rows t => well_drawn t end.

Section Views.
Context `{CaseMapping} `{NumberText} `{Collation} `{ToFixed} `{FixedText}.
Context (inherited_text : jstring -> jstring).
Context (catalogs : Locale -> list (jstring * jstring)) (locale : Locale).
(** [new Date(at).toISOString().replace("T", " ")], and a moment in the
    time zone of Shanghai. *)
Context (date_text : Z -> jstring) (moment_text : Locale -> Z -> jstring).

Definition say (key : string) : jstring := t inherited_text catalogs (u key) locale None.
Definition say_key (key : jstring) : jstring := t inherited_text catalogs key locale None.
Definition say_with (key : string) (n : num) : jstring :=
  t inherited_text catalogs (u key) locale (Some [(u "n", Some (number_text n))]).

Definition dash : list content := [Word (u "—")].
Definition word_or_dash (v : option jstring) : list content := [Word (default (u "—") v)].
Definition seconds_text (at_ : Z) : jstring := take 19 (date_text at_).

(** [<StateBadge state label>]. *)
Definition StateBadge (state : jstring) (label : option jstring) : content :=
  Tag (Some (toneForState state)) (default state label).

Definition query_options (options : list (jstring * string)) : list (jstring * jstring) :=
  (fun o => (o.1, say o.2)) <$> options.
Definition GetForm (needle order : jstring) (options : list (jstring * string)) : query_form :=
  {| qf_needle := needle; qf_order := order; qf_options := query_options options |}.

Definition page_heading (title desc : string) : option (jstring * jstring) := Some (say title, say desc).
Definition load_error (failed : bool) (key : string) : option jstring :=
  if failed then Some (say key) else None.
Definition no_match : list_body := Says (say "filter.noMatchTitle") (Some (say "filter.noMatchDesc")).

(** ** app/sessions/page.tsx *)

Definition SESSION_OPTIONS : list (jstring * string) :=
  [(u "received", "sessions.colLastReceived"); (u "count", "sessions.colCount");
   (u "peer", "sessions.colPeer")]%string.

Definition session_row (row : SessionRow) : jstring * list cell :=
  (ss_deviceId row ++ u ":" ++ ss_peer row,
   [ cell_of [Word (ss_peer row)]; cell2 [Word (number_text (Fin (ss_count row)))];
     cell_of [Word (ss_lastBody row)]; cell_of [Word (seconds_text (ss_lastReceivedAt row))] ]).

Definition SessionsPage (q sort_by : option jstring) (read : list SessionRow * bool) : list_view :=
  let shown := shownSessions q sort_by read.1 in
  {| lv_heading := page_heading "sessions.title" "sessions.desc";
     lv_error := load_error read.2 "sessions.loadError";
     lv_form := Some (GetForm (needleOf q) (pickSort sort_by SESSION_SORTS (u "received")) SESSION_OPTIONS);
     lv_body := match emptyKind (length read.1) (length shown) (needleOf q) with
                | Some EmptyNoMatch => no_match
                | Some EmptyNone => Says (say "empty.sessions.title") (Some (say "empty.sessions.desc"))
                | None =>
                    Rows {| tb_heads := [ head (say "sessions.colPeer"); head2 (say "sessions.colCount");
                                          head (say "sessions.colLastBody"); head (say "sessions.colLastReceived") ];
                            tb_rows := session_row <$> shown |}
                end |}.

(** ** app/schedule/page.tsx *)

Definition cadence_text (c : Cadence) : jstring :=
  match c with
  | NoCadence => u "—"
  | EveryDays n => say_with "schedule.everyDays" (Fin (int n))
  | EveryHours n => say_with "schedule.everyHours" (Fin (int n))
  | EveryMinutes n => say_with "schedule.everyMinutes" (Fin (int n))
  end.

Definition moment (value : option Z) : jstring :=
  match value with
  | Some v => if (v =? 0)%Z then say "schedule.never" else moment_text locale v
  | None => say "schedule.never"
  end.

Definition last_result (row : ScheduleRow) : list content :=
  match sc_lastStatus row with
  | Some status =>
      if jeqb status [] then [Word (say "schedule.never")]
      else StateBadge (statusTone (sc_lastStatus row)) (Some (say_key (u "schedule.status." ++ status)))
           :: match sc_lastDetail row with
              | Some detail => if jeqb detail [] then [] else [Word detail]
              | None => []
              end
  | None => [Word (say "schedule.never")]
  end.

Definition on_badge (enabled : bool) (on off : string) : content :=
  StateBadge (if enabled then u "online" else u "offline") (Some (say (if enabled then on else off))).

Definition SCHEDULE_OPTIONS : list (jstring * string) :=
  [(u "name", "schedule.colName"); (u "due", "schedule.colNextDue");
   (u "lastRun", "schedule.colLastRun")]%string.

Definition schedule_row (row : ScheduleRow) : jstring * list cell :=
  (sc_id row,
   [ cell_of [Word (sc_name row)];
     cell_of [Word (if jeqb (sc_action row) (u "public_ip_check") then say "schedule.actionPublicIp"
                    else default (sc_action row) (sc_commandKind row))];
     cell2 [Word (target (say "schedule.card") (say "schedule.device") row)];
     cell2 [Word (cadence_text (cadence (sc_intervalSeconds row)))];
     cell_of [Word (if sc_enabled row then moment (sc_nextDueAt row) else u "—")];
     cell2 [Word (moment (sc_lastRunAt row))];
     cell_of (last_result row);
     cell_of [on_badge (sc_enabled row) "schedule.on" "schedule.off"] ]).

Definition SchedulePage (q sort_by : option jstring) (read : list ScheduleRow * bool) : list_view :=
  let shown := shownSchedules q sort_by read.1 in
  {| lv_heading := page_heading "schedule.title" "schedule.desc";
     lv_error := load_error read.2 "schedule.loadError";
     lv_form := match read.1 with
                | [] => None
                | _ => Some (GetForm (needleOf q) (pickSort sort_by SCHEDULE_SORTS (u "name")) SCHEDULE_OPTIONS)
                end;
     lv_body := match emptyKind (length read.1) (length shown) (needleOf q) with
                | Some EmptyNoMatch => no_match
                | Some EmptyNone => Says (say "empty.schedule.title") (Some (say "empty.schedule.desc"))
                | None =>
                    Rows {| tb_heads := [ head (say "schedule.colName"); head (say "schedule.colAction");
                                          head2 (say "schedule.colTarget"); head2 (say "schedule.colCadence");
                                          head (say "schedule.colNextDue"); head2 (say "schedule.colLastRun");
                                          head (say "schedule.colLastResult"); head (say "schedule.colEnabled") ];
                            tb_rows := schedule_row <$> shown |}
                end |}.

(** ** app/rules/page.tsx *)

(** The rows are what [isRule] lets through, as they came. *)
Definition rule_text (rule : jsval) (key : string) : jstring :=
  match prop rule (u key) with VStr s => s | _ => [] end.
Definition rule_row (rule : jsval) : jstring * list cell :=
  (rule_text rule "id",
   [ cell_of [Word (rule_text rule "name")]; cell2 [Word (rule_text rule "id")];
     cell_of [on_badge (truthy (prop rule (u "enabled"))) "rules.on" "rules.off"] ]).

Definition RulesPage (read : list jsval * bool) : list_view :=
  {| lv_heading := page_heading "rules.title" "rules.desc";
     lv_error := load_error read.2 "rules.loadError";
     lv_form := None;
     lv_body := match read.1 with
                | [] => Says (say "empty.rules.title") (Some (say "empty.rules.desc"))
                | rules =>
                    Rows {| tb_heads := [ head (say "rules.colName"); head2 (say "rules.colId");
                                          head (say "rules.colEnabled") ];
                            tb_rows := rule_row <$> rules |}
                end |}.

(** ** app/support-ledger/page.tsx *)

Definition support_draws (value : option jstring) : content :=
  match Support value with
  | Unmeasured => Word (say "ledger.unmeasured")
  | Supported => Tag (Some (Own ToneOk)) (say "ledger.supported")
  | Unsupported => Tag (Some (Own ToneBad)) (say "ledger.unsupported")
  | ProbeOnly => Tag (Some (Own ToneWarn)) (say "ledger.probe")
  end.

Definition LEDGER_OPTIONS : list (jstring * string) :=
  [(u "modem", "ledger.colModem"); (u "carrier", "ledger.colCarrier"); (u "tested", "ledger.sortTested")]%string.

Definition ledger_row_draws (row : LedgerRow) : jstring * list cell :=
  (lg_modemFamily row ++ u ":" ++ lg_carrier row,
   [ cell_of [Word (lg_modemFamily row)]; cell_of [Word (lg_carrier row)];
     cell_of [support_draws (lg_smsMo row)]; cell_of [support_draws (lg_smsMt row)];
     cell2 [support_draws (lg_data row)]; cell2 [support_draws (lg_voice row)];
     cell2 [Word (lg_testedBy row ++ if (0 <? lg_testedAt row)%Z
                                     then u " · " ++ take 10 (date_text (lg_testedAt row)) else [])] ]).

Definition SupportLedgerPage (q sort_by : option jstring) (read : ledger_read) : list_view :=
  let shown := shownLedger q sort_by (lr_rows read) in
  {| lv_heading := page_heading "ledger.title" "ledger.desc";
     lv_error := load_error (lr_failed read) "ledger.loadFailed";
     lv_form := match lr_rows read with
                | [] => None
                | _ => Some (GetForm (needleOf q) (pickSort sort_by LEDGER_SORTS (u "modem")) LEDGER_OPTIONS)
                end;
     lv_body := match ledger_draws (lr_failed read) (length (lr_rows read))
                        (emptyKind (length (lr_rows read)) (length shown) (needleOf q)) with
                | LedgerNoMatch => no_match
                | LedgerEmpty => Says (say "ledger.emptyTitle") (Some (say "ledger.emptyDesc"))
                | LedgerTable =>
                    Rows {| tb_heads := [ head (say "ledger.colModem"); head (say "ledger.colCarrier");
                                          head (say "ledger.colSmsMo"); head (say "ledger.colSmsMt");
                                          head2 (say "ledger.colData"); head2 (say "ledger.colVoice");
                                          head2 (say "ledger.colEvidence") ];
                            tb_rows := ledger_row_draws <$> shown |}
                end |}.

(** ** app/audit/page.tsx *)

(** [<Badge dot={false}>], without a tone. *)
Definition plain_tag (s : jstring) : content := Tag None s.
(** [text || "—"]. *)
Definition text_or_dash (s : jstring) : jstring := if jeqb s [] then u "—" else s.

Definition AUDIT_OPTIONS : list (jstring * string) :=
  [(u "received", "audit.sortReceived"); (u "actor", "audit.colActor"); (u "action", "audit.colAction")]%string.

Definition audit_row (entry : AuditRow * nat) : jstring * list cell :=
  (au_action entry.1 ++ u ":" ++ number_text (Fin (int (Z.of_nat entry.2))),
   [ cell_of [Word (text_or_dash (au_actor entry.1))]; cell_of [plain_tag (au_action entry.1)];
     cell_of [Word (text_or_dash (au_target entry.1))] ]).

(** Without an entry, [vars] is undefined. *)
Definition say_placeholder (p : AuditPlaceholder) (key : jstring) : jstring :=
  t inherited_text catalogs key locale
    match pl_vars p with
    | [] => None
    | vars => Some ((fun v => (v.1, Some (number_text (Fin (int (Z.of_nat v.2)))))) <$> vars)
    end.

Definition AuditPage (q sort_by : option jstring) (screen : AuditScreen) : list_view :=
  {| lv_heading := page_heading "audit.title" "audit.desc";
     lv_error := say_key <$> as_errorKey screen;
     lv_form := match as_placeholder screen with
                | None => Some (GetForm (needleOf q) (pickSort sort_by AUDIT_SORTS (u "received")) AUDIT_OPTIONS)
                | Some _ => None
                end;
     lv_body := match audit_draws q sort_by screen with
                | AuditSays p => Says (say_placeholder p (pl_titleKey p)) (Some (say_placeholder p (pl_descriptionKey p)))
                | AuditNoMatch => no_match
                | AuditTable rows =>
                    Rows {| tb_heads := [ head (say "audit.colActor"); head (say "audit.colAction");
                                          head (say "audit.colTarget") ];
                            tb_rows := audit_row <$> rows |}
                end |}.

(** ** app/page.tsx *)

Record stat_card := { st_label : jstring; st_value : jstring; st_hint : jstring; st_tone : option BadgeTone }.

Definition nat_text (n : nat) : jstring := number_text (Fin (int (Z.of_nat n))).
Definition overview_stats (page : overview_read) : list stat_card :=
  [ {| st_label := say "overview.devices"; st_value := nat_text (ov_online page);
       st_hint := t inherited_text catalogs (u "overview.devicesHint") locale
                    (Some [(u "total", Some (nat_text (length (ov_devices page))))]);
       st_tone := ov_tone page |};
    {| st_label := say "overview.messages"; st_value := nat_text (length (ov_messages page));
       st_hint := say "overview.messagesHint"; st_tone := None |};
    {| st_label := say "overview.peers"; st_value := nat_text (ov_peers page);
       st_hint := say "overview.peersHint"; st_tone := None |} ].

Definition recent_row (message : MessageRow) : jstring * list cell :=
  (ms_id message,
   [ cell_of [Word (ms_peer message)]; cell_of [Word (ms_body message)];
     cell_of [Tag (Some (Own ToneInfo)) (ms_bearer message)];
     cell2 [Word (seconds_text (ms_receivedAt message))] ]).

Definition OverviewPage (page : overview_read) : list_view :=
  {| lv_heading := page_heading "overview.title" "overview.desc";
     lv_error := load_error (ov_loadError page) "inbox.loadError";
     lv_form := None;
     lv_body := match ov_recent page with
                | [] => Says (say "empty.messages.title") (Some (say "empty.messages.desc"))
                | recent =>
                    Rows {| tb_heads := [ head (say "inbox.colPeer"); head (say "inbox.colBody");
                                          head (say "inbox.colBearer"); head2 (say "inbox.colReceived") ];
                            tb_rows := recent_row <$> recent |}
                end |}.

(** ** app/proxy/page.tsx: the traffic card *)

Definition TRAFFIC_OPTIONS : list (jstring * string) :=
  [(u "hour", "proxy.colHour"); (u "up", "proxy.colUp"); (u "down", "proxy.colDown")]%string.

Definition traffic_row (instances : list ProxyInstanceRow) (point : TrafficPoint) : jstring * list cell :=
  (tp_instanceId point ++ u "-" ++ number_text (Fin (tp_hour point)),
   [ cell_of [Word (take 13 (date_text (tp_hour point)) ++ u ":00")];
     cell_of [Word (traffic_name instances point)]; cell_of [Word (bytes (tp_bytesUp point))];
     cell_of [Word (bytes (tp_bytesDown point))]; cell2 [Word (number_text (Fin (tp_connections point)))] ]).

Definition TrafficCard (q sort_by : option jstring) (page : proxy_read) : list_view :=
  let shown := shownTraffic q sort_by (pg_instances page) (pg_traffic page) in
  {| lv_heading := None;
     lv_error := None;
     lv_form := match pg_traffic page with
                | [] => None
                | _ => Some (GetForm (needleOf q) (pickSort sort_by TRAFFIC_SORTS (u "hour")) TRAFFIC_OPTIONS)
                end;
     lv_body := match emptyKind (length (pg_traffic page)) (length shown) (needleOf q) with
                | Some EmptyNoMatch => no_match
                | Some EmptyNone => Says (say "proxy.noTraffic") None
                | None =>
                    Rows {| tb_heads := [ head (say "proxy.colHour"); head (say "proxy.colName");
                                          head (say "proxy.colUp"); head (say "proxy.colDown");
                                          head2 (say "proxy.colConns") ];
                            tb_rows := traffic_row (pg_instances page) <$> shown |}
                end |}.

(** ** app/devices/page.tsx *)

Definition alert_badge (level : jstring) : content :=
  let word := alertTone level in
  Tag (Some (Own (if jeqb word (u "bad") then ToneBad else if jeqb word (u "warn") then ToneWarn
                  else if jeqb word (u "info") then ToneInfo else ToneNeutral))) level.

Definition alert_row_draws (alert : AlertRow) : jstring * list cell :=
  (al_id alert,
   [ cell_of [alert_badge (al_level alert)];
     cell_of (Word (al_code alert)
              :: match alert_repeats alert with
                 | Some n => [Word (u "×" ++ number_text n)]
                 | None => []
                 end);
     cell2 [Word (al_message alert)]; cell2 [Word (seconds_text (al_occurredAt alert))] ]).

Definition alerts_card (alerts : list AlertRow) : list_body :=
  match alerts with
  | [] => Says (say "alerts.none") None
  | _ => Rows {| tb_heads := [ head (say "alerts.colLevel"); head (say "alerts.colCode");
                               head2 (say "alerts.colMessage"); head2 (say "alerts.colWhen") ];
                 tb_rows := alert_row_draws <$> alerts |}
  end.

(** A reading, as the number was represented when it was read. *)
Definition integer_text (n : Z) : jstring := number_text (Fin n).
Definition seen_text (value : option Z) : jstring :=
  match value with Some v => seconds_text v | None => say "common.never" end.

Definition queue_content (cell : queue_cell) : content :=
  match cell with
  | QueueUnknown => Word (u "—")
  | QueueEmpty => Word (u "0")
  | QueueBehind records => Tag (Some (Own ToneWarn)) (integer_text records)
  end.

Definition device_row_cells (device : DeviceRow) : jstring * list cell :=
  let row := device_row_draws device in
  (dv_id device,
   [ cell_of [Anchor (rw_href row) (rw_name row)]; cell2 [Word (rw_id row)];
     cell_of [StateBadge (rw_state row) (Some (say_key (u "state." ++ rw_state row)))];
     cell2 (word_or_dash (rw_version row)); cell_of [queue_content (rw_queue row)];
     cell2 (word_or_dash (rw_publicIp row)); cell2 (word_or_dash (rw_cpu row));
     cell2 (word_or_dash ((fun share => number_text share ++ u "%") <$> rw_memory row));
     cell_of [Word (seen_text (rw_lastSeen row))] ]).

Definition devices_card (devices : list DeviceRow) : list_body :=
  match devices with
  | [] => Says (say "empty.devices.title") (Some (say "empty.devices.desc"))
  | _ => Rows {| tb_heads := [ head (say "devices.colName"); head2 (say "devices.colId");
                               head (say "devices.colState"); head2 (say "devices.colVersionShort");
                               head (say "devices.colQueue"); head2 (say "devices.colPublicIp");
                               head2 (say "devices.colHostCpu"); head2 (say "devices.colHostMemory");
                               head (say "devices.colLastSeen") ];
                 tb_rows := device_row_cells <$> devices |}
  end.

(** An operator's name; a member every object has is drawn as nothing. *)
Definition operator_word (o : operator_label) : jstring :=
  match o with Named name => name | Member _ => [] end.
Definition flag_text (flag : option jstring) : jstring :=
  match flag with Some f => if jeqb f [] then [] else f ++ u " " | None => [] end.
Definition network_content (network : option network_cell) : list content :=
  match network with
  | None => [Word (u "—")]
  | Some n =>
      Word (flag_text (nc_flag n) ++ operator_word (nc_operator n))
      :: match nc_territory n with
         | Some territory => if jeqb territory [] then [] else [Word (u " · " ++ territory)]
         | None => []
         end
      ++ match nc_roaming n with
         | Some (flag, operator) =>
             [Tag (Some (Own ToneWarn))
                (say "modems.roaming" ++ u " → " ++ flag_text flag ++ operator_word operator)]
         | None => []
         end
  end.

Definition reading_text (value : option Z) : jstring := default (u "—") (integer_text <$> value).
Definition quality_content (quality : option (option Z * option Z * option Z)) : list content :=
  match quality with
  | None => [Word (u "—")]
  | Some (rsrp, rsrq, sinr) =>
      [ Word (reading_text rsrp); Word (u " / "); Word (reading_text rsrq); Word (u " / ");
        Word (reading_text sinr); Word (u " dB") ]
  end.
Definition signal_content (signal : option Z) : list content :=
  word_or_dash ((fun dbm => integer_text dbm ++ u " dBm") <$> signal).

Definition imei_cell (imei : jstring) (badges : bool * bool) : cell :=
  cell_of (Word imei
           :: (if badges.1 then [Tag (Some (Own ToneWarn)) (say "modems.unmanaged")] else [])
           ++ (if badges.2 then [Tag (Some (Own ToneWarn)) (say "modems.neverSeen")] else [])).
Definition fallback_tag (fallback : bool) : list content :=
  if fallback then [Tag (Some (Own ToneWarn)) (say "modems.uncharacterised")] else [].

Definition fleet_row_cells (modem : ModemRow) : jstring * list cell :=
  let (badges, drawn) := fleet_row_draws modem in
  (md_id modem,
   imei_cell (md_imei modem) badges ::
   match drawn with
   | NeverSeenRow => [spanning 7 [Word (say "modems.neverSeenHint")]]
   | SeenRow c =>
       [ cell2 (word_or_dash (fc_iccid c)); cell_of (network_content (fc_network c));
         cell_of [StateBadge (fc_state c) None]; cell_of (signal_content (fc_signal c));
         cell2 (quality_content (fc_quality c));
         cell2 ([ Tag (Some (Own ToneNeutral)) (u "↓ " ++ default (u "—") (fc_smsMt c));
                  Tag (Some (Own ToneNeutral)) (u "↑ " ++ default (u "—") (fc_smsMo c)) ]
                ++ fallback_tag (fc_uncharacterised c));
         cell2 [Word (seen_text (fc_lastSeen c))] ]
   end).

Definition MODEM_OPTIONS : list (jstring * string) :=
  [(u "imei", "modems.sortImei"); (u "signal", "modems.sortSignal"); (u "seen", "modems.sortSeen")]%string.

(** The form stands over the list whether or not it holds a module. *)
Definition fleet_form (q sort_by : option jstring) : query_form :=
  GetForm (needleOf q) (fleet_order sort_by) MODEM_OPTIONS.
Definition modems_card (q sort_by : option jstring) (modems : list ModemRow) : list_body :=
  match modems with
  | [] => Says (say "empty.modems.title") (Some (say "empty.modems.desc"))
  | _ => Rows {| tb_heads := [ head (say "modems.colImei"); head2 (say "modems.colIccid");
                               head (say "modems.colNetwork"); head (say "modems.colState");
                               head (say "modems.colSignal"); head2 (say "modems.colQuality");
                               head2 (say "modems.colSms"); head2 (say "modems.colSeen") ];
                 tb_rows := fleet_row_cells <$> fleet_shown q sort_by modems |}
  end.

Record devices_view := {
  dvw_readOnly : option jstring;
  dvw_error : option jstring;
  dvw_alerts : list_body;
  dvw_devices : list_body;
  dvw_form : query_form;
  dvw_modems : list_body;
}.

Definition DevicesPage (q sort_by : option jstring) (page : fleet_read) : devices_view :=
  {| dvw_readOnly := if fr_writable page then None else Some (say "role.readOnlyBadge");
     dvw_error := load_error (fr_loadError page) "devices.loadError";
     dvw_alerts := alerts_card (fr_alerts page);
     dvw_devices := devices_card (fr_devices page);
     dvw_form := fleet_form q sort_by;
     dvw_modems := modems_card q sort_by (fr_modems page) |}.

(** ** app/devices/[deviceId]/page.tsx *)

Definition auth_content (auth : auth_cell) : list content :=
  match auth with
  | AuthSilent => []
  | AuthUnread => [Word (u " · " ++ say "modems.apnAuthUnread")]
  | AuthNamed (Own name) => [Word (u " · " ++ name)]
  | AuthNamed _ => [Word (u " · ")]
  end.
Definition apn_line_content (line : apn_line) : list content :=
  Word (integer_text (an_context line) ++ u ": " ++ default (say "modems.apnUnnamed") (an_name line)
        ++ from_option (fun kind => u " (" ++ kind ++ u ")") [] (an_pdpType line))
  :: from_option (fun name => [Word (u " · " ++ name)]) [] (an_username line)
  ++ auth_content (an_auth line)
  ++ (if an_password line then [Word (u " · " ++ say "modems.apnPasswordSet")] else [])
  ++ (if an_configured line then [Tag (Some (Own ToneInfo)) (say "modems.apnConfigured")] else []).
Definition apn_content (c : apn_cell) : list content :=
  match c with
  | ApnUnread => [Word (u "—")]
  | ApnNone => [Word (say "modems.apnNone")]
  | ApnTable lines => concat (apn_line_content <$> lines)
  end.

Definition matrix_content (matrix : option (jstring * jstring * bool)) : list content :=
  match matrix with
  | None => [Word (u "—")]
  | Some (family, carrier, fallback) => Word (family ++ u " · " ++ carrier) :: fallback_tag fallback
  end.

Definition binding_content (binding : jstring * jstring * Z * bool) : list content :=
  let '(name, protocol, port, enabled) := binding in
  Word (name ++ u " · " ++ protocol ++ u ":" ++ integer_text port)
  :: if enabled then [] else [Tag (Some (Own ToneWarn)) (say "modems.proxyDisabled")].
Definition bindings_content (bindings : list (jstring * jstring * Z * bool)) : list content :=
  match bindings with
  | [] => [Word (say "modems.proxyNone")]
  | _ => concat (binding_content <$> bindings)
  end.

(** The text for a number not read after the card was changed is in the
    source itself. *)
Definition MSISDN_PENDING : jstring :=
  [24453%N; 35835%N; 65288%N; 21018%N; 25442%N; 21345%N; 65289%N].
Definition msisdn_content (c : msisdn_cell) : list content :=
  match c with
  | MsisdnNumber n => [Word n]
  | MsisdnPending => [Word MSISDN_PENDING]
  | MsisdnNone => [Word (u "—")]
  end.

Definition overview_row_cells (proxies : list ProxyInstanceRow) (modem : ModemRow) : jstring * list cell :=
  let (badges, drawn) := overview_row_draws proxies modem in
  (md_id modem,
   imei_cell (md_imei modem) badges ::
   match drawn with
   | NeverSeenRow => [spanning 8 [Word (say "modems.neverSeenHint")]]
   | SeenRow c =>
       [ cell2 (word_or_dash (oc_iccid c)); cell_of (network_content (oc_network c));
         cell2 (word_or_dash (oc_firmware c)); cell2 (msisdn_content (oc_msisdn c));
         cell2 (word_or_dash (oc_port c)); cell2 (apn_content (oc_apn c));
         cell2 (matrix_content (oc_matrix c)); cell2 (bindings_content (oc_proxies c)) ]
   end).

Definition overview_card (query : panel_query) (proxies : list ProxyInstanceRow) (modems : list ModemRow)
    : option query_form * list_body :=
  let shown := overview_shown query modems in
  (match modems with [] => None | _ => Some (GetForm (pq_needle query) (pq_order query) MODEM_OPTIONS) end,
   match emptyKind (length modems) (length shown) (pq_needle query) with
   | Some EmptyNoMatch => no_match
   | Some EmptyNone => Says (say "device.noModems") None
   | None =>
       Rows {| tb_heads := [ head (say "modems.colImei"); head2 (say "modems.colIccid");
                             head (say "modems.colNetwork"); head2 (say "modems.colFirmware");
                             head2 (say "modems.colMsisdn"); head2 (say "modems.colPort");
                             head2 (say "modems.colApn"); head2 (say "modems.colCapability");
                             head2 (say "modems.colProxy") ];
               tb_rows := overview_row_cells proxies <$> shown |}
   end).

Definition radio_row_cells (modem : ModemRow) : jstring * list cell :=
  let '(imei, signal, quality) := radio_row_draws modem in
  (md_id modem, [cell_of [Word imei]; cell_of (signal_content signal); cell_of (quality_content quality)]).
Definition radio_card (modems : list ModemRow) : list_body :=
  match modems with
  | [] => Says (say "device.noModems") None
  | _ => Rows {| tb_heads := [ head (say "modems.colImei"); head (say "modems.colSignal");
                               head (say "modems.colQuality") ];
                 tb_rows := radio_row_cells <$> modems |}
  end.

(** A name and a reading to each row; no headings. *)
Definition memory_content (memory : option (jstring * jstring * num)) : list content :=
  match memory with
  | None => [Word (u "—")]
  | Some (used, total, share) =>
      [Word (used ++ u " / " ++ total); Word (u " (" ++ number_text share ++ u "%)")]
  end.
Definition throughput_content (rates : option (jstring * jstring)) : list content :=
  match rates with
  | None => [Word (u "—")]
  | Some (rx, tx) => [Word (u "↓ " ++ rx ++ u "/s"); Word (u " · "); Word (u "↑ " ++ tx ++ u "/s")]
  end.
Definition host_rows (host : host_card) (reportedAt : Z) : list (jstring * list content) :=
  [ (say "device.hostPublicIp", word_or_dash (hc_publicIp host));
    (say "device.hostCpu", word_or_dash (hc_cpu host));
    (say "device.hostMemory", memory_content (hc_memory host));
    (say "device.hostDisk", memory_content (hc_disk host));
    (say "device.hostNetwork", throughput_content (hc_network host));
    (say "device.hostMachine", [Word (hc_machine host)]);
    (say "device.hostReportedAt", [Word (seconds_text reportedAt)]) ].
(** On the left: the host never reported. *)
Definition host_card_draws (device : option DeviceRow) : jstring + list (jstring * list content) :=
  match host_draws device, device ≫= dv_hostReportedAt with
  | Some host, Some reportedAt => inr (host_rows host reportedAt)
  | _, _ => inl (say "device.hostUnreported")
  end.

(** ** Every table is well drawn *)

Lemma rows_drawn {A} (row : A -> jstring * list cell) heads (xs : list A) :
  from_option (fun h => negb (th_secondary h)) false (hd_error heads) = true ->
  (forall x, row_drawn heads (row x).2 = true) ->
  well_drawn {| tb_heads := heads; tb_rows := row <$> xs |} = true.
Proof.
  intros Hfirst Hrow. unfold well_drawn. cbn [tb_heads tb_rows]. rewrite Hfirst. apply forallb_forall.
  intros r Hr. apply list_elem_of_In, list_elem_of_fmap in Hr as (x & -> & _). apply Hrow.
Qed.

(** What the cells of a column off the phone are made of has nothing to press. *)
Lemma concat_plain {A} (f : A -> list content) (xs : list A) :
  (forall x, existsb is_control (f x) = false) -> existsb is_control (concat (f <$> xs)) = false.
Proof. intros Hf. induction xs as [|x xs IH]; [done|]. cbn. by rewrite existsb_app, Hf, IH. Qed.
Lemma support_plain value : is_control (support_draws value) = false.
Proof. unfold support_draws. by case_match. Qed.
Lemma quality_plain quality : existsb is_control (quality_content quality) = false.
Proof. by destruct quality as [[[??]?]|]. Qed.
Lemma fallback_plain fallback : existsb is_control (fallback_tag fallback) = false.
Proof. by destruct fallback. Qed.
Lemma msisdn_plain c : existsb is_control (msisdn_content c) = false.
Proof. by destruct c. Qed.
Lemma auth_plain auth : existsb is_control (auth_content auth) = false.
Proof. by destruct auth as [| |[]]. Qed.
Lemma apn_line_plain line : existsb is_control (apn_line_content line) = false.
Proof.
  unfold apn_line_content. cbn [existsb is_control orb]. rewrite !existsb_app, auth_plain.
  by destruct (an_username line), (an_password line), (an_configured line).
Qed.
Lemma apn_plain c : existsb is_control (apn_content c) = false.
Proof. destruct c; [done|done|]. apply concat_plain, apn_line_plain. Qed.
Lemma matrix_plain matrix : existsb is_control (matrix_content matrix) = false.
Proof. destruct matrix as [[[??]?]|]; [apply fallback_plain|done]. Qed.
Lemma binding_plain binding : existsb is_control (binding_content binding) = false.
Proof. by destruct binding as [[[??]?] []]. Qed.
Lemma bindings_plain bindings : existsb is_control (bindings_content bindings) = false.
Proof. destruct bindings as [|b l]; [done|]. apply (concat_plain binding_content (b :: l)), binding_plain. Qed.

#[local] Hint Rewrite support_plain quality_plain fallback_plain msisdn_plain apn_plain matrix_plain
  bindings_plain existsb_app : console.
#[local] Ltac draw_row := unfold row_drawn; cbn; unfold control_stays; cbn; autorewrite with console; cbn; done.

(** C14. Twelve of the tables line up: those of the sessions, schedules,
    rules, support ledger and audit pages, of the overview and of the proxy
    page's traffic, the fleet page's alerts, devices and modules, and the
    device page's overview and radio.  Whatever was read and whatever was
    asked, each is a sentence or a table with a cell under every heading and
    none beside them, the same columns off the phone in the head and in the
    rows, nothing to press in a column taken off, and the column naming the
    row always there. *)
Theorem tables_line_up q sort_by sessions schedules rules ledger audit overview traffic alerts devices
    modems query proxies :
  Forall (fun body => body_drawn body = true)
    [ lv_body (SessionsPage q sort_by sessions); lv_body (SchedulePage q sort_by schedules);
      lv_body (RulesPage rules); lv_body (SupportLedgerPage q sort_by ledger);
      lv_body (AuditPage q sort_by audit); lv_body (OverviewPage overview);
      lv_body (TrafficCard q sort_by traffic);
      alerts_card alerts; devices_card devices; modems_card q sort_by modems;
      (overview_card query proxies modems).2; radio_card modems ].
Proof.
  rewrite !Forall_cons, Forall_nil. split_and!;
    cbn [lv_body SessionsPage SchedulePage RulesPage SupportLedgerPage AuditPage OverviewPage TrafficCard snd overview_card].
  all: try (repeat case_match; first [done|apply rows_drawn; done]).
  - case_match; try done. apply rows_drawn; [done|]. intros row. draw_row.
  - destruct alerts; [done|]. apply (rows_drawn alert_row_draws); [done|]. intros row. draw_row.
  - destruct devices; [done|]. apply (rows_drawn device_row_cells); [done|]. intros row. draw_row.
  - destruct modems as [|m ms]; [done|]. apply rows_drawn; [done|]. intros row.
    unfold fleet_row_cells. destruct (fleet_row_draws row) as [? []]; draw_row.
  - repeat case_match; try done. apply rows_drawn; [done|]. intros row.
    unfold overview_row_cells. destruct (overview_row_draws proxies row) as [? []]; draw_row.
  - destruct modems as [|m ms]; [done|]. apply (rows_drawn radio_row_cells); [done|]. intros row.
    by unfold radio_row_cells; destruct (radio_row_draws row) as [[??]?].
Qed.
(** ** What the search forms send comes back *)

Lemma pickSort_in raw allowed fallback : In fallback allowed -> In (pickSort raw allowed fallback) allowed.
Proof.
  intros Hf. unfold pickSort. destruct raw as [r|]; [|done].
  destruct (existsb (jeqb r) allowed) eqn:E; [|done].
  apply existsb_exists in E as (x & Hx & ->%jeqb_eq). done.
Qed.
Lemma pickSort_own order allowed fallback :
  In order allowed -> pickSort (Some order) allowed fallback = order.
Proof.
  intros Hin. unfold pickSort. replace (existsb (jeqb order) allowed) with true; [done|].
  symmetry. apply existsb_exists. exists order. split; [done|by apply jeqb_eq].
Qed.

(** A form goes with a list of orders: what it is filled in with is one of its
    options, and each option sent back is the order the page then takes. *)
Definition form_serves (form : query_form) (taken : option jstring -> jstring) : Prop :=
  In (qf_order form) (qf_options form).*1
  /\ forall order, In order (qf_options form).*1 -> taken (Some order) = order.

Lemma query_options_values options : (query_options options).*1 = options.*1.
Proof. unfold query_options. by rewrite <-list_fmap_compose. Qed.

Lemma getForm_serves needle sort_by allowed fallback options :
  In fallback allowed -> options.*1 = allowed ->
  form_serves (GetForm needle (pickSort sort_by allowed fallback) options)
    (fun sent => pickSort sent allowed fallback).
Proof.
  intros Hf Ho. unfold form_serves, GetForm. cbn [qf_order qf_options].
  rewrite query_options_values, Ho. split; [by apply pickSort_in|]. intros order Hin. by apply pickSort_own.
Qed.

(** On every list page the form, where it is drawn, is filled in with the
    order in force, which is one of its options, and each order it offers is
    the one the page takes when the form sends it. *)
Theorem forms_offer_orders q sort_by sessions schedules ledger audit traffic proxies modems :
  (forall form, lv_form (SessionsPage q sort_by sessions) = Some form ->
     form_serves form (fun sent => pickSort sent SESSION_SORTS (u "received")))
  /\ (forall form, lv_form (SchedulePage q sort_by schedules) = Some form ->
        form_serves form (fun sent => pickSort sent SCHEDULE_SORTS (u "name")))
  /\ (forall form, lv_form (SupportLedgerPage q sort_by ledger) = Some form ->
        form_serves form (fun sent => pickSort sent LEDGER_SORTS (u "modem")))
  /\ (forall form, lv_form (AuditPage q sort_by audit) = Some form ->
        form_serves form (fun sent => pickSort sent AUDIT_SORTS (u "received")))
  /\ (forall form, lv_form (TrafficCard q sort_by traffic) = Some form ->
        form_serves form (fun sent => pickSort sent TRAFFIC_SORTS (u "hour")))
  /\ form_serves (fleet_form q sort_by) fleet_order
  /\ (forall tab form,
        (overview_card (device_query tab q sort_by) proxies modems).1 = Some form ->
        form_serves form (fun sent => pq_order (device_query tab q sent))).
Proof.
  split_and!.
  6: { unfold fleet_form. rewrite fleet_order_pick. destruct (getForm_serves (needleOf q) sort_by MODEM_SORTS (u "imei") MODEM_OPTIONS) as [Hin Hall];
       [by left|done|]. split; [done|]. intros order Ho. rewrite fleet_order_pick. by apply Hall. }
  all: intros *; cbn [lv_form SessionsPage SchedulePage SupportLedgerPage AuditPage TrafficCard overview_card
                      fst device_query pq_order pq_needle]; repeat case_match; intros [= <-].
  all: apply getForm_serves; [by left|done].
Qed.
(** ** A load that failed *)

Section Failed.
Context `{Platform} (env : environment) (fetchImpl : fetch_fn) (host : jstring) (token : option jstring).

(** The comment in app/support-ledger/page.tsx: a load that failed and a
    tenant that has nothing must not render as the same screen.  The ledger
    and the audit log keep to it; the other lists put, under the line that
    reports the error, the sentence for a tenant that has none. *)
Theorem failed_load_says_none q sort_by now e :
  (fetchSessions env fetchImpl host token = Throw e ->
   let page := SessionsPage q sort_by (SessionsPage_read env fetchImpl host token) in
   lv_error page = Some (say "sessions.loadError")
   /\ lv_body page = Says (say "empty.sessions.title") (Some (say "empty.sessions.desc")))
  /\ (fetchSchedules env fetchImpl host token = Throw e ->
      let page := SchedulePage q sort_by (SchedulePage_read env fetchImpl host token) in
      lv_error page = Some (say "schedule.loadError")
      /\ lv_body page = Says (say "empty.schedule.title") (Some (say "empty.schedule.desc")))
  /\ (fetchRules env fetchImpl host token = Throw e ->
      let page := RulesPage (RulesPage_read env fetchImpl host token) in
      lv_error page = Some (say "rules.loadError")
      /\ lv_body page = Says (say "empty.rules.title") (Some (say "empty.rules.desc")))
  /\ (fetchAlerts env fetchImpl host token None 20 = Throw e ->
      let page := DevicesPage q sort_by (DevicesPage_read env fetchImpl host token now) in
      dvw_error page = Some (say "devices.loadError")
      /\ dvw_alerts page = Says (say "alerts.none") None
      /\ dvw_devices page = Says (say "empty.devices.title") (Some (say "empty.devices.desc")))
  /\ (fetchLedger env fetchImpl host token = Throw e ->
      let page := SupportLedgerPage q sort_by (SupportLedgerPage_read env fetchImpl host token) in
      lv_error page = Some (say "ledger.loadFailed")
      /\ exists heads, lv_body page = Rows {| tb_heads := heads; tb_rows := [] |})
  /\ (loadAudit env fetchImpl host token = AuditFailed ->
      let page := AuditPage q sort_by (AuditPage_read env fetchImpl host token) in
      lv_error page = Some (say "audit.loadError")
      /\ lv_body page = Says (say "empty.audit.failedTitle") (Some (say "empty.audit.failedDesc"))).
Proof.
  split_and!; intros E; cbv zeta.
  - unfold SessionsPage_read. by rewrite E.
  - unfold SchedulePage_read. by rewrite E.
  - unfold RulesPage_read. by rewrite E.
  - unfold DevicesPage_read. rewrite E.
    by destruct (fetchDevices env fetchImpl host token), (fetchModems env fetchImpl host token),
      (fetchCardPolicies env fetchImpl host token).
  - unfold SupportLedgerPage_read. rewrite E. split; [done|]. by eexists.
  - unfold AuditPage_read. by rewrite E.
Qed.
End Failed.
End Views.
