(* ===== verification/SettingsPage.v ===== *)
(** * The settings page (app/settings/page.tsx, components/channel-health.tsx)

    What the page reads, the form or the values each of its four sections is
    drawn as, the labels both look up, and what the delivery record of a
    channel is drawn as. *)

From Stdlib Require Import Lia.
From S2P Require Import Prelude JsString JsValue JsMap JsRegex JsSort Fetch Session Gateway Network TableQuery I18n Pwa Guards Settings Component SettingsForm ListPages.

(** ** The reads *)

Record settings_read := {
  sp_settings : list (jstring * jsval);
  sp_loadError : bool;
  sp_health : list ChannelHealthRow;
  sp_writable : bool;
}.

Definition SettingsPage_read `{Network.Platform} `{Collation} (env : environment) (fetchImpl : fetch_fn)
    (host : jstring) (token : option jstring) : settings_read :=
  let settings := list_read (fetchSettings env fetchImpl host token) in
  {| sp_settings := settings.1; sp_loadError := settings.2;
     sp_health := (list_read (fetchChannelHealth env fetchImpl host token)).1;
     sp_writable := mayWrite (fetchConsoleRole env fetchImpl host token) |}.

(** ** Labels *)

(** [/^⟦.+⟧$/]. *)
Definition MISSING_KEY_PATTERN : regex :=
  rseq [RStart; rchar 0x27e6; rplus rdot; rchar 0x27e7; REnd].

Definition SETTINGS_WORDS : list jstring :=
  [ u "save"; u "saved"; u "saveFailed"; u "currentPassword"; u "newPassword"; u "changePassword";
    u "passwordChanged"; u "passwordNote"; u "test"; u "testSent"; u "testFailed"; u "listHint";
    u "channelOn"; u "channelOff"; u "valueOn"; u "valueOff" ].

Definition SETTINGS_FIELDS : list SettingsField :=
  NOTIFICATION_FIELDS ++ SMS_FIELDS ++ SECURITY_FIELDS ++ DEVICE_FIELDS.

(** [labels[key] = value] for each key in turn. *)
Definition assign_all (value : jstring -> jstring) (keys : list jstring) (m : list (jstring * jstring))
    : list (jstring * jstring) :=
  fold_left (fun m key => map_set key (value key) m) keys m.

Section Page.
Context `{ToString}.
(** [`${Object.prototype[name]}`]: the text of an inherited member. *)
Context (inherited_text : jstring -> jstring).
Context (catalogs : Locale -> list (jstring * jstring)) (locale : Locale).

Abbreviation word := (fun key => t inherited_text catalogs key locale None).

Definition channel_name (channel : jstring) : jstring :=
  let name := word (u "f." ++ channel) in
  if test MISSING_KEY_PATTERN name then channel else name.

Definition fieldLabels : list (jstring * jstring) :=
  let words := assign_all (fun key => word (u "settings." ++ key)) SETTINGS_WORDS [] in
  let named := assign_all (fun path => word (u "f." ++ path)) (sf_path <$> SETTINGS_FIELDS) words in
  assign_all channel_name (notificationChannels NOTIFICATION_FIELDS) named.

(** [labels[key] ?? key]. *)
Definition label_or (labels : list (jstring * jstring)) (key : jstring) : jstring :=
  match table_read labels key with
  | Own text => text
  | Inherited => inherited_text key
  | Absent => key
  end.

Definition channelTests (fields : list SettingsField) (labels : list (jstring * jstring))
    : list ChannelTest :=
  (fun channel =>
     let label := label_or labels channel in
     {| ct_channel := channel;
        ct_label := label;
        ct_title := t inherited_text catalogs (u "settings.confirmTestTitle") locale
                      (Some [(u "channel", Some label)]);
        ct_consequence := t inherited_text catalogs (u "settings.confirmTest") locale
                            (Some [(u "channel", Some label)]) |})
    <$> notificationChannels fields.

(** ** The values *)

Record read_group := {
  rg_title : option jstring;        (** [None]: the flat table *)
  rg_open : bool;
  rg_hint : option bool;            (** the on or off badge, where there is a switch *)
  rg_rows : list (jstring * jstring);
}.

Definition setting_rows (group : SettingsGroup) (values : jsval) (labels : list (jstring * jstring))
    : list (jstring * jstring) :=
  (fun f => (label_or labels (sf_path f),
             displaySettingValue (readSettingValue values (sf_path f))
               (default [] (field (u "valueOn") labels)) (default [] (field (u "valueOff") labels))))
    <$> sg_fields group.

(** [Object.fromEntries(fields.map(..))]. *)
Definition stored_values (fields : list SettingsField) (values : jsval) : list (jstring * jsval) :=
  fold_left (fun m f => map_set (sf_path f) (readSettingValue values (sf_path f)) m) fields [].

Definition ReadOnlyFields (fields : list SettingsField) (values : jsval)
    (labels : list (jstring * jstring)) : list read_group :=
  let stored := stored_values fields values in
  (fun group =>
     {| rg_title := label_or labels <$> sg_name group;
        rg_open := match sg_name group with Some _ => settingsGroupIsOn group stored | None => true end;
        rg_hint := match sg_name group with
                   | Some _ => (fun _ => settingsGroupIsOn group stored) <$> sg_enabledPath group
                   | None => None
                   end;
        rg_rows := setting_rows group values labels |})
    <$> groupSettingsFields fields.

(** ** The sections *)

Inductive settings_section :=
  | SectionForm (name : jstring) (initial : jsval) (fields : list SettingsField)
      (saveTitle saveConsequence : jstring) (testable : option (list ChannelTest))
  | SectionValues (groups : list read_group).

Definition settings_section_of (writable : bool) (fields : list SettingsField) (values : jsval)
    (name title : jstring) : settings_section :=
  if writable then
    SectionForm name values fields
      (t inherited_text catalogs (u "settings.confirmSaveTitle") locale (Some [(u "section", Some title)]))
      (settingsSaveConsequence fields
         (t inherited_text catalogs (u "settings.confirmSave") locale (Some [(u "section", Some title)]))
         (word (u "settings.confirmSaveSecrets")))
      (if jeqb name (u "notifications") then Some (channelTests fields fieldLabels) else None)
  else SectionValues (ReadOnlyFields fields values fieldLabels).

Definition PAGE_SECTIONS : list (jstring * list SettingsField) :=
  [ (u "notifications", NOTIFICATION_FIELDS); (u "sms", SMS_FIELDS); (u "devices", DEVICE_FIELDS);
    (u "security", SECURITY_FIELDS) ].

(** [section(FIELDS, settings.name ?? {}, ..)] of each card, in order. *)
Definition settings_sections (page : settings_read) : list settings_section :=
  (fun entry => settings_section_of (sp_writable page) entry.2
                  (default (VObj []) (field entry.1 (sp_settings page))) entry.1
                  (word (u "settings." ++ entry.1)))
    <$> PAGE_SECTIONS.
End Page.

(** ** components/channel-health.tsx *)

Inductive channel_standing := Delivering | Failing (times : Z).
Inductive channel_success := NeverSucceeded | NoSuccessInWindow | LastSuccess (at_ : Z).

Record channel_line := {
  cl_channel : jstring;
  cl_standing : channel_standing;
  cl_success : channel_success;
  cl_attempts : Z;
  cl_detail : option jstring;
}.

Definition channel_draws (row : ChannelHealthRow) : channel_line :=
  {| cl_channel := ch_channel row;
     cl_standing := if (ch_consecutiveFailures row =? 0)%Z then Delivering
                    else Failing (ch_consecutiveFailures row);
     cl_success := match ch_lastSuccess row with
                   | Some at_ => LastSuccess at_
                   | None => if ch_windowFull row then NoSuccessInWindow else NeverSucceeded
                   end;
     cl_attempts := ch_total row;
     cl_detail := if jeqb (ch_lastDetail row) [] then None else Some (ch_lastDetail row) |}.

(** [None]: no record to show, which is not a record of success. *)
Definition ChannelHealth (rows : list ChannelHealthRow) : option (list channel_line) :=
  match rows with [] => None | _ => Some (channel_draws <$> rows) end.

(** ** Lemmas *)

(** Grouping loses no field and adds none. *)
Lemma add_to_group_fields name f groups :
  concat (add_to_group name f groups).*2 ≡ₚ f :: concat groups.*2.
Proof.
  induction groups as [|[n own] groups IH]; [done|]. cbn [add_to_group].
  destruct (same_group name n); cbn [fmap list_fmap snd concat].
  - rewrite <-app_assoc. symmetry. apply (Permutation_middle own).
  - rewrite IH. symmetry. apply (Permutation_middle own).
Qed.

Lemma groupSettingsFields_fields fields :
  concat (sg_fields <$> groupSettingsFields fields) ≡ₚ fields.
Proof.
  unfold groupSettingsFields. rewrite <-list_fmap_compose.
  rewrite (list_fmap_ext _ snd) by done.
  assert (H : forall fs groups,
    concat (fold_left (fun groups f => add_to_group (group_name f) f groups) fs groups).*2
    ≡ₚ concat groups.*2 ++ fs).
  { induction fs as [|f fs IH]; intros groups; cbn [fold_left]; [by rewrite app_nil_r|].
    rewrite IH, add_to_group_fields. apply (Permutation_middle (concat groups.*2)). }
  by rewrite H.
Qed.

(** What assigning a function of the key leaves under a key. *)
Lemma fold_assign {A K} (key : K -> jstring) (value : K -> A) (ks : list K) (m : list (jstring * A)) k :
  (forall a b, a ∈ ks -> b ∈ ks -> key a = key b -> value a = value b) ->
  field k (fold_left (fun m a => map_set (key a) (value a) m) ks m)
  = match List.find (fun a => jeqb k (key a)) ks with Some a => Some (value a) | None => field k m end.
Proof.
  intros Hf. revert m. induction ks as [|a ks IH]; intros m; [done|]. cbn [fold_left List.find].
  rewrite IH by (intros; apply Hf; by rewrite ?elem_of_cons; auto).
  destruct (jeqb k (key a)) eqn:E.
  - apply jeqb_eq in E. subst k. destruct (List.find _ ks) as [b|] eqn:Eb.
    + apply List.find_some in Eb as [Hb Eb]. apply jeqb_eq in Eb. f_equal.
      apply Hf; [right; by apply list_elem_of_In|left|done].
    + apply map_get_set_eq.
  - destruct (List.find _ ks); [done|]. apply map_get_set_ne. by apply jeqb_neq in E.
Qed.

Lemma values_at (value : jstring -> jsval) (fields : list SettingsField) path :
  value_at (fold_left (fun m f => map_set (sf_path f) (value (sf_path f)) m) fields []) path
  = if existsb (fun f => jeqb path (sf_path f)) fields then value path else VUndef.
Proof.
  unfold value_at. rewrite (fold_assign sf_path (fun f => value (sf_path f))).
  - induction fields as [|f fields IH]; [done|]. cbn. destruct (jeqb path (sf_path f)) eqn:E; [|done].
    apply jeqb_eq in E. by subst path.
  - by intros a b _ _ ->.
Qed.

Section Facts.
Context `{ToString}.
Context (inherited_text : jstring -> jstring).
Context (catalogs : Locale -> list (jstring * jstring)) (locale : Locale).

Lemma read_only_rows fields values labels :
  concat (rg_rows <$> ReadOnlyFields inherited_text fields values labels)
  ≡ₚ (fun f => (label_or inherited_text labels (sf_path f),
                displaySettingValue (readSettingValue values (sf_path f))
                  (default [] (field (u "valueOn") labels)) (default [] (field (u "valueOff") labels))))
     <$> fields.
Proof.
  rewrite <-(groupSettingsFields_fields fields) at 2. unfold ReadOnlyFields.
  generalize (stored_values fields values). intros stored.
  induction (groupSettingsFields fields) as [|g groups IH]; [done|].
  rewrite !fmap_cons. cbn [concat rg_rows]. rewrite fmap_app. by f_equiv.
Qed.

(** The settings page offers a save to nobody who may not save.  Each of
    the four sections is the form, with its own fields and what is stored,
    for an account that may write, the channel tests in the notifications
    alone; for any other account it is values, one row for every field and no
    other, each what is stored in words. *)
Theorem settings_page_roles page :
  let labels := fieldLabels inherited_text catalogs locale in
  let stored name := default (VObj []) (field name (sp_settings page)) in
  Forall2 (fun entry drawn =>
    if sp_writable page then
      exists title consequence tests,
        drawn = SectionForm entry.1 (stored entry.1) entry.2 title consequence tests
        /\ (is_some tests = true <-> entry.1 = u "notifications")
    else exists groups, drawn = SectionValues groups
      /\ concat (rg_rows <$> groups)
         ≡ₚ (fun f => (label_or inherited_text labels (sf_path f),
                       displaySettingValue (readSettingValue (stored entry.1) (sf_path f))
                         (default [] (field (u "valueOn") labels)) (default [] (field (u "valueOff") labels))))
            <$> entry.2)
    PAGE_SECTIONS (settings_sections inherited_text catalogs locale page).
Proof.
  intros labels stored. unfold settings_sections. apply Forall2_fmap_r, Forall_Forall2_diag, Forall_forall.
  intros [name fields] _. unfold settings_section_of. cbn [fst snd]. destruct (sp_writable page).
  - do 3 eexists. split; [done|]. cbn [fst snd]. destruct (jeqb name (u "notifications")) eqn:E.
    + apply jeqb_eq in E. done.
    + apply jeqb_neq in E. done.
  - eexists. split; [done|]. apply read_only_rows.
Qed.

(** The two shapes of a section open alike: the panels that start open
    on the form are, by name and in order, those drawn open for an account
    that may only read. *)
Theorem panels_open_alike values fields labels :
  omap (fun name => label_or inherited_text labels <$> name) (openAtFirst values fields)
  = omap (fun group => if rg_open group then rg_title group else None)
      (ReadOnlyFields inherited_text fields values labels).
Proof.
  assert (Hon : forall group,
    settingsGroupIsOn group (stored_values fields values)
    = settingsGroupIsOn group (settingsFormValues values fields)).
  { intros group. unfold settingsGroupIsOn. destruct (sg_enabledPath group) as [path|]; [|done].
    unfold stored_values, settingsFormValues.
    rewrite (values_at (readSettingValue values)), (values_at (fun p => form_value (readSettingValue values p))).
    destruct (existsb _ fields); [|done]. by destruct (readSettingValue values path). }
  unfold openAtFirst, ReadOnlyFields. induction (groupSettingsFields fields) as [|g groups IH]; [done|].
  cbn [List.filter]. rewrite fmap_cons. cbn [omap list_omap rg_open rg_title].
  destruct (sg_name g) as [name|] eqn:En.
  - rewrite Hon. destruct (settingsGroupIsOn g (settingsFormValues values fields)).
    + rewrite fmap_cons. cbn [omap list_omap]. rewrite En. cbn. by f_equal.
    + exact IH.
  - cbn. destruct (settingsGroupIsOn g (settingsFormValues values fields)); [|exact IH].
    rewrite fmap_cons. cbn [omap list_omap]. rewrite En. exact IH.
Qed.

(** A test button for every channel, and a name on it.  The page offers
    one test per channel of the notification settings, in their order; each
    is named in the catalogue's words, and by its own prefix rather than by
    the mark of a missing key where the catalogue has none. *)
Theorem channel_tests_named :
  let tests := channelTests inherited_text catalogs locale NOTIFICATION_FIELDS
                 (fieldLabels inherited_text catalogs locale) in
  ct_channel <$> tests = notificationChannels NOTIFICATION_FIELDS
  /\ Forall (fun test_ =>
       let name := t inherited_text catalogs (u "f." ++ ct_channel test_) locale None in
       ct_label test_ = (if test MISSING_KEY_PATTERN name then ct_channel test_ else name)
       /\ (test MISSING_KEY_PATTERN (ct_channel test_) = false ->
           test MISSING_KEY_PATTERN (ct_label test_) = false)) tests.
Proof.
  intros tests. split.
  - unfold tests, channelTests. rewrite <-list_fmap_compose. rewrite (list_fmap_ext _ id) by done.
    apply list_fmap_id.
  - unfold tests, channelTests. apply Forall_fmap, Forall_forall. intros channel Hin. cbn [compose ct_channel ct_label].
    assert (Hl : label_or inherited_text (fieldLabels inherited_text catalogs locale) channel
                 = channel_name inherited_text catalogs locale channel).
    { unfold label_or, table_read, fieldLabels, assign_all at 1.
      rewrite (fold_assign (fun k => k) (channel_name inherited_text catalogs locale)) by (by intros a b _ _ ->).
      destruct (List.find _ _) as [k|] eqn:E.
      - apply List.find_some in E as [_ E]. apply jeqb_eq in E. by subst k.
      - apply list_elem_of_In in Hin. apply (List.find_none _ _ E) in Hin. apply jeqb_neq in Hin. by destruct Hin. }
    rewrite Hl. unfold channel_name. split; [done|].
    by destruct (test MISSING_KEY_PATTERN (t inherited_text catalogs (u "f." ++ channel) locale None)) eqn:E.
Qed.
End Facts.

(** What the delivery record of a channel is drawn as.  No record is not
    a record of success; every channel the gateway counted is drawn, the
    worst first; one is said never to have succeeded only when its record has
    no success and holds every attempt made; and a channel the gateway gives
    no failure count for is drawn as delivering. *)
Theorem channel_health_drawn `{Network.Platform} `{Collation} fs :
  let rows := parseChannelHealth (VObj fs) in
  (ChannelHealth rows = None <-> omap channelRow fs = [])
  /\ (forall lines, ChannelHealth rows = Some lines -> lines = channel_draws <$> rows)
  /\ StronglySorted (fun a b => (ch_consecutiveFailures b <= ch_consecutiveFailures a)%Z) rows
  /\ (forall row, row ∈ rows -> exists raw, (ch_channel row, raw) ∈ fs
       /\ (cl_success (channel_draws row) = NeverSucceeded ->
             isTrue (prop raw (u "window_full")) = false
             /\ forall s m, str raw "last_success" = Some s -> Date_parse s <> Fin m)
       /\ (cl_standing (channel_draws row) = Delivering <-> nbr_or0 raw "consecutive_failures" = 0%Z)).
Proof.
  intros rows. unfold rows, parseChannelHealth. rewrite not_object_obj. cbn [entries]. split_and!.
  - transitivity (sort health_order (filter_map channelRow fs) = []).
    + unfold ChannelHealth. by destruct (sort _ _).
    + apply sort_nil.
  - unfold ChannelHealth. destruct (sort _ _) eqn:E; [done|]. intros lines [= <-]. done.
  - eapply sorted_weaken; [|apply (sort_sorted health_order)]. intros a b. unfold cmp_le, health_order, cmp_then, cmp_on, cmp_desc.
    destruct (Z.eqb_spec (ch_consecutiveFailures b - ch_consecutiveFailures a) 0); lia.
  - intros row Hr. apply elem_of_sort, elem_of_filter_map in Hr as ([channel raw] & Hin & Hr).
    exists raw. unfold channelRow in Hr. destruct (not_object raw); [done|].
    destruct (nbr raw "total") as [total|]; [|done]. injection Hr as <-. cbn [ch_channel]. split; [done|].
    unfold channel_draws. cbn [cl_success cl_standing ch_lastSuccess ch_windowFull ch_consecutiveFailures]. split.
    + unfold flag. destruct (str raw "last_success") as [s|].
      * destruct (Date_parse s) as [m|negative|] eqn:Ed; [discriminate|..];
          (destruct (isTrue _); [discriminate|]; intros _; split; [reflexivity|];
           intros s' m E; injection E as <-; rewrite Ed; discriminate).
      * destruct (isTrue _); [discriminate|]. intros _. split; [reflexivity|]. discriminate.
    + destruct (Z.eqb_spec (nbr_or0 raw "consecutive_failures") 0) as [E|E]; split; try discriminate; auto.
      intros Hz. by destruct E.
Qed.
