(* ===== verification/FormView.v ===== *)
(** * What two forms show (components/settings-form.tsx: FieldInput, FieldList,
      GroupState, TestButton, SettingsForm; components/card-policies.tsx:
      CardPolicies, PlanCapability; components/ui/secret-input.tsx)

    Every box as the values it is drawn from and what a change of it gives the
    form.  Layout and class names are left out. *)

From Stdlib Require Import Lia.
From S2P Require Import Prelude JsString JsValue JsMap Gateway Messages SmsSafety Guards I18n Settings Component SettingsForm CardPolicies SettingsPage.

(** ** A box of the settings form *)

Inductive box :=
  | CheckBox (checked : bool)
  | SecretBox (props : SecretInputProps)
  | ListBox (text placeholder : jstring)
  | NumberBox (text : jstring)
  | TextBox (text : jstring).


Section Boxes.
Context `{ToString} `{ToNumber}.

(** [String(value ?? "")]. *)
Definition box_text (value : jsval) : jstring := to_string (nullish value (VStr [])).

Definition FieldInput (f : SettingsField) (hint : jstring) (value : jsval) : box :=
  match sf_kind f with
  | KBoolean => CheckBox (isTrue value)
  | KSecret => SecretBox (secretInputProps value)
  | KList => ListBox (box_text value) hint
  | KNumber => NumberBox (box_text value)
  | KText => TextBox (box_text value)
  end.


(** ** The whole form *)

Record group_drawn := {
  gd_title : option jstring;           (** [None]: the flat list *)
  gd_open : bool;
  gd_state : option (bool * jstring);
  gd_boxes : list (jstring * box);
}.

Record test_drawn := {
  ts_text : jstring;
  ts_enabled : bool;
  ts_sent : bool;
  ts_error : option jstring;
}.

Record settings_drawn := {
  vs_groups : list group_drawn;
  vs_enabled : bool;
  vs_message : option (bool * jstring);   (** an error, or a note *)
  vs_tests : list test_drawn;
  vs_dialog : option (jstring * jstring * jstring);
}.

Section Form.
Context (inherited_text : jstring -> jstring) (labels : list (jstring * jstring)).
Context (initial : jsval) (fields : list SettingsField) (testable : list ChannelTest).

Definition own_label (key : string) : jstring := default [] (field (u key) labels).

Definition GroupState (group : SettingsGroup) (values : list (jstring * jsval)) : option (bool * jstring) :=
  match sg_enabledPath group with
  | None => None
  | Some _ =>
      let on := settingsGroupIsOn group values in
      Some (on, own_label (if on then "channelOn" else "channelOff"))
  end.

Definition FieldList (group : SettingsGroup) (values : list (jstring * jsval)) : list (jstring * box) :=
  (fun f => (label_or inherited_text labels (sf_path f),
             FieldInput f (own_label "listHint") (value_at values (sf_path f)))) <$> sg_fields group.

Definition group_draws (values : list (jstring * jsval)) (group : SettingsGroup) : group_drawn :=
  match sg_name group with
  | None => {| gd_title := None; gd_open := true; gd_state := None; gd_boxes := FieldList group values |}
  | Some name =>
      {| gd_title := Some (label_or inherited_text labels name);
         gd_open := existsb (fun opened => bool_decide (opened = Some name)) (openAtFirst initial fields);
         gd_state := GroupState group values;
         gd_boxes := FieldList group values |}
  end.

Definition TestButton (test : ChannelTest) (state : test_state * option jstring) : test_drawn :=
  {| ts_text := own_label "test" ++ u " · " ++ ct_label test;
     ts_enabled := negb (bool_decide (state.1 = TestSending));
     ts_sent := bool_decide (state.1 = TestOk);
     ts_error := if bool_decide (state.1 = TestFailed) then Some (default [] state.2) else None |}.

Definition SettingsForm (s : settings_form) : settings_drawn :=
  {| vs_groups := group_draws (fm_values s) <$> groupSettingsFields fields;
     vs_enabled := negb (bool_decide (fm_status s = StSaving));
     vs_message := match fm_message s with
                   | Some text => if jeqb text [] then None else Some (bool_decide (fm_status s = StError), text)
                   | None => None
                   end;
     vs_tests := zip_with TestButton testable (fm_tests s);
     vs_dialog := (fun p => (sp_title p, sp_consequence p, sp_confirmLabel p)) <$> fm_pending s |}.
End Form.
End Boxes.

(** ** The card policies *)

Record capability_drawn := {
  cb_name : jstring;
  cb_word : jstring;                   (** the reading, or the option chosen *)
  cb_value : option jstring;           (** of the select, where there is one *)
}.

Record policy_drawn := {
  py_iccid : jstring;
  py_cellular : jstring;
  py_cellularBox : option bool;
  py_vertical : jstring;
  py_verticalOptions : option (list jstring);
  py_apn : jstring;
  py_capabilities : list capability_drawn;
  py_remove : bool;
}.

Record policies_drawn := {
  po_error : option jstring;
  po_none : bool;
  po_rows : list policy_drawn;
  po_add : option (list (jstring * jstring));
  po_readOnly : bool;
  po_dialog : option (jstring * jstring);
}.

Section Policies.
Context (labels : list (jstring * jstring)).
Abbreviation own_label := (own_label labels).

(** [capabilityLabelSlot]. *)
Definition capabilityLabelSlot (operation : CardCapabilityOperation) : jstring :=
  match operation with
  | smsSend => u "capabilitySmsSend"
  | smsReceive => u "capabilitySmsReceive"
  | data => u "capabilityData"
  | voice => u "capabilityVoice"
  end.

Definition operation_text (operation : CardCapabilityOperation) : jstring :=
  match operation with
  | smsSend => u "smsSend" | smsReceive => u "smsReceive" | data => u "data" | voice => u "voice"
  end.

Definition nameOf (operation : CardCapabilityOperation) : jstring :=
  default (operation_text operation) (field (capabilityLabelSlot operation) labels).

Definition capability_value (policy : CardPolicyRow) (operation : CardCapabilityOperation) : option bool :=
  match operation with
  | smsSend => cp_smsSend policy
  | smsReceive => cp_smsReceive policy
  | data => cp_data policy
  | voice => cp_voice policy
  end.

Definition shown (state : option bool) : jstring :=
  match state with
  | None => own_label "capabilityUndeclared"
  | Some true => own_label "capabilityYes"
  | Some false => own_label "capabilityNo"
  end.

(** The value of a select, its options, and what choosing one proposes. *)
Definition select_value (state : option bool) : jstring :=
  match state with None => [] | Some true => u "yes" | Some false => u "no" end.
Definition capability_options : list (jstring * jstring) :=
  [ ([], own_label "capabilityUndeclared"); (u "yes", own_label "capabilityYes"); (u "no", own_label "capabilityNo") ].
Definition choose_capability (operation : CardCapabilityOperation) (value : jstring) : CardPolicyEdit :=
  EditCapability operation (if jeqb value [] then None else Some (jeqb value (u "yes"))).

Definition PlanCapability (writable : bool) (policy : CardPolicyRow) : list capability_drawn :=
  (fun operation =>
     let value := capability_value policy operation in
     {| cb_name := nameOf operation;
        cb_word := shown value;
        cb_value := if writable then Some (select_value value) else None |}) <$> CARD_CAPABILITY_OPERATIONS.

Definition policy_draws (writable : bool) (policy : CardPolicyRow) : policy_drawn :=
  {| py_iccid := cp_iccid policy;
     py_cellular := own_label (if cp_cellularEnabled policy then "on" else "off");
     py_cellularBox := if writable then Some (cp_cellularEnabled policy) else None;
     py_vertical := cp_vertical policy;
     py_verticalOptions := if writable then Some [u "cn"; u "intl"] else None;
     py_apn := default (u "—") (cp_apn policy);
     py_capabilities := PlanCapability writable policy;
     py_remove := writable |}.

Definition CardPolicies (confirmations : CardPolicyGuard -> jstring * jstring) (writable : bool)
    (s : card_policies) : policies_drawn :=
  {| po_error := match cs_error s with Some e => if jeqb e [] then None else Some e | None => None end;
     po_none := match cs_policies s with [] => true | _ => false end;
     po_rows := policy_draws writable <$> cs_policies s;
     po_add := if writable then match unpolicied s with [] => None | cards => Some cards end else None;
     po_readOnly := negb writable;
     po_dialog := (fun p => ((confirmations (cq_guard p)).1 ++ u " · " ++ cq_iccid p,
                             (confirmations (cq_guard p)).2)) <$> cs_pending s |}.
End Policies.

(** ** Properties of the settings form *)


Section SettingsBoxes.
Context `{NumberWords}.
Context (section : jstring) (initial : jsval) (fields : list SettingsField) (flabels : settings_labels).
Context (saveTitle saveConsequence : jstring) (testable : list ChannelTest) (hint : jstring).

Abbreviation step := (settings_step section fields flabels saveTitle saveConsequence testable).
Abbreviation mount := (settings_mount initial fields testable).









End SettingsBoxes.

(** ** Properties of the card policies *)

(** Three answers, and each is its own.  For every operation of a card
    the select offers "undeclared", "yes" and "no" and stands on the one the
    policy has, which is the word a reader without controls sees; choosing an
    option proposes the policy that stands on it, with every other operation
    and every other cell as it was. *)
Theorem capability_choice labels policy operation :
  let options := capability_options labels in
  let value p op := select_value (capability_value p op) in
  NoDup options.*1
  /\ (exists word, (value policy operation, word) ∈ options /\ shown labels (capability_value policy operation) = word)
  /\ forall choice word, (choice, word) ∈ options ->
       let chosen := edited_policy (choose_capability operation choice) policy in
       value chosen operation = choice /\ shown labels (capability_value chosen operation) = word
       /\ (forall other, other <> operation -> value chosen other = value policy other)
       /\ cp_iccid chosen = cp_iccid policy /\ cp_cellularEnabled chosen = cp_cellularEnabled policy
       /\ cp_vertical chosen = cp_vertical policy /\ cp_apn chosen = cp_apn policy.
Proof.
  cbv zeta. split_and!.
  - apply (bool_decide_unpack _). by vm_compute.
  - unfold capability_options. destruct (capability_value policy operation) as [[]|]; eexists; (split; [|reflexivity]).
    + right. left.
    + right. right. left.
    + left.
  - intros choice word Hin. unfold capability_options in Hin. split_and!; [| |intros other Ho|done..].
    + repeat (apply elem_of_cons in Hin as [E|Hin]; [injection E as -> ->; by destruct operation|]).
      by apply not_elem_of_nil in Hin.
    + repeat (apply elem_of_cons in Hin as [E|Hin]; [injection E as -> ->; by destruct operation|]).
      by apply not_elem_of_nil in Hin.
    + by destruct operation, other.
Qed.

(** A read-only table of policies.  An account that may only read is
    drawn the same rows with the same words, and no control: no box to tick,
    no select, no button and no form. *)
Theorem policies_read_only labels confirmations s :
  let all := CardPolicies labels confirmations true s in
  let seen := CardPolicies labels confirmations false s in
  Forall2 (fun a b => py_iccid b = py_iccid a /\ py_cellular b = py_cellular a /\ py_vertical b = py_vertical a
             /\ py_apn b = py_apn a
             /\ (fun c => (cb_name c, cb_word c)) <$> py_capabilities b = (fun c => (cb_name c, cb_word c)) <$> py_capabilities a
             /\ py_cellularBox b = None /\ py_verticalOptions b = None /\ py_remove b = false
             /\ Forall (fun c => cb_value c = None) (py_capabilities b))
    (po_rows all) (po_rows seen)
  /\ po_add seen = None /\ po_readOnly seen = true /\ po_error seen = po_error all /\ po_none seen = po_none all.
Proof.
  cbv zeta. split_and!; try done. cbn [CardPolicies po_rows].
  apply Forall2_fmap, Forall_Forall2_diag, Forall_forall. intros policy _.
  split_and!; try done. cbn [policy_draws py_capabilities]. unfold PlanCapability.
  apply Forall_fmap, Forall_forall. by intros.
Qed.

(** ** A concrete form *)



