(* ===== verification/Palette.v ===== *)
(** * The palette as the stylesheet has it (lib/palette-source.ts)

    Finding a rule in [app/globals.css], reading its custom properties, laying
    the light theme over the dark one, and the hexadecimal a triplet of hue,
    saturation and lightness stands for.  The arithmetic of the last is exact
    where the code's is in doubles. *)

From Stdlib Require Import Lia QArith Qround Qabs.
From S2P Require Import Prelude JsString JsValue JsMap.

(** A theme (lib/tokens.ts). *)
Inductive ThemeName := dark | light.
#[export] Instance ThemeName_eq_dec : EqDecision ThemeName.
Proof. solve_decision. Defined.

(** A string in double quotes. *)
Definition quoted (s : string) : jstring := 34%N :: u s ++ [34%N].

(** ** Finding a rule *)

(** What is left of [s] at the first [p] in it. *)
Fixpoint after_sub (p s : jstring) : option jstring :=
  if startsWith s p then Some s else match s with [] => None | _ :: s => after_sub p s end.

(** The loop: what stands before the brace that brings [depth] to 0. *)
Fixpoint rule_text (depth : nat) (s : jstring) : option jstring :=
  match s with
  | [] => None
  | c :: s =>
      if (c =? 123)%N then cons c <$> rule_text (S depth) s
      else if (c =? 125)%N then
        match depth with
        | 0 | 1 => Some []
        | S depth => cons c <$> rule_text depth s
        end
      else cons c <$> rule_text depth s
  end.

Fixpoint after_char (c : N) (s : jstring) : jstring :=
  match s with [] => [] | d :: s => if (d =? c)%N then s else after_char c s end.

Definition ruleBody (GLOBALS selector : jstring) : res jstring :=
  match after_sub (selector ++ u " {") GLOBALS with
  | None => Throw GenericError
  | Some at_ =>
      match rule_text 1 (after_char 123 at_) with
      | Some body => Ok body
      | None => Throw GenericError
      end
  end.

(** ** Its custom properties *)

Definition name_char (c : N) : bool := is_word c || (c =? 45)%N.

Fixpoint span (p : N -> bool) (s : jstring) : jstring * jstring :=
  match s with
  | [] => ([], [])
  | c :: s' => if p c then let '(a, b) := span p s' in (c :: a, b) else ([], s)
  end.

(** One match of [/(--[\w-]+)\s*:\s*([^;]+);/], standing at the start of [s],
    with what follows it. *)
Definition declaration_at (s : jstring) : option ((jstring * jstring) * jstring) :=
  match s with
  | 45%N :: 45%N :: s =>
      let '(name, s) := span name_char s in
      if jeqb name [] then None else
      match trim_start s with
      | 58%N :: s =>
          let '(value, s) := span (fun c => negb (c =? 59)%N) s in
          match s with
          | 59%N :: s => if jeqb value [] then None else Some ((u "--" ++ name, trim value), s)
          | _ => None
          end
      | _ => None
      end
  | _ => None
  end.

(** [body.matchAll(..)], from left to right. *)
Fixpoint declarations (fuel : nat) (s : jstring) : list (jstring * jstring) :=
  match fuel with
  | 0 => []
  | S fuel =>
      match declaration_at s with
      | Some (kv, rest) => kv :: declarations fuel rest
      | None => match s with [] => [] | _ :: s => declarations fuel s end
      end
  end.

Definition set_all (entries m : list (jstring * jstring)) : list (jstring * jstring) :=
  fold_left (fun m kv => map_set kv.1 kv.2 m) entries m.

Definition declarationsIn (GLOBALS selector : jstring) : res (list (jstring * jstring)) :=
  body ← ruleBody GLOBALS selector;
  Ok (set_all (declarations (S (length body)) body) []).

Definition ROOT : jstring := u ":root".
Definition ROOT_LIGHT : jstring := u ":root[data-theme=" ++ quoted "light" ++ u "]".

Definition themeTokens (GLOBALS : jstring) (theme : ThemeName) : res (list (jstring * jstring)) :=
  root ← declarationsIn GLOBALS ROOT;
  match theme with
  | dark => Ok root
  | light => over ← declarationsIn GLOBALS ROOT_LIGHT; Ok (set_all over root)
  end.

(** ** A triplet in hexadecimal *)

Open Scope Q_scope.

Fixpoint digits_value (acc : Z) (s : jstring) : Z :=
  match s with [] => acc | c :: s => digits_value (acc * 10 + (Z.of_N c - 48))%Z s end.

(** [Number(text)] of a run of digits and points; [None] is NaN. *)
Definition decimal (s : jstring) : option Q :=
  match split_on 46 s with
  | [a] => if jeqb a [] then None else Some (digits_value 0 a # 1)
  | [a; b] =>
      if jeqb (a ++ b) [] then None
      else Some (digits_value 0 (a ++ b) # Pos.of_nat (10 ^ length b)%nat)
  | _ => None
  end.

Definition numeral_char (c : N) : bool := is_digit c || (c =? 46)%N.

(** [/^([\d.]+)\s+([\d.]+)%\s+([\d.]+)%$/]. *)
Definition triplet (s : jstring) : option (jstring * jstring * jstring) :=
  let '(h, s1) := span numeral_char s in
  let '(w1, s1) := span is_space s1 in
  let '(sat, s2) := span numeral_char s1 in
  match s2 with
  | 37%N :: s2 =>
      let '(w2, s2) := span is_space s2 in
      let '(l, s3) := span numeral_char s2 in
      if jeqb s3 [37%N] && negb (jeqb h [] || jeqb w1 [] || jeqb sat [] || jeqb w2 [] || jeqb l [])
      then Some (h, sat, l) else None
  | _ => None
  end.

Definition half : Q := 1 # 2.
Definition round_half_up (x : Q) : Z := Qfloor (x + half).
Definition mod2 (x : Q) : Q := x - 2 * (Qfloor (x / 2) # 1).

(** [n.toString(16).padStart(2, "0")]. *)
Fixpoint hex_digits (fuel : nat) (n : N) : jstring :=
  match fuel with
  | O => []
  | S fuel =>
      let d := hex_digit (n mod 16) in
      let d := if (65 <=? d)%N then (d + 32)%N else d in
      (if (n <? 16)%N then [] else hex_digits fuel (n / 16)) ++ [d]
  end.
Definition to_hex (n : Z) : jstring :=
  let digits := hex_digits (S (N.to_nat (N.log2 (Z.abs_N n)))) (Z.abs_N n) in
  let text := if (n <? 0)%Z then 45%N :: digits else digits in
  repeat 48%N (2 - length text)%nat ++ text.

Definition hslTripletToHex (text : jstring) : res (option jstring) :=
  match triplet (trim text) with
  | None => Ok None
  | Some (h, s, l) =>
      match decimal h, decimal s, decimal l with
      | Some hue, Some s, Some l =>
          let saturation := s / 100 in
          let lightness := l / 100 in
          let chroma := (1 - Qabs (2 * lightness - 1)) * saturation in
          let second := chroma * (1 - Qabs (mod2 (hue / 60) - 1)) in
          let base := lightness - chroma / 2 in
          let '(r, g, b) :=
            match (Qfloor (hue / 60) mod 6)%Z with
            | 0%Z => (chroma, second, 0)
            | 1%Z => (second, chroma, 0)
            | 2%Z => (0, chroma, second)
            | 3%Z => (0, second, chroma)
            | 4%Z => (second, 0, chroma)
            | _ => (chroma, 0, second)
            end in
          let byte channel := to_hex (round_half_up ((channel + base) * 255)) in
          Ok (Some (u "#" ++ byte r ++ byte g ++ byte b))
      | _, _, _ => Throw TypeError
      end
  end.

Definition shadcnHex (GLOBALS name : jstring) (theme : ThemeName) : res jstring :=
  tokens ← themeTokens GLOBALS theme;
  match map_get (u "--" ++ name) tokens with
  | None => Throw GenericError
  | Some value =>
      hex ← hslTripletToHex value;
      match hex with Some hex => Ok hex | None => Throw GenericError end
  end.

Close Scope Q_scope.

(** ** Properties *)

Lemma span_app p a b :
  Forall (fun c => p c = true) a -> match b with [] => True | c :: _ => p c = false end ->
  span p (a ++ b) = (a, b).
Proof.
  intros Ha Hb. induction Ha as [|c a Hc _ IH]; cbn.
  - destruct b as [|c b]; [done|]. cbn. by rewrite Hb.
  - by rewrite Hc, IH.
Qed.

(** A rule as it is written: before each property text without a dash, the
    property, and text before the closing brace. *)
Definition no_brace (s : jstring) : Prop := 123%N ∉ s /\ 125%N ∉ s.

Record written := { wr_before : jstring; wr_name : jstring; wr_value : jstring }.

Definition written_text (w : written) : jstring :=
  wr_before w ++ u "--" ++ wr_name w ++ u ": " ++ wr_value w ++ u ";".
Definition written_ok (w : written) : Prop :=
  45%N ∉ wr_before w /\ no_brace (wr_before w) /\ wr_name w <> []
  /\ Forall (fun c => name_char c = true) (wr_name w) /\ 59%N ∉ wr_value w /\ no_brace (wr_value w).
Definition rule_of (selector : jstring) (ws : list written) (tail : jstring) : jstring :=
  selector ++ u " {" ++ concat (written_text <$> ws) ++ tail ++ u "}".
Definition written_entry (w : written) : jstring * jstring := (u "--" ++ wr_name w, trim (wr_value w)).

Lemma declaration_at_written name value rest :
  name <> [] -> Forall (fun c => name_char c = true) name -> 59%N ∉ value ->
  declaration_at (u "--" ++ name ++ u ": " ++ value ++ u ";" ++ rest)
  = Some ((u "--" ++ name, trim value), rest).
Proof.
  intros Hn Hc Hv. change (u "--") with [45%N; 45%N]. cbn [declaration_at app].
  rewrite (span_app name_char name); [|done|done].
  destruct (jeqb name []) eqn:E; [by apply jeqb_eq in E|]. cbn [trim_start is_space].
  change (u ": ") with [58%N; 32%N]. cbn [app trim_start].
  change (is_space 58) with false. cbv iota.
  change (32%N :: value ++ u ";" ++ rest) with ((32%N :: value) ++ 59%N :: rest).
  rewrite (span_app _ (32%N :: value)); [|constructor; [done|]|done].
  - cbn [jeqb]. destruct (jeqb (32%N :: value) []) eqn:Ej; [by apply jeqb_eq in Ej|]. done.
  - apply Forall_forall. intros c Hc'. apply negb_true_iff, N.eqb_neq. by intros ->.
Qed.

Lemma declarations_skip before fuel rest :
  45%N ∉ before -> declarations (length before + fuel) (before ++ rest) = declarations fuel rest.
Proof.
  induction before as [|c before IH]; intros Hb; [done|].
  apply not_elem_of_cons in Hb as [Hc Hb]. cbn [length app plus declarations].
  replace (declaration_at (c :: before ++ rest)) with (@None ((jstring * jstring) * jstring)); [by apply IH|].
  unfold declaration_at. destruct c as [|p]; [done|].
  repeat (destruct p as [p|p|]; try done).
Qed.

Lemma declarations_written ws tail fuel :
  Forall written_ok ws -> 45%N ∉ tail ->
  length (concat (written_text <$> ws) ++ tail) < fuel ->
  declarations fuel (concat (written_text <$> ws) ++ tail) = written_entry <$> ws.
Proof.
  revert fuel. induction ws as [|w ws IH]; intros fuel Hw Ht Hf.
  - cbn in *. rewrite <-(app_nil_r tail). replace fuel with (length tail + (fuel - length tail)) by lia.
    rewrite declarations_skip by done. by destruct (fuel - length tail) as [|k].
  - inversion Hw as [|? ? (Hb & _ & Hn & Hc & Hv & _) Hws]; subst. cbn [fmap list_fmap concat] in *.
    unfold written_text at 1. unfold written_text at 1 in Hf. rewrite <-!app_assoc.
    rewrite !length_app in Hf. cbn [length] in Hf. change (length (u "--")) with 2 in Hf.
    change (length (u ": ")) with 2 in Hf. change (length (u ";")) with 1 in Hf.
    replace fuel with (length (wr_before w) + S (fuel - length (wr_before w) - 1)) by lia.
    rewrite declarations_skip by done. cbn [declarations].
    rewrite declaration_at_written by done. f_equal. apply IH; [done..|]. rewrite length_app. lia.
Qed.

Lemma rule_text_body body rest : no_brace body -> rule_text 1 (body ++ 125%N :: rest) = Some body.
Proof.
  intros [H1 H2]. induction body as [|c body IH]; [done|].
  apply not_elem_of_cons in H1 as [Hc1 H1], H2 as [Hc2 H2]. cbn [app rule_text].
  destruct (N.eqb_spec c 123); [by subst|]. destruct (N.eqb_spec c 125); [by subst|]. by rewrite IH.
Qed.

Lemma after_sub_first p before s :
  (forall i, i < length before -> startsWith (drop i (before ++ s)) p = false) ->
  startsWith s p = true -> after_sub p (before ++ s) = Some s.
Proof.
  induction before as [|c before IH]; intros Hb Hs.
  - cbn [app]. destruct s; cbn [after_sub]; by rewrite Hs.
  - cbn [app after_sub]. pose proof (Hb 0 ltac:(cbn; lia)) as H0. cbn [drop app] in H0. rewrite H0.
    apply IH; [|done]. intros i Hi. apply (Hb (S i)). cbn. lia.
Qed.

Lemma after_char_app c a s : c ∉ a -> after_char c (a ++ c :: s) = s.
Proof.
  induction a as [|d a IH]; cbn; [by rewrite N.eqb_refl|]. intros [Hd Ha]%not_elem_of_cons.
  destruct (N.eqb_spec d c); [by subst|]. by apply IH.
Qed.

Lemma no_brace_written ws tail :
  Forall written_ok ws -> no_brace tail -> no_brace (concat (written_text <$> ws) ++ tail).
Proof.
  intros Hw Ht. induction Hw as [|w ws (_ & [B1 B2] & _ & Hc & _ & [V1 V2]) _ [I1 I2]]; [done|].
  assert (Hn : forall c, name_char c = false -> c ∉ wr_name w).
  { intros c Hf Hin. eapply Forall_forall in Hc; [|exact Hin]. by rewrite Hf in Hc. }
  cbn [fmap list_fmap concat]. unfold written_text at 1. rewrite <-!app_assoc. unfold no_brace in *.
  rewrite !not_elem_of_app in *. destruct I1, I2. split_and!;
    first [done | by apply Hn | by intros Hin; vm_compute in Hin; repeat (apply elem_of_cons in Hin as [Hin|Hin]; [discriminate|]); apply elem_of_nil in Hin].
Qed.

Lemma set_all_NoDup entries m : NoDup m.*1 -> NoDup (set_all entries m).*1.
Proof.
  unfold set_all. revert m. induction entries as [|kv l IH]; intros m H0; [done|].
  cbn [fold_left]. apply IH. by apply map_set_NoDup.
Qed.

Lemma declarationsIn_NoDup GLOBALS selector m : declarationsIn GLOBALS selector = Ok m -> NoDup m.*1.
Proof.
  unfold declarationsIn. destruct (ruleBody GLOBALS selector) as [body|]; [|done].
  cbn [mbind res_bind]. intros [= <-]. apply set_all_NoDup. constructor.
Qed.

(** What the tests read is what a browser applies.  In a sheet whose first
    rule of a selector is written out, its custom properties are exactly those
    written, each with the last value written for it, whatever stands between
    them; and laying the light rule over the root one gives each property the
    light value where there is one and the root's otherwise. *)
Theorem palette_reads pre selector ws tail post k :
  (forall i, i < length pre ->
     startsWith (drop i (pre ++ rule_of selector ws tail ++ post)) (selector ++ u " {") = false) ->
  123%N ∉ selector -> Forall written_ok ws -> no_brace tail -> 45%N ∉ tail ->
  exists m, declarationsIn (pre ++ rule_of selector ws tail ++ post) selector = Ok m
    /\ map_get k m = last (omap (fun kv => if jeqb k kv.1 then Some kv.2 else None) (written_entry <$> ws))
    /\ forall GLOBALS root over, declarationsIn GLOBALS ROOT = Ok root -> declarationsIn GLOBALS ROOT_LIGHT = Ok over ->
         themeTokens GLOBALS dark = Ok root
         /\ exists t, themeTokens GLOBALS light = Ok t
              /\ map_get k t = or_else (map_get k over) (map_get k root).
Proof.
  intros Hfirst Hsel Hw Ht Hd. unfold declarationsIn at 1, ruleBody.
  rewrite after_sub_first; [|done|]; cycle 1.
  { apply startsWith_spec. exists ((concat (written_text <$> ws) ++ tail ++ u "}") ++ post).
    unfold rule_of. by rewrite <-!app_assoc. }
  unfold rule_of. change (u " {") with ([32%N] ++ [123%N]).
  rewrite <-!app_assoc, (app_assoc selector [32%N]). cbn [app].
  rewrite after_char_app by (rewrite not_elem_of_app, list_elem_of_singleton; split; [done|discriminate]).
  change (u "}" ++ post) with (125%N :: post). rewrite app_assoc, rule_text_body by (by apply no_brace_written).
  cbn [mbind res_bind]. eexists. split; [done|]. rewrite declarations_written; [|exact Hw|exact Hd|apply Nat.lt_succ_diag_r]. split.
  - unfold set_all. rewrite (fold_map_set_last fst snd). by destruct (last _).
  - intros GLOBALS root over Hr Ho. assert (Hn : NoDup over.*1) by (by eapply declarationsIn_NoDup). unfold themeTokens. rewrite Hr. cbn [mbind res_bind]. rewrite Ho.
    split; [done|]. cbn. eexists. split; [done|]. unfold set_all. rewrite (fold_map_set_last fst snd).
    f_equal. clear -Hn. induction over as [|[k' v] over IH]; [done|]. cbn [omap list_omap fst snd].
    cbn in Hn. apply NoDup_cons in Hn as [Hk Hn]. specialize (IH Hn). unfold map_get in *. cbn [field].
    destruct (jeqb k k') eqn:E; [|done]. apply jeqb_eq in E as ->.
    assert (Hnone : omap (fun kv : jstring * jstring => if jeqb k' kv.1 then Some kv.2 else None) over = []).
    { clear -Hk. induction over as [|[k v] over IH]; [done|]. cbn in *.
      apply not_elem_of_cons in Hk as [Hne Hk]. apply jeqb_neq in Hne. rewrite Hne. by apply IH. }
    by rewrite Hnone.
Qed.

Lemma palette_reads_witness :
  exists m, declarationsIn (rule_of (u ":root")
      [ {| wr_before := u " "; wr_name := u "accent"; wr_value := u "240 5% 64.9%" |};
        {| wr_before := [10%N]; wr_name := u "accent"; wr_value := u " #ffffff" |} ] [10%N]) (u ":root") = Ok m
    /\ map_get (u "--accent") m = Some (u "#ffffff").
Proof.
  destruct (palette_reads [] (u ":root")
    [ {| wr_before := u " "; wr_name := u "accent"; wr_value := u "240 5% 64.9%" |};
      {| wr_before := [10%N]; wr_name := u "accent"; wr_value := u " #ffffff" |} ] [10%N] [] (u "--accent"))
    as (m & Hm & Hk & _).
  - cbn. lia.
  - by apply (bool_decide_unpack _); vm_compute.
  - repeat constructor; try discriminate; by apply (bool_decide_unpack _); vm_compute.
  - split; by apply (bool_decide_unpack _); vm_compute.
  - by apply (bool_decide_unpack _); vm_compute.
  - exists m. split.
    + rewrite <-Hm. by rewrite !app_nil_r.
    + rewrite Hk. by vm_compute.
Defined.
