(* ===== verification/DesignTokens.v ===== *)
(** * The design tokens (lib/tokens.ts, tailwind.config.ts, app/globals.css)

    The token tables, what they ask a stylesheet to declare, the Tailwind theme
    built from them, and the two rules of [app/globals.css] that declare custom
    properties, as tables.  An object is a list of entries; the order of its
    keys is not compared. *)

From S2P Require Import Prelude JsString JsValue JsMap Palette Pwa.

Record ThemedValue := { tv_dark : jstring; tv_light : jstring }.
Definition themed (theme : ThemeName) (v : ThemedValue) : jstring :=
  match theme with dark => tv_dark v | light => tv_light v end.

(** ** The tables *)

Definition CANVAS : ThemedValue := {| tv_dark := CANVAS_dark; tv_light := u "#ffffff" |}.

Definition COLOR_TOKENS : list (jstring * ThemedValue) :=
  [ (u "ok", {| tv_dark := u "#4ade9b"; tv_light := u "#085d3f" |});
    (u "warn", {| tv_dark := u "#f0b429"; tv_light := u "#6a4c06" |});
    (u "bad", {| tv_dark := u "#ffa9ac"; tv_light := u "#9b222c" |});
    (u "info", {| tv_dark := u "#97c3ff"; tv_light := u "#1f5099" |});
    (u "bad-ink", {| tv_dark := u "#52070a"; tv_light := u "#ffffff" |});
    (u "ok-wash", {| tv_dark := u "rgba(74, 222, 155, 0.14)"; tv_light := u "rgba(16, 180, 122, 0.1)" |});
    (u "warn-wash", {| tv_dark := u "rgba(240, 180, 41, 0.14)"; tv_light := u "rgba(184, 134, 11, 0.12)" |});
    (u "bad-wash", {| tv_dark := u "rgba(242, 104, 109, 0.14)"; tv_light := u "rgba(214, 69, 80, 0.1)" |});
    (u "info-wash", {| tv_dark := u "rgba(99, 164, 255, 0.14)"; tv_light := u "rgba(43, 111, 212, 0.1)" |}) ].

Definition SHADOW_TOKENS : list (jstring * ThemedValue) :=
  [ (u "shadow", {| tv_dark := u "0 1px 2px rgba(0, 0, 0, 0.35)"
      ; tv_light := u "0 1px 2px rgba(16, 24, 40, 0.06)" |});
    (u "shadow-lg", {| tv_dark := u "0 12px 32px rgba(0, 0, 0, 0.45)"
      ; tv_light := u "0 12px 32px rgba(16, 24, 40, 0.12)" |}) ].

Definition TEXT_TOKENS : list (jstring * jstring) :=
  [ (u "text-xs", u "0.75rem"); (u "text-sm", u "0.8125rem"); (u "text-base", u "0.9375rem");
    (u "text-lg", u "1.125rem"); (u "text-xl", u "1.5rem"); (u "text-2xl", u "2rem") ].

Definition FONT_TOKENS : list (jstring * jstring) :=
  [ (u "font-ui", (u "ui-sans-serif, system-ui, -apple-system, " ++ quoted "Segoe UI" ++ u ", "
      ++ quoted "PingFang SC" ++ u ", "
      ++ quoted "Hiragino Sans GB" ++ u ", " ++ quoted "Microsoft YaHei" ++ u ", sans-serif"));
    (u "font-mono", (u "ui-monospace, SFMono-Regular, " ++ quoted "SF Mono" ++ u ", Menlo, Consolas, monospace")) ].

Definition SPACE_TOKENS : list (jstring * jstring) :=
  [ (u "s1", u "0.25rem"); (u "s2", u "0.5rem"); (u "s3", u "0.75rem"); (u "s4", u "1rem");
    (u "s5", u "1.5rem"); (u "s6", u "2rem"); (u "s7", u "3rem") ].

Definition RADIUS_BASE : jstring := u "10px".

(** A ratio, in tenths, as the language writes it. *)
Definition tenths_text (n : nat) : jstring :=
  index_name (n / 10) ++ if (n mod 10 =? 0)%nat then [] else u "." ++ index_name (n mod 10).

Definition RADIUS_RATIOS : list (jstring * nat) :=
  [ (u "radius", 8); (u "radius-md", 10); (u "radius-lg", 14) ].

Definition radiusStep (ratio : nat) : jstring :=
  if (ratio =? 10)%nat then u "var(--radius-base)"
  else u "calc(var(--radius-base) * " ++ tenths_text ratio ++ u ")".

Definition RADIUS_TOKENS : list (jstring * jstring) :=
  (u "radius-base", RADIUS_BASE) :: ((fun kv => (kv.1, radiusStep kv.2)) <$> RADIUS_RATIOS)
  ++ [ (u "radius-pill", u "999px") ].

Definition SIZE_TOKENS : list (jstring * jstring) :=
  [ (u "touch", u "44px") ].

Definition THEMED_TOKENS : list (jstring * ThemedValue) :=
  fold_left (fun m kv => map_set kv.1 kv.2 m) SHADOW_TOKENS COLOR_TOKENS.
Definition STATIC_TOKENS : list (jstring * jstring) :=
  fold_left (fun m kv => map_set kv.1 kv.2 m)
    (FONT_TOKENS ++ SPACE_TOKENS ++ RADIUS_TOKENS ++ SIZE_TOKENS) TEXT_TOKENS.

(** ** What the stylesheet has to declare *)

Definition themeOverrideValues (theme : ThemeName) : list (jstring * jstring) :=
  fold_left (fun out kv => map_set kv.1 (themed theme kv.2) out) THEMED_TOKENS [].
Definition rootTokenValues (theme : ThemeName) : list (jstring * jstring) :=
  set_all STATIC_TOKENS (fold_left (fun out kv => map_set kv.1 (themed theme kv.2) out) THEMED_TOKENS []).

Definition var_of (name : jstring) : jstring := u "var(--" ++ name ++ u ")".
Definition refs {A} (table : list (jstring * A)) : list (jstring * jstring) :=
  fold_left (fun out name => map_set name (var_of name) out) table.*1 [].

(** ** The Tailwind scales *)

Definition TAILWIND_COLORS : list (jstring * jstring) :=
  [ (u "inherit", u "inherit"); (u "current", u "currentColor"); (u "transparent", u "transparent");
    (u "white", u "#ffffff"); (u "black", u "#000000") ] ++ refs COLOR_TOKENS.

Definition TAILWIND_SPACING : list (jstring * jstring) :=
  [ (u "0", u "0px"); (u "px", u "1px") ] ++ refs SPACE_TOKENS ++ refs SIZE_TOKENS.

Definition TAILWIND_FONT_SIZE : list (jstring * jstring) :=
  [ (u "xs", u "var(--text-xs)"); (u "sm", u "var(--text-sm)"); (u "base", u "var(--text-base)");
    (u "lg", u "var(--text-lg)"); (u "xl", u "var(--text-xl)"); (u "2xl", u "var(--text-2xl)") ].

Definition TAILWIND_BORDER_RADIUS : list (jstring * jstring) :=
  [ (u "none", u "0px"); (u "DEFAULT", u "var(--radius)"); (u "md", u "var(--radius-md)");
    (u "lg", u "var(--radius-lg)"); (u "pill", u "var(--radius-pill)"); (u "full", u "9999px") ].

Definition TAILWIND_BOX_SHADOW : list (jstring * jstring) :=
  [ (u "none", u "none"); (u "DEFAULT", u "var(--shadow)"); (u "lg", u "var(--shadow-lg)") ].

Definition TAILWIND_FONT_FAMILY : list (jstring * jstring) :=
  [ (u "sans", u "var(--font-ui)"); (u "mono", u "var(--font-mono)") ].

Definition TAILWIND_MAX_WIDTH : list (jstring * jstring) :=
  [ (u "none", u "none"); (u "full", u "100%"); (u "measure", u "24rem"); (u "page", u "80rem") ].

Definition TAILWIND_LINE_HEIGHT : list (jstring * jstring) :=
  [ (u "none", u "1") ].

Definition TAILWIND_LETTER_SPACING : list (jstring * jstring) :=
  [ (u "normal", u "0em"); (u "tight", u "-0.025em"); (u "wider", u "0.05em"); (u "eyebrow", u "1.4px") ].

Definition TAILWIND_OPACITY : list (jstring * jstring) :=
  [ (u "0", u "0"); (u "50", u "0.5"); (u "90", u "0.9"); (u "100", u "1") ].

Definition TAILWIND_Z_INDEX : list (jstring * jstring) :=
  [ (u "auto", u "auto"); (u "0", u "0"); (u "10", u "10"); (u "20", u "20"); (u "30", u "30") ].

Definition TAILWIND_WIDTH : list (jstring * jstring) :=
  [ (u "auto", u "auto"); (u "full", u "100%"); (u "rail", u "14rem") ] ++ TAILWIND_SPACING.

Definition TAILWIND_GRID_TEMPLATE_COLUMNS : list (jstring * jstring) :=
  [ (u "none", u "none"); (u "1", u "repeat(1, minmax(0, 1fr))"); (u "2", u "repeat(2, minmax(0, 1fr))");
    (u "3", u "repeat(3, minmax(0, 1fr))"); (u "4", u "repeat(4, minmax(0, 1fr))");
    (u "5", u "repeat(5, minmax(0, 1fr))"); (u "6", u "repeat(6, minmax(0, 1fr))") ].

Definition TAILWIND_MIN_HEIGHT : list (jstring * jstring) :=
  [ (u "0", u "0px"); (u "full", u "100%"); (u "dvh", u "100dvh") ] ++ refs SPACE_TOKENS ++ refs SIZE_TOKENS.

Definition TAILWIND_MAX_HEIGHT : list (jstring * jstring) :=
  [ (u "none", u "none"); (u "full", u "100%"); (u "dvh", u "100dvh"); (u "panel", u "22rem") ].

Definition TAILWIND_BORDER_WIDTH : list (jstring * jstring) :=
  [ (u "DEFAULT", u "1px"); (u "0", u "0px"); (u "2", u "2px") ].

Definition TAILWIND_RING_WIDTH : list (jstring * jstring) :=
  [ (u "DEFAULT", u "3px"); (u "0", u "0px"); (u "2", u "2px") ].

Definition TAILWIND_RING_OFFSET_WIDTH : list (jstring * jstring) :=
  [ (u "0", u "0px"); (u "2", u "2px") ].

Definition TAILWIND_INSET : list (jstring * jstring) :=
  [ (u "0", u "0px"); (u "auto", u "auto"); (u "full", u "100%") ].

Definition TAILWIND_FLEX : list (jstring * jstring) :=
  [ (u "1", u "1 1 0%"); (u "auto", u "1 1 auto"); (u "none", u "none") ].

(** ** tailwind.config.ts *)

Definition FULL_SPACING : list (jstring * jstring) :=
  [ (u "0", u "0px"); (u "px", u "1px"); (u "0.5", u "0.125rem"); (u "1", u "0.25rem");
    (u "1.5", u "0.375rem"); (u "2", u "0.5rem"); (u "2.5", u "0.625rem"); (u "3", u "0.75rem");
    (u "3.5", u "0.875rem"); (u "4", u "1rem"); (u "5", u "1.25rem"); (u "6", u "1.5rem");
    (u "7", u "1.75rem"); (u "8", u "2rem"); (u "9", u "2.25rem"); (u "10", u "2.5rem");
    (u "11", u "2.75rem"); (u "12", u "3rem"); (u "14", u "3.5rem"); (u "16", u "4rem");
    (u "20", u "5rem"); (u "24", u "6rem"); (u "28", u "7rem"); (u "32", u "8rem"); (u "36", u "9rem");
    (u "40", u "10rem"); (u "44", u "11rem"); (u "48", u "12rem"); (u "52", u "13rem");
    (u "56", u "14rem"); (u "60", u "15rem"); (u "64", u "16rem"); (u "72", u "18rem");
    (u "80", u "20rem"); (u "96", u "24rem") ].

Definition FULL_OPACITY : list (jstring * jstring) :=
  [ (u "0", u "0"); (u "5", u "0.05"); (u "10", u "0.1"); (u "15", u "0.15"); (u "20", u "0.2");
    (u "25", u "0.25"); (u "30", u "0.3"); (u "35", u "0.35"); (u "40", u "0.4"); (u "45", u "0.45");
    (u "50", u "0.5"); (u "55", u "0.55"); (u "60", u "0.6"); (u "65", u "0.65"); (u "70", u "0.7");
    (u "75", u "0.75"); (u "80", u "0.8"); (u "85", u "0.85"); (u "90", u "0.9"); (u "95", u "0.95");
    (u "100", u "1") ].

(** A colour of the theme, or the colours under one name. *)
Inductive colour := One (value : jstring) | Group (values : list (jstring * jstring)).

Definition hsl_of (name : jstring) : jstring := u "hsl(var(--" ++ name ++ u ") / <alpha-value>)".

Definition SHADCN_COLORS : list (jstring * colour) :=
  [ (u "background", One (hsl_of (u "background"))); (u "foreground", One (hsl_of (u "foreground")));
    (u "card", Group [(u "DEFAULT", hsl_of (u "card")); (u "foreground", hsl_of (u "card-foreground"))]);
    (u "popover", Group [(u "DEFAULT", hsl_of (u "popover")); (u "foreground", hsl_of (u "popover-foreground"))]);
    (u "primary", Group [(u "DEFAULT", hsl_of (u "primary")); (u "foreground", hsl_of (u "primary-foreground"))]);
    (u "secondary", Group [(u "DEFAULT", hsl_of (u "secondary")); (u "foreground", hsl_of (u "secondary-foreground"))]);
    (u "muted", Group [(u "DEFAULT", hsl_of (u "muted")); (u "foreground", hsl_of (u "muted-foreground"))]);
    (u "accent", Group [(u "DEFAULT", hsl_of (u "accent")); (u "foreground", hsl_of (u "accent-foreground"))]);
    (u "destructive", Group [(u "DEFAULT", hsl_of (u "destructive")); (u "foreground", hsl_of (u "destructive-foreground"))]);
    (u "sidebar", Group [(u "DEFAULT", hsl_of (u "sidebar")); (u "foreground", hsl_of (u "sidebar-foreground")); (u "accent", hsl_of (u "sidebar-accent"))
      ; (u "accent-foreground", hsl_of (u "sidebar-accent-foreground")); (u "border", hsl_of (u "sidebar-border"))
      ; (u "ring", hsl_of (u "sidebar-ring"))]);
    (u "border", One (hsl_of (u "border"))); (u "input", One (hsl_of (u "input")));
    (u "ring", One (hsl_of (u "ring"))) ].

Definition COLORS : list (jstring * colour) :=
  fold_left (fun m kv => map_set kv.1 kv.2 m) SHADCN_COLORS
    ((fun kv => (kv.1, One kv.2)) <$> TAILWIND_COLORS).

(** The scales of [theme] that stand in the place of Tailwind's, and those of
    [theme.extend], which are added to them; the colours apart. *)
Definition REPLACED : list (jstring * list (jstring * jstring)) :=
  [ (u "fontFamily", TAILWIND_FONT_FAMILY); (u "opacity", FULL_OPACITY);
    (u "gridTemplateColumns", TAILWIND_GRID_TEMPLATE_COLUMNS); (u "flex", TAILWIND_FLEX) ].
Definition EXTENDED : list (jstring * list (jstring * jstring)) :=
  [ (u "ringWidth", TAILWIND_RING_WIDTH); (u "ringOffsetWidth", TAILWIND_RING_OFFSET_WIDTH);
    (u "borderWidth", TAILWIND_BORDER_WIDTH); (u "minHeight", TAILWIND_MIN_HEIGHT);
    (u "maxHeight", TAILWIND_MAX_HEIGHT); (u "inset", TAILWIND_INSET);
    (u "spacing", set_all TAILWIND_SPACING FULL_SPACING); (u "fontSize", TAILWIND_FONT_SIZE);
    (u "borderRadius", TAILWIND_BORDER_RADIUS); (u "maxWidth", TAILWIND_MAX_WIDTH);
    (u "zIndex", TAILWIND_Z_INDEX); (u "width", TAILWIND_WIDTH); (u "lineHeight", TAILWIND_LINE_HEIGHT);
    (u "letterSpacing", TAILWIND_LETTER_SPACING); (u "boxShadow", TAILWIND_BOX_SHADOW);
    (u "borderColor", [ (u "DEFAULT", u "hsl(var(--border))") ]);
    (u "ringColor", [ (u "DEFAULT", u "var(--brand-edge)") ]);
    (u "ringOffsetColor", [ (u "DEFAULT", u "hsl(var(--background))") ]) ].

(** ** app/globals.css

    The custom properties of its two rules that have any, in their order. *)

Definition GLOBALS_root : list (jstring * jstring) :=
  [ (u "--background", u "240 10% 3.9%"); (u "--foreground", u "0 0% 98%");
    (u "--card", u "240 10% 3.9%"); (u "--card-foreground", u "0 0% 98%");
    (u "--popover", u "240 10% 3.9%"); (u "--popover-foreground", u "0 0% 98%");
    (u "--primary", u "0 0% 98%"); (u "--primary-foreground", u "240 5.9% 10%");
    (u "--secondary", u "240 3.7% 15.9%"); (u "--secondary-foreground", u "0 0% 98%");
    (u "--muted", u "240 3.7% 15.9%"); (u "--muted-foreground", u "0 0% 65.5%");
    (u "--accent", u "240 3.7% 15.9%"); (u "--accent-foreground", u "0 0% 98%");
    (u "--destructive", u "358 100% 83.1%"); (u "--destructive-foreground", u "358 84% 17.5%");
    (u "--border", u "240 3.7% 15.9%"); (u "--input", u "240 3.7% 15.9%");
    (u "--ring", u "240 4.9% 83.9%"); (u "--sidebar", u "240 5.9% 10%");
    (u "--sidebar-foreground", u "240 4.8% 95.9%"); (u "--sidebar-accent", u "240 3.7% 15.9%");
    (u "--sidebar-accent-foreground", u "240 4.8% 95.9%"); (u "--sidebar-border", u "240 3.7% 15.9%");
    (u "--sidebar-ring", u "217.2 91.2% 59.8%"); (u "--ok", u "#4ade9b"); (u "--warn", u "#f0b429");
    (u "--bad", u "#ffa9ac"); (u "--info", u "#97c3ff"); (u "--bad-ink", u "#52070a");
    (u "--ok-wash", u "rgba(74, 222, 155, 0.14)"); (u "--warn-wash", u "rgba(240, 180, 41, 0.14)");
    (u "--bad-wash", u "rgba(242, 104, 109, 0.14)"); (u "--info-wash", u "rgba(99, 164, 255, 0.14)");
    (u "--text-xs", u "0.75rem"); (u "--text-sm", u "0.8125rem"); (u "--text-base", u "0.9375rem");
    (u "--text-lg", u "1.125rem"); (u "--text-xl", u "1.5rem"); (u "--text-2xl", u "2rem");
    (u "--font-ui", ((u "ui-sans-serif, system-ui, -apple-system, " ++ quoted "Segoe UI" ++ u ", "
      ++ quoted "PingFang SC" ++ u ",") ++ [10]%N ++ (u "    "
      ++ quoted "Hiragino Sans GB" ++ u ", " ++ quoted "Microsoft YaHei" ++ u ", sans-serif")));
    (u "--font-mono", (u "ui-monospace, SFMono-Regular, " ++ quoted "SF Mono" ++ u ", Menlo, Consolas, monospace"));
    (u "--s1", u "0.25rem"); (u "--s2", u "0.5rem"); (u "--s3", u "0.75rem"); (u "--s4", u "1rem");
    (u "--s5", u "1.5rem"); (u "--s6", u "2rem"); (u "--s7", u "3rem"); (u "--radius-base", u "10px");
    (u "--radius", u "calc(var(--radius-base) * 0.8)"); (u "--radius-md", u "var(--radius-base)");
    (u "--radius-lg", u "calc(var(--radius-base) * 1.4)"); (u "--radius-pill", u "999px");
    (u "--shadow", u "0 1px 2px rgba(0, 0, 0, 0.35)");
    (u "--shadow-lg", u "0 12px 32px rgba(0, 0, 0, 0.45)"); (u "--touch", u "44px") ].

Definition GLOBALS_light : list (jstring * jstring) :=
  [ (u "--background", u "0 0% 100%"); (u "--foreground", u "240 10% 3.9%"); (u "--card", u "0 0% 100%");
    (u "--card-foreground", u "240 10% 3.9%"); (u "--popover", u "0 0% 100%");
    (u "--popover-foreground", u "240 10% 3.9%"); (u "--primary", u "240 5.9% 10%");
    (u "--primary-foreground", u "0 0% 98%"); (u "--secondary", u "240 4.8% 95.9%");
    (u "--secondary-foreground", u "240 5.9% 10%"); (u "--muted", u "240 4.8% 95.9%");
    (u "--muted-foreground", u "0 0% 29.4%"); (u "--accent", u "240 4.8% 95.9%");
    (u "--accent-foreground", u "240 5.9% 10%"); (u "--destructive", u "355 64% 37%");
    (u "--destructive-foreground", u "0 0% 100%"); (u "--border", u "240 5.9% 90%");
    (u "--input", u "240 5.9% 90%"); (u "--ring", u "240 5.9% 10%"); (u "--sidebar", u "0 0% 98%");
    (u "--sidebar-foreground", u "240 5.3% 26.1%"); (u "--sidebar-accent", u "240 4.8% 95.9%");
    (u "--sidebar-accent-foreground", u "240 5.9% 10%"); (u "--sidebar-border", u "220 13% 91%");
    (u "--sidebar-ring", u "217.2 91.2% 59.8%"); (u "--ok", u "#085d3f"); (u "--warn", u "#6a4c06");
    (u "--bad", u "#9b222c"); (u "--info", u "#1f5099"); (u "--bad-ink", u "#ffffff");
    (u "--ok-wash", u "rgba(16, 180, 122, 0.1)"); (u "--warn-wash", u "rgba(184, 134, 11, 0.12)");
    (u "--bad-wash", u "rgba(214, 69, 80, 0.1)"); (u "--info-wash", u "rgba(43, 111, 212, 0.1)");
    (u "--shadow", u "0 1px 2px rgba(16, 24, 40, 0.06)");
    (u "--shadow-lg", u "0 12px 32px rgba(16, 24, 40, 0.12)") ].

(** The two rules as text, without their comments. *)
Definition globals_css : jstring :=
  let written kv := {| wr_before := [10%N; 32%N; 32%N]; wr_name := drop 2 kv.1; wr_value := kv.2 |} in
  rule_of ROOT (written <$> GLOBALS_root) [10%N] ++ [10%N; 10%N]
  ++ rule_of ROOT_LIGHT (written <$> GLOBALS_light) [10%N].

(** [getComputedStyle(root).getPropertyValue(name)], where these are the
    properties of the root. *)
Definition getPropertyValue (tokens : list (jstring * jstring)) (name : jstring) : jstring :=
  default [] (map_get name tokens).

(** ** Properties *)

(** Two values a browser reads alike: the same words. *)
Definition words (s : jstring) : list jstring :=
  List.filter (fun w => negb (jeqb w [])) (split_on 32 ((fun c => if is_space c then 32%N else c) <$> s)).

(** The custom properties a value refers to. *)
Fixpoint vars (fuel : nat) (s : jstring) : list jstring :=
  match fuel, after_sub (u "var(--") s with
  | S fuel, Some rest =>
      let '(name, rest) := span name_char (drop 4 rest) in name :: vars fuel rest
  | _, _ => []
  end.

Definition colour_values (c : colour) : list jstring :=
  match c with One value => [value] | Group values => values.*2 end.

Definition is_triplet (value : jstring) : bool :=
  match hslTripletToHex value with Ok (Some _) => true | _ => false end.

(** Every reference of the theme, with the scale and the key it stands in. *)
Definition references : list (jstring * jstring * jstring) :=
  concat ((fun scale => concat ((fun kv => (fun name => (scale.1, kv.1, name)) <$> vars (length kv.2) kv.2)
                                 <$> scale.2)) <$> REPLACED ++ EXTENDED)
  ++ concat ((fun kv => concat ((fun value => (fun name => (u "colors", kv.1, name)) <$> vars (length value) value)
                                 <$> colour_values kv.2)) <$> COLORS).

Definition declared (tokens : list (jstring * jstring)) (name : jstring) : bool :=
  negb (jeqb (getPropertyValue tokens name) []).

Definition sheet_tokens (theme : ThemeName) : list (jstring * jstring) :=
  match theme with dark => GLOBALS_root | light => set_all GLOBALS_light GLOBALS_root end.

Lemma sheet_read theme : themeTokens globals_css theme = Ok (sheet_tokens theme).
Proof. destruct theme; by vm_compute. Qed.

Lemma both_themes (P : ThemeName -> Prop) : P dark -> P light -> forall theme, P theme.
Proof. by intros ?? []. Qed.

(** C35. The stylesheet and the tables are one palette.  In either theme the
    sheet gives every token of the tables the table's value, white space
    aside; every other property it declares is a triplet of hue, saturation
    and lightness; and of the tokens its light rule declares again exactly
    those that depend on the theme, which laid over the dark ones are the
    light ones. *)
Theorem stylesheet_declares_tokens theme :
  exists sheet, themeTokens globals_css theme = Ok sheet
  /\ Forall (fun kv => words (getPropertyValue sheet (u "--" ++ kv.1)) = words kv.2) (rootTokenValues theme)
  /\ Forall (fun name => is_some (map_get (drop 2 name) (rootTokenValues theme)) = true
                         \/ is_triplet (getPropertyValue sheet name) = true) GLOBALS_root.*1
  /\ Forall (fun name => is_some (map_get (u "--" ++ name) GLOBALS_light)
                         = is_some (map_get name THEMED_TOKENS)) (rootTokenValues theme).*1
  /\ set_all (themeOverrideValues theme) (rootTokenValues dark) = rootTokenValues theme.
Proof.
  exists (sheet_tokens theme). split; [apply sheet_read|].
  revert theme. apply both_themes; split_and!; by apply (bool_decide_unpack _); vm_compute.
Qed.

(** Every colour, length and shadow of the Tailwind theme that refers to a
    custom property refers to one the sheet declares, in both themes, but
    one: the ring's default colour.  And a reference wrapped in [hsl()] is to
    a triplet, one that stands alone is not, so no colour is void. *)
Theorem theme_references theme :
  exists sheet, themeTokens globals_css theme = Ok sheet
  /\ List.filter (fun r => negb (declared sheet r.2)) references
  = [(u "ringColor", u "DEFAULT", u "--brand-edge")]
  /\ Forall (fun value => Forall (fun name => is_triplet (getPropertyValue sheet name) = startsWith value (u "hsl("))
                            (vars (length value) value)) (concat (colour_values <$> COLORS.*2)).
Proof.
  exists (sheet_tokens theme). split; [apply sheet_read|].
  revert theme. apply both_themes; split; by apply (bool_decide_unpack _); vm_compute.
Qed.

(** The colours written a second time are the sheet's.  The canvas the
    manifest and the page's head carry is its background, in either theme,
    and the red that warns and the ink on it are the palette's own. *)
Theorem canvas_is_background theme :
  shadcnHex globals_css (u "background") theme = Ok (themed theme CANVAS)
  /\ shadcnHex globals_css (u "destructive") theme
     = Ok (default [] (themed theme <$> map_get (u "bad") COLOR_TOKENS))
  /\ shadcnHex globals_css (u "destructive-foreground") theme
     = Ok (default [] (themed theme <$> map_get (u "bad-ink") COLOR_TOKENS))
  /\ mf_theme_color consoleManifest = tv_dark CANVAS.
Proof.
  unfold shadcnHex. rewrite sheet_read. cbn [mbind res_bind].
  revert theme. apply both_themes; split_and!; by apply (bool_decide_unpack _); vm_compute.
Qed.

(** Where the scales depart from what is said of them ("with the defaults
    gone, an off-token class produces no CSS at all"): the spacing scale has
    Tailwind's own steps too, of which the seven tokens are seven, and the
    opacities are Tailwind's, of which the four of the table are four. *)
Theorem scales_not_closed :
  let spacing := default [] (field (u "spacing") EXTENDED) in
  Forall (fun step => map_get step.1 FULL_SPACING = map_get step.2 SPACE_TOKENS)
    [ (u "1", u "s1"); (u "2", u "s2"); (u "3", u "s3"); (u "4", u "s4"); (u "6", u "s5"); (u "8", u "s6");
      (u "12", u "s7") ]
  /\ Forall (fun kv => map_get kv.1 spacing = Some kv.2) FULL_SPACING
  /\ is_some (map_get (u "4") TAILWIND_SPACING) = false
  /\ Forall (fun kv => map_get kv.1 FULL_OPACITY = Some kv.2) TAILWIND_OPACITY
  /\ field (u "opacity") REPLACED = Some FULL_OPACITY /\ length FULL_OPACITY = 21 /\ length TAILWIND_OPACITY = 4.
Proof. cbv zeta. split_and!; try done; by apply (bool_decide_unpack _); vm_compute. Qed.
