(* ===== verification/Shell.v ===== *)
(** * What every page stands in (app/layout.tsx, components/shell.tsx,
      components/sidebar.tsx, ui/sidebar.tsx, pwa.tsx, theme-toggle.tsx,
      locale-switch.tsx, live-reload.tsx)

    The frame of a page and the small machines in it: the theme and the
    language the reader picks, the rail, the install offer, and the stream of
    events that redraws a list.  What the browser keeps between two loads
    (cookies, localStorage) is part of their state. *)

From Stdlib Require Import Lia.
From S2P Require Import Prelude JsString JsValue JsMap Palette DesignTokens Tenant Navigation I18n Pwa Component.

(** ** localStorage

    Reading or writing throws where storage is blocked by policy. *)
Inductive storage := StorageBlocked | Storage (value : option jstring).

Definition getItem (s : storage) : res (option jstring) :=
  match s with StorageBlocked => Throw TypeError | Storage value => Ok value end.
Definition setItem (value : jstring) (s : storage) : res storage :=
  match s with StorageBlocked => Throw TypeError | Storage _ => Ok (Storage (Some value)) end.

(** ** components/theme-toggle.tsx *)

Abbreviation Theme := ThemeName.

Definition theme_text (theme : Theme) : jstring :=
  match theme with dark => u "dark" | light => u "light" end.

Record theme_toggle := {
  tt_theme : option Theme;             (** null until the first effect *)
  tt_root : option Theme;              (** [document.documentElement.dataset.theme] *)
  tt_bar : option jstring;             (** the theme-color meta, if the page has one *)
  tt_storage : storage;
}.

Section ThemeToggle.
(** [getComputedStyle(root).getPropertyValue(..)] under each theme, of the
    property the toggle asks for. *)
Variable background : Theme -> jstring.

Definition paintStatusBar (root : Theme) (bar : option jstring) : option jstring :=
  match bar with
  | Some content => Some (if jeqb (trim (background root)) [] then content else trim (background root))
  | None => None
  end.

(** The effect on [theme]. *)
Definition apply_theme (s : theme_toggle) : res theme_toggle :=
  match tt_theme s with
  | None => Ok s
  | Some theme =>
      stored ← setItem (theme_text theme) (tt_storage s);
      Ok {| tt_theme := Some theme; tt_root := Some theme;
            tt_bar := paintStatusBar theme (tt_bar s); tt_storage := stored |}
  end.

(** [setTheme]: the state, then its effect. *)
Definition setTheme (theme : Theme) (s : theme_toggle) : res theme_toggle :=
  apply_theme {| tt_theme := Some theme; tt_root := tt_root s; tt_bar := tt_bar s;
                 tt_storage := tt_storage s |}.

(** The first effect of a page just loaded. *)
Definition theme_boot (prefersLight : bool) (bar : option jstring) (kept : storage) : res theme_toggle :=
  stored ← getItem kept;
  let initial :=
    match stored with
    | Some s => if jeqb s (u "light") then light else if jeqb s (u "dark") then dark
                else if prefersLight then light else dark
    | None => if prefersLight then light else dark
    end in
  setTheme initial {| tt_theme := None; tt_root := None; tt_bar := bar; tt_storage := kept |}.

Definition next_theme (s : theme_toggle) : Theme :=
  if bool_decide (tt_theme s = Some light) then dark else light.
Definition theme_press (s : theme_toggle) : res theme_toggle := setTheme (next_theme s) s.

(** A load and some presses. *)
Fixpoint theme_presses (n : nat) (s : theme_toggle) : res theme_toggle :=
  match n with
  | O => Ok s
  | S n => next ← theme_press s; theme_presses n next
  end.
End ThemeToggle.

(** ** components/locale-switch.tsx *)

Definition locale_text (l : Locale) : jstring := match l with zh => u "zh" | en => u "en" end.

Record locale_switch := {
  ls_cookie : option jstring;          (** the value under LOCALE_COOKIE *)
  ls_lang : jstring;                   (** [document.documentElement.lang] *)
  ls_reloads : nat;
}.

Definition setLocale (locale next : Locale) (s : locale_switch) : locale_switch :=
  if jeqb (locale_text next) (locale_text locale) then s
  else {| ls_cookie := Some (locale_text next); ls_lang := htmlLang next;
          ls_reloads := S (ls_reloads s) |}.

(** ** components/live-reload.tsx

    The array of kinds is compared by identity.  A page that names none gets
    the default, a new array each time the component renders. *)

Record live_reload := {
  lr_deps : nat;                       (** the array of the last effect *)
  lr_kinds : list jstring;
  lr_source : nat;                     (** the EventSource that is open *)
  lr_opened : nat;                     (** how many there have been *)
  lr_fresh : nat;                      (** the next new array *)
}.

Definition LIVE_KINDS : list jstring := [u "SmsReceived"; u "DeviceState"].

(** A render: the effect runs again when the array is another one, closing
    the stream and opening the next. *)
Definition live_render (prop : option (nat * list jstring)) (s : live_reload) : live_reload :=
  let '(identity, kinds) := default (lr_fresh s, LIVE_KINDS) prop in
  let fresh := match prop with Some _ => lr_fresh s | None => S (lr_fresh s) end in
  if (identity =? lr_deps s)%nat
  then {| lr_deps := lr_deps s; lr_kinds := lr_kinds s; lr_source := lr_source s;
          lr_opened := lr_opened s; lr_fresh := fresh |}
  else {| lr_deps := identity; lr_kinds := kinds; lr_source := lr_opened s;
          lr_opened := S (lr_opened s); lr_fresh := fresh |}.

Definition live_mount (prop : option (nat * list jstring)) (fresh : nat) : live_reload :=
  let '(identity, kinds) := default (fresh, LIVE_KINDS) prop in
  {| lr_deps := identity; lr_kinds := kinds; lr_source := 0; lr_opened := 1;
     lr_fresh := match prop with Some _ => fresh | None => S fresh end |}.

(** An [uplink] event on some stream: only the open one has a listener. *)
Definition onUplink (source : nat) (data : jstring) (s : live_reload) : list effect :=
  if (source =? lr_source s)%nat && existsb (jeqb data) (lr_kinds s) then [RouterRefresh] else [].

(** ** components/pwa.tsx: InstallPrompt *)

Record install_prompt := {
  ip_mounted : bool;
  ip_state : InstallState;
  ip_dismissed : bool;
  ip_deferred : option nat;            (** the beforeinstallprompt event kept *)
  ip_asked : list nat;                 (** the prompts awaiting the reader's choice *)
  ip_standalone : bool;
  ip_platform : Pwa.Platform;
  ip_storage : storage;                (** under INSTALL_DISMISSED_KEY *)
}.

Inductive install_event :=
  | InstallMount (userAgent : jstring) (maxTouchPoints : Z) (matches : jstring -> bool) (iosStandalone : bool)
  | BeforeInstallPrompt (event : nat)
  | AppInstalled
  | PressInstall
  | UserChoice (asked : nat) (accepted : bool)
  | PressDismiss.

(** [event.prompt()]. *)
Inductive install_effect := Prompt (event : nat).

Definition install_start (kept : storage) : install_prompt :=
  {| ip_mounted := false; ip_state := Unavailable; ip_dismissed := true; ip_deferred := None;
     ip_asked := []; ip_standalone := false; ip_platform := other; ip_storage := kept |}.

(** [refresh()]. *)
Definition install_refresh (s : install_prompt) : install_prompt :=
  {| ip_mounted := ip_mounted s;
     ip_state := installState (ip_standalone s) (is_some (ip_deferred s)) (ip_platform s);
     ip_dismissed := ip_dismissed s; ip_deferred := ip_deferred s; ip_asked := ip_asked s;
     ip_standalone := ip_standalone s; ip_platform := ip_platform s; ip_storage := ip_storage s |}.

(** [remember()]: a write that throws is let go. *)
Definition install_remember (s : install_prompt) : install_prompt :=
  {| ip_mounted := ip_mounted s; ip_state := ip_state s; ip_dismissed := true;
     ip_deferred := ip_deferred s; ip_asked := ip_asked s; ip_standalone := ip_standalone s;
     ip_platform := ip_platform s;
     ip_storage := match setItem (u "1") (ip_storage s) with Ok kept => kept | Throw _ => ip_storage s end |}.

Definition install_defer (deferred : option nat) (asked : list nat) (s : install_prompt) : install_prompt :=
  {| ip_mounted := ip_mounted s; ip_state := ip_state s; ip_dismissed := ip_dismissed s;
     ip_deferred := deferred; ip_asked := asked; ip_standalone := ip_standalone s;
     ip_platform := ip_platform s; ip_storage := ip_storage s |}.

Definition install_set (state : InstallState) (s : install_prompt) : install_prompt :=
  {| ip_mounted := ip_mounted s; ip_state := state; ip_dismissed := ip_dismissed s;
     ip_deferred := ip_deferred s; ip_asked := ip_asked s; ip_standalone := ip_standalone s;
     ip_platform := ip_platform s; ip_storage := ip_storage s |}.

(** The banner, and the button iOS does not get. *)
Definition install_drawn (s : install_prompt) : bool :=
  negb (ip_dismissed s) && match ip_state s with Promptable | IosGuide => true | _ => false end.
Definition install_button (s : install_prompt) : bool :=
  install_drawn s && match ip_state s with IosGuide => false | _ => true end.

Definition install_step (s : install_prompt) (e : install_event)
    : option (install_prompt * list install_effect) :=
  match e with
  | InstallMount userAgent maxTouchPoints matches iosStandalone =>
      if ip_mounted s then None else
      let remembered := match getItem (ip_storage s) with
                        | Ok (Some v) => jeqb v (u "1")
                        | _ => false
                        end in
      Some (install_refresh
              {| ip_mounted := true; ip_state := ip_state s; ip_dismissed := remembered;
                 ip_deferred := ip_deferred s; ip_asked := ip_asked s;
                 ip_standalone := isStandalone matches iosStandalone;
                 ip_platform := detectPlatform userAgent maxTouchPoints;
                 ip_storage := ip_storage s |}, [])
  | BeforeInstallPrompt event =>
      if ip_mounted s then Some (install_refresh (install_defer (Some event) (ip_asked s) s), []) else None
  | AppInstalled =>
      if ip_mounted s then Some (install_set Installed (install_defer None (ip_asked s) s), []) else None
  | PressInstall =>
      if negb (install_button s) then None else
      match ip_deferred s with
      | None => Some (s, [])
      | Some event => Some (install_defer None (ip_asked s ++ [event]) s, [Prompt event])
      end
  | UserChoice asked accepted =>
      match ip_asked s !! asked with
      | None => None
      | Some _ =>
          let s := install_defer (ip_deferred s) (delete asked (ip_asked s)) s in
          Some (if accepted then install_set Installed s else install_remember s, [])
      end
  | PressDismiss => if install_drawn s then Some (install_remember s, []) else None
  end.

(** ** components/ui/sidebar.tsx *)

Definition MOBILE_BREAKPOINT : Z := 768.
Definition SIDEBAR_KEYBOARD_SHORTCUT : jstring := u "b".

Record sidebar := {
  sb_open : bool;
  sb_openMobile : bool;
  sb_isMobile : bool;
  sb_cookie : option bool;             (** SIDEBAR_COOKIE_NAME *)
}.

Inductive sidebar_event :=
  | SidebarKey (key : jstring) (metaKey ctrlKey : bool)
  | SidebarTrigger
  | SidebarSheet (open : bool)
  | WindowWidth (innerWidth : Z).

(** [SidebarProvider] as the layout renders it: [defaultOpen] left at true,
    and no control from outside. *)
Definition sidebar_mount (cookie : option bool) : sidebar :=
  {| sb_open := true; sb_openMobile := false; sb_isMobile := false; sb_cookie := cookie |}.

Definition setOpen (openState : bool) (s : sidebar) : sidebar :=
  {| sb_open := openState; sb_openMobile := sb_openMobile s; sb_isMobile := sb_isMobile s;
     sb_cookie := Some openState |}.
Definition setOpenMobile (open : bool) (s : sidebar) : sidebar :=
  {| sb_open := sb_open s; sb_openMobile := open; sb_isMobile := sb_isMobile s;
     sb_cookie := sb_cookie s |}.
Definition toggleSidebar (s : sidebar) : sidebar :=
  if sb_isMobile s then setOpenMobile (negb (sb_openMobile s)) s else setOpen (negb (sb_open s)) s.

Definition sidebar_step (s : sidebar) (e : sidebar_event) : option (sidebar * list effect) :=
  match e with
  | SidebarKey key metaKey ctrlKey =>
      Some (if jeqb key SIDEBAR_KEYBOARD_SHORTCUT && (metaKey || ctrlKey) then toggleSidebar s else s, [])
  | SidebarTrigger => Some (toggleSidebar s, [])
  | SidebarSheet open => if sb_isMobile s then Some (setOpenMobile open s, []) else None
  | WindowWidth innerWidth =>
      Some ({| sb_open := sb_open s; sb_openMobile := sb_openMobile s;
               sb_isMobile := (innerWidth <? MOBILE_BREAKPOINT)%Z; sb_cookie := sb_cookie s |}, [])
  end.

(** ** components/sidebar.tsx: the rail's links *)

Record rail_link := {
  rl_href : jstring;
  rl_key : jstring;
  rl_active : bool;
  rl_current : bool;                   (** [aria-current="page"] *)
}.

Definition rail_item (pathname : jstring) (item : NavItem) : rail_link :=
  let state := navState pathname (ni_href item) in
  {| rl_href := ni_href item; rl_key := ni_key item; rl_active := is_some state;
     rl_current := bool_decide (state = Some NavPage) |}.
Definition AppSidebar (pathname : jstring) : list (option jstring * list rail_link) :=
  (fun group => (ng_label group, rail_item pathname <$> ng_items group)) <$> NAV_GROUPS.

(** ** app/layout.tsx *)

Record page_frame := {
  pf_lang : jstring;
  pf_rail : option (list (option jstring * list rail_link));
  pf_header : option (jstring * jstring * TenantRegion);   (** slug, tenant id, region *)
  pf_loadedAt : Z;
}.

Definition RootLayout (locale : Locale) (tenant : option Tenant) (token : option jstring)
    (pathname : option jstring) (now : Z) : page_frame :=
  let signedIn := match token with Some v => negb (jeqb v []) | None => false end in
  let chrome := match tenant with Some t => if signedIn then Some t else None | None => None end in
  {| pf_lang := htmlLang locale;
     pf_rail := (fun _ => AppSidebar (default [] pathname)) <$> chrome;
     pf_header := (fun t => (slug t, tenant_id t, region t)) <$> chrome;
     pf_loadedAt := now |}.

(** ** Properties: what the reader picked *)

Section ThemeFacts.
Variable background : Theme -> jstring.

(** The screen and the store say one theme, and the bar too where the
    stylesheet has the colour asked for. *)
Definition theme_settled (theme : Theme) (s : theme_toggle) : Prop :=
  tt_theme s = Some theme /\ tt_root s = Some theme /\ tt_storage s = Storage (Some (theme_text theme))
  /\ (trim (background theme) <> [] -> tt_bar s = None \/ tt_bar s = Some (trim (background theme))).

Lemma setTheme_settled theme s kept :
  tt_storage s = Storage kept ->
  exists s', setTheme background theme s = Ok s' /\ theme_settled theme s'.
Proof.
  intros Hk. unfold setTheme, apply_theme. cbn [tt_theme tt_storage tt_bar]. rewrite Hk. cbn.
  eexists. split; [done|]. unfold theme_settled, paintStatusBar. cbn. split_and!; [done..|].
  intros Hne. apply jeqb_neq in Hne. rewrite Hne. destruct (tt_bar s); [by right|by left].
Qed.

Lemma theme_presses_settled n theme s :
  theme_settled theme s ->
  exists s', theme_presses background n s = Ok s'
    /\ theme_settled (if Nat.even n then theme else match theme with dark => light | light => dark end) s'.
Proof.
  revert theme s. induction n as [|n IH]; intros theme s Hs; [by exists s|].
  destruct Hs as (Ht & Hr & Hk & Hb).
  assert (Hn : next_theme s = match theme with dark => light | light => dark end).
  { unfold next_theme. rewrite Ht. by destruct theme. }
  destruct (setTheme_settled (next_theme s) s _ Hk) as (s1 & E1 & Hs1).
  cbn [theme_presses]. unfold theme_press. rewrite E1. cbn [res_bind]. rewrite Hn in Hs1.
  destruct (IH _ _ Hs1) as (s2 & E2 & Hs2). exists s2. split; [exact E2|].
  rewrite Nat.even_succ, <-Nat.negb_even. by destruct (Nat.even n), theme.
Qed.
End ThemeFacts.

(** The theme the reader picked is the theme on the screen and the theme
    of the next load.  However many times the toggle is pressed, the page
    and the store say one theme, and the status bar too where the stylesheet
    has the colour it asks for; a second press undoes the
    first; and the next load comes up in it, whatever the system prefers. *)
Theorem theme_kept background prefersLight prefersLight' bar bar' kept n :
  exists first s s' theme,
    theme_boot background prefersLight bar (Storage kept) = Ok first
    /\ theme_presses background n first = Ok s
    /\ theme_boot background prefersLight' bar' (tt_storage s) = Ok s'
    /\ theme_settled background theme s /\ theme_settled background theme s'
    /\ (Nat.even n = true -> tt_theme first = Some theme)
    /\ (kept = Some (u "light") -> tt_theme first = Some light)
    /\ (kept = Some (u "dark") -> tt_theme first = Some dark).
Proof.
  unfold theme_boot at 1. cbn [getItem mbind res_bind].
  set (initial := match kept with Some _ => _ | None => _ end).
  destruct (setTheme_settled background initial
    {| tt_theme := None; tt_root := None; tt_bar := bar; tt_storage := Storage kept |} kept eq_refl)
    as (first & E0 & H0).
  destruct (theme_presses_settled background n initial first H0) as (s & E1 & H1).
  set (theme := if Nat.even n then initial else _) in H1. destruct H1 as (Ht & Hr & Hk & Hb).
  destruct (setTheme_settled background theme
    {| tt_theme := None; tt_root := None; tt_bar := bar'; tt_storage := tt_storage s |} _ Hk)
    as (s' & E2 & H2).
  exists first, s, s', theme. split_and!; [done|done| |done|done| | |].
  - unfold theme_boot. rewrite Hk in E2 |- *. cbn [getItem mbind res_bind]. rewrite <-E2. f_equal.
    by destruct theme.
  - intros He. unfold theme. rewrite He. apply H0.
  - intros E. destruct H0 as (Hf & _). rewrite Hf. unfold initial. by rewrite E.
  - intros E. destruct H0 as (Hf & _). rewrite Hf. unfold initial. by rewrite E.
Qed.

(** Where the toggle departs from what it is for ("the status bar ... has to
    move when the background does"): it asks the stylesheet for [--bg], which
    no theme declares, so the bar keeps the colour it was served with. *)
Theorem status_bar_stuck theme bar :
  exists sheet, themeTokens globals_css theme = Ok sheet
    /\ map_get (u "--bg") sheet = None
    /\ paintStatusBar (fun _ => getPropertyValue sheet (u "--bg")) theme bar = bar.
Proof.
  exists (sheet_tokens theme). split; [apply sheet_read|].
  assert (E : map_get (u "--bg") (sheet_tokens theme) = None) by (by destruct theme; vm_compute).
  split; [exact E|]. unfold getPropertyValue. rewrite E. by destruct bar.
Qed.

(** Where the toggle departs from the install banner beside it, which "a
    private window, or storage blocked by policy, must not take down": with
    storage blocked the banner is still offered and the toggle's effect
    throws. *)
Theorem blocked_storage background prefersLight bar matches_ :
  theme_boot background prefersLight bar StorageBlocked = Throw TypeError
  /\ exists s, install_step (install_start StorageBlocked) (InstallMount (u "iPhone") 5 matches_ false) = Some (s, [])
       /\ (existsb matches_ STANDALONE_QUERIES = false -> install_drawn s = true).
Proof.
  split; [done|]. eexists. split; [done|]. intros Hm. unfold install_refresh, install_drawn, isStandalone.
  cbn [ip_dismissed ip_state ip_standalone ip_platform ip_deferred getItem ip_storage install_start negb andb].
  rewrite Hm. by vm_compute.
Qed.

(** The language picked is the language served.  Picking the other
    language changes the document's language, reloads once, and the next
    request is answered in it; picking the one in force does nothing. *)
Theorem locale_kept locale next s :
  let s' := setLocale locale next s in
  (next = locale -> s' = s)
  /\ (next <> locale -> getRequestLocale (ls_cookie s') = next /\ ls_lang s' = htmlLang next
        /\ ls_reloads s' = S (ls_reloads s)).
Proof. by destruct locale, next; split; intros ?. Qed.

(** Where the stream of events is not one stream: a page that names no kinds
    gives the component a new array at every render, so every redraw, and so
    every refresh the stream itself asks for, closes it and opens another;
    an event on a stream already closed asks for nothing. *)
Theorem live_reload_reopens n fresh identity kinds :
  lr_opened (Nat.iter n (live_render None) (live_mount None fresh)) = S n
  /\ lr_opened (Nat.iter n (live_render (Some (identity, kinds))) (live_mount (Some (identity, kinds)) fresh)) = 1
  /\ forall s source data, source <> lr_source s -> onUplink source data s = [].
Proof.
  split_and!.
  - enough (H : lr_opened (Nat.iter n (live_render None) (live_mount None fresh)) = S n
      /\ lr_deps (Nat.iter n (live_render None) (live_mount None fresh))
         < lr_fresh (Nat.iter n (live_render None) (live_mount None fresh))) by apply H.
    induction n as [|n IH]; [cbn; lia|]. rewrite Nat.iter_succ.
    set (s := Nat.iter n _ _) in *. unfold live_render. cbn -[Nat.eqb].
    destruct (Nat.eqb_spec (lr_fresh s) (lr_deps s)); cbn; lia.
  - set (prop := Some (identity, kinds)).
    enough (H : lr_opened (Nat.iter n (live_render prop) (live_mount prop fresh)) = 1
      /\ lr_deps (Nat.iter n (live_render prop) (live_mount prop fresh)) = identity) by apply H.
    induction n as [|n IH]; [done|]. rewrite Nat.iter_succ.
    set (s := Nat.iter n _ _) in *. unfold live_render, prop. cbn [default from_option].
    destruct IH as [IH1 IH2]. cbn -[Nat.eqb]. by rewrite IH2, Nat.eqb_refl.
  - intros s source data Hn. unfold onUplink. by destruct (Nat.eqb_spec source (lr_source s)).
Qed.

(** ** Properties: the install offer *)

Definition is_before (e : install_event) : bool :=
  match e with BeforeInstallPrompt _ => true | _ => false end.
Definition deferred_count (s : install_prompt) : nat := length ((match ip_deferred s with Some event => [event] | None => [] end)).

Lemma install_step_spends s e s' out :
  install_step s e = Some (s', out) ->
  length out + deferred_count s' <= (if is_before e then 1 else 0) + deferred_count s.
Proof.
  intros Hst. destruct e; cbn [install_step is_before] in *; repeat case_match; simplify_eq;
    unfold deferred_count; cbn; repeat case_match; simplify_eq; cbn; first [lia|congruence].
Qed.

(** Once put away, the offer stays away until the next load. *)
Definition put_away (s : install_prompt) : Prop := ip_mounted s = true /\ ip_dismissed s = true.

Lemma put_away_stays s e s' out :
  put_away s -> install_step s e = Some (s', out) -> put_away s' /\ out = [].
Proof.
  intros [Hm Hd]. assert (Hn : install_drawn s = false) by (unfold install_drawn; by rewrite Hd).
  assert (Hb : install_button s = false) by (unfold install_button; by rewrite Hn).
  destruct e; cbn [install_step]; rewrite ?Hm, ?Hn, ?Hb; cbn [negb]; intros Hst; repeat case_match;
    simplify_eq; done.
Qed.

(** The install offer asks once for every time the browser says it may
    ask, and takes no for an answer.  The browser's dialog is opened at most
    once for each event that allows it; after the reader declines or puts the
    offer away, or where a load finds it was put away before, nothing is
    drawn and no dialog opens for the rest of that load, and the store keeps
    the answer for the next; and the iOS directions have no button. *)
Theorem install_offer kept tr s :
  run install_step (install_start kept) tr s ->
  length (effects tr) <= length (List.filter (fun eo => is_before eo.1) tr)
  /\ (ip_state s = IosGuide -> install_step s PressInstall = None)
  /\ (forall e s1 out, install_step s e = Some (s1, out) ->
       e = PressDismiss \/ (exists i, e = UserChoice i false) ->
       ip_mounted s = true ->
       (ip_storage s <> StorageBlocked -> ip_storage s1 = Storage (Some (u "1")))
       /\ forall tr' s2, run install_step s1 tr' s2 -> install_drawn s2 = false /\ effects tr' = [])
  /\ (forall ua touch matches_ standalone s1 out, kept = Storage (Some (u "1")) -> tr = [] ->
       install_step s (InstallMount ua touch matches_ standalone) = Some (s1, out) ->
       forall tr' s2, run install_step s1 tr' s2 -> install_drawn s2 = false /\ effects tr' = []).
Proof.
  intros Hr.
  assert (Haway : forall s1, put_away s1 -> forall tr' s2, run install_step s1 tr' s2 ->
            install_drawn s2 = false /\ effects tr' = []).
  { intros s1 H1 tr' s2 Hrun. enough (H : put_away s2 /\ effects tr' = []).
    { destruct H as [[_ Hd] He]. unfold install_drawn. by rewrite Hd. }
    induction Hrun as [s1|s1 e s2 out tr' s3 Hst Hrun IH]; [done|].
    destruct (put_away_stays _ _ _ _ H1 Hst) as [H2 ->]. by apply IH. }
  split_and!.
  - enough (H : length (effects tr) + deferred_count s
                <= length (List.filter (fun eo => is_before eo.1) tr) + deferred_count (install_start kept))
      by (cbn in H; lia).
    induction Hr as [s|s e s' out tr s'' Hst Hr IH]; [cbn; lia|].
    apply install_step_spends in Hst. unfold effects in *. cbn [fmap list_fmap snd concat List.filter fst].
    rewrite length_app. destruct (is_before e); cbn [length]; lia.
  - intros Hi. cbn [install_step]. unfold install_button. rewrite Hi. by rewrite andb_false_r.
  - intros e s1 out Hst He Hm.
    assert (H1 : exists s0, s1 = install_remember s0 /\ ip_storage s0 = ip_storage s /\ ip_mounted s0 = true).
    { destruct He as [->|[i ->]]; cbn [install_step] in Hst; case_match; [|done| |done]; simplify_eq; eauto. }
    destruct H1 as (s0 & -> & Hk & Hm0). split; [|apply Haway; by split].
    intros Hb. cbn [install_remember ip_storage]. rewrite Hk. by destruct (ip_storage s).
  - intros ua touch matches_ standalone s1 out -> -> Hst. inversion Hr; subst. cbn in Hst. simplify_eq.
    apply Haway. by split.
Qed.

Definition sample_install : list (install_event * list install_effect) :=
  [ (InstallMount (u "Android") 5 (fun _ => false) false, []); (BeforeInstallPrompt 7, []);
    (PressInstall, [Prompt 7]) ].

Lemma install_offer_witness :
  exists s s1, run install_step (install_start (Storage None)) sample_install s
    /\ install_step s (UserChoice 0 false) = Some (s1, [])
    /\ ip_storage s1 = Storage (Some (u "1"))
    /\ forall tr' s2, run install_step s1 tr' s2 -> install_drawn s2 = false /\ effects tr' = [].
Proof.
  eexists. eexists.
  match goal with |- run _ ?s0 _ ?s /\ _ => assert (Hr : run install_step s0 sample_install s) end.
  { repeat (eapply run_cons; [reflexivity|]). constructor. }
  destruct (install_offer _ _ _ Hr) as (_ & _ & Hno & _). split; [exact Hr|].
  match goal with |- ?st = Some (?s1, _) /\ _ => assert (Hst : st = Some (s1, [])) by reflexivity end.
  split; [exact Hst|]. destruct (Hno _ _ _ Hst (or_intror (ex_intro _ 0 eq_refl)) eq_refl) as [Hk Hd].
  split; [by apply Hk|exact Hd].
Defined.

(** ** Properties: the rail *)

(** Where the rail departs from its comment ("This sets the cookie to keep
    the sidebar state"): the cookie says how the rail was left, and no load
    looks at it; the rail comes up open.  On a phone neither the drawer nor
    the shortcut touches the rail or the cookie. *)
Theorem sidebar_not_kept tr s :
  run sidebar_step (sidebar_mount None) tr s ->
  (sb_cookie s = None \/ sb_cookie s = Some (sb_open s))
  /\ sb_open (sidebar_mount (sb_cookie s)) = true
  /\ (sb_isMobile s = true -> sb_open (toggleSidebar s) = sb_open s /\ sb_cookie (toggleSidebar s) = sb_cookie s).
Proof.
  intros Hr. split_and!; [|done|].
  - apply (run_invariant sidebar_step (fun s => sb_cookie s = None \/ sb_cookie s = Some (sb_open s)) _ _ _) in Hr;
      [done| |by left].
    intros s0 e s1 out Hs Hst. destruct e; cbn in Hst; repeat case_match; simplify_eq; try done;
      unfold toggleSidebar; case_match; cbn; auto.
  - unfold toggleSidebar. by intros ->.
Qed.

(** The frame of a page.  The navigation and the sign-out stand around
    exactly the pages reached with a tenant and a session; the rail then has
    every destination once, lights those the path is in, at most one of them,
    and marks as the current page only the page itself; and the document is
    in the language of the request. *)
Theorem page_frame_reads locale tenant token pathname now :
  let frame := RootLayout locale tenant token pathname now in
  (is_some (pf_rail frame) = true <-> is_some tenant = true /\ exists v, token = Some v /\ v <> [])
  /\ is_some (pf_header frame) = is_some (pf_rail frame)
  /\ pf_lang frame = htmlLang locale
  /\ forall groups, pf_rail frame = Some groups ->
       rl_href <$> concat groups.*2 = ni_href <$> navItems
       /\ (forall a b, a ∈ concat groups.*2 -> b ∈ concat groups.*2 ->
             rl_active a = true -> rl_active b = true -> a = b)
       /\ (forall a, a ∈ concat groups.*2 -> rl_current a = true -> pathname = Some (rl_href a)).
Proof.
  intros frame. split_and!.
  - unfold frame, RootLayout. cbn. destruct tenant as [t|]; [|by split; [|intros [? _]]].
    destruct token as [v|]; [|by split; [|intros (_ & ? & ? & _)]].
    destruct (jeqb v []) eqn:E; cbn.
    + apply jeqb_eq in E. subst v. split; [done|]. by intros (_ & v & [= <-] & ?).
    + apply jeqb_neq in E. split; [|done]. intros _. split; [done|by exists v].
  - unfold frame, RootLayout. cbn. by destruct tenant, token as [v|]; [destruct (jeqb v [])|..].
  - done.
  - intros groups Hg.
    assert (Hgr : groups = AppSidebar (default [] pathname)).
    { unfold frame, RootLayout in Hg. cbn in Hg. destruct tenant; [|done]. destruct token as [v|]; [|done].
      destruct (jeqb v []); cbn in Hg; [done|]. by injection Hg as <-. }
    assert (Hc : concat groups.*2 = rail_item (default [] pathname) <$> navItems).
    { subst groups. unfold AppSidebar, navItems. induction NAV_GROUPS as [|g gs IH]; [done|].
      rewrite !fmap_cons. cbn [concat snd]. rewrite fmap_app. by rewrite IH. }
    rewrite Hc. split_and!.
    + rewrite <-list_fmap_compose. done.
    + intros a b (ia & -> & Ha)%list_elem_of_fmap (ib & -> & Hb)%list_elem_of_fmap. unfold rail_item. cbn [rl_active].
      destruct (navState (default [] pathname) (ni_href ia)) as [sa|] eqn:Ea; [|done].
      destruct (navState (default [] pathname) (ni_href ib)) as [sb|] eqn:Eb; [|done]. intros _ _.
      by destruct (navState_one_lit _ _ _ _ _ Ha Hb Ea Eb) as (<- & <- & _).
    + intros a (ia & -> & Ha)%list_elem_of_fmap. unfold rail_item. cbn [rl_current rl_href]. intros Hcur.
      apply bool_decide_eq_true in Hcur. destruct (navState_one_lit _ _ _ _ _ Ha Ha Hcur Hcur) as (_ & _ & Hp).
      destruct pathname as [p|]; [by cbn in Hp; rewrite Hp|]. cbn in Hp. exfalso.
      assert (Hh : forallb (fun item => negb (jeqb (ni_href item) [])) navItems = true) by (by vm_compute).
      rewrite List.forallb_forall in Hh. apply list_elem_of_In, Hh in Ha. rewrite <-Hp in Ha. done.
Qed.

(** ** The registration of the service worker (components/pwa.tsx: ServiceWorker) *)

(** The document is complete a moment before the load event is sent. *)
Record worker_host := {
  wh_complete : bool;
  wh_loaded : bool;
  wh_mounted : bool;
  wh_listening : bool;
  wh_registered : nat;
}.
Inductive worker_event := WorkerMount | DocumentComplete | WindowLoad | WorkerUnmount.
Inductive worker_effect := Register (url : jstring).

Definition worker_host_of (complete loaded mounted listening : bool) (registered : nat) : worker_host :=
  {| wh_complete := complete; wh_loaded := loaded; wh_mounted := mounted; wh_listening := listening;
     wh_registered := registered |}.
(** [navigator.serviceWorker.register("/sw.js").catch(() => {})]. *)
Definition register (s : worker_host) : worker_host * list worker_effect :=
  (worker_host_of (wh_complete s) (wh_loaded s) (wh_mounted s) false (S (wh_registered s)), [Register (u "/sw.js")]).

Definition worker_step (supported : bool) (s : worker_host) (e : worker_event)
    : option (worker_host * list worker_effect) :=
  match e with
  | WorkerMount =>
      if wh_mounted s then None else
      let mounted := worker_host_of (wh_complete s) (wh_loaded s) true false (wh_registered s) in
      if negb supported then Some (mounted, [])
      else if wh_complete s then Some (register mounted)
      else Some (worker_host_of (wh_complete s) (wh_loaded s) true true (wh_registered s), [])
  | DocumentComplete =>
      if wh_complete s then None
      else Some (worker_host_of true (wh_loaded s) (wh_mounted s) (wh_listening s) (wh_registered s), [])
  | WindowLoad =>
      if negb (wh_complete s) || wh_loaded s then None else
      let loaded := worker_host_of true true (wh_mounted s) (wh_listening s) (wh_registered s) in
      if wh_listening s then Some (register loaded) else Some (loaded, [])
  | WorkerUnmount =>
      if wh_mounted s
      then Some (worker_host_of (wh_complete s) (wh_loaded s) false false (wh_registered s), []) else None
  end.
Definition worker_start : worker_host := worker_host_of false false false false 0.

Record worker_inv (supported : bool) (s : worker_host) : Prop := {
  wi_complete : wh_loaded s = true -> wh_complete s = true;
  wi_count : wh_registered s = if supported && wh_mounted s && negb (wh_listening s) then 1 else 0;
  wi_listening : wh_listening s = true -> supported = true /\ wh_mounted s = true /\ wh_loaded s = false;
  wi_registered : supported = true -> wh_mounted s = true -> wh_listening s = false -> wh_complete s = true;
}.

Lemma worker_step_inv supported s e s' out :
  e <> WorkerUnmount -> worker_inv supported s -> worker_step supported s e = Some (s', out) -> worker_inv supported s'.
Proof.
  intros He [H1 H2 H3 H4]. destruct s as [[] [] [] [] n], supported, e; cbn in *; try done; intros [= <- <-];
    constructor; cbn; naive_solver.
Qed.

Lemma worker_run_inv supported tr s s' :
  worker_inv supported s -> run (worker_step supported) s tr s' -> Forall (fun x => x.1 <> WorkerUnmount) tr ->
  worker_inv supported s'.
Proof.
  intros Hs Hr. induction Hr as [|s e s1 out tr s2 Hst Hr IH]; [done|].
  intros [He Htr]%Forall_cons. apply IH; [|done]. by apply (worker_step_inv supported s e s1 out).
Qed.

(** The worker is registered once the page has loaded, and once.  While the
    component stays on the page: nothing is registered before the document is
    complete, nor at all where the browser has no workers; after the load the
    worker is registered, by then or at once; and never twice. *)
Theorem worker_registered_once supported tr s :
  run (worker_step supported) worker_start tr s -> Forall (fun x => x.1 <> WorkerUnmount) tr ->
  wh_registered s <= 1
  /\ (wh_registered s = 1 -> supported = true /\ wh_complete s = true)
  /\ (supported = true -> wh_mounted s = true -> wh_loaded s = true -> wh_registered s = 1).
Proof.
  intros Hr Hn. assert (Hi : worker_inv supported s).
  { apply (worker_run_inv supported tr worker_start); [|done..]. constructor; cbn; rewrite ?andb_false_r; done. }
  clear Hr Hn. destruct Hi as [_ Hc Hl Hm]. rewrite Hc.
  destruct supported, (wh_mounted s), (wh_listening s); cbn in *; split_and!; intros; try lia; try done; try (destruct Hl as (_ & _ & ?); [done|congruence]); split; try done; by apply Hm.
Qed.
