(* ===== verification/SidebarView.v ===== *)
(** * The frame of a page as it is drawn (ui/sidebar.tsx, components/sidebar.tsx,
      components/shell.tsx, components/locale-switch.tsx, app/layout.tsx)

    The rail or the drawer, the words and the hints of its links, the header
    beside it and the links to the source under both.  Shell has the state
    this is drawn from.  Of the class names the ones that hide, widen or
    narrow are kept, as what they do; of the icons the path data. *)

From Stdlib Require Import Lia.
From S2P Require Import Prelude JsString JsValue Palette DesignTokens Tenant Navigation I18n Component Shell.

(** ** ui/sidebar.tsx *)

(** [useSidebar]: the nearest provider, or an error. *)
Definition useSidebar (context : option sidebar) : res sidebar :=
  match context with Some s => Ok s | None => Throw GenericError end.

Inductive SidebarState := expanded | collapsed.
Definition sidebar_state (s : sidebar) : SidebarState := if sb_open s then expanded else collapsed.

Inductive SidebarSide := SideLeft | SideRight.
Inductive SidebarVariant := VariantSidebar | VariantFloating | VariantInset.
Inductive Collapsible := Offcanvas | IconRail | NeverCollapses.

#[export] Instance SidebarState_eq_dec : EqDecision SidebarState.
Proof. solve_decision. Defined.
#[export] Instance Collapsible_eq_dec : EqDecision Collapsible.
Proof. solve_decision. Defined.

#[export] Instance Locale_eq_dec : EqDecision Locale.
Proof. solve_decision. Defined.

Record sidebar_props := { sp_side : SidebarSide; sp_variant : SidebarVariant; sp_collapsible : Collapsible }.
(** The defaults of [Sidebar]'s own parameters. *)
Definition sidebar_props_default : sidebar_props :=
  {| sp_side := SideLeft; sp_variant := VariantSidebar; sp_collapsible := Offcanvas |}.

(** Lengths in pixels; a rem is sixteen of them. *)
Definition rem (n : Z) : Z := (16 * n)%Z.
Definition SIDEBAR_WIDTH : Z := rem 16.
Definition SIDEBAR_WIDTH_MOBILE : Z := rem 18.
Definition SIDEBAR_WIDTH_ICON : Z := rem 3.
(** [theme(spacing.4)]. *)
Definition spacing_4 : Z := rem 1.

(** [data-collapsible]: what the rail is collapsed to, while it is. *)
Definition data_collapsible (props : sidebar_props) (state : SidebarState) : option Collapsible :=
  match state with collapsed => Some (sp_collapsible props) | expanded => None end.
Definition padded (variant : SidebarVariant) : bool :=
  match variant with VariantFloating | VariantInset => true | VariantSidebar => false end.

(** The room left beside the page: [w-[--sidebar-width]], under the classes
    for [data-collapsible]. *)
Definition gap_width (props : sidebar_props) (state : SidebarState) : Z :=
  match data_collapsible props state with
  | Some Offcanvas => 0
  | Some IconRail => if padded (sp_variant props) then (SIDEBAR_WIDTH_ICON + spacing_4)%Z else SIDEBAR_WIDTH_ICON
  | _ => SIDEBAR_WIDTH
  end.
Definition rail_width (props : sidebar_props) (state : SidebarState) : Z :=
  match data_collapsible props state with
  | Some IconRail =>
      if padded (sp_variant props) then (SIDEBAR_WIDTH_ICON + spacing_4 + 2)%Z else SIDEBAR_WIDTH_ICON
  | _ => SIDEBAR_WIDTH
  end.
(** How far the rail is moved off its side of the window. *)
Definition rail_offset (props : sidebar_props) (state : SidebarState) : Z :=
  match data_collapsible props state with Some Offcanvas => SIDEBAR_WIDTH | _ => 0 end.

(** What [Sidebar] renders around its children. *)
Inductive sidebar_drawn (A : Type) :=
  | PlainSidebar (children : A)
  | SheetSidebar (open : bool) (side : SidebarSide) (width : Z) (children : A)
  | RailSidebar (props : sidebar_props) (state : SidebarState) (gap width offset : Z) (children : A).
Arguments PlainSidebar {A}. Arguments SheetSidebar {A}. Arguments RailSidebar {A}.

(** The children are drawn with what [group-data-[collapsible=icon]] finds
    above them, which is nothing in the plain column and in the drawer. *)
Definition Sidebar {A} (context : option sidebar) (props : sidebar_props) (children : bool -> A)
    : res (sidebar_drawn A) :=
  s ← useSidebar context;
  Ok (if decide (sp_collapsible props = NeverCollapses) then PlainSidebar (children false)
      else if sb_isMobile s then
        SheetSidebar (sb_openMobile s) (sp_side props) SIDEBAR_WIDTH_MOBILE (children false)
      else
        let state := sidebar_state s in
        RailSidebar props state (gap_width props state) (rail_width props state) (rail_offset props state)
          (children (bool_decide (data_collapsible props state = Some IconRail)))).

(** [hidden md:block], on the rail alone: below [md] the style sheet takes it
    away whatever the state says. *)
Definition MD : Z := 768.
Definition on_screen {A} (innerWidth : Z) (drawn : sidebar_drawn A) : option A :=
  match drawn with
  | PlainSidebar children => Some children
  | SheetSidebar open _ _ children => if open then Some children else None
  | RailSidebar _ _ _ width offset children =>
      if ((MD <=? innerWidth) && (0 <? width - offset))%Z then Some children else None
  end.

(** A button of the menu: the word under it, cut off once the button is the
    size of its icon ([!size-8], [overflow-hidden]), and the hint. *)
Record tooltip := { to_text : jstring; to_hidden : bool }.
Record menu_button := {
  mb_active : bool;
  mb_word : jstring;
  mb_clipped : bool;
  mb_tooltip : option tooltip;
}.
Definition SidebarMenuButton (context : option sidebar) (icon : bool) (isActive : bool)
    (hint : option jstring) (word : jstring) : res menu_button :=
  s ← useSidebar context;
  Ok {| mb_active := isActive; mb_word := word; mb_clipped := icon;
        mb_tooltip :=
          match hint with
          | Some text =>
              if jeqb text [] then None
              else Some {| to_text := text;
                           to_hidden := negb (bool_decide (sidebar_state s = collapsed)) || sb_isMobile s |}
          | None => None
          end |}.

(** [SidebarTrigger]: the button of the header, drawn under a provider and
    named to a screen reader; pressing it toggles. *)
Definition SidebarTrigger_draws (context : option sidebar) : res jstring :=
  s ← useSidebar context; Ok (u "Toggle Sidebar").

(** [`${Math.floor(Math.random() * 40) + 50}%`], the random number the
    fraction [n / d]. *)
Definition skeleton_width (n d : Z) : Z := (n * 40 / d + 50)%Z.

Section Frame.
Context (inherited_text : jstring -> jstring) (catalogs : Locale -> list (jstring * jstring)).

Definition words (locale : Locale) (key : jstring) : jstring := t inherited_text catalogs key locale None.

(** ** components/sidebar.tsx *)

Record link_drawn := {
  ld_href : jstring;
  ld_current : bool;                    (** [aria-current="page"] *)
  ld_icon : jstring;
  ld_button : menu_button;
}.
Record group_drawn := {
  gd_label : option jstring;
  gd_faded : bool;                      (** the label, at opacity 0 over an icon rail *)
  gd_links : list link_drawn;
}.
Record nav_drawn := {
  nv_appName : option jstring;          (** hidden over an icon rail *)
  nv_groups : list group_drawn;
}.

Definition nav_link (context : option sidebar) (locale : Locale) (pathname : jstring) (icon : bool)
    (item : NavItem) : res link_drawn :=
  let link := rail_item pathname item in
  let word := words locale (ni_key item) in
  button ← SidebarMenuButton context icon (rl_active link) (Some word) word;
  Ok {| ld_href := rl_href link; ld_current := rl_current link; ld_icon := ni_icon item; ld_button := button |}.

Definition nav_group (context : option sidebar) (locale : Locale) (pathname : jstring) (icon : bool)
    (group : NavGroup) : res group_drawn :=
  links ← mapM (nav_link context locale pathname icon) (ng_items group);
  Ok {| gd_label := words locale <$> ng_label group; gd_faded := icon; gd_links := links |}.

Definition nav_children (context : option sidebar) (locale : Locale) (pathname appName : jstring) (icon : bool)
    : res nav_drawn :=
  groups ← mapM (nav_group context locale pathname icon) NAV_GROUPS;
  Ok {| nv_appName := if icon then None else Some appName; nv_groups := groups |}.

(** [<Sidebar collapsible="icon">]. *)
Definition APP_SIDEBAR : sidebar_props :=
  {| sp_side := sp_side sidebar_props_default; sp_variant := sp_variant sidebar_props_default;
     sp_collapsible := IconRail |}.
Definition AppSidebar_draws (context : option sidebar) (locale : Locale) (pathname appName : jstring)
    : res (sidebar_drawn (res nav_drawn)) :=
  Sidebar context APP_SIDEBAR (nav_children context locale pathname appName).

(** ** components/locale-switch.tsx and theme-toggle.tsx, as the header has them *)

Definition LocaleSwitch_draws (locale : Locale) (label : jstring) (names : Locale -> jstring)
    : jstring * list (Locale * jstring * bool) :=
  (label, (fun option => (option, names option, bool_decide (locale = option))) <$> [zh; en]).

(** The name of the button, and its face. *)
Definition ThemeToggle_draws (toggle : jstring) (names : Theme -> jstring) (s : theme_toggle)
    : jstring * jstring :=
  (toggle ++ u ": " ++ names (next_theme s),
   match tt_theme s with None => [] | Some dark => u "☾" | Some light => u "☀" end).

(** ** components/shell.tsx *)

Record header_drawn := {
  hd_trigger : jstring;
  hd_tenant_id : jstring;               (** the title of the pill *)
  hd_slug : jstring;
  hd_region : jstring;
  hd_theme : jstring * jstring;
  hd_locale : jstring * list (Locale * jstring * bool);
  hd_signOut : jstring;
}.

Definition Shell (context : option sidebar) (theme : theme_toggle) (tenant : Tenant) (locale : Locale)
    : res header_drawn :=
  trigger ← SidebarTrigger_draws context;
  let say key := words locale (u key) in
  Ok {| hd_trigger := trigger;
        hd_tenant_id := tenant_id tenant;
        hd_slug := slug tenant;
        hd_region := match region tenant with cn => say "region.cn" | intl => say "region.intl" end;
        hd_theme := ThemeToggle_draws (say "theme.toggle")
                      (fun theme => match theme with dark => say "theme.dark" | light => say "theme.light" end) theme;
        hd_locale := LocaleSwitch_draws locale (say "header.language")
                       (fun option => match option with zh => say "header.langZh" | en => say "header.langEn" end);
        hd_signOut := say "nav.logout" |}.

(** The links: where to, and the word. *)
Definition SourceFooter (locale : Locale) : jstring * list (jstring * jstring) :=
  let say key := words locale (u key) in
  (say "source.label",
   [ (say "source.consoleUrl", say "source.console");
     (say "source.consoleLicenseUrl", say "source.consoleLicense");
     (say "source.edgeUrl", say "source.edge");
     (say "source.edgeLicenseUrl", say "source.edgeLicense") ]).

(** ** app/layout.tsx *)

Record layout_drawn := {
  ly_lang : jstring;
  ly_chrome : option (sidebar_drawn (res nav_drawn) * header_drawn);
  ly_footer : jstring * list (jstring * jstring);
}.

(** The state of the provider is over the rail and the header, and nothing
    else of the layout. *)
Definition RootLayout_draws (locale : Locale) (tenant : option Tenant) (token pathname : option jstring)
    (s : sidebar) (theme : theme_toggle) : res layout_drawn :=
  let signedIn := match token with Some v => negb (jeqb v []) | None => false end in
  let footer := SourceFooter locale in
  match tenant, signedIn with
  | Some tenant, true =>
      rail ← AppSidebar_draws (Some s) locale (default [] pathname) (words locale (u "app.name"));
      header ← Shell (Some s) theme tenant locale;
      Ok {| ly_lang := htmlLang locale; ly_chrome := Some (rail, header); ly_footer := footer |}
  | _, _ => Ok {| ly_lang := htmlLang locale; ly_chrome := None; ly_footer := footer |}
  end.
End Frame.

(** ** Properties *)

(** What an application of [useSidebar] under a provider leaves of the tree. *)
Lemma mapM_ok {A B} (f : A -> res B) (g : A -> B) l :
  (forall x, f x = Ok (g x)) -> mapM f l = Ok (g <$> l).
Proof. intros Hf. induction l as [|x l IH]; [done|]. cbn. by rewrite Hf, IH. Qed.

Definition nav_links (nav : nav_drawn) : list link_drawn := concat (gd_links <$> nv_groups nav).
(** A link a reader can tell: by the word in it or by the hint beside it, one
    of the two. *)
Definition told (link : link_drawn) : bool :=
  let button := ld_button link in
  xorb (negb (mb_clipped button))
    (match mb_tooltip button with Some hint => negb (to_hidden hint) | None => false end).

Section Reach.
Context (inherited_text : jstring -> jstring) (catalogs : Locale -> list (jstring * jstring)).
Context (locale : Locale).
Local Abbreviation say := (words inherited_text catalogs locale).

Definition link_of (s : sidebar) (pathname : jstring) (icon : bool) (item : NavItem) : link_drawn :=
  let link := rail_item pathname item in
  {| ld_href := rl_href link; ld_current := rl_current link; ld_icon := ni_icon item;
     ld_button :=
       {| mb_active := rl_active link; mb_word := say (ni_key item); mb_clipped := icon;
          mb_tooltip :=
            if jeqb (say (ni_key item)) [] then None
            else Some {| to_text := say (ni_key item);
                         to_hidden := negb (bool_decide (sidebar_state s = collapsed)) || sb_isMobile s |} |} |}.
Definition nav_of (s : sidebar) (pathname appName : jstring) (icon : bool) : nav_drawn :=
  {| nv_appName := if icon then None else Some appName;
     nv_groups := (fun group => {| gd_label := say <$> ng_label group; gd_faded := icon;
                                   gd_links := link_of s pathname icon <$> ng_items group |}) <$> NAV_GROUPS |}.

Lemma nav_children_ok s pathname appName icon :
  nav_children inherited_text catalogs (Some s) locale pathname appName icon = Ok (nav_of s pathname appName icon).
Proof.
  unfold nav_children. erewrite mapM_ok; [reflexivity|]. intros group. unfold nav_group.
  erewrite mapM_ok; [reflexivity|]. intros item. unfold nav_link, SidebarMenuButton, link_of. cbn. by case_match.
Qed.

Lemma nav_links_of s pathname appName icon :
  nav_links (nav_of s pathname appName icon) = link_of s pathname icon <$> navItems.
Proof.
  unfold nav_links, nav_of, navItems. cbn [nv_groups]. rewrite <-list_fmap_compose.
  induction NAV_GROUPS as [|g gs IH]; [done|]. rewrite !fmap_cons. cbn [concat gd_links compose].
  by rewrite fmap_app, IH.
Qed.

(** Every destination, each told. *)
Definition reaches (nav : nav_drawn) : Prop :=
  ld_href <$> nav_links nav = ni_href <$> navItems /\ Forall (fun link => told link = true) (nav_links nav).

Lemma nav_of_reaches s pathname appName icon :
  (forall item, item ∈ navItems -> say (ni_key item) <> []) ->
  icon = negb (sb_open s) && negb (sb_isMobile s) -> reaches (nav_of s pathname appName icon).
Proof.
  intros Hsay ->. unfold reaches. rewrite nav_links_of. split; [by rewrite <-list_fmap_compose|].
  apply Forall_forall. intros link (item & -> & Hin)%list_elem_of_fmap. unfold told, link_of. cbn.
  destruct (jeqb (say (ni_key item)) []) eqn:E; [by apply jeqb_eq, Hsay in E|]. unfold sidebar_state.
  by destruct (sb_open s), (sb_isMobile s).
Qed.

(** The last width the window had in a run. *)
Fixpoint width_after (w : option Z) (tr : list (sidebar_event * list effect)) : option Z :=
  match tr with
  | [] => w
  | (WindowWidth w, _) :: tr => width_after (Some w) tr
  | _ :: tr => width_after w tr
  end.

Lemma run_width w0 s0 tr s w :
  run sidebar_step s0 tr s -> (forall x, w0 = Some x -> sb_isMobile s0 = (x <? MOBILE_BREAKPOINT)%Z) ->
  width_after w0 tr = Some w -> sb_isMobile s = (w <? MOBILE_BREAKPOINT)%Z.
Proof.
  intros Hr. revert w0. induction Hr as [s0|s0 e s1 out tr s Hst Hr IH]; intros w0 Hw He; [by apply Hw|].
  destruct e as [key m c| |open|x]; cbn in Hst, He.
  4: { apply (IH (Some x)); [|done]. intros y [= <-]. by injection Hst as <- _. }
  all: apply (IH w0); [|done]; intros x Hx; rewrite <-(Hw x Hx); clear IH; step_cases Hst; try done;
    unfold toggleSidebar; repeat case_match; done.
Qed.

(** What [AppSidebar] is under the provider. *)
Lemma app_sidebar_ok s pathname appName :
  AppSidebar_draws inherited_text catalogs (Some s) locale pathname appName
  = Ok (let icon := negb (sb_open s) && negb (sb_isMobile s) in
        let children := Ok (nav_of s pathname appName icon) in
        if sb_isMobile s then SheetSidebar (sb_openMobile s) SideLeft SIDEBAR_WIDTH_MOBILE children
        else let width := if sb_open s then SIDEBAR_WIDTH else SIDEBAR_WIDTH_ICON in
             RailSidebar APP_SIDEBAR (sidebar_state s) width width 0 children).
Proof.
  unfold AppSidebar_draws, Sidebar. cbn -[nav_children nav_of]. unfold sidebar_state.
  destruct (sb_isMobile s), (sb_open s); cbn -[nav_children nav_of]; by rewrite nav_children_ok.
Qed.

(** C15. The navigation is always within reach.  Whatever was pressed, dragged
    and collapsed since the page came up, at the width the window has: either
    every destination is on screen, in the order of the table, and each is
    told by the word in its link or by a hint beside its icon, never both; or
    the window is narrow, and one press on the trigger in the header brings
    them so. *)
Theorem navigation_within_reach cookie tr s w pathname appName :
  (forall item, item ∈ navItems -> say (ni_key item) <> []) ->
  run sidebar_step (sidebar_mount cookie) tr s -> width_after None tr = Some w ->
  exists rail, AppSidebar_draws inherited_text catalogs (Some s) locale pathname appName = Ok rail /\
  match on_screen w rail with
  | Some children => exists nav, children = Ok nav /\ reaches nav
  | None =>
      (w < 768)%Z /\
      exists s' rail' nav, sidebar_step s SidebarTrigger = Some (s', [])
        /\ AppSidebar_draws inherited_text catalogs (Some s') locale pathname appName = Ok rail'
        /\ on_screen w rail' = Some (Ok nav) /\ reaches nav
  end.
Proof.
  intros Hsay Hr Hw. apply (run_width None _ _ _ w) in Hr; [|done..]. clear Hw.
  eexists. split; [apply app_sidebar_ok|]. cbv zeta.
  pose proof (nav_of_reaches s pathname appName _ Hsay eq_refl) as Hre.
  destruct (sb_isMobile s) eqn:Em; cbn [on_screen].
  - symmetry in Hr. apply Z.ltb_lt in Hr. unfold MOBILE_BREAKPOINT in Hr.
    destruct (sb_openMobile s) eqn:Eo; [by eexists|]. split; [done|].
    set (s' := setOpenMobile true s).
    exists s'. eexists _, (nav_of s' pathname appName (negb (sb_open s') && negb (sb_isMobile s'))). split_and!.
    + cbn. unfold toggleSidebar. by rewrite Em, Eo.
    + apply app_sidebar_ok.
    + cbn. by rewrite Em.
    + by apply nav_of_reaches.
  - symmetry in Hr. apply Z.ltb_ge in Hr. unfold MOBILE_BREAKPOINT in Hr.
    replace (MD <=? w)%Z with true by (symmetry; by apply Z.leb_le).
    replace (0 <? _)%Z with true by (by destruct (sb_open s)). by eexists.
Qed.
End Reach.

(** The room kept beside the page is the room the rail takes, in every
    setting of the component: nothing is hidden under it and no strip is left;
    but for a collapsed rail that floats or is inset, which is two pixels wider
    than its room. *)
Theorem rail_beside_page props state :
  let visible := (rail_width props state - rail_offset props state)%Z in
  (0 <= gap_width props state <= SIDEBAR_WIDTH)%Z
  /\ visible = (gap_width props state
                + if padded (sp_variant props) && bool_decide (data_collapsible props state = Some IconRail)
                  then 2 else 0)%Z.
Proof. destruct props as [side [] []], state; by vm_compute. Qed.

Lemma skeleton_width_between n d : (0 <= n < d)%Z -> (50 <= skeleton_width n d < 90)%Z.
Proof.
  intros Hn. unfold skeleton_width.
  assert (0 <= n * 40 / d)%Z by (apply Z.div_pos; lia).
  assert (n * 40 / d < 40)%Z by (apply Z.div_lt_upper_bound; lia). lia.
Qed.

Section Provider.
Context (inherited_text : jstring -> jstring) (catalogs : Locale -> list (jstring * jstring)).

(** The rail and the trigger of the header throw outside a provider, and the
    layout, which draws them inside one, never throws: the rail and the header
    are on exactly the pages reached with a tenant and a session, and the
    links to the source on every page. *)
Theorem layout_never_throws locale tenant token pathname s theme :
  (forall appName, AppSidebar_draws inherited_text catalogs None locale (default [] pathname) appName = Throw GenericError)
  /\ (forall t, Shell inherited_text catalogs None theme t locale = Throw GenericError)
  /\ exists drawn, RootLayout_draws inherited_text catalogs locale tenant token pathname s theme = Ok drawn
     /\ is_some (ly_chrome drawn) = is_some (pf_rail (RootLayout locale tenant token pathname 0))
     /\ (forall rail header, ly_chrome drawn = Some (rail, header) ->
           exists nav, (rail = SheetSidebar (sb_openMobile s) SideLeft SIDEBAR_WIDTH_MOBILE (Ok nav)
                        \/ exists st g w, rail = RailSidebar APP_SIDEBAR st g w 0 (Ok nav)))
     /\ length (ly_footer drawn).2 = 4.
Proof.
  split; [done|]. split; [done|]. unfold RootLayout_draws, RootLayout. cbn [pf_rail].
  destruct tenant as [t|]; [|by eexists; split; [reflexivity|]].
  destruct (match token with Some _ => _ | None => _ end); [|by eexists; split; [reflexivity|]].
  rewrite app_sidebar_ok. eexists. split; [reflexivity|]. cbn [ly_chrome ly_footer]. split_and!; [done| |done].
  intros rail header [= <- _]. destruct (sb_isMobile s); eexists; [by left|right; by do 3 eexists].
Qed.

(** Following a link of the rail.  The layout is not drawn anew when a link is
    followed, as the framework documents it ("layouts preserve state, remain
    interactive, and do not re-render"); [followed] is what is under the
    layout afterwards: the provider's state and the path it was drawn with. *)
Variable followed : sidebar -> jstring -> jstring -> sidebar * jstring.
Hypothesis layouts_stay : forall s pathname href, followed s pathname href = (s, pathname).

(** Where the rail departs from its comment ("Only an exact match is the
    current page"): after a link is followed the page it was followed from is
    still marked as the current one and the new page is not lit; and on a
    phone the drawer stays over the new page, since nothing but the drawer and
    the trigger closes it. *)
Theorem followed_link_not_lit s locale a b :
  a ∈ navItems -> b ∈ navItems -> a <> b ->
  let (s', pathname) := followed s (ni_href a) (ni_href b) in
  sb_openMobile s' = sb_openMobile s
  /\ ld_current (link_of inherited_text catalogs locale s' pathname false a) = true
  /\ mb_active (ld_button (link_of inherited_text catalogs locale s' pathname false b)) = false.
Proof.
  intros Ha Hb Hne. rewrite layouts_stay. split; [done|]. unfold link_of, rail_item. cbn.
  assert (Hself : navState (ni_href a) (ni_href a) = Some NavPage) by (unfold navState; by rewrite jeqb_refl).
  split; [by rewrite Hself|].
  destruct (navState (ni_href a) (ni_href b)) eqn:E; [|done].
  by destruct (navState_one_lit _ _ _ _ _ Ha Hb Hself E) as [-> _].
Qed.
End Provider.

(** ** Concrete frames *)

Definition sample_words (locale : Locale) : list (jstring * jstring) :=
  (fun item => (ni_key item, ni_key item)) <$> navItems.
Definition no_inherited (key : jstring) : jstring := [].

Lemma sample_words_known : forall item, item ∈ navItems -> words no_inherited sample_words en (ni_key item) <> [].
Proof.
  assert (H : forallb (fun item => negb (jeqb (words no_inherited sample_words en (ni_key item)) [])) navItems = true)
    by (by vm_compute).
  rewrite List.forallb_forall in H. intros item Hin%list_elem_of_In E. apply H in Hin. by rewrite E in Hin.
Qed.

(** On a phone, after the shortcut was pressed on a wide window. *)
Lemma navigation_within_reach_witness :
  exists s rail, run sidebar_step (sidebar_mount None)
      [(WindowWidth 1280, []); (SidebarKey (u "b") false true, []); (WindowWidth 390, [])] s
    /\ sb_open s = false
    /\ AppSidebar_draws no_inherited sample_words (Some s) en (u "/devices") (u "VoDoge") = Ok rail
    /\ on_screen 390 rail = None.
Proof.
  set (tr := [(WindowWidth 1280, []); (SidebarKey (u "b") false true, []); (WindowWidth 390, [])]).
  set (s := {| sb_open := false; sb_openMobile := false; sb_isMobile := true; sb_cookie := Some false |}).
  assert (Hr : run sidebar_step (sidebar_mount None) tr s).
  { econstructor; [reflexivity|]. econstructor; [reflexivity|]. econstructor; [reflexivity|]. constructor. }
  destruct (navigation_within_reach no_inherited sample_words en None tr s 390 (u "/devices") (u "VoDoge")
              sample_words_known Hr eq_refl) as (rail & Hrail & Hreach).
  exists s, rail. split_and!; [exact Hr|reflexivity|exact Hrail|].
  rewrite app_sidebar_ok in Hrail. by injection Hrail as <-.
Defined.

Lemma followed_link_not_lit_witness :
  let a := nav_item "/" "nav.overview" "M4 4H10V10H4ZM14 4H20V10H14ZM4 14H10V20H4ZM14 14H20V20H14Z" in
  let b := nav_item "/devices" "nav.devices" "M7 3H17V21H7ZM10 18H14" in
  a ∈ navItems /\ b ∈ navItems
  /\ ld_current (link_of no_inherited sample_words en (sidebar_mount None) (ni_href a) false a) = true
  /\ mb_active (ld_button (link_of no_inherited sample_words en (sidebar_mount None) (ni_href a) false b)) = false.
Proof.
  intros a b. assert (Ha : a ∈ navItems) by (left). assert (Hb : b ∈ navItems) by (right; left).
  split; [exact Ha|]. split; [exact Hb|].
  assert (Hne : a <> b) by (intros E; apply (f_equal ni_href) in E; by vm_compute in E).
  exact (proj2 (followed_link_not_lit no_inherited sample_words (fun s pathname _ => (s, pathname))
    (fun _ _ _ => eq_refl) (sidebar_mount None) en a b Ha Hb Hne)).
Defined.
