(* ===== verification/ConnectionStatus.v ===== *)
(** * The connection banner (components/connection-status.tsx)

    The component around the monitor of lib/pwa.ts: it starts one for the page
    it was given, listens to it, and starts another when a refresh brings a
    page of another moment.  Answers to requests of a monitor already stopped
    may still come. *)

From Stdlib Require Import Lia.
From S2P Require Import Prelude JsString JsValue Component Pwa.

(** ** What the platform does to a monitor *)

Inductive net_event :=
  | StartProbe (request : nat)
  | StartWatched (request : nat)
  | Settles (request : nat) (r : settled)
  | GoesOffline.

Definition net_step (m : monitor) (e : net_event) : option monitor :=
  match e with
  | StartProbe n =>
      if mo_stopped m || is_some (mo_inflight m !! n) then None
      else Some (with_inflight (<[n := Probe]> (mo_inflight m)) m)
  | StartWatched n =>
      if is_some (mo_inflight m !! n) then None
      else Some (with_inflight (<[n := WatchedFetch]> (mo_inflight m)) m)
  | Settles n r =>
      if is_some (mo_inflight m !! n) then Some (settle r (with_inflight (delete n (mo_inflight m)) m)) else None
  | GoesOffline => if mo_stopped m then None else Some (went_offline m)
  end.

(** ** The component *)

Record connection_status := {
  ct_loadedAt : Z;                     (** the prop *)
  ct_monitor : option monitor;         (** of the effect in force *)
  ct_view : option ConnectionView;
  ct_stopped : list monitor;           (** of the effects before it *)
  ct_fetch : nat;                      (** how many functions [window.fetch] goes through *)
}.

Inductive status_event :=
  | StatusMount (online : bool)
  | StatusNet (e : net_event)
  | StatusLate (which : nat) (e : net_event)
  | StatusRefresh (loadedAt : Z) (online : bool).

Definition status_start (loadedAt : Z) : connection_status :=
  {| ct_loadedAt := loadedAt; ct_monitor := None; ct_view := None; ct_stopped := []; ct_fetch := 0 |}.

(** The effect: a monitor over a bound [fetch], its view, and [setView] as
    its listener. *)
Definition status_effect (online : bool) (s : connection_status) : connection_status :=
  let monitor := createConnectionMonitor online (ct_loadedAt s) in
  {| ct_loadedAt := ct_loadedAt s; ct_monitor := Some (with_listeners [0] monitor);
     ct_view := Some (mo_last monitor); ct_stopped := ct_stopped s; ct_fetch := S (S (ct_fetch s)) |}.

(** Its cleanup: [stop()] puts back the bound [fetch]. *)
Definition status_cleanup (s : connection_status) : connection_status :=
  match ct_monitor s with
  | None => s
  | Some m =>
      {| ct_loadedAt := ct_loadedAt s; ct_monitor := None; ct_view := ct_view s;
         ct_stopped := stop_monitor (with_listeners [] m) :: ct_stopped s; ct_fetch := ct_fetch s - 1 |}
  end.

(** What [setView] was told in a step, if anything. *)
Definition heard (before after : monitor) (view : option ConnectionView) : option ConnectionView :=
  match mo_told after with
  | (_, v) :: _ => if (length (mo_told before) <? length (mo_told after))%nat then Some v else view
  | [] => view
  end.

Definition status_step (s : connection_status) (e : status_event) : option (connection_status * list effect) :=
  match e with
  | StatusMount online => if is_some (ct_monitor s) then None else Some (status_effect online s, [])
  | StatusNet e =>
      match ct_monitor s with
      | None => None
      | Some m =>
          m' ← net_step m e;
          Some ({| ct_loadedAt := ct_loadedAt s; ct_monitor := Some m'; ct_view := heard m m' (ct_view s);
                   ct_stopped := ct_stopped s; ct_fetch := ct_fetch s |}, [])
      end
  | StatusLate which e =>
      match ct_stopped s !! which with
      | None => None
      | Some m =>
          m' ← net_step m e;
          Some ({| ct_loadedAt := ct_loadedAt s; ct_monitor := ct_monitor s; ct_view := heard m m' (ct_view s);
                   ct_stopped := <[which := m']> (ct_stopped s); ct_fetch := ct_fetch s |}, [])
      end
  | StatusRefresh loadedAt online =>
      if negb (is_some (ct_monitor s)) then None else
      if (loadedAt =? ct_loadedAt s)%Z then Some (s, [])
      else
        let s := status_cleanup s in
        Some (status_effect online
                {| ct_loadedAt := loadedAt; ct_monitor := ct_monitor s; ct_view := ct_view s;
                   ct_stopped := ct_stopped s; ct_fetch := ct_fetch s |}, [])
  end.

Section Drawn.
(** The hours and minutes of a moment where the reader is. *)
Variable local_time : Z -> N * N.

(** The banner, with its clock. *)
Definition ConnectionStatus (s : connection_status) : option jstring :=
  match ct_view s with
  | Some view =>
      if cv_lost view
      then Some (formatClock (local_time (cv_dataAt view)).1 (local_time (cv_dataAt view)).2) else None
  | None => None
  end.

(** ** Properties *)

Lemma net_step_mon m e m' : net_step m e = Some m' -> mon_step m m'.
Proof.
  destruct e as [n|n|n r| ]; cbn.
  - destruct (mo_stopped m) eqn:Es; [done|]. cbn. destruct (mo_inflight m !! n) eqn:En; [done|].
    intros [= <-]. by constructor.
  - destruct (mo_inflight m !! n) eqn:En; [done|]. intros [= <-]. by constructor.
  - destruct (mo_inflight m !! n) as [o|] eqn:En; [|done]. intros [= <-]. by eapply step_settle.
  - destruct (mo_stopped m) eqn:Es; [done|]. intros [= <-]. by constructor.
Qed.

Lemma mon_reachable_step m m' : mon_reachable m -> mon_step m m' -> mon_reachable m'.
Proof. intros (o & l & Hr) Hs. exists o, l. by eapply rtc_r. Qed.

(** Publishing to [setView] alone leaves the view the monitor's. *)
Definition attached (m : monitor) (view : option ConnectionView) : Prop :=
  mo_listeners m = [0] /\ view = Some (mo_last m).

Lemma schedule_keeps m :
  mo_listeners (schedule m) = mo_listeners m /\ mo_told (schedule m) = mo_told m
  /\ mo_last (schedule m) = mo_last m /\ mo_loadedAt (schedule m) = mo_loadedAt m
  /\ mo_stopped (schedule m) = mo_stopped m.
Proof. unfold schedule. by destruct (mo_stopped m) eqn:E. Qed.

Lemma publish_keeps m :
  mo_listeners (publish m) = mo_listeners m /\ mo_loadedAt (publish m) = mo_loadedAt m
  /\ mo_stopped (publish m) = mo_stopped m.
Proof.
  unfold publish. set (m1 := schedule _). destruct (schedule_keeps
    {| mo_online := mo_online m; mo_failures := mo_failures m; mo_lastOkAt := mo_lastOkAt m;
       mo_loadedAt := mo_loadedAt m; mo_stopped := mo_stopped m; mo_polling := mo_polling m;
       mo_last := connectionView (snapshot m); mo_listeners := mo_listeners m; mo_inflight := mo_inflight m;
       mo_told := mo_told m |}) as (H1 & H2 & H3 & H4 & H5).
  destruct (negb _); by rewrite ?H1, ?H4, ?H5.
Qed.

Lemma publish_told m :
  mo_told (publish m)
  = (if negb (bool_decide (connectionView (snapshot m) = mo_last m))
     then rev ((fun l => (l, connectionView (snapshot m))) <$> mo_listeners m) else []) ++ mo_told m.
Proof.
  unfold publish. set (m1 := schedule _). destruct (schedule_keeps
    {| mo_online := mo_online m; mo_failures := mo_failures m; mo_lastOkAt := mo_lastOkAt m;
       mo_loadedAt := mo_loadedAt m; mo_stopped := mo_stopped m; mo_polling := mo_polling m;
       mo_last := connectionView (snapshot m); mo_listeners := mo_listeners m; mo_inflight := mo_inflight m;
       mo_told := mo_told m |}) as (H1 & H2 & H3 & H4 & H5).
  fold m1 in H1, H2.
  replace (negb (Bool.eqb (cv_lost (connectionView (snapshot m))) (cv_lost (mo_last m)))
           || negb (cv_dataAt (connectionView (snapshot m)) =? cv_dataAt (mo_last m))%Z)
    with (negb (bool_decide (connectionView (snapshot m) = mo_last m))).
  - destruct (bool_decide _); cbn [negb]; [exact H2|]. cbn [mo_told]. by rewrite H1, H2.
  - destruct (connectionView (snapshot m)) as [a b], (mo_last m) as [a' b']. cbn [cv_lost cv_dataAt].
    case_bool_decide as E.
    + injection E as -> ->. by rewrite eqb_reflx, Z.eqb_refl.
    + destruct (Z.eqb_spec b b') as [->|]; [|by rewrite orb_true_r]. by destruct a, a'.
Qed.

Lemma publish_heard before k view :
  mo_listeners k = [0] -> mo_told before = mo_told k -> view = Some (mo_last k) ->
  heard before (publish k) view = Some (mo_last (publish k)).
Proof.
  intros Hl Ht ->. unfold heard. rewrite publish_told, publish_view, Hl, Ht.
  case_bool_decide as E; cbn [negb app rev fmap list_fmap].
  - rewrite E. by destruct (mo_told k) as [|[l v] told]; [|rewrite Nat.ltb_irrefl].
  - cbn [length]. by rewrite (proj2 (Nat.ltb_lt _ _) (Nat.lt_succ_diag_r _)).
Qed.

Lemma publish_silent k : mo_listeners k = [] -> mo_told (publish k) = mo_told k.
Proof. intros Hl. rewrite publish_told, Hl. by destruct (bool_decide _). Qed.

(** A step of the platform either leaves what was told and known, or is a
    publication. *)
Lemma net_step_publishes m e m' :
  net_step m e = Some m' ->
  exists k, mo_listeners k = mo_listeners m /\ mo_told k = mo_told m /\ mo_last k = mo_last m
    /\ mo_stopped k = mo_stopped m /\ mo_loadedAt k = mo_loadedAt m /\ (m' = k \/ m' = publish k).
Proof.
  destruct e as [n|n|n r| ]; cbn.
  - destruct (mo_stopped m || _); [done|]. intros [= <-]. eexists. split_and!; [..|by left]; done.
  - destruct (is_some _); [done|]. intros [= <-]. eexists. split_and!; [..|by left]; done.
  - destruct (is_some _); [|done]. intros [= <-]. destruct r as [now|err]; cbn [settle].
    + eexists. split_and!; [..|by right]; done.
    + destruct (isConnectionFailure err).
      * eexists. split_and!; [..|by right]; done.
      * eexists. split_and!; [..|by left]; done.
  - destruct (mo_stopped m) eqn:E; [done|]. intros [= <-]. eexists. split_and!; [..|by right]; done.
Qed.

Lemma heard_same m m' view : mo_told m' = mo_told m -> heard m m' view = view.
Proof. intros E. unfold heard. rewrite E. destruct (mo_told m) as [|[l v] told]; [done|]. by rewrite Nat.ltb_irrefl. Qed.

Lemma net_step_attached m e m' view :
  net_step m e = Some m' -> attached m view ->
  attached m' (heard m m' view) /\ mo_stopped m' = mo_stopped m /\ mo_loadedAt m' = mo_loadedAt m.
Proof.
  intros (k & Hl & Ht & Hv & Hs & Ha & [-> | -> ])%net_step_publishes [Hl0 Hv0].
  - rewrite heard_same by done. unfold attached. by rewrite Hl, Hv.
  - destruct (publish_keeps k) as (P1 & P2 & P3). unfold attached. rewrite P1, P2, P3, Hl, Hs, Ha.
    split_and!; try done. apply publish_heard; congruence.
Qed.

Lemma net_step_silent m e m' :
  net_step m e = Some m' -> mo_listeners m = [] ->
  mo_told m' = mo_told m /\ mo_listeners m' = [] /\ mo_stopped m' = mo_stopped m.
Proof.
  intros (k & Hl & Ht & _ & Hs & _ & [-> | -> ])%net_step_publishes Hl0; [by rewrite Hl, Ht, Hs|].
  destruct (publish_keeps k) as (P1 & _ & P3). rewrite P1, P3, publish_silent by congruence. by rewrite Hl, Hs, Ht.
Qed.

Definition at_rest (m : monitor) : Prop := mon_reachable m /\ mo_stopped m = true /\ mo_listeners m = [].
Definition status_inv (s : connection_status) : Prop :=
  match ct_monitor s with
  | None => ct_view s = None /\ ct_stopped s = [] /\ ct_fetch s = 0
  | Some m => mon_reachable m /\ mo_stopped m = false /\ attached m (ct_view s)
              /\ mo_loadedAt m = ct_loadedAt s /\ ct_fetch s = S (S (length (ct_stopped s)))
  end /\ Forall at_rest (ct_stopped s).

Lemma created online loadedAt :
  let m := createConnectionMonitor online loadedAt in
  mon_reachable (with_listeners [0] m) /\ mo_stopped m = false /\ mo_loadedAt m = loadedAt
  /\ mo_listeners m = [] /\ mo_last m = {| cv_lost := negb online; cv_dataAt := loadedAt |}.
Proof.
  intros m. split_and!; [|by destruct online..].
  exists online, loadedAt. apply rtc_once.
  replace (with_listeners [0] m) with (with_listeners
    (if existsb (Nat.eqb 0) (mo_listeners m) then mo_listeners m else mo_listeners m ++ [0]) m)
    by (by destruct online).
  constructor.
Qed.

Lemma stopped_rests m view : mon_reachable m -> attached m view -> at_rest (stop_monitor (with_listeners [] m)).
Proof.
  intros Hr [Hl _]. split; [|done]. eapply mon_reachable_step; [|constructor].
  replace (with_listeners [] m) with (with_listeners (List.filter (fun k => negb (k =? 0)%nat) (mo_listeners m)) m)
    by (by rewrite Hl).
  eapply mon_reachable_step; [done|constructor].
Qed.

Lemma status_step_inv s e s' out : status_inv s -> status_step s e = Some (s', out) -> status_inv s'.
Proof.
  unfold status_inv. intros [Hm Hs]. destruct e as [online|e|which e|loadedAt online]; cbn [status_step].
  - destruct (ct_monitor s) as [m|] eqn:Em; [done|]. cbn [is_some]. intros [= <- <-]. cbn.
    destruct Hm as (_ & Hst & Hf). destruct (created online (ct_loadedAt s)) as (C1 & C2 & C3 & C4 & C5).
    rewrite Hst, Hf. by split_and!.
  - destruct (ct_monitor s) as [m|] eqn:Em; [|done]. destruct (net_step m e) as [m'|] eqn:En; [|done].
    cbn. intros [= <- <-]. cbn. destruct Hm as (Hr & Hst & Ha & Hl & Hf).
    destruct (net_step_attached _ _ _ _ En Ha) as (A1 & A2 & A3). split_and!; try done; try congruence.
    eapply mon_reachable_step; [done|by eapply net_step_mon].
  - destruct (ct_stopped s !! which) as [m|] eqn:Ew; [|done]. destruct (net_step m e) as [m'|] eqn:En; [|done].
    cbn. intros [= <- <-]. cbn. rewrite length_insert.
    pose proof (Forall_lookup_1 _ _ _ _ Hs Ew) as (Hr & Hst & Hl).
    destruct (net_step_silent _ _ _ En Hl) as (N1 & N2 & N3). rewrite heard_same by done. split.
    + destruct (ct_monitor s) as [k|]; [done|]. destruct Hm as (_ & E & _). by rewrite E in Ew.
    + apply Forall_insert; [done|]. split_and!; [|congruence|done].
      eapply mon_reachable_step; [done|by eapply net_step_mon].
  - destruct (ct_monitor s) as [m|] eqn:Em; [|done]. cbn [is_some negb].
    destruct (loadedAt =? ct_loadedAt s)%Z; [intros [= <- <-]; by rewrite Em|]. intros [= <- <-].
    unfold status_cleanup. rewrite Em. cbn. destruct Hm as (Hr & Hst & Ha & Hl & Hf).
    destruct (created online loadedAt) as (C1 & C2 & C3 & C4 & C5). rewrite Hf. cbn.
    split_and!; try done. constructor; [by eapply stopped_rests|done].
Qed.

Lemma status_run loadedAt tr s : run status_step (status_start loadedAt) tr s -> status_inv s.
Proof. apply run_invariant; [exact status_step_inv|]. by split. Qed.

Definition clock_at (t : Z) : jstring := formatClock (local_time t).1 (local_time t).2.

(** C27. The banner says what the monitor in force knows.  Whatever requests
    are made and however often the page is refreshed, it stands exactly while
    the browser is offline or two watched requests in a row have failed since
    the page on screen was brought, which is exactly while the probes run; it
    shows the later of the moment of that page and of the last answer since;
    a monitor of an earlier page runs no probe, and what comes back to it
    changes nothing; and a refresh that brings a page starts the count anew. *)
Theorem connection_banner loadedAt tr s :
  run status_step (status_start loadedAt) tr s ->
  (ct_monitor s = None -> ConnectionStatus s = None)
  /\ (forall m, ct_monitor s = Some m ->
       let shown := match mo_lastOkAt m with Some t => Z.max (ct_loadedAt s) t | None => ct_loadedAt s end in
       ConnectionStatus s
       = (if negb (mo_online m) || (2 <=? mo_failures m)%nat then Some (clock_at shown) else None)
       /\ mo_polling m = is_some (ConnectionStatus s))
  /\ Forall (fun m => mo_polling m = false) (ct_stopped s)
  /\ (forall which e s' out, status_step s (StatusLate which e) = Some (s', out) ->
       ConnectionStatus s' = ConnectionStatus s /\ ct_monitor s' = ct_monitor s)
  /\ (forall at_ online s' out, status_step s (StatusRefresh at_ online) = Some (s', out) ->
       at_ <> ct_loadedAt s -> ConnectionStatus s' = if online then None else Some (clock_at at_)).
Proof.
  intros [Hm Hs]%status_run. split_and!.
  - intros E. rewrite E in Hm. destruct Hm as [Hv _]. unfold ConnectionStatus. by rewrite Hv.
  - intros m E shown. rewrite E in Hm. destruct Hm as (Hr & Hst & [_ Hv] & Hl & _).
    destruct (mon_inv_reachable _ Hr) as [I1 I2]. unfold ConnectionStatus. rewrite I2, Hst, Hv, I1. cbn.
    unfold LOST_AFTER_FAILURES. subst shown. rewrite <-Hl.
    replace (match mo_lastOkAt m with Some t => if (mo_loadedAt m <? t)%Z then t else mo_loadedAt m | None => mo_loadedAt m end)
      with (match mo_lastOkAt m with Some t => Z.max (mo_loadedAt m) t | None => mo_loadedAt m end)
      by (destruct (mo_lastOkAt m) as [t|]; [|done]; destruct (Z.ltb_spec (mo_loadedAt m) t); lia).
    by destruct (negb (mo_online m) || _).
  - eapply Forall_impl; [exact Hs|]. intros m (Hr & Hst & _). destruct (mon_inv_reachable _ Hr) as [_ I2].
    by rewrite I2, Hst.
  - intros which e s' out. cbn [status_step]. destruct (ct_stopped s !! which) as [m|] eqn:Ew; [|done].
    destruct (net_step m e) as [m'|] eqn:En; [|done]. cbn. intros [= <- <-].
    pose proof (Forall_lookup_1 _ _ _ _ Hs Ew) as (_ & _ & Hl).
    destruct (net_step_silent _ _ _ En Hl) as (N1 & _ & _). unfold ConnectionStatus. cbn. by rewrite heard_same.
  - intros at_ online s' out. cbn [status_step]. destruct (ct_monitor s) as [m|] eqn:Em; [|done]. cbn [is_some negb].
    intros Hst Hne. apply Z.eqb_neq in Hne. rewrite Hne in Hst. injection Hst as <- _.
    unfold ConnectionStatus, status_effect. cbn [ct_view ct_loadedAt].
    destruct (created online at_) as (_ & _ & _ & _ & C5). rewrite C5. by destruct online.
Qed.
End Drawn.

(** Where stopping a monitor does not put back what it found: what it puts
    back is the [bind] of it, so each refresh leaves every request of the page
    one function deeper. *)
Theorem fetch_grows loadedAt tr s :
  run status_step (status_start loadedAt) tr s -> ct_monitor s <> None ->
  ct_fetch s = 2 + length (ct_stopped s).
Proof. intros [Hm _]%status_run Hne. destruct (ct_monitor s) as [m|]; [by destruct Hm as (_ & _ & _ & _ & Hf)|done]. Qed.

Definition sample_status : list status_event :=
  [ StatusMount true; StatusNet (StartWatched 0); StatusRefresh 60000 true; StatusNet GoesOffline;
    StatusLate 0 (Settles 0 (Responded 90000)) ].
Definition sample_clock (t : Z) : N * N := (0%N, Z.to_N (t / 60000)).

Lemma connection_banner_witness :
  exists tr s, run status_step (status_start 0) tr s /\ tr.*1 = sample_status
    /\ ConnectionStatus sample_clock s = Some (u "00:01").
Proof.
  destruct (exec status_step (status_start 0) sample_status) as [[s out]|] eqn:E; [|by vm_compute in E].
  assert (Hm : option_map (fun m =>
      if negb (mo_online m) || (2 <=? mo_failures m)%nat
      then Some (clock_at sample_clock (match mo_lastOkAt m with Some t => Z.max (ct_loadedAt s) t | None => ct_loadedAt s end))
      else None) (ct_monitor s) = Some (Some (u "00:01"))).
  { vm_compute in E. injection E as <- _. by vm_compute. }
  apply exec_run in E as (tr & Hr & He & _). exists tr, s.
  pose proof (connection_banner sample_clock 0 tr s Hr) as (_ & Hc & _).
  destruct (ct_monitor s) as [m|]; [|discriminate Hm]. destruct (Hc m eq_refl) as [-> _].
  injection Hm as H1. split_and!; [exact Hr|exact He|exact H1].
Defined.
