(* ===== verification/Consequences.v ===== *)
(** * Which consequences are checked (lib/tokens.ts: CONFIRM_CONSEQUENCE_KEYS;
      components/ui/confirm-dialog.tsx)

    A dialog throws rather than ask a naked question, and the keys a dialog
    may be given are listed so that both catalogues are checked ahead of
    time.  Here the list is held against the ledgers of Guards: what a
    command, a typed AT line or a card policy edit is asked with is on it. *)

From S2P Require Import Prelude JsString JsValue JsMap I18n Gateway SmsSafety Guards Confirm.

Definition CONFIRM_CONSEQUENCE_KEYS : list jstring :=
  [ u "device.usbnetWarning"; u "device.confirmConfigureApn"; u "device.confirmClaimCandidate";
    u "device.confirmRevokeCandidate"; u "device.confirmCreateModem"; u "device.confirmUnregister";
    u "device.confirmDisableProfile"; u "device.confirmDeleteProfile"; u "cards.confirmCellularOff";
    u "cards.confirmCellularOn"; u "cards.confirmVertical"; u "cards.confirmAdd";
    u "cards.confirmRemove"; u "cards.confirmCapabilityOff"; u "cards.confirmCapabilityOn";
    u "cards.confirmCapabilityClear"; u "proxy.confirmRemoveUpstream";
    u "proxy.confirmRemoveInstance"; u "proxy.confirmRemoveRule"; u "proxy.confirmStop";
    u "proxy.confirmRestart"; u "enroll.revokeWarning"; u "ledger.confirmPublish";
    u "settings.confirmTest"; u "settings.confirmSave"; u "settings.confirmSaveSecrets";
    u "inbox.confirmSend"; u "inbox.confirmDeleteMessage"; u "inbox.confirmDeleteThread";
    u "inbox.confirmForgetContact"; u "device.confirmRestartModem"; u "device.confirmResetModemUsb";
    u "device.confirmScanOperators"; u "device.confirmRotateIp"; u "device.confirmRadioOff";
    u "device.confirmDataOff"; u "device.confirmReregister"; u "device.confirmSelectOperator";
    u "device.confirmUssdSend"; u "device.confirmUssdReply"; u "device.confirmUsbnet";
    u "device.confirmUsbnetRmnet"; u "device.confirmUnknownCommand"; u "device.atGuardUsbnet";
    u "device.atGuardCfunReset"; u "device.atGuardCfunOff"; u "device.atGuardCops";
    u "device.atGuardCrsm"; u "device.atGuardCsim"; u "device.atGuardChannel";
    u "device.atGuardNvram"; u "esim.confirmSwitch"; u "esim.dlWarn" ].

Definition CONFIRM_LABEL_KEYS : list jstring :=
  [u "confirm.question"; u "confirm.proceed"; u "confirm.cancel"].

(** What [ConfirmDialog] draws, once its consequence is accepted. *)
Record dialog_drawn := {
  dd_open : bool;
  dd_title : jstring;
  dd_consequence : jstring;
  dd_question : jstring;
  dd_cancel : jstring;
  dd_proceed : jstring;
  dd_disabled : bool;
}.

Record ConfirmLabels := { cl_question : jstring; cl_proceed : jstring; cl_cancel : jstring }.

Definition ConfirmDialog (open : bool) (title consequence : jstring) (labels : ConfirmLabels)
    (confirmLabel : option jstring) (busy : option bool) : res dialog_drawn :=
  _ ← assertConsequence consequence;
  Ok {| dd_open := open; dd_title := title; dd_consequence := consequence;
        dd_question := cl_question labels; dd_cancel := cl_cancel labels;
        dd_proceed := default (cl_proceed labels) confirmLabel;
        dd_disabled := default false busy |}.


(** ** The ledgers are on the list *)

Definition listed (key : jstring) : bool := existsb (jeqb key) CONFIRM_CONSEQUENCE_KEYS.

Definition guard_listed (g : CommandGuard) : bool :=
  match cg_consequence g with Some key => listed key | None => true end.

Section Listed.
Context `{ToString}.

Lemma ledger_listed :
  forallb (fun e => forallb (fun v => guard_listed (gv_guard v)) e.2) DEVICE_COMMAND_GUARDS = true
  /\ forallb (fun g => listed (ag_consequence g)) AT_COMMAND_GUARDS = true
  /\ listed UNKNOWN_COMMAND = true.
Proof. split_and!; by vm_compute. Qed.

(** Whatever is asked about, what is said is on the list. *)
Lemma deviceCommandGuard_listed kind payload g :
  deviceCommandGuard kind payload = Ok g -> guard_listed g = true.
Proof.
  destruct ledger_listed as (Hd & Ha & Hu). unfold deviceCommandGuard.
  assert (Hv : forall k variants, field k DEVICE_COMMAND_GUARDS = Some variants ->
            forallb (fun v => guard_listed (gv_guard v)) variants = true).
  { intros k variants Hf. rewrite List.forallb_forall in Hd. apply (Hd (k, variants)).
    clear Hd. induction DEVICE_COMMAND_GUARDS as [|[k' v'] l IH]; [done|]. cbn in Hf.
    destruct (jeqb k k') eqn:E; [apply jeqb_eq in E; simplify_eq; by left|right; by apply IH]. }
  assert (Hun : forall why, guard_listed {| cg_consequence := Some UNKNOWN_COMMAND; cg_why := why |} = true) by done.
  destruct (jeqb kind (u "run_at_command")).
  - destruct (atCommandGuard _) as [guard|] eqn:Eg.
    + intros E. injection E as <-. unfold guard_listed. cbn [cg_consequence].
      unfold atCommandGuard in Eg. apply List.find_some in Eg as [Hin _].
      rewrite List.forallb_forall in Ha. by apply Ha.
    + destruct (field (u "run_at_command") DEVICE_COMMAND_GUARDS) as [[|v l]|] eqn:Ef; [done| |done].
      intros E. injection E as <-. apply Hv in Ef. cbn [forallb] in Ef. by apply andb_prop in Ef as [? _].
  - unfold table_read. destruct (field kind DEVICE_COMMAND_GUARDS) as [variants|] eqn:Ef.
    + intros E. injection E as <-. destruct (List.find _ variants) as [v|] eqn:Ev; [|apply Hun].
      apply List.find_some in Ev as [Hin _]. apply Hv in Ef. rewrite List.forallb_forall in Ef. by apply Ef.
    + destruct (existsb _ _); [done|]. intros E. injection E as <-. apply Hun.
Qed.

(** C20. A dialog is never refused its words.  If every consequence on the
    list is one in both catalogues, which is what is checked ahead of time,
    then whatever command, typed AT line or card policy edit has to be asked
    about, in either language, the dialog is drawn, and it draws that
    consequence. *)
Theorem dialog_never_refused inherited_text catalogs locale labels title busy :
  (forall key, key ∈ CONFIRM_CONSEQUENCE_KEYS ->
     forall l, consequenceProblem (t inherited_text catalogs key l None) = None) ->
  (forall kind payload g key, deviceCommandGuard kind payload = Ok g -> cg_consequence g = Some key ->
     exists d, ConfirmDialog true title (t inherited_text catalogs key locale None) labels None busy = Ok d
       /\ dd_consequence d = t inherited_text catalogs key locale None)
  /\ forall edit g, cardPolicyGuardFor edit = Some g ->
     exists d, ConfirmDialog true title (t inherited_text catalogs (CARD_POLICY_CONFIRMATIONS g).2 locale None)
                 labels None busy = Ok d.
Proof.
  intros Hc.
  assert (Hd : forall key, listed key = true -> exists d,
    ConfirmDialog true title (t inherited_text catalogs key locale None) labels None busy = Ok d
    /\ dd_consequence d = t inherited_text catalogs key locale None).
  { intros key Hk. apply existsb_elem in Hk as (k & Hk & <-%jeqb_eq). eexists. unfold ConfirmDialog, assertConsequence.
    by rewrite (Hc _ Hk). }
  split.
  - intros kind payload g key Hg Hk. apply deviceCommandGuard_listed in Hg. unfold guard_listed in Hg.
    rewrite Hk in Hg. by apply Hd.
  - intros edit g _. destruct (Hd (CARD_POLICY_CONFIRMATIONS g).2) as (d & E & _); [by destruct g|by exists d].
Qed.
End Listed.

Definition sample_catalog (l : Locale) : list (jstring * jstring) :=
  (fun key => (key, match l with en => u "The module loses its network until it is restarted."
                            | zh => u "模组会离网，直到有人把它重新启动为止，期间收不到短信。" end))
    <$> CONFIRM_CONSEQUENCE_KEYS.

Lemma dialog_never_refused_witness :
  exists d, ConfirmDialog true (u "Restart") (t (fun _ => []) sample_catalog (u "device.confirmRestartModem") zh None)
    {| cl_question := u "q"; cl_proceed := u "p"; cl_cancel := u "c" |} None None = Ok d.
Proof.
  destruct (@dialog_never_refused sample_to_string (fun _ => []) sample_catalog zh
    {| cl_question := u "q"; cl_proceed := u "p"; cl_cancel := u "c" |} (u "Restart") None) as [Hk _].
  - assert (Hall : forallb (fun key => forallb (fun l => bool_decide
        (consequenceProblem (t (fun _ => []) sample_catalog key l None) = None)) [zh; en]) CONFIRM_CONSEQUENCE_KEYS = true)
      by (by vm_compute).
    intros key Hin l. rewrite List.forallb_forall in Hall. apply list_elem_of_In, Hall in Hin.
    cbn [forallb] in Hin. apply andb_prop in Hin as [Hz Hin]. apply andb_prop in Hin as [He _].
    destruct l; [by apply bool_decide_eq_true in Hz|by apply bool_decide_eq_true in He].
  - destruct (Hk (u "restart_modem") (VObj []) {| cg_consequence := Some (u "device.confirmRestartModem");
      cg_why := cg_why (match @deviceCommandGuard sample_to_string (u "restart_modem") (VObj []) with
                        | Ok g => g | Throw _ => {| cg_consequence := None; cg_why := [] |} end) |}
      (u "device.confirmRestartModem")) as (d & Hd & _); [by vm_compute|done|by exists d].
Defined.
