(* ===== verification/ServiceWorker.v ===== *)
(** * The service worker (public/sw.js)

    What it keeps and what it answers.  The caches are the browser's: named
    stores, searched in the order they were opened in.  The network is a
    function of the request, or no answer. *)

From Stdlib Require Import Lia.
From S2P Require Import Prelude JsString JsValue JsMap Component.

Definition CACHE : jstring := u "vodoge-shell-v4".
Definition OFFLINE_URL : jstring := u "/offline.html".

Record sw_request := {
  rq_method : jstring;
  rq_url : jstring;
  rq_navigate : bool;                  (** [request.mode === "navigate"] *)
}.

Record sw_response := { rs_status : Z; rs_body : jstring }.

(** A store: a response under each URL. *)
Abbreviation store := (list (jstring * sw_response)).
Definition caches := (list (jstring * store)).

(** [caches.match(request)]: the first store that has it. *)
Fixpoint caches_match (url : jstring) (cs : caches) : option sw_response :=
  match cs with
  | [] => None
  | (_, s) :: cs => match field url s with Some r => Some r | None => caches_match url cs end
  end.

(** [caches.open(name).then((cache) => cache.put(url, response))]. *)
Definition cache_put (name url : jstring) (r : sw_response) (cs : caches) : caches :=
  map_set name (map_set url r (default [] (field name cs))) cs.

Section Worker.
(** [new URL(request.url).pathname]. *)
Variable pathname : jstring -> jstring.
(** The URL a path of this origin has. *)
Variable absolute : jstring -> jstring.

(** [cache.addAll(urls)]: all of them, each answered well, or none. *)
Definition addAll (network : jstring -> option sw_response) (urls : list jstring) (cs : caches)
    : res caches :=
  found ← res_map (fun path =>
            match network (absolute path) with
            | Some r => if ok_status (rs_status r) then Ok (absolute path, r) else Throw TypeError
            | None => Throw TypeError
            end) urls;
  Ok (fold_left (fun cs kv => cache_put CACHE kv.1 kv.2 cs) found cs).

Definition PRECACHED : list jstring := [OFFLINE_URL; u "/icon.svg"].

Definition sw_install (network : jstring -> option sw_response) (cs : caches) : res caches :=
  addAll network PRECACHED
    (match field CACHE cs with Some _ => cs | None => map_set CACHE [] cs end).

Definition sw_activate (cs : caches) : caches :=
  List.filter (fun kv => jeqb kv.1 CACHE) cs.

(** What becomes of a request: the browser makes it as if there were no
    worker, or the worker answers it, perhaps with an error. *)
Inductive sw_answer :=
  | NotHandled
  | Responded (r : option sw_response).

Definition is_api (path : jstring) : bool :=
  startsWith path (u "/api/") || startsWith path (u "/v1/").
Definition is_static (path : jstring) : bool :=
  startsWith path (u "/_next/static/") || jeqb path (u "/icon.svg").

Definition sw_fetch (network : jstring -> option sw_response) (request : sw_request) (cs : caches)
    : sw_answer * caches :=
  let path := pathname (rq_url request) in
  if negb (jeqb (rq_method request) (u "GET")) then (NotHandled, cs)
  else if is_api path then (NotHandled, cs)
  else if rq_navigate request then
    (Responded (match network (rq_url request) with
                | Some r => Some r
                | None => caches_match (absolute OFFLINE_URL) cs
                end), cs)
  else if is_static path then
    match caches_match (rq_url request) cs with
    | Some hit => (Responded (Some hit), cs)
    | None =>
        match network (rq_url request) with
        | Some r => (Responded (Some r), cache_put CACHE (rq_url request) r cs)
        | None => (Responded None, cs)
        end
    end
  else (NotHandled, cs).

(** ** The worker over time *)

Inductive sw_event :=
  | SwInstall (network : jstring -> option sw_response)
  | SwActivate
  | SwFetch (network : jstring -> option sw_response) (request : sw_request).

Definition sw_step (cs : caches) (e : sw_event) : option (caches * list sw_answer) :=
  match e with
  | SwInstall network =>
      match sw_install network cs with Ok cs' => Some (cs', []) | Throw _ => None end
  | SwActivate => Some (sw_activate cs, [])
  | SwFetch network request =>
      let '(answer, cs') := sw_fetch network request cs in Some (cs', [answer])
  end.

(** ** Properties *)

(** Only the shell is ever kept. *)
Definition kept_ok (url : jstring) : Prop :=
  is_static (pathname url) = true \/ url = absolute OFFLINE_URL \/ url = absolute (u "/icon.svg").
Definition caches_ok (cs : caches) : Prop :=
  forall name s url r, field name cs = Some s -> field url s = Some r -> kept_ok url.

Lemma cache_put_ok name url r cs : caches_ok cs -> kept_ok url -> caches_ok (cache_put name url r cs).
Proof.
  intros Hc Hu n s k r' Hs Hk. unfold cache_put in Hs.
  destruct (decide (n = name)) as [->|Hn].
  - rewrite map_get_set_eq in Hs. injection Hs as <-.
    destruct (decide (k = url)) as [->|Hku]; [done|]. rewrite map_get_set_ne in Hk by done.
    destruct (field name cs) as [s0|] eqn:E; [|done]. by eapply Hc.
  - rewrite map_get_set_ne in Hs by done. by eapply Hc.
Qed.

Lemma caches_match_some url cs r :
  NoDup cs.*1 -> caches_match url cs = Some r -> exists name s, field name cs = Some s /\ field url s = Some r.
Proof.
  induction cs as [|[n s] cs IH]; [done|]. rewrite fmap_cons, NoDup_cons. intros [Hn Hd] Hm. cbn in Hm.
  destruct (field url s) as [r'|] eqn:E.
  - injection Hm as <-. exists n, s. cbn. by rewrite (proj2 (jeqb_eq n n) eq_refl).
  - destruct (IH Hd Hm) as (n' & s' & Hf & Hr). exists n', s'. split; [|done]. cbn.
    destruct (jeqb n' n) eqn:En; [|done]. apply jeqb_eq in En. subst n'. destruct Hn.
    apply (map_get_elem n) in Hf; [|done]. apply list_elem_of_fmap. by exists (n, s').
Qed.

Definition sw_inv (cs : caches) : Prop := NoDup cs.*1 /\ caches_ok cs.

Lemma sw_inv_put url r cs : sw_inv cs -> kept_ok url -> sw_inv (cache_put CACHE url r cs).
Proof. intros [Hn Hc] Hu. split; [by apply map_set_NoDup|by apply cache_put_ok]. Qed.

Lemma sw_step_inv cs e cs' out : sw_inv cs -> sw_step cs e = Some (cs', out) -> sw_inv cs'.
Proof.
  intros Hi. destruct e as [network| |network request]; cbn [sw_step].
  - unfold sw_install, addAll.
    destruct (res_map _ PRECACHED) as [found|err] eqn:Ef; [|done]. cbn. intros [= <- <-].
    assert (Hk : Forall (fun kv => kept_ok kv.1) found).
    { apply res_map_ok in Ef. unfold PRECACHED in Ef.
      apply Forall2_cons_inv_l in Ef as (k1 & l1 & H1 & Ef & ->).
      apply Forall2_cons_inv_l in Ef as (k2 & l2 & H2 & Ef & ->). apply Forall2_nil_inv_l in Ef as ->.
      repeat (apply Forall_cons; split); [..|constructor];
        repeat case_match; simplify_eq; cbn; unfold kept_ok; auto. }
    assert (H0 : sw_inv (match field CACHE cs with Some _ => cs | None => map_set CACHE [] cs end)).
    { destruct (field CACHE cs) eqn:E; [done|]. destruct Hi as [Hn Hc]. split; [by apply map_set_NoDup|].
      intros n s k r Hs Hr. destruct (decide (n = CACHE)) as [->|Hne].
      - rewrite map_get_set_eq in Hs. by injection Hs as <-.
      - rewrite map_get_set_ne in Hs by done. by eapply Hc. }
    revert H0. clear Ef. generalize (match field CACHE cs with Some _ => cs | None => map_set CACHE [] cs end).
    induction Hk as [|kv found Hkv _ IH]; intros cs0 H0; [done|]. apply (IH (cache_put CACHE kv.1 kv.2 cs0)), sw_inv_put; done.
  - intros [= <- <-]. destruct Hi as [Hn Hc]. unfold sw_activate. split.
    + clear Hc. induction cs as [|[n s] cs IH]; [done|]. rewrite fmap_cons, NoDup_cons in Hn. destruct Hn as [Hx Hn].
      cbn [List.filter fst]. destruct (jeqb n CACHE); [|by apply IH]. rewrite fmap_cons, NoDup_cons. split; [|by apply IH].
      intros (kv & E & Hkv)%list_elem_of_fmap. apply Hx. apply elem_of_filter_bool in Hkv as [Hkv _].
      apply list_elem_of_fmap. by exists kv.
    + intros n s k r Hs Hr. apply (Hc n s k r); [|done]. clear -Hs. induction cs as [|[n' s'] cs IH]; [done|].
      cbn [List.filter fst] in Hs. cbn [field]. destruct (jeqb n' CACHE) eqn:E; cbn [field] in Hs.
      * destruct (jeqb n n'); [done|]. by apply IH.
      * destruct (jeqb n n') eqn:En; [|by apply IH]. apply jeqb_eq in En. subst n'. exfalso.
        assert (Hnone : forall l : caches, field n (List.filter (fun kv => jeqb kv.1 CACHE) l) = None).
        { induction l as [|[m t] l IHl]; [done|]. cbn [List.filter fst]. destruct (jeqb m CACHE) eqn:Em; [|done].
          cbn [field]. destruct (jeqb n m) eqn:Enm; [|done]. apply jeqb_eq in Enm. subst m. by rewrite Em in E. }
        by rewrite Hnone in Hs.
  - destruct (sw_fetch network request cs) as [answer cs1] eqn:Ef. intros [= <- <-]. revert Ef. unfold sw_fetch.
    repeat case_match; intros E; simplify_eq; try done. apply sw_inv_put; [done|]. left. done.
Qed.

(** Once installed, the offline page stays kept. *)
Definition has_offline (cs : caches) : Prop :=
  exists s r, field CACHE cs = Some s /\ field (absolute OFFLINE_URL) s = Some r.

Lemma has_offline_put url r cs : has_offline cs -> has_offline (cache_put CACHE url r cs).
Proof.
  intros (s & r0 & Hs & Hr). unfold has_offline, cache_put. rewrite Hs. cbn [default from_option id].
  exists (map_set url r s). pose proof (map_get_set_eq CACHE (map_set url r s) cs) as E. unfold map_get in E.
  destruct (decide (absolute OFFLINE_URL = url)) as [->|Hne].
  - exists r. split; [exact E|]. apply (map_get_set_eq url).
  - exists r0. split; [exact E|]. by rewrite <-Hr; apply (map_get_set_ne _ url).
Qed.

Lemma has_offline_match cs : has_offline cs -> is_Some (caches_match (absolute OFFLINE_URL) cs).
Proof.
  intros (s & r & Hs & Hr). induction cs as [|[n s'] cs IH]; [done|]. cbn [field] in Hs. cbn [caches_match].
  destruct (jeqb CACHE n); [injection Hs as ->; by rewrite Hr|].
  destruct (field _ s'); [by eexists|by apply IH].
Qed.

Lemma install_has_offline network cs cs' : sw_install network cs = Ok cs' -> has_offline cs'.
Proof.
  unfold sw_install, addAll. generalize (match field CACHE cs with Some _ => cs | None => map_set CACHE [] cs end).
  intros cs0. cbn [res_map PRECACHED].
  destruct (network (absolute OFFLINE_URL)) as [r1|]; [|done]. destruct (ok_status (rs_status r1)); [|done].
  destruct (network (absolute (u "/icon.svg"))) as [r2|]; [|done]. cbn [mbind res_bind].
  destruct (ok_status (rs_status r2)); [|done]. cbn [mbind res_bind fold_left fst snd]. intros [= <-].
  apply has_offline_put. unfold has_offline. do 2 eexists. split; [apply (map_get_set_eq CACHE)|].
  apply (map_get_set_eq (absolute OFFLINE_URL)).
Qed.

Lemma sw_step_offline cs e cs' out : has_offline cs -> sw_step cs e = Some (cs', out) -> has_offline cs'.
Proof.
  intros Hi. destruct e as [network| |network request]; cbn [sw_step].
  - destruct (sw_install network cs) eqn:E; [|done]. intros [= <- <-]. by eapply install_has_offline.
  - intros [= <- <-]. destruct Hi as (s & r & Hs & Hr). exists s, r. split; [|done]. unfold sw_activate.
    clear Hr. induction cs as [|[n s'] cs IH]; [done|]. cbn [List.filter fst field] in *.
    destruct (jeqb CACHE n) eqn:E.
    + apply jeqb_eq in E as <-. rewrite jeqb_refl. cbn [field]. by rewrite jeqb_refl.
    + destruct (jeqb n CACHE); [|by apply IH]. cbn [field]. rewrite E. by apply IH.
  - destruct (sw_fetch network request cs) as [answer cs1] eqn:Ef. intros [= <- <-]. revert Ef. unfold sw_fetch.
    repeat case_match; intros E; simplify_eq; try done. by apply has_offline_put.
Qed.

Lemma sw_run_offline cs tr cs' network :
  run sw_step cs tr cs' -> (SwInstall network, []) ∈ tr -> has_offline cs'.
Proof.
  induction 1 as [cs|cs e cs1 out tr cs2 Hs Hr IH]; [by intros ?%elem_of_nil|].
  intros [[= <- <-]|Hin]%elem_of_cons; [|by apply IH].
  apply (run_invariant sw_step has_offline _ _ _) in Hr; [done|exact sw_step_offline|].
  cbn [sw_step] in Hs. destruct (sw_install network cs) eqn:E; [|done]. injection Hs as <-.
  by eapply install_has_offline.
Qed.

Hypothesis absolute_path : forall path, pathname (absolute path) = path.

(** C26. The worker never answers for the fleet.  However it was installed,
    activated and asked before, a request that changes something or reads the
    gateway is left to the browser and leaves nothing behind; nothing of the
    gateway is ever in its stores; a page is answered by the network whenever
    the network answers, and otherwise by the offline page once installed; and
    what is answered from a store was kept under the very URL asked for, and
    is a build asset, the icon or the offline page. *)
Theorem worker_keeps_shell tr cs network request :
  run sw_step [] tr cs ->
  let path := pathname (rq_url request) in
  let answer := (sw_fetch network request cs).1 in
  (rq_method request <> u "GET" \/ is_api path = true -> sw_fetch network request cs = (NotHandled, cs))
  /\ (forall url, is_api (pathname url) = true -> caches_match url cs = None)
  /\ (forall r, rq_navigate request = true -> network (rq_url request) = Some r ->
       answer = NotHandled \/ answer = Responded (Some r))
  /\ (rq_navigate request = true -> network (rq_url request) = None ->
       answer = NotHandled \/ answer = Responded (caches_match (absolute OFFLINE_URL) cs))
  /\ (forall installed, (SwInstall installed, []) ∈ tr -> is_Some (caches_match (absolute OFFLINE_URL) cs))
  /\ (forall r, answer = Responded (Some r) -> network (rq_url request) <> Some r ->
       (rq_navigate request = true /\ caches_match (absolute OFFLINE_URL) cs = Some r)
       \/ (is_static path = true /\ caches_match (rq_url request) cs = Some r)).
Proof.
  intros Hr path answer. assert (Hi : sw_inv cs).
  { clear -Hr. apply (run_invariant sw_step sw_inv _ _ _) in Hr; [done|exact sw_step_inv|].
    split; [by apply NoDup_nil_2|by intros ????]. }
  destruct Hi as [Hn Hc]. subst answer. unfold sw_fetch. fold path. split_and!.
  - intros [Hm|Ha].
    + apply jeqb_neq in Hm. by rewrite Hm.
    + rewrite Ha. by destruct (negb _).
  - intros url Ha. destruct (caches_match url cs) as [r|] eqn:E; [|done]. exfalso.
    apply caches_match_some in E as (name & s & Hs & Hk); [|done].
    assert (Hno : forall p, startsWith p (u "/_next/static/") || jeqb p (u "/icon.svg") || jeqb p OFFLINE_URL = true ->
      is_api p = false).
    { intros p Hp. unfold is_api. apply orb_true_iff in Hp as [Hp|Hp]; [apply orb_true_iff in Hp as [Hp|Hp]|].
      - apply startsWith_spec in Hp as (rest & Hp). by rewrite Hp.
      - apply jeqb_eq in Hp. by subst p.
      - apply jeqb_eq in Hp. by subst p. }
    destruct (Hc _ _ _ _ Hs Hk) as [Hst|[-> | -> ]].
    + rewrite Hno in Ha; [done|]. unfold is_static in Hst. by rewrite Hst.
    + rewrite absolute_path in Ha. by vm_compute in Ha.
    + rewrite absolute_path in Ha. by vm_compute in Ha.
  - intros r Hnav Hnet. rewrite Hnav, Hnet. destruct (negb _); [by left|]. destruct (is_api path); [by left|by right].
  - intros Hnav Hnet. rewrite Hnav, Hnet. destruct (negb _); [by left|]. destruct (is_api path); [by left|by right].
  - intros installed Hin. by eapply has_offline_match, sw_run_offline.
  - intros r. destruct (negb _); [done|]. destruct (is_api path); [done|]. destruct (rq_navigate request).
    + cbn. destruct (network (rq_url request)) as [r'|]; cbn; intros E Hne.
      * injection E as ->. done.
      * injection E as ->. by left.
    + destruct (is_static path); [|done].
      destruct (caches_match (rq_url request) cs) as [hit|]; cbn; intros E Hne; [by injection E as <-; right|].
      destruct (network (rq_url request)) as [r'|]; cbn in E; [by injection E as ->|done].
Qed.
End Worker.

(** Where the worker's comment ("content-hashed, so serving it from cache is
    safe") does not cover it: the answer kept for an asset is the first one
    there is, whatever its status, and it is served from then on with the
    network back. *)
Theorem error_kept_for_good pathname absolute network network' request cs r :
  rq_method request = u "GET" -> rq_navigate request = false ->
  is_api (pathname (rq_url request)) = false -> is_static (pathname (rq_url request)) = true ->
  cs.*1 = [CACHE] -> caches_match (rq_url request) cs = None -> network (rq_url request) = Some r ->
  sw_fetch pathname absolute network' request (sw_fetch pathname absolute network request cs).2
  = (Responded (Some r), (sw_fetch pathname absolute network request cs).2).
Proof.
  intros Hm Hnav Ha Hs Hk Hc Hn. unfold sw_fetch. rewrite Hm, Hnav, Ha, Hs, Hc, Hn.
  change (negb (jeqb (u "GET") (u "GET"))) with false. cbv iota. cbn [snd].
  destruct cs as [|[name s] [|? ?]]; try done. cbn in Hk. injection Hk as ->.
  unfold cache_put. cbn [map_set field caches_match]. rewrite jeqb_refl. cbn [default from_option id].
  pose proof (map_get_set_eq (rq_url request) r s) as E. unfold map_get in E. cbn [caches_match]. by rewrite E.
Qed.

Definition sample_network (url : jstring) : option sw_response := Some {| rs_status := 200; rs_body := url |}.
Definition sample_page : sw_request :=
  {| rq_method := u "GET"; rq_url := u "/devices"; rq_navigate := true |}.

Lemma worker_keeps_shell_witness :
  exists cs, run (sw_step id id) [] [(SwInstall sample_network, [])] cs
    /\ (sw_fetch id id (fun _ => None) sample_page cs).1
       = Responded (Some {| rs_status := 200; rs_body := OFFLINE_URL |})
    /\ caches_match (u "/v1/modems") cs = None.
Proof.
  eexists. assert (Hr : run (sw_step id id) [] [(SwInstall sample_network, [])]
    match sw_install id sample_network [] with Ok cs => cs | Throw _ => [] end).
  { eapply run_cons; [reflexivity|constructor]. }
  split; [exact Hr|].
  destruct (worker_keeps_shell id id (fun _ => eq_refl) _ _ (fun _ => None) sample_page Hr) as (_ & Hno & _ & Hoff & _).
  split; [|by apply Hno; vm_compute].
  destruct (Hoff eq_refl eq_refl) as [E|E]; [by vm_compute in E|]. rewrite E. by vm_compute.
Defined.
